(* ===== verification/_CoqProject ===== *)
-Q . S2P
Prelude.v
JsString.v
JsNumber.v
JsDate.v
Ranking.v
DashboardUtils.v
Controls.v
TeamCsv.v
UrlParams.v
ApiUtils.v
Io.v
ApiHandler.v
RealtimeProxy.v
SessionToken.v
Session.v
PlatformApi.v
PlatformRoutes.v
AdminApi.v
AdminRoutes.v
ReactRuntime.v
ReactRules.v
ReactMark.v
ReactTermination.v
Forms.v
AttackHighlights.v
DashboardTypes.v
ParticipantForms.v
ParticipantShell.v
ControlCenter.v
ServiceCards.v
ControlCenterPage.v
CenterControls.v
Tier.v
ServiceTier.v
FlagTier.v
AdminTypes.v
ScoringLeaders.v
Appearance.v
Scoreboard.v
AttackSlice.v
AttackMapPanel.v
AttackMap.v
Showcase.v
GlobeView.v
GlobeMotion.v
GlobeKeyboard.v
AttackSfx.v
OrganizerPanels.v
DashboardData.v
AuditPage.v
OrganizerState.v
Drafts.v
Organizer.v
OrganizerPage.v
OrganizerQuiet.v
OrganizerRows.v
OrganizerActions.v
OrganizerForms.v
RuntimeTier.v
RuntimeHealth.v
Evidence.v
Prometheus.v
Exposition.v
OrganizerDrafts.v
OrganizerGame.v
GameCards.v
OrganizerControls.v
ApiCalls.v
DashboardCalls.v
CenterCalls.v
Pages.v
ParticipantPages.v
OrganizerPages.v
SitePages.v
