(* ===== verification/Prelude.v ===== *)
(** * ADTickPlatform web tier: verification library

    The program under [src/apps/web] is the web tier of an attack/defence
    competition platform: a Next.js application whose route handlers sit between
    the browser and the platform's services, and whose dashboards are React hooks
    that call those routes and listen to streams.  This library models its
    TypeScript code and proves what makes it correct.

    ** Parts and files

    Foundations:
    - [Prelude], [JsString], [JsNumber]: this header; the list, string and number
      operations of JavaScript the code uses (trim, split, parseInt, Number,
      String of a safe integer, [??], [||]).
    - [DashboardUtils] ([lib/dashboard-utils.ts]), [TeamCsv] ([lib/team-csv.ts]),
      [UrlParams] (URLSearchParams).

    The server side, programs of the effect [Io] (one constructor per call to a
    service, [run] against a function that answers):
    - [ApiUtils] ([lib/api-utils.ts]), [ApiHandler] ([lib/api-handler.ts],
      [lib/participant-session-cookie.ts]), [RealtimeProxy]
      ([lib/realtime-proxy.ts]), [SessionToken] ([lib/session-token.ts]),
      [Session] ([lib/session-validation.ts], [proxy.ts]);
    - [PlatformApi] and [PlatformRoutes] ([lib/platform-api.ts], [app/api/platform]),
      [AdminApi] and [AdminRoutes] ([lib/admin-api.ts], [app/api/admin]).

    The client side, programs of [ReactRuntime] (state setters, refs, calls,
    [Promise.all], promises not awaited) over the cells of a hook, which the class
    [App] declares:
    - [AdminTypes] ([lib/admin-dashboard-types.ts]), [OrganizerState] and
      [Organizer] ([components/admin/use-organizer-dashboard.ts]);
    - [OrganizerPage], [OrganizerQuiet], [OrganizerRows]: the page under any
      interleaving of its handlers; [OrganizerActions], [OrganizerForms],
      [OrganizerGame]: what each handler does.
    - [ReactRules], [ReactTermination], [ReactMark]: rules of the runtime for one
      handler run alone, the measure by which threads end, and the mark that one
      handler at a time holds;
    - [AttackHighlights] ([components/hooks/use-attack-highlights.ts]), the hook of
      both dashboards;
    - [DashboardTypes] ([lib/dashboard-types.ts]), [ControlCenter] and
      [ControlCenterPage] ([components/dashboard/use-control-center.ts]): the
      participants' dashboard, its handlers and its page under any interleaving.

    The two sides together:
    - [Tier] ([proxy.ts], [app/api]): a request of a page through the proxy and
      the route of its path, and the reply as the page reads it; [ServiceTier] and
      [RuntimeTier]: the service actions of the participants and the runtime
      actions of the organizers, from the button to the platform and back.

    The smaller hooks and panels, on the same runtime or as states and events:
    - [Forms], [ParticipantForms] ([participant-login-form.tsx],
      [participant-join-team-form.tsx], [flag-submit-panel.tsx],
      [participant-account-settings.tsx]): the shape the forms share, and the forms;
      [FlagTier]: a batch of flags from the text area to the platform and back;
    - [ParticipantShell] ([announcement-banner.tsx], [match-readiness.tsx],
      [onboarding-checklist.tsx], [participant-shell.tsx]): the shared cache of the
      banners, the checklist, what is offered to whom;
    - [OrganizerPanels] (announcements, import, trusted state, settings, export and
      the freeze of the scoreboard, under [components/admin]);
    - [Appearance] ([lib/appearance.ts], [appearance-controls.tsx],
      [app/layout.tsx]) and [AttackSfx] ([components/hooks/use-attack-sfx.ts]):
      choices kept in cookies and in the storage, and who follows them.

    The scoreboard and the attack map:
    - [Ranking], [Scoreboard] ([components/ui/scoreboard-table.tsx]): columns,
      sorting, ranks;
    - [AttackSlice], [AttackMapPanel] ([components/ui/attack-map-panel.tsx]): the
      slice of the map, its playback and its highlights;
    - [AttackMap], [Showcase], [GlobeView] ([components/ui/cyber-attack-map.tsx]):
      routes and places of the attacks; the timers that turn the showcase; the
      geometry of the globe, its labels, arcs and outlines, over exact rationals;
    - [GlobeMotion], [GlobeKeyboard] (same file): the rotation, by drags and by turns
      frame by frame, as a refinement of the showcase; what the keyboard reaches.

    What the pages show, as functions of the data:
    - [ServiceCards] ([components/dashboard/control-center-sections.tsx],
      [service-sla-detail.tsx]): locks, action bar, checker state, match clock;
    - [DashboardData] ([lib/dashboard-data.ts], [lib/admin-dashboard-data.ts],
      [lib/promise-utils.ts]): the loads of both dashboards, call by call;
    - [ScoringLeaders] ([lib/scoring-leaders.ts]);
    - [Drafts], [OrganizerDrafts]: the validation of the organizers' dialogs
      ([components/admin/organizer-dashboard-sections.tsx]) and its composition with
      the handler that sends the draft;
    - [RuntimeHealth] (same file), [Evidence]
      ([app/api/admin/runtime-health/report]), [Prometheus] ([lib/admin-api.ts],
      [getAdminOperationsMetrics]): health, report and metrics of the runtime;
      [Exposition] ([internal/platform/httpapi/metrics.go],
      [services/wireguard-gateway/metrics.go]): what a service writes, line by line;
    - [AuditPage] ([app/admin/audit/page.tsx]): filters, numbers and links of the
      audit log, with the paging of the gateway
      ([internal/services/apigateway/server_admin.go], [store_postgres.go]);
    - [JsDate], [GameCards] ([components/admin/organizer-dashboard-sections.tsx]):
      dates of the language, in a zone that is a parameter with its laws; the drafts of
      the match window and of the scheduler's interval, and what they send;
    - [OrganizerControls] ([components/admin/organizer-dashboard.tsx],
      [organizer-dashboard-sections.tsx], [components/ui/paged-filter-controls.tsx]):
      the buttons and fields of the organizers' pages, when they are enabled, what they
      spin for and which event of [Organizer] they start;
    - [Controls] ([components/ui/paged-filter-controls.tsx]) and [CenterControls]
      ([components/dashboard/control-center.tsx], [control-center-sections.tsx]): the
      same of the participants' pages and [ControlCenter];
    - [Pages] ([app/login/page.tsx], [app/admin/layout.tsx],
      [organizer-status-summary.tsx], [lib/repo-docs.ts], [lib/date-format.ts]): the
      gates of the pages behind the proxy, the pages that moved, a browser that follows
      redirections, the refresh of the summary, documents and dates;
    - [ParticipantPages] and [OrganizerPages] ([app/**/page.tsx],
      [components/dashboard/participant-shell.tsx],
      [components/admin/organizer-shell.tsx]): what each page asks its loader for, the tab
      it opens, its cards and links; [SitePages] puts them behind their gates;
    - [ApiCalls] ([app/api]), with [DashboardCalls] and [CenterCalls]: the table of the
      routes, and every request of the two hooks against it.

    ** How the parts meet

    A dashboard handler performs [OpFetch] on a path of [app/api]; the route of
    that path reads the session ([Session], [SessionToken]), calls a service
    through the client of its side ([PlatformApi], [AdminApi], whose requests are
    built by [ApiUtils]) and answers through [ApiHandler]; the dashboard decodes
    the answer with the same [processApiResponse].  The services themselves are
    parameters: the function that answers an [Io] program, the oracle that answers
    a client program.

    ** What the theorems show

    - Security of the edge: organizer routes need a cookie that verifies and that
      the API vouches for; signatures, expiry and constant-time comparison;
      cross-site mutations are refused before any call; every call of a client
      carries the token of its side.
    - Routes: refinement of an abstract id route, validation before any call,
      errors that keep the status of the upstream service.
    - Data: round trips of CSV, query strings, feed filters and tokens; merging of
      streamed pages; rosters.
    - Dashboards: for every interleaving of handlers, frames and renders, the
      pending mark is taken back, rows are not lost, background activity leaves the
      report alone; for each handler alone, its calls in order, the rows it leaves
      and what it reports on success and on failure.
    - Termination and rest: from any reachable state and without any further event,
      the threads of both pages end however they interleave, and however they end
      leave no action pending; the projection loop of the match clock ends
      at the first boundary after now.
    - End to end: between a page and the platform the tier is transparent, for the
      service actions and the runtime actions: the calls that are made, with which
      token, and that the page reads exactly what the platform answered, refusals
      included; an unlock and a teardown from the click to the screen.
    - Data of the pages: rows with distinct identifiers, a load that degrades call
      by call, the leaders as the teams that counting ranks first, health exactly when
      every layer converged, drafts accepted exactly when they are in range, and the
      counters of the WireGuard gateway read back from the text it writes.
    - Panels and forms: every answer of every call, what is shown, sent and kept;
      a batch of flags read back from the text area and carried to the platform; one
      request in flight for all banners; links of the audit log that keep the
      filters and, up to the gateway's 200 rows a page, show every entry once.
    - The map: routes that partition the attacks, playback that visits every tick,
      one timer at most that drives the showcase, labels that stay on the map, the
      rotation with the best score, bursts of sound that are apart; a globe that stays
      upright with one frame on its way, turns that end by themselves, a keyboard that
      reaches what is seen.
    - Controls: while an action is pending, the pages of the organizers offer the
      beginning of another one in exactly four ways, those of the participants in one;
      but for those, the pending mark is there exactly while one action, and only one, is
      on its way; what the ways around lead to (a form sent twice before it is
      answered, a form closed by the answer to another); no request for a locked service but from an open dialog.
    - Pages: an organizers' page is shown after two checks of the same role, no
      redirection loop whatever is answered, no link of a loaded page that leads nowhere,
      nothing that a visitor without a team could do to a service in the control
      centre, and wall times that are sent, ordered and shown again as they were
      entered.
    - Calls: in every interleaving each request of a hook finds a route with its method,
      and its answer is read as what that route answers.

    ** Modelling choices and bounds

    - Numbers are integers of [Z]; where the code adds or parses numbers that may
      exceed 2^53 the operation is an option or the text is kept ([JsNumber]).  The
      text of a fraction is a parameter.
    - Strings are Latin-1 ([ascii]); [JSON.parse], HMAC, the URL parser and
      [localeCompare] are parameters with the facts the code relies on as named
      hypotheses, each instantiated by a concrete function in the witnesses.
    - A store maps each cell to its value.  A setter writes at once, a handler
      reads the state of the render it was created in ([v]) and refs directly; the
      interleaving relation interleaves single operations, which is finer than the
      event loop, so that what holds of it holds of the page.  [run] runs started
      promises to their end, which is one interleaving ([run_steps]).
    - A payload that is used after the call is taken to be present: the undefined
      of a 204, which no route called this way answers, fails at once and not at
      its first use.
    - Recursion is structural but for the printing of a number, whose fuel is the
      number of its binary digits and one more, proved enough ([dec_go_value]).

    ** Not modelled

    Rendering: the markup of the components and their styles, the texts of the manuals and
    what a modal dialog covers.  The router of the framework is a parameter that follows
    the names of the files.  The geometry of the globe is over exact rationals: the rounding of
    doubles is not modelled, and sines, cosines, roots and the text of a number are
    parameters.  The sound of a blip, downloads of files beyond the fact that they are
    asked for, the formatter of [Intl], the file system (parameters, too);
    the tests; the Go services and the deployment, but for the three places where a
    theorem is about their side: the metrics text, the paging of the audit log and the text
    in which the window of the match comes back.  Floats that are printed there are taken
    as printed.
*)

From Stdlib Require Export ZArith Lia Ascii String Sorted.
From stdpp Require Export base decidable list strings gmap option.

#[global] Open Scope Z_scope.
#[global] Open Scope list_scope.

(** ** Notations of the development *)

Declare Scope js_scope.
Delimit Scope js_scope with js.

(** String concatenation, as the [+] and the template literals of the source. *)
Notation "a ++ₛ b" := (String.append a b)
  (at level 60, right associativity) : js_scope.

(** [a ?? b]: the nullish coalescing operator on a value that may be absent. *)
Notation "a ?? b" := (default b a)
  (at level 60, right associativity) : js_scope.

#[global] Open Scope js_scope.

(** Concatenation computes on a literal prefix. *)
#[global] Arguments String.append : simpl nomatch.

(** The double quote character (a literal cannot hold it). *)
Definition dquote : ascii := "034"%char.
Definition dq : string := String dquote EmptyString.

(** ** Automation shared by the components *)

(** Case analysis on the boolean scrutinised by the goal. *)
Ltac case_bool :=
  match goal with
  | |- context [if ?b then _ else _] =>
      lazymatch type of b with bool => destruct b eqn:? end
  end.

Ltac case_bool_in H :=
  match type of H with
  | context [if ?b then _ else _] =>
      lazymatch type of b with bool => destruct b eqn:? end
  end.

(** Boolean facts turned into propositions for [lia]. *)
Ltac boolify :=
  repeat match goal with
  | H : (_ && _)%bool = true |- _ => apply andb_true_iff in H as [? ?]
  | H : (_ || _)%bool = false |- _ => apply orb_false_iff in H as [? ?]
  | H : negb _ = true |- _ => apply negb_true_iff in H
  | H : negb _ = false |- _ => apply negb_false_iff in H
  | H : (_ =? _) = true |- _ => apply Z.eqb_eq in H
  | H : (_ =? _) = false |- _ => apply Z.eqb_neq in H
  | H : (_ <? _) = true |- _ => apply Z.ltb_lt in H
  | H : (_ <? _) = false |- _ => apply Z.ltb_ge in H
  | H : (_ <=? _) = true |- _ => apply Z.leb_le in H
  | H : (_ <=? _) = false |- _ => apply Z.leb_gt in H
  end.

Create HintDb js.

(** ** Lists *)

(** [Array.prototype.find]. *)
Fixpoint find_first {A} (p : A -> bool) (l : list A) : option A :=
  match l with
  | [] => None
  | x :: r => if p x then Some x else find_first p r
  end.

Lemma find_first_Some {A} (p : A -> bool) l x :
  find_first p l = Some x -> x ∈ l /\ p x = true.
Proof.
  induction l as [|y l IH]; simpl; [done|].
  destruct (p y) eqn:Hy; intros H; simplify_eq; [set_solver|].
  apply IH in H as [? ?]. set_solver.
Qed.

Lemma find_first_None {A} (p : A -> bool) l :
  find_first p l = None <-> Forall (fun x => p x = false) l.
Proof.
  induction l as [|y l IH]; simpl; [split; [constructor|done]|].
  destruct (p y) eqn:Hy; rewrite list.Forall_cons.
  - split; [done|]. intros [? _]. congruence.
  - rewrite IH. naive_solver.
Qed.

Lemma existsb_find_first {A} (p : A -> bool) l :
  existsb p l = match find_first p l with Some _ => true | None => false end.
Proof. induction l as [|x l IH]; [done|]. simpl. by destruct (p x). Qed.

(** [Array.prototype.filter] with a boolean predicate. *)
Fixpoint bfilter {A} (p : A -> bool) (l : list A) : list A :=
  match l with
  | [] => []
  | x :: r => if p x then x :: bfilter p r else bfilter p r
  end.

Lemma elem_of_bfilter {A} (p : A -> bool) l x :
  x ∈ bfilter p l <-> p x = true /\ x ∈ l.
Proof.
  induction l as [|y l IH]; simpl; [set_solver|].
  destruct (p y) eqn:Hy; rewrite ?elem_of_cons, IH; split; intuition congruence.
Qed.

Lemma bfilter_app {A} (p : A -> bool) l1 l2 :
  bfilter p (l1 ++ l2) = bfilter p l1 ++ bfilter p l2.
Proof. induction l1 as [|x l1 IH]; simpl; [done|]. by destruct (p x); rewrite ?IH. Qed.

Lemma bfilter_length {A} (p : A -> bool) l : (length (bfilter p l) <= length l)%nat.
Proof. induction l as [|x l IH]; simpl; [lia|]. destruct (p x); simpl; lia. Qed.

Lemma bfilter_sublist {A} (p : A -> bool) l : bfilter p l `sublist_of` l.
Proof.
  induction l as [|x l IH]; simpl; [constructor|].
  destruct (p x); by constructor.
Qed.

Lemma bfilter_ext {A} (f g : A -> bool) l : (forall x, x ∈ l -> f x = g x) -> bfilter f l = bfilter g l.
Proof.
  induction l as [|x l IH]; intros H; [done|]. cbn [bfilter]. rewrite (H x) by apply list_elem_of_here.
  rewrite IH; [done|]. intros y Hy. by apply H, list_elem_of_further.
Qed.

Lemma bfilter_id {A} (p : A -> bool) l :
  Forall (fun x => p x = true) l -> bfilter p l = l.
Proof. induction 1 as [|x l Hx _ IH]; simpl; [done|]. by rewrite Hx, IH. Qed.

Lemma NoDup_fmap_bfilter {A B} (f : A -> B) (p : A -> bool) l :
  NoDup (f <$> l) -> NoDup (f <$> bfilter p l).
Proof.
  intros H. eapply sublist_NoDup; [exact H|]. apply fmap_sublist, bfilter_sublist.
Qed.

(** Updating the rows that satisfy a test, [rows.map(r => test(r) ? f(r) : r)]. *)
Definition map_if {A} (test : A -> bool) (f : A -> A) (l : list A) : list A :=
  (fun x => if test x then f x else x) <$> l.

Lemma map_if_length {A} (test : A -> bool) f l : length (map_if test f l) = length l.
Proof. apply length_fmap. Qed.

Lemma map_if_fmap {A B} (g : A -> B) (test : A -> bool) f l :
  (forall x, test x = true -> g (f x) = g x) -> g <$> map_if test f l = g <$> l.
Proof.
  intros Hg. unfold map_if. rewrite <-list_fmap_compose.
  apply list_fmap_ext. intros _ x _. simpl. destruct (test x) eqn:E; auto.
Qed.

Lemma map_if_lookup {A} (test : A -> bool) f l i :
  map_if test f l !! i = (fun x => if test x then f x else x) <$> l !! i.
Proof. apply list_lookup_fmap. Qed.

Lemma map_if_app {A} (test : A -> bool) f l1 l2 :
  map_if test f (l1 ++ l2) = map_if test f l1 ++ map_if test f l2.
Proof. apply fmap_app. Qed.

Lemma map_if_none {A} (test : A -> bool) f l :
  Forall (fun x => test x = false) l -> map_if test f l = l.
Proof. unfold map_if. induction 1 as [|x l Hx _ IH]; [done|]. by rewrite fmap_cons, Hx, IH. Qed.

Lemma sum_list_app (l1 l2 : list nat) : sum_list (l1 ++ l2) = (sum_list l1 + sum_list l2)%nat.
Proof. induction l1 as [|x l1 IH]; simpl; [done|]. rewrite IH. lia. Qed.

(** ** Insertion-ordered sets: [Set.prototype.add], [Map] keys *)

Section OrderedSet.
Context {A : Type} `{EqDecision A}.

Definition oset_add (s : list A) (x : A) : list A :=
  if decide (x ∈ s) then s else s ++ [x].

Lemma oset_add_NoDup s x : NoDup s -> NoDup (oset_add s x).
Proof.
  unfold oset_add. intros Hs. case_decide; [done|].
  apply list.NoDup_app. split_and!; [done| |apply NoDup_singleton]. set_solver.
Qed.

Lemma elem_of_oset_add s x y : y ∈ oset_add s x <-> y ∈ s \/ y = x.
Proof. unfold oset_add. case_decide; set_solver. Qed.
End OrderedSet.

(** ** Stable sorting

    [Array.prototype.sort] is stable and its result is determined by a
    consistent comparator; insertion sort is the reference implementation. *)

Section StableSort.
Context {A : Type} (cmp : A -> A -> Z).

Fixpoint sort_insert (x : A) (l : list A) : list A :=
  match l with
  | [] => [x]
  | y :: r => if cmp x y <=? 0 then x :: l else y :: sort_insert x r
  end.

Fixpoint js_sort (l : list A) : list A :=
  match l with
  | [] => []
  | x :: r => sort_insert x (js_sort r)
  end.

Lemma sort_insert_perm x l : sort_insert x l ≡ₚ x :: l.
Proof.
  induction l as [|y l IH]; simpl; [done|].
  destruct (cmp x y <=? 0); [done|]. rewrite IH. constructor.
Qed.

Lemma js_sort_perm l : js_sort l ≡ₚ l.
Proof. induction l as [|x l IH]; simpl; [done|]. by rewrite sort_insert_perm, IH. Qed.

Lemma js_sort_length l : length (js_sort l) = length l.
Proof. apply Permutation_length, js_sort_perm. Qed.

(** What a consistent comparator satisfies. *)
Class Comparator : Prop := {
  cmp_total : forall x y, cmp x y <= 0 \/ cmp y x <= 0;
  cmp_trans : forall x y z, cmp x y <= 0 -> cmp y z <= 0 -> cmp x z <= 0
}.

Definition le_of (x y : A) : Prop := cmp x y <= 0.

Context `{!Comparator}.

Lemma sort_insert_sorted x l : StronglySorted le_of l -> StronglySorted le_of (sort_insert x l).
Proof.
  intros Hl. induction Hl as [|y l Hl IH Hy]; simpl; [by repeat constructor|].
  destruct (cmp x y <=? 0) eqn:E; boolify.
  - constructor; [by constructor|]. constructor; [exact E|].
    eapply List.Forall_impl; [|exact Hy]. intros z Hz. unfold le_of in *.
    by eapply cmp_trans.
  - constructor; [done|]. rewrite sort_insert_perm. constructor; [|done].
    unfold le_of. destruct (cmp_total x y); lia.
Qed.

Lemma js_sort_sorted l : StronglySorted le_of (js_sort l).
Proof. induction l as [|x l IH]; simpl; [constructor|]. by apply sort_insert_sorted. Qed.
End StableSort.
