(* ===== verification/JsString.v ===== *)
(** * JavaScript strings

    Strings of the source are lists of UTF-16 code units; the model covers the
    Latin-1 plane (code units 0..255), which is closed under every string
    operation the web tier uses ([trim], [toLowerCase], [split], [join],
    [startsWith], [includes], [replace] of ASCII patterns).  White space is the
    ECMAScript [WhiteSpace] and [LineTerminator] sets restricted to that plane:
    TAB, LF, VT, FF, CR, SPACE and NBSP. *)

From S2P Require Import Prelude.

Definition code (c : ascii) : Z := Z.of_N (N_of_ascii c).
Definition chr (z : Z) : ascii := ascii_of_N (Z.to_N z).

Lemma code_range c : 0 <= code c < 256.
Proof. unfold code. pose proof (N_ascii_bounded c). lia. Qed.

Lemma chr_code c : chr (code c) = c.
Proof. unfold chr, code. rewrite N2Z.id. apply ascii_N_embedding. Qed.

Lemma code_chr z : 0 <= z < 256 -> code (chr z) = z.
Proof. intros H. unfold chr, code. rewrite N_ascii_embedding by lia. lia. Qed.

Lemma code_inj c d : code c = code d -> c = d.
Proof. intros H. by rewrite <-(chr_code c), <-(chr_code d), H. Qed.

(** ** White space and [trim] *)

Definition is_ws (c : ascii) : bool :=
  let z := code c in
  ((9 <=? z) && (z <=? 13)) || (z =? 32) || (z =? 160).

(** Removing the longest prefix (suffix) of characters that satisfy [p]. *)
Fixpoint drop_start (p : ascii -> bool) (s : string) : string :=
  match s with
  | EmptyString => EmptyString
  | String c r => if p c then drop_start p r else s
  end.

Fixpoint drop_end (p : ascii -> bool) (s : string) : string :=
  match s with
  | EmptyString => EmptyString
  | String c r =>
      match drop_end p r with
      | EmptyString => if p c then EmptyString else String c EmptyString
      | r' => String c r'
      end
  end.

(** [String.prototype.trim]. *)
Definition trim (s : string) : string := drop_end is_ws (drop_start is_ws s).

(** Whether a string is empty (a falsy string). *)
Definition is_empty (s : string) : bool :=
  match s with EmptyString => true | _ => false end.

(** [!s.trim()]: the string is blank. *)
Definition blank (s : string) : bool := is_empty (trim s).

(** [s || undefined]: an empty string counts as absent. *)
Definition or_undefined (s : string) : option string :=
  if is_empty s then None else Some s.

(** [a || b] on strings. *)
Definition str_or (a b : string) : string := if is_empty a then b else a.

Lemma is_empty_spec s : is_empty s = true <-> s = EmptyString.
Proof. by destruct s. Qed.

Lemma drop_end_head p s c r :
  drop_end p s = String c r -> exists r', s = String c r'.
Proof.
  destruct s as [|d s]; simpl; [done|].
  destruct (drop_end p s); [destruct (p d)|]; intros; simplify_eq; eauto.
Qed.

Lemma drop_start_idem p s : drop_start p (drop_start p s) = drop_start p s.
Proof.
  induction s as [|c s IH]; simpl; [done|].
  destruct (p c) eqn:E; simpl; by rewrite ?E.
Qed.

Lemma drop_end_idem p s : drop_end p (drop_end p s) = drop_end p s.
Proof.
  induction s as [|c s IH]; [done|]. cbn [drop_end].
  destruct (drop_end p s) as [|d t] eqn:E.
  - destruct (p c) eqn:W; cbn; by rewrite ?W.
  - cbn [drop_end] in *. by rewrite IH.
Qed.

Lemma drop_start_length p s :
  (String.length (drop_start p s) <= String.length s)%nat.
Proof. induction s as [|c s IH]; simpl; [lia|]. destruct (p c); simpl; lia. Qed.

Lemma drop_start_fixed p c s : drop_start p (String c s) = String c s -> p c = false.
Proof.
  simpl. destruct (p c) eqn:W; [|done]. intros H.
  pose proof (drop_start_length p s) as Hl. rewrite H in Hl. simpl in Hl. lia.
Qed.

Lemma drop_start_drop_end p s :
  drop_start p s = s -> drop_start p (drop_end p s) = drop_end p s.
Proof.
  destruct s as [|c s]; [done|]. intros W%drop_start_fixed. simpl.
  destruct (drop_end p s); simpl; rewrite ?W; simpl; by rewrite ?W.
Qed.

Lemma trim_idem s : trim (trim s) = trim s.
Proof.
  unfold trim. rewrite drop_start_drop_end by apply drop_start_idem.
  apply drop_end_idem.
Qed.

Lemma trim_blank s : blank (trim s) = blank s.
Proof. unfold blank. by rewrite trim_idem. Qed.

Lemma blank_false s : blank s = false <-> trim s <> EmptyString.
Proof. unfold blank. destruct (trim s); naive_solver. Qed.

Lemma trim_not_blank_start c s : trim (String c s) = String c s -> is_ws c = false.
Proof.
  unfold trim. intros H. destruct (is_ws c) eqn:W; [|done].
  assert (Hl : (String.length (drop_end is_ws (drop_start is_ws (String c s)))
                <= String.length s)%nat); [|rewrite H in Hl; simpl in Hl; lia].
  assert (He : forall t, (String.length (drop_end is_ws t) <= String.length t)%nat).
  { induction t as [|d t IH]; simpl; [lia|].
    destruct (drop_end is_ws t); [destruct (is_ws d)|]; simpl in *; lia. }
  etransitivity; [apply He|]. simpl. rewrite W. apply drop_start_length.
Qed.

(** ** Case folding: [String.prototype.toLowerCase] on Latin-1 *)

Definition lower_char (c : ascii) : ascii :=
  let z := code c in
  if ((65 <=? z) && (z <=? 90)) ||
     ((192 <=? z) && (z <=? 222) && negb (z =? 215))
  then chr (z + 32) else c.

Fixpoint to_lower (s : string) : string :=
  match s with
  | EmptyString => EmptyString
  | String c r => String (lower_char c) (to_lower r)
  end.

Lemma lower_char_idem c : lower_char (lower_char c) = lower_char c.
Proof.
  destruct c as [[] [] [] [] [] [] [] []]; vm_compute; reflexivity.
Qed.

Lemma to_lower_idem s : to_lower (to_lower s) = to_lower s.
Proof. induction s as [|c s IH]; simpl; [done|]. by rewrite lower_char_idem, IH. Qed.

Lemma is_ws_lower c : is_ws (lower_char c) = is_ws c.
Proof. destruct c as [[] [] [] [] [] [] [] []]; vm_compute; reflexivity. Qed.

Lemma to_lower_empty s : is_empty (to_lower s) = is_empty s.
Proof. by destruct s. Qed.

(** ** Searching *)

(** [haystack.startsWith(p)]. *)
Definition starts_with (p s : string) : bool := String.prefix p s.

(** [haystack.includes(needle)]. *)
Fixpoint includes (needle s : string) : bool :=
  String.prefix needle s ||
  match s with EmptyString => false | String _ r => includes needle r end.

(** Some character of [s] satisfies [p] (an unanchored one-character regexp). *)
Fixpoint has_char (p : ascii -> bool) (s : string) : bool :=
  match s with
  | EmptyString => false
  | String c r => p c || has_char p r
  end.

Lemma has_char_app p s t : has_char p (s ++ₛ t) = has_char p s || has_char p t.
Proof. induction s as [|c s IH]; simpl; [done|]. by rewrite IH, orb_assoc. Qed.

Lemma prefix_app p s : String.prefix p (p ++ₛ s) = true.
Proof.
  induction p as [|c p IH]; simpl; [by destruct s|].
  by destruct (ascii_dec c c).
Qed.

Lemma starts_with_spec p s : starts_with p s = true <-> exists r, s = p ++ₛ r.
Proof.
  unfold starts_with. split; [|intros [r ->]; apply prefix_app].
  revert s. induction p as [|c p IH]; intros s H; [by exists s|].
  destruct s as [|d s]; simpl in H; [done|].
  destruct (ascii_dec c d) as [->|]; [|done].
  apply IH in H as [r ->]. by exists r.
Qed.

(** ** Splitting and joining at one character *)

(** [s.split(sep)] for a one-character separator. *)
Fixpoint split_on (sep : ascii) (s : string) : list string :=
  match s with
  | EmptyString => [EmptyString]
  | String c r =>
      if Ascii.eqb c sep then EmptyString :: split_on sep r
      else match split_on sep r with
           | [] => [String c EmptyString]
           | h :: t => String c h :: t
           end
  end.

(** [parts.join(sep)]. *)
Fixpoint join (sep : string) (l : list string) : string :=
  match l with
  | [] => EmptyString
  | [x] => x
  | x :: r => x ++ₛ sep ++ₛ join sep r
  end.

Lemma split_on_nonempty sep s : split_on sep s <> [].
Proof.
  destruct s as [|c s]; simpl; [done|].
  destruct (Ascii.eqb c sep); [done|]. by destruct (split_on sep s).
Qed.

Lemma app_nil_s s : s ++ₛ EmptyString = s.
Proof. induction s; simpl; congruence. Qed.

Lemma app_assoc_s a b c : (a ++ₛ b) ++ₛ c = a ++ₛ b ++ₛ c.
Proof. induction a; simpl; congruence. Qed.

Lemma app_length_s a b :
  String.length (a ++ₛ b) = (String.length a + String.length b)%nat.
Proof. induction a; simpl; congruence. Qed.

Lemma join_split sep s : join (String sep EmptyString) (split_on sep s) = s.
Proof.
  induction s as [|c s IH]; simpl; [done|].
  pose proof (split_on_nonempty sep s) as Hne.
  destruct (Ascii.eqb c sep) eqn:E.
  - apply Ascii.eqb_eq in E as ->. destruct (split_on sep s) as [|h t]; [done|].
    simpl in *. by rewrite IH.
  - destruct (split_on sep s) as [|h t]; [done|].
    destruct t; simpl in *; by rewrite IH.
Qed.

Definition free_of (sep : ascii) (s : string) : Prop :=
  has_char (fun c => Ascii.eqb c sep) s = false.

Lemma free_of_app c s t : free_of c s -> free_of c t -> free_of c (s ++ₛ t).
Proof. unfold free_of. rewrite has_char_app. by intros -> ->. Qed.

Lemma split_on_free sep s : free_of sep s -> split_on sep s = [s].
Proof.
  unfold free_of. induction s as [|c s IH]; simpl; [done|].
  intros [E H]%orb_false_iff. by rewrite E, IH.
Qed.

Lemma split_on_app sep s t :
  free_of sep s -> split_on sep (s ++ₛ String sep t) = s :: split_on sep t.
Proof.
  unfold free_of. induction s as [|c s IH]; simpl.
  - by rewrite Ascii.eqb_refl.
  - intros [E H]%orb_false_iff. by rewrite E, IH.
Qed.

Lemma split_join sep l :
  l <> [] -> Forall (free_of sep) l ->
  split_on sep (join (String sep EmptyString) l) = l.
Proof.
  intros Hne Hf. induction Hf as [|x l Hx Hl IH]; [done|].
  destruct l as [|y l]; [by apply split_on_free|].
  cbn [join]. simpl. rewrite split_on_app by done. f_equal. by apply IH.
Qed.

Lemma split_on_parts_free sep s : Forall (free_of sep) (split_on sep s).
Proof.
  induction s as [|c s IH]; simpl; [by repeat constructor|].
  destruct (Ascii.eqb c sep) eqn:E; [by constructor|].
  destruct (split_on sep s) as [|h t].
  - constructor; [|done]. unfold free_of. simpl. by rewrite E.
  - inversion IH as [|? ? Hh Ht]; subst. constructor; [|done].
    unfold free_of in *. simpl. by rewrite E, Hh.
Qed.

(** [s.replace(/\/+$/, "")]: the trailing slashes are dropped. *)
Definition strip_slashes (s : string) : string :=
  drop_end (fun c => Ascii.eqb c "/"%char) s.

(** [trimBaseUrl] of api clients: [value.trim().replace(/\/+$/, "")]. *)
Definition trimBaseUrl (value : string) : string := strip_slashes (trim value).

(** [s.length]. *)
Definition js_length (s : string) : Z := Z.of_nat (String.length s).

#[export] Hint Rewrite trim_idem to_lower_idem app_nil_s app_assoc_s : js.

(** ** Code unit order, the default comparison of strings *)

Definition code_unit_compare (a b : string) : Z :=
  match String.compare a b with Lt => -1 | Eq => 0 | Gt => 1 end.

Lemma code_unit_compare_le a b : code_unit_compare a b <= 0 <-> String.le a b.
Proof.
  unfold code_unit_compare, String.le, String.leb.
  destruct (String.compare a b); simpl; split; intros; try done; lia.
Qed.

#[export] Instance code_unit_comparator : Comparator code_unit_compare.
Proof.
  split; intros *; rewrite !code_unit_compare_le.
  - apply (total String.le).
  - apply transitivity.
Qed.

(** ** Strings without white space *)

Lemma drop_start_none p s : has_char p s = false -> drop_start p s = s.
Proof. destruct s as [|c s]; simpl; [done|]. intros [-> _]%orb_false_iff. done. Qed.

Lemma drop_end_none p s : has_char p s = false -> drop_end p s = s.
Proof.
  induction s as [|c s IH]; simpl; [done|]. intros [Hc Hs]%orb_false_iff.
  rewrite IH by done. destruct s; by rewrite ?Hc.
Qed.

Lemma trim_no_ws s : has_char is_ws s = false -> trim s = s.
Proof. intros H. unfold trim. by rewrite drop_start_none, drop_end_none. Qed.
