(* ===== verification/JsNumber.v ===== *)
(** * JavaScript numbers

    The numbers of the web tier are ids, counts, ticks, offsets and limits.
    They are IEEE doubles in the source; the model keeps the integers among
    them as [Z], passes every value that enters through [parseInt], [Number] or
    an addition through the rounding of binary64 ([round_double]), and prints
    them with the shortest round-tripping digits, as [String(n)] does.
    [None] stands for a value that is not finite. *)

From S2P Require Import Prelude JsString.

(** ** Rounding to binary64 *)

(** The integers below 2^53 in magnitude are all representable. *)
Definition safe (n : Z) : Prop := Z.abs n < 2 ^ 53.

(** Round to nearest, ties to even; [None] on overflow to an infinity. *)
Definition round_double (z : Z) : option Z :=
  let a := Z.abs z in
  if a <? 2 ^ 53 then Some z
  else
    let e := Z.log2 a - 52 in
    let q := a / 2 ^ e in
    let r := a mod 2 ^ e in
    let q' := if (2 * r <? 2 ^ e) || ((2 * r =? 2 ^ e) && Z.even q)
              then q else q + 1 in
    let v := q' * 2 ^ e in
    if v <? 2 ^ 1024 then Some (Z.sgn z * v) else None.

Lemma round_double_safe z : safe z -> round_double z = Some z.
Proof. unfold round_double, safe. intros H. by rewrite (proj2 (Z.ltb_lt _ _) H). Qed.

Lemma round_double_unsafe z v :
  ~ safe z -> round_double z = Some v -> 2 ^ 53 <= Z.abs v.
Proof.
  unfold safe. intros Hz H. assert (Hl : 2 ^ 53 <= Z.abs z) by lia. clear Hz.
  unfold round_double in H.
  rewrite (proj2 (Z.ltb_ge _ _) Hl) in H.
  set (a := Z.abs z) in *. set (e := Z.log2 a - 52) in *.
  assert (He : 1 <= e).
  { assert (53 <= Z.log2 a); [|lia]. change 53 with (Z.log2 (2 ^ 53)) at 1.
    by apply Z.log2_le_mono. }
  assert (Hq : 2 ^ 52 <= a / 2 ^ e).
  { apply Z.div_le_lower_bound; [apply Z.pow_pos_nonneg; lia|].
    rewrite <-Z.pow_add_r by lia. replace (e + 52) with (Z.log2 a) by lia.
    apply Z.log2_spec. lia. }
  match goal with
  | _ : context [?q' * 2 ^ e <? 2 ^ 1024] |- _ =>
      destruct (q' * 2 ^ e <? 2 ^ 1024); [|done];
      assert (Hq' : 2 ^ 52 <= q') by (case_bool; lia); set (w := q') in *
  end.
  injection H as <-.
  assert (H2 : 2 ^ 1 <= 2 ^ e) by (apply Z.pow_le_mono_r; lia).
  assert (Hs : Z.abs (Z.sgn z) = 1) by lia.
  rewrite Z.abs_mul, Hs, Z.abs_eq by nia.
  change (2 ^ 53) with (2 ^ 52 * 2 ^ 1). nia.
Qed.

Lemma round_double_inv z v : safe v -> round_double z = Some v -> z = v.
Proof.
  intros Hv H. destruct (Z.lt_ge_cases (Z.abs z) (2 ^ 53)) as [Hz|Hz].
  - rewrite round_double_safe in H by done. congruence.
  - apply round_double_unsafe in H; unfold safe in *; lia.
Qed.

Lemma round_double_sgn z v : round_double z = Some v -> Z.sgn v = Z.sgn z.
Proof.
  intros H. destruct (Z.lt_ge_cases (Z.abs z) (2 ^ 53)) as [Hz|Hz].
  { rewrite round_double_safe in H by done. congruence. }
  pose proof (round_double_unsafe z v) as Hu. specialize (Hu ltac:(unfold safe; lia) H).
  unfold round_double in H. rewrite (proj2 (Z.ltb_ge _ _) Hz) in H.
  match type of H with context [if ?b then Some (Z.sgn z * ?w) else None] =>
    destruct b eqn:Hb; [|done]; assert (0 <= w); [|set (x := w) in *] end.
  { apply Z.mul_nonneg_nonneg; [|apply Z.pow_nonneg; lia].
    assert (0 <= Z.abs z / 2 ^ (Z.log2 (Z.abs z) - 52)).
    { apply Z.div_pos; [lia|]. apply Z.pow_pos_nonneg; [lia|].
      assert (Z.log2 (2 ^ 53) <= Z.log2 (Z.abs z)) by by apply Z.log2_le_mono.
      change (Z.log2 (2 ^ 53)) with 53 in *. lia. }
    case_bool; lia. }
  injection H as <-. rewrite Z.sgn_mul. destruct (Z.sgn_spec z) as [[? ->]|[[? ->]|[? ->]]];
    destruct (Z.sgn_spec x) as [[? ->]|[[? ->]|[? ->]]]; lia.
Qed.

(** [a + b] and [a - b] on integers held in doubles. *)
Definition js_add (a b : Z) : option Z := round_double (a + b).
Definition js_sub (a b : Z) : option Z := round_double (a - b).

(** ** Decimal digits *)

Definition is_digit (c : ascii) : bool := (48 <=? code c) && (code c <=? 57).

(** The longest prefix of decimal digits, and what follows it. *)
Fixpoint span_digits (s : string) : string * string :=
  match s with
  | EmptyString => (EmptyString, EmptyString)
  | String c r =>
      if is_digit c then let '(d, t) := span_digits r in (String c d, t)
      else (EmptyString, s)
  end.

Fixpoint digits_value (acc : Z) (s : string) : Z :=
  match s with
  | EmptyString => acc
  | String c r => digits_value (acc * 10 + (code c - 48)) r
  end.

Definition digit_char (d : Z) : ascii := chr (48 + d).

Fixpoint dec_go (fuel : nat) (n : Z) (acc : string) : string :=
  match fuel with
  | O => acc
  | S f =>
      let acc' := String (digit_char (n mod 10)) acc in
      if n / 10 =? 0 then acc' else dec_go f (n / 10) acc'
  end.

(** The decimal digits of a non-negative integer. *)
Definition dec (n : Z) : string := dec_go (S (Z.to_nat (Z.log2 n))) n EmptyString.

Definition all_digits (s : string) : Prop := has_char (fun c => negb (is_digit c)) s = false.

Lemma code_digit_char d : 0 <= d < 10 -> code (digit_char d) = 48 + d.
Proof. intros H. apply code_chr. lia. Qed.

Lemma is_digit_char d : 0 <= d < 10 -> is_digit (digit_char d) = true.
Proof. intros H. unfold is_digit. rewrite code_digit_char by done. lia. Qed.

Lemma dec_go_value fuel n acc :
  0 <= n < 10 ^ Z.of_nat fuel -> (0 < fuel)%nat ->
  digits_value 0 (dec_go fuel n acc) = digits_value n acc.
Proof.
  revert n acc. induction fuel as [|f IH]; intros n acc Hn Hf; [lia|].
  cbn [dec_go]. pose proof (Z.mod_pos_bound n 10 ltac:(lia)) as Hm.
  pose proof (Z_div_mod_eq_full n 10) as Hd.
  destruct (n / 10 =? 0) eqn:E; boolify.
  - cbn [digits_value]. rewrite code_digit_char by done. f_equal. lia.
  - rewrite Nat2Z.inj_succ, Z.pow_succ_r in Hn by lia.
    assert (0 <= n / 10 < 10 ^ Z.of_nat f) by lia.
    destruct f as [|f]; [simpl in *; lia|].
    rewrite IH by lia. cbn [digits_value]. rewrite code_digit_char by done.
    f_equal. lia.
Qed.

Lemma dec_go_digits fuel n acc :
  0 <= n -> all_digits acc -> all_digits (dec_go fuel n acc).
Proof.
  unfold all_digits. revert n acc. induction fuel as [|f IH]; intros n acc Hn Ha; [done|].
  cbn [dec_go]. pose proof (Z.mod_pos_bound n 10 ltac:(lia)) as Hm.
  assert (Hc : has_char (fun c => negb (is_digit c)) (String (digit_char (n mod 10)) acc) = false).
  { simpl. by rewrite is_digit_char, Ha by done. }
  destruct (n / 10 =? 0); [done|]. apply IH; [apply Z.div_pos; lia|done].
Qed.

Lemma dec_go_nonempty fuel n acc :
  (0 < fuel)%nat -> is_empty (dec_go fuel n acc) = false.
Proof.
  revert n acc. induction fuel as [|f IH]; intros n acc Hf; [lia|]. cbn [dec_go].
  destruct (n / 10 =? 0); [done|]. destruct f; [done|]. apply IH. lia.
Qed.

Lemma dec_fuel n : 0 <= n -> n < 10 ^ Z.of_nat (S (Z.to_nat (Z.log2 n))).
Proof.
  intros Hn. rewrite Nat2Z.inj_succ, Z2Nat.id by apply Z.log2_nonneg.
  destruct (Z.eq_dec n 0) as [->|]; [done|].
  eapply Z.lt_le_trans; [apply Z.log2_spec; lia|].
  apply Z.pow_le_mono_l. lia.
Qed.

Lemma dec_value n : 0 <= n -> digits_value 0 (dec n) = n.
Proof. intros Hn. unfold dec. rewrite dec_go_value; [done| |lia]. pose proof (dec_fuel n Hn). lia. Qed.

Lemma dec_digits n : 0 <= n -> all_digits (dec n).
Proof. intros Hn. by apply dec_go_digits. Qed.

Lemma dec_nonempty n : is_empty (dec n) = false.
Proof. apply dec_go_nonempty. lia. Qed.

Lemma span_digits_all s t :
  all_digits s -> (forall c r, t = String c r -> is_digit c = false) ->
  span_digits (s ++ₛ t) = (s, t).
Proof.
  unfold all_digits. intros Hs Ht. induction s as [|c s IH]; simpl in *.
  - destruct t as [|c r]; [done|]. simpl. by rewrite (Ht c r).
  - apply orb_false_iff in Hs as [Hc Hs]. apply negb_false_iff in Hc.
    by rewrite Hc, IH.
Qed.

Lemma span_digits_only s : all_digits s -> span_digits s = (s, EmptyString).
Proof. intros H. rewrite <-(app_nil_s s) at 1. by apply span_digits_all. Qed.

Lemma digit_not_ws c : is_digit c = true -> is_ws c = false.
Proof. destruct c as [[] [] [] [] [] [] [] []]; vm_compute; congruence. Qed.

(** ** [Number.parseInt(raw, 10)] *)

Definition sign_split (s : string) : bool * string :=
  match s with
  | String c r =>
      if Ascii.eqb c "-"%char then (true, r)
      else if Ascii.eqb c "+"%char then (false, r) else (false, s)
  | EmptyString => (false, s)
  end.

(** [None]: the result is [NaN] or infinite, so [Number.isFinite] refuses it. *)
Definition parse_int (raw : string) : option Z :=
  let '(neg, body) := sign_split (drop_start is_ws raw) in
  let ds := fst (span_digits body) in
  if is_empty ds then None
  else round_double ((if neg then -1 else 1) * digits_value 0 ds).

(** ** [String(n)] *)

(** The multiple of the largest power of ten that rounds back to [a]: the
    value with the fewest significant digits that denotes the same double. *)
Fixpoint shortest_go (k : nat) (a p : Z) : Z :=
  match k with
  | O => a
  | S k' =>
      let q := (2 * a + p) / (2 * p) in
      let q' := if q * p >? a then q - 1 else q + 1 in
      if bool_decide (round_double (q * p) = Some a) then q * p
      else if bool_decide (round_double (q' * p) = Some a) then q' * p
      else shortest_go k' a (p / 10)
  end.

Definition shortest (a : Z) : Z :=
  let d := String.length (dec a) in
  shortest_go d a (10 ^ Z.of_nat (d - 1)).

(** Digits in exponent form, [d.ddde+x], for values from 1e21 on. *)
Definition exponent_form (ds : string) : string :=
  let x := dec (Z.of_nat (String.length ds - 1)) in
  match drop_end (fun c => Ascii.eqb c "0"%char) ds with
  | String c EmptyString => String c EmptyString ++ₛ "e+" ++ₛ x
  | String c r => String c EmptyString ++ₛ "." ++ₛ r ++ₛ "e+" ++ₛ x
  | EmptyString => EmptyString
  end.

Definition pos_to_string (a : Z) : string :=
  let ds := dec (shortest a) in
  if a <? 10 ^ 21 then ds else exponent_form ds.

(** [String(n)] for an integer-valued double. *)
Definition num_to_string (n : Z) : string :=
  if n <? 0 then "-" ++ₛ pos_to_string (- n) else pos_to_string n.

(** [String(x)] for a sum that may have overflowed. *)
Definition sum_to_string (o : option Z) : string :=
  match o with Some n => num_to_string n | None => "Infinity" end.

Lemma shortest_go_safe k a p : safe a -> shortest_go k a p = a.
Proof.
  intros Ha. revert p. induction k as [|k IH]; intros p; [done|]. cbn [shortest_go].
  case_bool_decide as H1; [by apply round_double_inv in H1|].
  case_bool_decide as H2; [by apply round_double_inv in H2|]. apply IH.
Qed.

Lemma shortest_safe a : safe a -> shortest a = a.
Proof. intros Ha. by apply shortest_go_safe. Qed.

Lemma num_to_string_safe n :
  safe n -> 0 <= n -> num_to_string n = dec n.
Proof.
  intros Hs Hn. unfold num_to_string, pos_to_string.
  rewrite (proj2 (Z.ltb_ge n 0)) by lia. rewrite shortest_safe by done.
  unfold safe in Hs. by rewrite (proj2 (Z.ltb_lt n (10 ^ 21))) by lia.
Qed.

Lemma num_to_string_neg n :
  safe n -> n < 0 -> num_to_string n = "-" ++ₛ dec (- n).
Proof.
  intros Hs Hn. unfold num_to_string, pos_to_string. unfold safe in Hs.
  rewrite (proj2 (Z.ltb_lt n 0)) by lia. rewrite shortest_safe by (unfold safe; lia).
  by rewrite (proj2 (Z.ltb_lt (- n) (10 ^ 21))) by lia.
Qed.

(** A digit string is read back by [parse_int]. *)
Lemma sign_split_digits s : all_digits s -> sign_split s = (false, s).
Proof.
  unfold all_digits. destruct s as [|c s]; [done|]. simpl.
  intros [H _]%orb_false_iff. apply negb_false_iff in H.
  destruct (Ascii.eqb_spec c "-"%char) as [->|]; [done|].
  by destruct (Ascii.eqb_spec c "+"%char) as [->|].
Qed.

Lemma drop_ws_digits s : all_digits s -> drop_start is_ws s = s.
Proof.
  unfold all_digits. destruct s as [|c s]; [done|]. simpl.
  intros [H _]%orb_false_iff. apply negb_false_iff in H. by rewrite digit_not_ws.
Qed.

Lemma parse_int_digits s :
  all_digits s -> is_empty s = false -> parse_int s = round_double (digits_value 0 s).
Proof.
  intros Hd He. unfold parse_int.
  rewrite drop_ws_digits, sign_split_digits, span_digits_only by done.
  cbn [fst]. rewrite He. f_equal. lia.
Qed.

Lemma parse_int_num_to_string n : safe n -> parse_int (num_to_string n) = Some n.
Proof.
  intros Hs. destruct (Z.lt_ge_cases n 0) as [Hn|Hn].
  - rewrite num_to_string_neg by done. unfold parse_int.
    change (drop_start is_ws ("-" ++ₛ dec (- n))) with ("-" ++ₛ dec (- n)).
    change (sign_split ("-" ++ₛ dec (- n))) with (true, dec (- n)).
    cbv beta iota zeta. rewrite span_digits_only by (apply dec_digits; lia). cbn [fst].
    rewrite dec_nonempty, dec_value by lia.
    replace (-1 * - n) with n by lia. by apply round_double_safe.
  - rewrite num_to_string_safe by done.
    rewrite parse_int_digits by (apply dec_digits || apply dec_nonempty; lia).
    rewrite dec_value by lia. by apply round_double_safe.
Qed.

Lemma num_to_string_inj n m :
  safe n -> safe m -> num_to_string n = num_to_string m -> n = m.
Proof.
  intros Hn Hm H. apply (f_equal parse_int) in H.
  rewrite !parse_int_num_to_string in H by done. congruence.
Qed.

#[export] Hint Resolve round_double_safe parse_int_num_to_string : js.

Lemma span_digits_spec s d t : span_digits s = (d, t) -> s = d ++ₛ t /\ all_digits d.
Proof.
  revert d t. induction s as [|c s IH]; intros d t; simpl; [by intros [= <- <-]|].
  destruct (is_digit c) eqn:E; [|by intros [= <- <-]].
  destruct (span_digits s) as [d' t']. intros [= <- <-].
  destruct (IH d' t' eq_refl) as [-> Hd]. split; [done|].
  unfold all_digits in *. simpl. by rewrite E, Hd.
Qed.

Lemma all_digits_no_ws s : all_digits s -> has_char is_ws s = false.
Proof.
  unfold all_digits. induction s as [|c s IH]; simpl; [done|].
  intros [Hc Hs]%orb_false_iff. apply negb_false_iff in Hc.
  by rewrite digit_not_ws, IH.
Qed.

(** ** [Number(s)]

    The value of a numeric string, rounded to binary64; [Finite m e] is
    [m * 2^e].  Signed zeros are identified. *)

Inductive num := NaN | Infinite (neg : bool) | Finite (m e : Z).

(** [n / d] rounded to nearest, ties to even, for positive [n] and [d];
    the exponent is clamped below at the subnormal range. *)
Definition round_rat (n d : Z) : num :=
  let quot e := if 0 <=? e then n / (d * 2 ^ e) else (n * 2 ^ (- e)) / d in
  let rest e := if 0 <=? e then n mod (d * 2 ^ e) else (n * 2 ^ (- e)) mod d in
  let unit e := if 0 <=? e then d * 2 ^ e else d in
  let e0 := Z.log2 n - Z.log2 d - 53 in
  let e1 := if 2 ^ 53 <=? quot e0 then e0 + 1 else e0 in
  let e := Z.max e1 (-1074) in
  let q := quot e in
  let r := rest e in
  let q' := if (2 * r <? unit e) || ((2 * r =? unit e) && Z.even q) then q else q + 1 in
  if (0 <=? e) && (2 ^ 1024 <=? q' * 2 ^ e) then Infinite false else Finite q' e.

(** [m * 10^e] for a non-negative [m]; [len] bounds the digits of [m]. *)
Definition scale10 (m e len : Z) : num :=
  if m =? 0 then Finite 0 0
  else if e >? 400 then Infinite false
  else if e + len <? -400 then Finite 0 0
  else if 0 <=? e then
    match round_double (m * 10 ^ e) with Some z => Finite z 0 | None => Infinite false end
  else round_rat m (10 ^ (- e)).

Definition negate (x : num) : num :=
  match x with NaN => NaN | Infinite b => Infinite (negb b) | Finite m e => Finite (- m) e end.

(** The exponent part, up to the end of the string. *)
Definition parse_exponent (s : string) : option Z :=
  match s with
  | EmptyString => Some 0
  | String c r =>
      if Ascii.eqb c "e"%char || Ascii.eqb c "E"%char then
        let '(neg, body) := sign_split r in
        let '(ds, t) := span_digits body in
        if is_empty ds || negb (is_empty t) then None
        else Some ((if neg then -1 else 1) * digits_value 0 ds)
      else None
  end.

(** Mantissa, decimal exponent and number of digits of an unsigned literal. *)
Definition parse_decimal (body : string) : option (Z * Z * Z) :=
  let '(ip, t) := span_digits body in
  let '(fp, u) := match t with
                  | String c r => if Ascii.eqb c "."%char then span_digits r else (EmptyString, t)
                  | EmptyString => (EmptyString, t)
                  end in
  let ds := ip ++ₛ fp in
  if is_empty ds then None
  else e ← parse_exponent u;
       Some (digits_value 0 ds, e - js_length fp, js_length ds).

Definition radix_digit (c : ascii) : option Z :=
  let z := code c in
  if (48 <=? z) && (z <=? 57) then Some (z - 48)
  else if (65 <=? z) && (z <=? 70) then Some (z - 55)
  else if (97 <=? z) && (z <=? 102) then Some (z - 87)
  else None.

Fixpoint radix_value (radix acc : Z) (s : string) : option Z :=
  match s with
  | EmptyString => Some acc
  | String c r =>
      match radix_digit c with
      | Some d => if d <? radix then radix_value radix (acc * radix + d) r else None
      | None => None
      end
  end.

(** [0x], [0o] and [0b] literals. *)
Definition parse_prefixed (s : string) : option num :=
  match s with
  | String z (String p r) =>
      let radix :=
        if Ascii.eqb p "x"%char || Ascii.eqb p "X"%char then 16
        else if Ascii.eqb p "o"%char || Ascii.eqb p "O"%char then 8
        else if Ascii.eqb p "b"%char || Ascii.eqb p "B"%char then 2 else 0 in
      if Ascii.eqb z "0"%char && negb (radix =? 0) then
        Some (match (if is_empty r then None else radix_value radix 0 r) with
              | Some v => match round_double v with
                          | Some n => Finite n 0 | None => Infinite false end
              | None => NaN
              end)
      else None
  | _ => None
  end.

Definition js_number (s : string) : num :=
  let t := trim s in
  if is_empty t then Finite 0 0
  else match parse_prefixed t with
       | Some x => x
       | None =>
           let '(neg, body) := sign_split t in
           let x := if String.eqb body "Infinity" then Infinite false
                    else match parse_decimal body with
                         | Some (m, e, len) => scale10 m e len
                         | None => NaN
                         end in
           if neg then negate x else x
       end.

(** [Some n] when [Number.isInteger] holds of the value. *)
Definition num_integer (x : num) : option Z :=
  match x with
  | Finite m e =>
      if 0 <=? e then Some (m * 2 ^ e)
      else if m mod 2 ^ (- e) =? 0 then Some (m / 2 ^ (- e)) else None
  | _ => None
  end.

Lemma parse_prefixed_digits s : all_digits s -> parse_prefixed s = None.
Proof.
  unfold all_digits. destruct s as [|c [|d s]]; [done..|]. cbn [has_char].
  intros [_ [Hd _]%orb_false_iff]%orb_false_iff. apply negb_false_iff in Hd.
  unfold parse_prefixed.
  assert (H : forall p, is_digit p = false -> Ascii.eqb d p = false).
  { intros p Hp. destruct (Ascii.eqb_spec d p) as [->|]; congruence. }
  rewrite !H by reflexivity. cbn. by rewrite andb_false_r.
Qed.

(** A printed non-negative id is read back by [Number]. *)
Lemma js_number_num_to_string n :
  safe n -> 0 <= n -> num_integer (js_number (num_to_string n)) = Some n.
Proof.
  intros Hs Hn. rewrite num_to_string_safe by done.
  pose proof (dec_digits n Hn) as Hd. pose proof (dec_nonempty n) as He.
  unfold js_number. rewrite trim_no_ws by by apply all_digits_no_ws.
  rewrite He, parse_prefixed_digits, sign_split_digits by done. cbv beta iota zeta.
  destruct (String.eqb_spec (dec n) "Infinity") as [Hi|_].
  { rewrite Hi in Hd. done. }
  unfold parse_decimal. rewrite span_digits_only by done. rewrite app_nil_s, He.
  cbn [parse_exponent mbind option_bind]. rewrite dec_value by done. unfold scale10.
  destruct (n =? 0) eqn:E; boolify; [by subst|].
  replace (0 - js_length EmptyString) with 0 by done.
  change (0 >? 400) with false. rewrite Z.add_0_l.
  rewrite (proj2 (Z.ltb_ge (js_length (dec n)) (-400))) by (unfold js_length; lia).
  cbn. rewrite Z.mul_1_r, round_double_safe by done. cbn. by rewrite Z.mul_1_r.
Qed.

Lemma js_number_trim s : js_number (trim s) = js_number s.
Proof. unfold js_number. by rewrite trim_idem. Qed.

Lemma digits_free c s : all_digits s -> is_digit c = false -> free_of c s.
Proof.
  unfold all_digits, free_of. intros Hs Hc. induction s as [|d s IH]; simpl in *; [done|].
  apply orb_false_iff in Hs as [Hd Hs]. apply negb_false_iff in Hd.
  destruct (Ascii.eqb_spec d c) as [->|]; [congruence|]. by apply IH.
Qed.

Lemma num_to_string_free c n : safe n -> 0 <= n -> is_digit c = false -> free_of c (num_to_string n).
Proof. intros Hs Hn. rewrite num_to_string_safe by done. by apply digits_free, dec_digits. Qed.

Lemma js_number_digits s :
  all_digits s -> is_empty s = false ->
  js_number s = match round_double (digits_value 0 s) with Some z => Finite z 0 | None => Infinite false end.
Proof.
  intros Hd He. unfold js_number. rewrite trim_no_ws by by apply all_digits_no_ws.
  rewrite He, parse_prefixed_digits, sign_split_digits by done. cbv beta iota zeta.
  destruct (String.eqb_spec s "Infinity") as [->|_]; [done|].
  unfold parse_decimal. rewrite span_digits_only by done. rewrite app_nil_s, He.
  cbn [parse_exponent mbind option_bind]. unfold scale10.
  destruct (digits_value 0 s =? 0) eqn:E; boolify; [by rewrite E|].
  replace (0 - js_length EmptyString) with 0 by done.
  change (0 >? 400) with false. rewrite Z.add_0_l.
  rewrite (proj2 (Z.ltb_ge (js_length s) (-400))) by (unfold js_length; lia).
  cbn. by rewrite Z.mul_1_r.
Qed.

(** ** Comparing a number with an integer *)

Definition num_compare_Z (x : num) (k : Z) : option comparison :=
  match x with
  | NaN => None
  | Infinite neg => Some (if neg then Lt else Gt)
  | Finite m e =>
      Some (if 0 <=? e then Z.compare (m * 2 ^ e) k else Z.compare m (k * 2 ^ (- e)))
  end.

Definition num_leb_Z (x : num) (k : Z) : bool :=
  match num_compare_Z x k with Some Lt | Some Eq => true | _ => false end.

Definition num_gtb_Z (x : num) (k : Z) : bool :=
  match num_compare_Z x k with Some Gt => true | _ => false end.

Definition is_nan (x : num) : bool := match x with NaN => true | _ => false end.

(** Addition of binary64: the exact sum in units of the smaller exponent, rounded
    to 53 bits, ties to even.  A sum is never below the subnormal range, since its
    operands are not. *)
Definition round_mantissa (s g : Z) : num :=
  let a := Z.abs s in
  if a <? 2 ^ 53 then Finite s g
  else
    let k := Z.log2 a - 52 in
    let q := a / 2 ^ k in
    let r := a mod 2 ^ k in
    let q' := if (2 * r <? 2 ^ k) || ((2 * r =? 2 ^ k) && Z.even q) then q else q + 1 in
    let e := k + g in
    if (0 <=? e) && (2 ^ 1024 <=? q' * 2 ^ e) then Infinite (s <? 0)
    else Finite (Z.sgn s * q') e.

Definition num_add (x y : num) : num :=
  match x, y with
  | NaN, _ | _, NaN => NaN
  | Infinite a, Infinite b => if Bool.eqb a b then x else NaN
  | Infinite _, Finite _ _ => x
  | Finite _ _, Infinite _ => y
  | Finite m e, Finite n f =>
      let g := Z.min e f in round_mantissa (m * 2 ^ (e - g) + n * 2 ^ (f - g)) g
  end.

(** The product of two numbers; that of zero and an infinity is NaN.  The products
    of the code stay far above the subnormal range. *)
Definition num_mul (x y : num) : num :=
  match x, y with
  | NaN, _ | _, NaN => NaN
  | Infinite a, Infinite b => Infinite (xorb a b)
  | Infinite a, Finite m _ | Finite m _, Infinite a => if m =? 0 then NaN else Infinite (xorb a (m <? 0))
  | Finite m e, Finite n f => round_mantissa (m * n) (e + f)
  end.

(** The quotient of two integers, for a positive divisor. *)
Definition int_div (n d : Z) : num :=
  if n =? 0 then Finite 0 0 else if n <? 0 then negate (round_rat (- n) d) else round_rat n d.
