(* ===== verification/JsDate.v ===== *)
(** * JavaScript dates

    Time values (milliseconds since 1970 as [Z]), the calendar that dates are computed in
    (the proleptic Gregorian one), [toISOString], and [new Date(text)] for the date-time
    format of the language with a year of four digits.  A text without an offset is a
    wall time, read in the zone of the browser: the class [Zone].  What an engine does
    with texts of no documented format is not modelled: they are refused. *)

From S2P Require Import Prelude JsString JsNumber.

#[local] Open Scope string_scope.
#[local] Open Scope Z_scope.
#[local] Open Scope list_scope.
#[local] Open Scope js_scope.

(** ** The calendar *)

Definition is_leap (year : Z) : bool :=
  (year mod 4 =? 0) && (negb (year mod 100 =? 0) || (year mod 400 =? 0)).

Definition days_in_month (year month : Z) : Z :=
  if month =? 2 then (if is_leap year then 29 else 28)
  else if (month =? 4) || (month =? 6) || (month =? 9) || (month =? 11) then 30 else 31.

(** The days before a year that starts in March; the leap day ends it. *)
Definition days_before_march_year (y : Z) : Z := 365 * y + y / 4 - y / 100 + y / 400.

(** Days since 1970 of a date; months from 1, days from 1. *)
Definition days_of_civil (year month day : Z) : Z :=
  let y := if month <=? 2 then year - 1 else year in
  let mp := if month <=? 2 then month + 9 else month - 3 in
  days_before_march_year y + ((153 * mp + 2) / 5 + day - 1) - 719468.

Definition civil_of_days (n : Z) : Z * Z * Z :=
  let z := n + 719468 in
  let era := z / 146097 in
  let doe := z mod 146097 in
  let century := Z.min 3 (doe / 36524) in
  let r1 := doe - century * 36524 in
  let quad := r1 / 1461 in
  let r2 := r1 mod 1461 in
  let yr := Z.min 3 (r2 / 365) in
  let doy := r2 - yr * 365 in
  let y := 400 * era + 100 * century + 4 * quad + yr in
  let mp := (5 * doy + 2) / 153 in
  let day := doy - (153 * mp + 2) / 5 + 1 in
  if mp <? 10 then (y, mp + 3, day) else (y + 1, mp - 9, day).

Record valid_date (year month day : Z) : Prop := {
  vd_month : 1 <= month <= 12;
  vd_day : 1 <= day <= days_in_month year month
}.

Definition date_ok (year month day : Z) : bool :=
  (1 <=? month) && (month <=? 12) && (1 <=? day) && (day <=? days_in_month year month).

Lemma date_ok_iff year month day : date_ok year month day = true <-> valid_date year month day.
Proof.
  unfold date_ok. rewrite !andb_true_iff, !Z.leb_le.
  split; [intros [[[? ?] ?] ?]; by constructor|intros [[? ?] [? ?]]; by repeat split].
Qed.

(** The language's own formula for the day a year starts with. *)
Lemma days_of_new_year year :
  days_of_civil year 1 1 = 365 * (year - 1970) + (year - 1969) / 4 - (year - 1901) / 100 + (year - 1601) / 400.
Proof.
  unfold days_of_civil, days_before_march_year. change (1 <=? 2) with true. cbn iota.
  change ((153 * (1 + 9) + 2) / 5) with 306.
  replace (year - 1969) with (year - 1 + (-492) * 4) by lia. replace (year - 1901) with (year - 1 + (-19) * 100) by lia.
  replace (year - 1601) with (year - 1 + (-4) * 400) by lia. rewrite !Z.div_add by lia. lia.
Qed.

Lemma div_pred n k : 0 < k -> n / k = (n - 1) / k + if n mod k =? 0 then 1 else 0.
Proof.
  intros Hk. pose proof (Z_div_mod_eq_full n k) as H. pose proof (Z.mod_pos_bound n k Hk) as Hm.
  destruct (Z.eqb_spec (n mod k) 0) as [E|E]; symmetry.
  - replace (n - 1) with (k - 1 + (n / k - 1) * k) by lia. rewrite Z.div_add, (Z.div_small (k - 1)) by lia. lia.
  - rewrite Z.add_0_r. symmetry. apply (Z.div_unique_pos _ _ _ (n mod k - 1)); lia.
Qed.

Lemma mod_mul_zero n a b : 0 < a -> 0 < b -> n mod (a * b) = 0 -> n mod a = 0.
Proof.
  intros Ha Hb H. apply Z.mod_divide; [lia|]. apply Z.mod_divide in H; [|lia].
  eapply Z.divide_trans; [|exact H]. apply Z.divide_factor_l.
Qed.

(** The length of a year that starts in March. *)
Lemma leap_march y :
  days_before_march_year (y + 1) - days_before_march_year y = if is_leap (y + 1) then 366 else 365.
Proof.
  unfold days_before_march_year, is_leap.
  rewrite (div_pred (y + 1) 4), (div_pred (y + 1) 100), (div_pred (y + 1) 400) by lia.
  replace (y + 1 - 1) with y by lia.
  pose proof (mod_mul_zero (y + 1) 4 25 ltac:(lia) ltac:(lia)) as H1.
  pose proof (mod_mul_zero (y + 1) 100 4 ltac:(lia) ltac:(lia)) as H2.
  change (4 * 25) with 100 in H1. change (100 * 4) with 400 in H2.
  destruct (Z.eqb_spec ((y + 1) mod 4) 0) as [E1|E1], (Z.eqb_spec ((y + 1) mod 100) 0) as [E2|E2],
    (Z.eqb_spec ((y + 1) mod 400) 0) as [E3|E3]; cbn [andb orb negb]; try tauto; lia.
Qed.

Lemma capped_div k n : 0 < k -> 0 <= n <= 4 * k -> 
  0 <= Z.min 3 (n / k) <= 3 /\
  (0 <= n - Z.min 3 (n / k) * k < k \/ Z.min 3 (n / k) = 3 /\ n - Z.min 3 (n / k) * k = k).
Proof.
  intros Hk Hn. pose proof (Z_div_mod_eq_full n k). pose proof (Z.mod_pos_bound n k Hk).
  assert (0 <= n / k) by (apply Z.div_pos; lia). assert (n / k <= 4) by (apply Z.div_le_upper_bound; lia).
  destruct (Z.le_gt_cases (n / k) 3); [rewrite Z.min_r by lia; split; [lia|left; lia]|].
  assert (E : n / k = 4) by lia. rewrite E in *. rewrite Z.min_l by lia. lia.
Qed.

(** Which year a day falls in: the decomposition of [civil_of_days]. *)
Definition march_year (z : Z) : Z * Z :=
  let doe := z mod 146097 in
  let century := Z.min 3 (doe / 36524) in
  let r1 := doe - century * 36524 in
  let r2 := r1 mod 1461 in
  let yr := Z.min 3 (r2 / 365) in
  (400 * (z / 146097) + 100 * century + 4 * (r1 / 1461) + yr, r2 - yr * 365).

Lemma march_year_spec z :
  let '(y, doy) := march_year z in
  z = days_before_march_year y + doy /\ 0 <= doy < days_before_march_year (y + 1) - days_before_march_year y.
Proof.
  unfold march_year, days_before_march_year. cbn zeta.
  pose proof (Z_div_mod_eq_full z 146097) as H1. pose proof (Z.mod_pos_bound z 146097 ltac:(lia)) as H2.
  set (era := z / 146097) in *. set (doe := z mod 146097) in *. clearbody era doe.
  destruct (capped_div 36524 doe ltac:(lia) ltac:(lia)) as [Hc Hr].
  set (c := Z.min 3 (doe / 36524)) in *. clearbody c.
  set (r1 := doe - c * 36524) in *. assert (Hd : doe = c * 36524 + r1) by (unfold r1; lia). clearbody r1.
  pose proof (Z_div_mod_eq_full r1 1461) as H3. pose proof (Z.mod_pos_bound r1 1461 ltac:(lia)) as H4.
  set (q := r1 / 1461) in *. set (r2 := r1 mod 1461) in *. clearbody q r2.
  destruct (capped_div 365 r2 ltac:(lia) ltac:(lia)) as [Hy Hs].
  set (yr := Z.min 3 (r2 / 365)) in *. clearbody yr.
  set (doy := r2 - yr * 365) in *. assert (He : r2 = yr * 365 + doy) by (unfold doy; lia). clearbody doy.
  assert (Hq : 0 <= q <= 24) by lia. clear H2 H4. subst z doe r1 r2.
  split.
  - replace (400 * era + 100 * c + 4 * q + yr) with (yr + (100 * era + 25 * c + q) * 4) at 2 by lia.
    replace (400 * era + 100 * c + 4 * q + yr) with (4 * q + yr + (4 * era + c) * 100) at 2 by lia.
    replace (400 * era + 100 * c + 4 * q + yr) with (100 * c + 4 * q + yr + era * 400) at 2 by lia.
    rewrite !Z.div_add, (Z.div_small yr), (Z.div_small (4 * q + yr)), (Z.div_small (100 * c + 4 * q + yr)) by lia. lia.
  - fold (days_before_march_year (400 * era + 100 * c + 4 * q + yr)).
    set (y := 400 * era + 100 * c + 4 * q + yr). fold (days_before_march_year (y + 1)). rewrite leap_march.
    destruct (Z.eq_dec doy 365) as [E|E]; [|destruct (is_leap _); lia].
    assert (yr = 3) as -> by lia. replace (is_leap (y + 1)) with true; [lia|]. symmetry. unfold is_leap, y.
    apply andb_true_iff. rewrite orb_true_iff, negb_true_iff, !Z.eqb_eq, Z.eqb_neq. split.
    + replace (_ + 1) with (0 + (100 * era + 25 * c + q + 1) * 4) by lia. by rewrite Z.mod_add.
    + destruct (Z.eq_dec q 24) as [->|Hq']; [right|left].
      * assert (c = 3) as -> by lia. replace (_ + 1) with (0 + (era + 1) * 400) by lia. by rewrite Z.mod_add.
      * replace (_ + 1) with (4 * q + 4 + (4 * era + c) * 100) by lia. rewrite Z.mod_add, Z.mod_small by lia. lia.
Qed.

(** The month and the day of a day of such a year. *)
Definition march_month (doy : Z) : Z * Z :=
  let mp := (5 * doy + 2) / 153 in (mp, doy - (153 * mp + 2) / 5 + 1).

Definition march_month_days (leap : bool) (mp : Z) : Z :=
  if mp =? 11 then (if leap then 29 else 28)
  else if (mp =? 1) || (mp =? 3) || (mp =? 6) || (mp =? 8) then 30 else 31.

Lemma march_month_spec (leap : bool) doy :
  0 <= doy < (if leap then 366 else 365) ->
  let '(mp, day) := march_month doy in
  0 <= mp <= 11 /\ 1 <= day <= march_month_days leap mp /\ doy = (153 * mp + 2) / 5 + day - 1.
Proof.
  intros H. unfold march_month. set (mp := (5 * doy + 2) / 153).
  assert (H1 : 153 * mp <= 5 * doy + 2 < 153 * mp + 153).
  { pose proof (Z_div_mod_eq_full (5 * doy + 2) 153). pose proof (Z.mod_pos_bound (5 * doy + 2) 153 ltac:(lia)).
    unfold mp. lia. }
  clearbody mp. assert (H2 : 0 <= mp <= 11) by (destruct leap; lia).
  split; [done|]. split; [|lia].
  assert (Hmp : mp = 0 \/ mp = 1 \/ mp = 2 \/ mp = 3 \/ mp = 4 \/ mp = 5 \/ mp = 6 \/ mp = 7 \/ mp = 8 \/
    mp = 9 \/ mp = 10 \/ mp = 11) by lia.
  destruct Hmp as [-> | [-> | [-> | [-> | [-> | [-> | [-> | [-> | [-> | [-> | [-> | ->]]]]]]]]]]];
    unfold march_month_days; cbn [Z.eqb Pos.eqb orb];
    match goal with |- context [?a / 5] => let v := eval vm_compute in (a / 5) in change (a / 5) with v end;
    destruct leap; lia.
Qed.

Lemma march_month_days_of (leap : bool) mp day :
  0 <= mp <= 11 -> 1 <= day <= march_month_days leap mp ->
  march_month ((153 * mp + 2) / 5 + day - 1) = (mp, day) /\
  0 <= (153 * mp + 2) / 5 + day - 1 < (if leap then 366 else 365).
Proof.
  intros H H'.
  assert (Hmp : mp = 0 \/ mp = 1 \/ mp = 2 \/ mp = 3 \/ mp = 4 \/ mp = 5 \/ mp = 6 \/ mp = 7 \/ mp = 8 \/
    mp = 9 \/ mp = 10 \/ mp = 11) by lia.
  destruct Hmp as [-> | [-> | [-> | [-> | [-> | [-> | [-> | [-> | [-> | [-> | [-> | ->]]]]]]]]]]];
    unfold march_month_days in H'; cbn [Z.eqb Pos.eqb orb] in H';
    match goal with |- march_month (?a / 5 + day - 1) = (?k, _) /\ _ =>
      let v := eval vm_compute in (a / 5) in change (a / 5) with v;
      assert (E : (5 * (v + day - 1) + 2) / 153 = k) by
        (symmetry; apply (Z.div_unique_pos _ _ _ (5 * (v + day - 1) + 2 - 153 * k)); destruct leap; lia);
      unfold march_month; rewrite E; split; [f_equal; change ((153 * k + 2) / 5) with v; lia|destruct leap; lia]
    end.
Qed.

Lemma march_year_monotone y y' : y < y' -> days_before_march_year (y + 1) <= days_before_march_year y'.
Proof.
  intros H. unfold days_before_march_year.
  pose proof (Z.div_le_mono (y + 1) y' 4 ltac:(lia) ltac:(lia)).
  pose proof (Z.div_le_mono (y + 1) y' 400 ltac:(lia) ltac:(lia)).
  pose proof (Z_div_mod_eq_full (y + 1) 100). pose proof (Z_div_mod_eq_full y' 100).
  pose proof (Z.mod_pos_bound (y + 1) 100 ltac:(lia)). pose proof (Z.mod_pos_bound y' 100 ltac:(lia)). lia.
Qed.

(** The year and the day in it are determined. *)
Lemma march_year_unique y doy :
  0 <= doy < days_before_march_year (y + 1) - days_before_march_year y ->
  march_year (days_before_march_year y + doy) = (y, doy).
Proof.
  intros H. pose proof (march_year_spec (days_before_march_year y + doy)) as Hs.
  destruct (march_year (days_before_march_year y + doy)) as [y' doy']. destruct Hs as [E H'].
  assert (y' = y) as ->.
  { destruct (Z.lt_trichotomy y y') as [Hl|[->|Hl]]; [|done|];
      pose proof (march_year_monotone _ _ Hl); lia. }
  f_equal. lia.
Qed.

Lemma civil_of_days_march n :
  civil_of_days n =
  let '(y, doy) := march_year (n + 719468) in
  let '(mp, day) := march_month doy in
  if mp <? 10 then (y, mp + 3, day) else (y + 1, mp - 9, day).
Proof. reflexivity. Qed.

(** Every day has a date, and it is the only one. *)
Lemma days_of_civil_of_days n :
  let '(year, month, day) := civil_of_days n in
  valid_date year month day /\ days_of_civil year month day = n.
Proof.
  rewrite civil_of_days_march. pose proof (march_year_spec (n + 719468)) as Hy.
  destruct (march_year (n + 719468)) as [y doy]. destruct Hy as [E Hd]. rewrite leap_march in Hd.
  pose proof (march_month_spec (is_leap (y + 1)) doy Hd) as Hm. destruct (march_month doy) as [mp day].
  destruct Hm as (H1 & H2 & H3). unfold march_month_days in H2. unfold days_of_civil.
  destruct (Z.ltb_spec mp 10).
  - rewrite (proj2 (Z.leb_gt (mp + 3) 2)) by lia. replace (mp + 3 - 3) with mp by lia. split; [|lia].
    constructor; [lia|]. unfold days_in_month.
    rewrite (proj2 (Z.eqb_neq (mp + 3) 2)) by lia. rewrite (proj2 (Z.eqb_neq mp 11)) in H2 by lia.
    destruct (Z.eqb_spec mp 1), (Z.eqb_spec mp 3), (Z.eqb_spec mp 6), (Z.eqb_spec mp 8),
      (Z.eqb_spec (mp + 3) 4), (Z.eqb_spec (mp + 3) 6), (Z.eqb_spec (mp + 3) 9), (Z.eqb_spec (mp + 3) 11);
      cbn [orb] in *; lia.
  - rewrite (proj2 (Z.leb_le (mp - 9) 2)) by lia. replace (mp - 9 + 9) with mp by lia.
    replace (y + 1 - 1) with y by lia. split; [|lia]. constructor; [lia|].
    assert (mp = 10 \/ mp = 11) as [-> | ->] by lia; exact H2.
Qed.

Lemma civil_of_days_of_civil year month day :
  valid_date year month day -> civil_of_days (days_of_civil year month day) = (year, month, day).
Proof.
  intros [Hm Hd]. rewrite civil_of_days_march. unfold days_of_civil.
  set (y := if month <=? 2 then year - 1 else year). set (mp := if month <=? 2 then month + 9 else month - 3).
  replace (_ - 719468 + 719468) with (days_before_march_year y + ((153 * mp + 2) / 5 + day - 1)) by lia.
  assert (H : 0 <= mp <= 11 /\ 1 <= day <= march_month_days (is_leap (y + 1)) mp /\
    (if mp <? 10 then (y, mp + 3, day) else (y + 1, mp - 9, day)) = (year, month, day)).
  { unfold days_in_month in Hd. subst y mp. unfold march_month_days.
    destruct (Z.leb_spec month 2).
    - assert (month = 1 \/ month = 2) as [-> | ->] by lia; cbn in *; replace (year - 1 + 1) with year by lia;
        (split; [lia|]; split; [|reflexivity]; exact Hd).
    - rewrite (proj2 (Z.ltb_lt (month - 3) 10)), (proj2 (Z.eqb_neq (month - 3) 11)) by lia.
      rewrite (proj2 (Z.eqb_neq month 2)) in Hd by lia. split; [lia|]. split; [|repeat f_equal; lia].
      destruct (Z.eqb_spec (month - 3) 1), (Z.eqb_spec (month - 3) 3), (Z.eqb_spec (month - 3) 6),
        (Z.eqb_spec (month - 3) 8), (Z.eqb_spec month 4), (Z.eqb_spec month 6), (Z.eqb_spec month 9),
        (Z.eqb_spec month 11); cbn [orb] in *; lia. }
  destruct H as (H1 & H2 & H3). destruct (march_month_days_of _ _ _ H1 H2) as [E Hr].
  rewrite march_year_unique by (rewrite leap_march; exact Hr). rewrite E. exact H3.
Qed.

(** Dates in the order of their years, months and days are days in order. *)
Lemma days_of_civil_lt year month day year' month' day' :
  valid_date year month day -> valid_date year' month' day' ->
  12 * year + month < 12 * year' + month' \/ (year = year' /\ month = month' /\ day < day') ->
  days_of_civil year month day < days_of_civil year' month' day'.
Proof.
  intros Hv Hv' [Hlt|(-> & -> & Hlt)]; [|unfold days_of_civil; lia].
  pose proof (civil_of_days_of_civil _ _ _ Hv) as E. pose proof (civil_of_days_of_civil _ _ _ Hv') as E'.
  destruct (Z.lt_ge_cases (days_of_civil year month day) (days_of_civil year' month' day')) as [|Hge]; [done|exfalso].
  set (n := days_of_civil year month day) in *. set (n' := days_of_civil year' month' day') in *.
  rewrite civil_of_days_march in E, E'.
  pose proof (march_year_spec (n + 719468)) as Hy. pose proof (march_year_spec (n' + 719468)) as Hy'.
  destruct (march_year (n + 719468)) as [y doy], (march_year (n' + 719468)) as [y' doy'].
  destruct Hy as [Hn Hd], Hy' as [Hn' Hd'].
  unfold march_month in E, E'. cbn beta iota zeta in E, E'.
  assert (Hyy : y' <= y).
  { destruct (Z.lt_ge_cases y y') as [Hl|]; [|done]. pose proof (march_year_monotone _ _ Hl). lia. }
  assert (Hmp : y' < y \/ (5 * doy' + 2) / 153 <= (5 * doy + 2) / 153).
  { destruct (Z.eq_dec y y') as [<-|]; [right; apply Z.div_le_mono; lia|left; lia]. }
  assert (Hb : 0 <= (5 * doy + 2) / 153) by (apply Z.div_pos; lia).
  assert (Hb' : (5 * doy' + 2) / 153 <= 11).
  { rewrite leap_march in Hd'. apply Z.lt_succ_r, Z.div_lt_upper_bound; [lia|]. destruct (is_leap _); lia. }
  destruct (Z.ltb_spec ((5 * doy + 2) / 153) 10), (Z.ltb_spec ((5 * doy' + 2) / 153) 10);
    injection E as E1 E2 _; injection E' as E1' E2' _; lia.
Qed.

(** ** Time values *)

Definition ms_per_day : Z := 86400000.

(** The fields of a date, as [getUTCFullYear] and its likes give them; months from 1. *)
Record Fields := mkFields {
  year : Z; month : Z; day : Z;
  hour : Z; minute : Z; second : Z; milli : Z
}.

Definition fields_of (t : Z) : Fields :=
  let '(y, m, d) := civil_of_days (t / ms_per_day) in
  let s := t mod ms_per_day in
  mkFields y m d (s / 3600000) (s / 60000 mod 60) (s / 1000 mod 60) (s mod 1000).

Definition time_of (w : Fields) : Z :=
  days_of_civil (year w) (month w) (day w) * ms_per_day +
  (hour w * 3600000 + minute w * 60000 + second w * 1000 + milli w).

Record valid_fields (w : Fields) : Prop := {
  vf_date : valid_date (year w) (month w) (day w);
  vf_hour : 0 <= hour w < 24;
  vf_minute : 0 <= minute w < 60;
  vf_second : 0 <= second w < 60;
  vf_milli : 0 <= milli w < 1000
}.

Lemma clock_split s :
  0 <= s -> s = s / 3600000 * 3600000 + s / 60000 mod 60 * 60000 + s / 1000 mod 60 * 1000 + s mod 1000.
Proof.
  intros Hs. pose proof (Z_div_mod_eq_full s 1000) as H1. pose proof (Z_div_mod_eq_full (s / 1000) 60) as H2.
  pose proof (Z_div_mod_eq_full (s / 60000) 60) as H3.
  rewrite Z.div_div in H2, H3 by lia. change (1000 * 60) with 60000 in H2. change (60000 * 60) with 3600000 in H3. lia.
Qed.

Lemma time_of_fields_of t : time_of (fields_of t) = t /\ valid_fields (fields_of t).
Proof.
  unfold time_of, fields_of. pose proof (days_of_civil_of_days (t / ms_per_day)) as H.
  destruct (civil_of_days (t / ms_per_day)) as [[y m] d]. destruct H as [Hv Hn]. cbn [year month day hour minute second milli].
  pose proof (Z_div_mod_eq_full t ms_per_day) as Ht. pose proof (Z.mod_pos_bound t ms_per_day ltac:(done)) as Hb.
  set (s := t mod ms_per_day) in *. unfold ms_per_day in *. split.
  - pose proof (clock_split s ltac:(lia)). lia.
  - constructor; cbn; [done| |apply Z.mod_pos_bound; lia..].
    split; [apply Z.div_pos; lia|apply Z.div_lt_upper_bound; lia].
Qed.

Lemma fields_of_time_of w : valid_fields w -> fields_of (time_of w) = w.
Proof.
  intros [Hd Hh Hm Hs Hi]. unfold fields_of, time_of.
  set (s := hour w * 3600000 + minute w * 60000 + second w * 1000 + milli w).
  assert (Hr : 0 <= s < ms_per_day) by (unfold s, ms_per_day; lia).
  rewrite (Z.add_comm (_ * _)), Z.div_add, (Z.div_small s), Z.add_0_l by (done || exact Hr).
  rewrite Z.mod_add, (Z.mod_small s) by (done || exact Hr).
  rewrite civil_of_days_of_civil by done. destruct w as [y mo d h mi se ms]. cbn in *.
  assert (E1 : s / 1000 = h * 3600 + mi * 60 + se) by (symmetry; apply (Z.div_unique_pos _ _ _ ms); unfold s; lia).
  assert (E2 : s / 60000 = h * 60 + mi) by (symmetry; apply (Z.div_unique_pos _ _ _ (se * 1000 + ms)); unfold s; lia).
  f_equal.
  - symmetry. apply (Z.div_unique_pos _ _ _ (mi * 60000 + se * 1000 + ms)); unfold s; lia.
  - rewrite E2. symmetry. apply (Z.mod_unique_pos _ _ h); lia.
  - rewrite E1. symmetry. apply (Z.mod_unique_pos _ _ (h * 60 + mi)); lia.
  - symmetry. apply (Z.mod_unique_pos _ _ (h * 3600 + mi * 60 + se)); unfold s; lia.
Qed.

(** ** Texts *)

(** [n] with [w] digits, zeros first. *)
Fixpoint pad (w : nat) (n : Z) : string :=
  match w with
  | O => EmptyString
  | S w => pad w (n / 10) ++ₛ String (digit_char (n mod 10)) EmptyString
  end.

Definition year_text (y : Z) : string :=
  if (0 <=? y) && (y <=? 9999) then pad 4 y
  else (if y <? 0 then "-" else "+") ++ₛ pad 6 (Z.abs y).

(** The date and the minutes of a text: what its first sixteen characters say. *)
Definition minute_text (w : Fields) : string :=
  year_text (year w) ++ₛ "-" ++ₛ pad 2 (month w) ++ₛ "-" ++ₛ pad 2 (day w) ++ₛ "T" ++ₛ
  pad 2 (hour w) ++ₛ ":" ++ₛ pad 2 (minute w).

(** [new Date(t).toISOString()]. *)
Definition toISOString (t : Z) : string :=
  let w := fields_of t in
  minute_text w ++ₛ ":" ++ₛ pad 2 (second w) ++ₛ "." ++ₛ pad 3 (milli w) ++ₛ "Z".

(** Reading: what was read and the rest. *)
Fixpoint read_digits (w : nat) (acc : Z) (s : string) : option (Z * string) :=
  match w with
  | O => Some (acc, s)
  | S w => match s with
           | String c r => if is_digit c then read_digits w (acc * 10 + (code c - 48)) r else None
           | EmptyString => None
           end
  end.

Definition read_char (c : ascii) (s : string) : option string :=
  match s with
  | String c' r => if Ascii.eqb c c' then Some r else None
  | EmptyString => None
  end.

(** A separator and two digits. *)
Definition read_pair (c : ascii) (s : string) : option (Z * string) :=
  r ← read_char c s; read_digits 2 0 r.

(** [.] and digits, of which the first three count. *)
Definition read_milli (s : string) : option (Z * string) :=
  r ← read_char "." s;
  let '(ds, rest) := span_digits r in
  if is_empty ds then None
  else match read_digits 3 0 (ds ++ₛ "00") with Some (n, _) => Some (n, rest) | None => None end.

(** Seconds and milliseconds may be left out. *)
Definition read_seconds (s : string) : Z * Z * string :=
  match read_pair ":" s with
  | None => (0, 0, s)
  | Some (sec, r) => match read_milli r with
                     | None => (sec, 0, r)
                     | Some (ms, r') => (sec, ms, r')
                     end
  end.

Definition read_date (s : string) : option (Z * Z * Z * string) :=
  '(y, r) ← read_digits 4 0 s;
  '(m, r) ← read_pair "-" r;
  '(d, r) ← read_pair "-" r;
  Some (y, m, d, r).

Definition read_time (y m d : Z) (s : string) : option (Fields * string) :=
  '(h, r) ← read_pair "T" s;
  '(mi, r) ← read_pair ":" r;
  let '(sec, ms, r) := read_seconds r in
  Some (mkFields y m d h mi sec ms, r).

(** The fields of a text are in range; midnight may be written as 24:00. *)
Definition clock_ok (w : Fields) : bool :=
  (hour w <? 24) && (minute w <? 60) && (second w <? 60) ||
  (hour w =? 24) && (minute w =? 0) && (second w =? 0) && (milli w =? 0).

Definition fields_ok (w : Fields) : bool := date_ok (year w) (month w) (day w) && clock_ok w.

(** [Z], or the sign, the hours and the minutes of an offset: how far the text is ahead
    of UTC, in minutes. *)
Definition read_offset (s : string) : option Z :=
  if String.eqb s "Z" then Some 0
  else match s with
       | String c r =>
           '(h, r) ← read_digits 2 0 r;
           '(mi, r) ← read_pair ":" r;
           if is_empty r && (h <? 24) && (mi <? 60)
           then if Ascii.eqb c "+" then Some (h * 60 + mi)
                else if Ascii.eqb c "-" then Some (- (h * 60 + mi)) else None
           else None
       | EmptyString => None
       end.

(** The zone of the browser: [getTimezoneOffset()] of a time value, in minutes, and the
    time value that is chosen for a wall time. *)
Class Zone := {
  offset_at : Z -> Z;
  utc : Z -> Z
}.

Section Zoned.
Context `{Zone}.

(** The wall time at a time value. *)
Definition local (t : Z) : Z := t - offset_at t * 60000.

(** [new Date(text).getTime()]; [None] is [NaN]. *)
Definition parse_date (text : string) : option Z :=
  '(y, m, d, r) ← read_date text;
  if is_empty r then
    if date_ok y m d then Some (time_of (mkFields y m d 0 0 0 0)) else None
  else
    '(w, r) ← read_time y m d r;
    if negb (fields_ok w) then None
    else if is_empty r then Some (utc (time_of w))
    else o ← read_offset r; Some (time_of w - o * 60000).
End Zoned.

(** What the language promises of a zone: a wall time that some time value has is read as
    one that has it, and a zone is less than a day away. *)
Class ZoneLaws `{Zone} := {
  local_utc t : local (utc (local t)) = local t;
  near_utc t : Z.abs (offset_at t) < 1440 /\ Z.abs (utc t - t) < ms_per_day
}.

(** A zone without a summer time. *)
Definition fixed_zone (minutes : Z) : Zone := {| offset_at := fun _ => minutes; utc := fun l => l + minutes * 60000 |}.

Lemma fixed_zone_laws minutes : Z.abs minutes < 1440 -> ZoneLaws (H := fixed_zone minutes).
Proof. intros H. split; [intros t; cbn; unfold local; cbn; lia|intros t; cbn; unfold ms_per_day; lia]. Qed.

(** ** Texts and values *)

Lemma length_app_s a b : String.length (a ++ₛ b) = (String.length a + String.length b)%nat.
Proof. induction a as [|c a IH]; [done|]. simpl. by rewrite IH. Qed.

Lemma length_pad w n : String.length (pad w n) = w.
Proof. revert n. induction w as [|w IH]; intros n; [done|]. cbn [pad]. rewrite length_app_s, IH. simpl. lia. Qed.

Lemma substring_app a b : String.substring 0 (String.length a) (a ++ₛ b) = a.
Proof. induction a as [|c a IH]; [by destruct b|]. simpl. by rewrite IH. Qed.

Lemma read_digits_app w w' acc s :
  read_digits (w + w') acc s = '(n, r) ← read_digits w acc s; read_digits w' n r.
Proof.
  revert acc s. induction w as [|w IH]; intros acc s; [done|]. cbn [Nat.add read_digits].
  destruct s as [|c s]; [done|]. destruct (is_digit c); [apply IH|done].
Qed.

Lemma read_pad_acc w n acc s :
  0 <= n < 10 ^ Z.of_nat w -> read_digits w acc (pad w n ++ₛ s) = Some (acc * 10 ^ Z.of_nat w + n, s).
Proof.
  revert n acc s. induction w as [|w IH]; intros n acc s Hn.
  - cbn [pad read_digits]. change (10 ^ Z.of_nat 0) with 1 in *. do 2 f_equal; lia.
  - rewrite Nat2Z.inj_succ, Z.pow_succ_r in * by lia. replace (S w) with (w + 1)%nat by lia. rewrite read_digits_app.
    replace (w + 1)%nat with (S w) by lia. cbn [pad]. rewrite app_assoc_s.
    pose proof (Z_div_mod_eq_full n 10). pose proof (Z.mod_pos_bound n 10 ltac:(lia)).
    rewrite IH by lia. cbn [mbind option_bind read_digits append]. rewrite is_digit_char, code_digit_char by done.
    do 2 f_equal. lia.
Qed.

Lemma read_pad w n s : 0 <= n < 10 ^ Z.of_nat w -> read_digits w 0 (pad w n ++ₛ s) = Some (n, s).
Proof. intros H. by rewrite read_pad_acc by done. Qed.

Lemma read_pair_pad c n s : 0 <= n < 100 -> read_pair c (String c (pad 2 n ++ₛ s)) = Some (n, s).
Proof.
  intros H. unfold read_pair, read_char. rewrite Ascii.eqb_refl. cbn [mbind option_bind]. by apply read_pad.
Qed.

Lemma days_in_month_bound y m : 28 <= days_in_month y m <= 31.
Proof. unfold days_in_month. repeat case_match; lia. Qed.

(** A year of four digits. *)
Definition four_digits (w : Fields) : Prop := 0 <= year w <= 9999.

Lemma year_text_four w : four_digits w -> year_text (year w) = pad 4 (year w).
Proof.
  intros [H1 H2]. unfold year_text. by rewrite (proj2 (Z.leb_le _ _) H1), (proj2 (Z.leb_le _ _) H2).
Qed.

Lemma read_minute_text_date w s :
  valid_fields w -> four_digits w ->
  read_date (minute_text w ++ₛ s) =
  Some (year w, month w, day w, "T" ++ₛ pad 2 (hour w) ++ₛ ":" ++ₛ pad 2 (minute w) ++ₛ s).
Proof.
  intros [[Hm Hd] _ _ _ _] Hy. pose proof (days_in_month_bound (year w) (month w)) as Hb.
  unfold read_date, minute_text. rewrite year_text_four by done. rewrite !app_assoc_s.
  rewrite read_pad by (unfold four_digits in Hy; change (10 ^ Z.of_nat 4) with 10000; lia). cbn [mbind option_bind append].
  rewrite read_pair_pad by lia. cbn [mbind option_bind append]. by rewrite read_pair_pad by lia.
Qed.

Lemma read_minute_text_time w s :
  valid_fields w ->
  read_time (year w) (month w) (day w) ("T" ++ₛ pad 2 (hour w) ++ₛ ":" ++ₛ pad 2 (minute w) ++ₛ s) =
  let '(sec, ms, r) := read_seconds s in
  Some (mkFields (year w) (month w) (day w) (hour w) (minute w) sec ms, r).
Proof.
  intros [_ Hh Hi _ _]. unfold read_time. cbn [append]. rewrite read_pair_pad by lia. cbn [mbind option_bind append].
  by rewrite read_pair_pad by lia.
Qed.

Lemma fields_ok_valid w : valid_fields w -> fields_ok w = true.
Proof.
  intros [Hd Hh Hm Hs _]. unfold fields_ok, clock_ok. rewrite (proj2 (date_ok_iff _ _ _) Hd).
  rewrite (proj2 (Z.ltb_lt _ _)), (proj2 (Z.ltb_lt (minute w) _)), (proj2 (Z.ltb_lt (second w) _)) by lia. done.
Qed.

(** The wall time of a text without seconds. *)
Definition on_the_minute (w : Fields) : Prop := second w = 0 /\ milli w = 0.

Lemma pad_digits w n : all_digits (pad w n).
Proof.
  revert n. induction w as [|w IH]; intros n; [done|]. cbn [pad]. unfold all_digits in *.
  rewrite has_char_app, IH. cbn. rewrite is_digit_char; [done|]. apply Z.mod_pos_bound. lia.
Qed.

Lemma read_seconds_text w :
  valid_fields w ->
  read_seconds (":" ++ₛ pad 2 (second w) ++ₛ "." ++ₛ pad 3 (milli w) ++ₛ "Z") = (second w, milli w, "Z").
Proof.
  intros [_ _ _ Hs Hm]. unfold read_seconds. cbn [append]. rewrite read_pair_pad by lia. unfold read_milli.
  cbn [read_char mbind option_bind]. rewrite Ascii.eqb_refl. cbn [mbind option_bind].
  rewrite span_digits_all by (apply pad_digits || by intros c r [= <- _]). 
  rewrite read_pad by (change (10 ^ Z.of_nat 3) with 1000; lia).
  assert (E : is_empty (pad 3 (milli w)) = false) by (pose proof (length_pad 3 (milli w)); by destruct (pad 3 (milli w))).
  by rewrite E.
Qed.

Section Parsed.
Context `{Zone}.

Lemma parse_minute_text_with w s sec ms r :
  valid_fields w -> four_digits w -> read_seconds s = (sec, ms, r) ->
  parse_date (minute_text w ++ₛ s) =
  let w' := mkFields (year w) (month w) (day w) (hour w) (minute w) sec ms in
  if negb (fields_ok w') then None
  else if is_empty r then Some (utc (time_of w')) else o ← read_offset r; Some (time_of w' - o * 60000).
Proof.
  intros Hw Hy Hs. unfold parse_date. rewrite read_minute_text_date by done. cbn [mbind option_bind is_empty append].
  pose proof (read_minute_text_time w s Hw) as E. cbn [append] in E. rewrite E, Hs. reflexivity.
Qed.

(** A wall time to the minute is read as the time value its zone has for it. *)
Lemma parse_minute_text w :
  valid_fields w -> four_digits w -> on_the_minute w -> parse_date (minute_text w) = Some (utc (time_of w)).
Proof.
  intros Hw Hy [Hs Hm]. rewrite <- (app_nil_s (minute_text w)).
  rewrite (parse_minute_text_with _ _ 0 0 EmptyString) by done. cbn zeta.
  replace (mkFields _ _ _ _ _ 0 0) with w by (destruct w; cbn in *; congruence).
  by rewrite fields_ok_valid.
Qed.

(** What [toISOString] wrote is read back exactly. *)
Lemma parse_toISOString t : four_digits (fields_of t) -> parse_date (toISOString t) = Some t.
Proof.
  intros Hy. destruct (time_of_fields_of t) as [Ht Hw]. unfold toISOString. set (w := fields_of t) in *.
  rewrite (parse_minute_text_with w _ (second w) (milli w) "Z") by (done || by apply read_seconds_text).
  cbn zeta. replace (mkFields _ _ _ _ _ _ _) with w by (by destruct w).
  rewrite fields_ok_valid by done. cbn. rewrite <- Ht. f_equal. lia.
Qed.
End Parsed.

(** The first sixteen characters of an ISO text. *)
Lemma slice_toISOString t :
  four_digits (fields_of t) -> String.substring 0 16 (toISOString t) = minute_text (fields_of t).
Proof.
  intros Hy. unfold toISOString.
  assert (E : String.length (minute_text (fields_of t)) = 16%nat).
  { unfold minute_text. rewrite year_text_four by done. rewrite !length_app_s, !length_pad. reflexivity. }
  rewrite <- E at 1. apply substring_app.
Qed.

(** ** Texts in the order of their times *)

Definition then_compare (c d : comparison) : comparison := match c with Eq => d | c => c end.

Lemma compare_app a b a' b' :
  String.length a = String.length a' ->
  String.compare (a ++ₛ b) (a' ++ₛ b') = then_compare (String.compare a a') (String.compare b b').
Proof.
  revert a'. induction a as [|c a IH]; intros [|c' a'] Hl; try done. cbn [append String.compare].
  destruct (Ascii.compare c c'); [|done|done]. apply IH. by injection Hl.
Qed.

Lemma digit_compare a b : 0 <= a < 10 -> 0 <= b < 10 -> Ascii.compare (digit_char a) (digit_char b) = (a ?= b).
Proof.
  intros Ha Hb. unfold Ascii.compare. rewrite <- N2Z.inj_compare.
  pose proof (code_digit_char a Ha) as Ea. pose proof (code_digit_char b Hb) as Eb. unfold code in *. rewrite Ea, Eb.
  by rewrite Z.add_compare_mono_l.
Qed.

Lemma pad_compare w a b :
  0 <= a < 10 ^ Z.of_nat w -> 0 <= b < 10 ^ Z.of_nat w -> String.compare (pad w a) (pad w b) = (a ?= b).
Proof.
  revert a b. induction w as [|w IH]; intros a b Ha Hb.
  - change (10 ^ Z.of_nat 0) with 1 in *. symmetry. apply Z.compare_eq_iff. lia.
  - rewrite Nat2Z.inj_succ, Z.pow_succ_r in * by lia. cbn [pad].
    pose proof (Z_div_mod_eq_full a 10). pose proof (Z.mod_pos_bound a 10 ltac:(lia)).
    pose proof (Z_div_mod_eq_full b 10). pose proof (Z.mod_pos_bound b 10 ltac:(lia)).
    rewrite compare_app by (by rewrite !length_pad). rewrite IH by lia. cbn [String.compare].
    rewrite digit_compare by lia.
    destruct (Z.compare_spec (a / 10) (b / 10)); cbn [then_compare];
      destruct (Z.compare_spec (a mod 10) (b mod 10)); symmetry;
      (apply Z.compare_eq_iff || apply Z.compare_lt_iff || apply Z.compare_gt_iff); lia.
Qed.

Lemma pad_then_compare w c a b s t :
  0 <= a < 10 ^ Z.of_nat w -> 0 <= b < 10 ^ Z.of_nat w ->
  String.compare (pad w a ++ₛ String c s) (pad w b ++ₛ String c t) = then_compare (a ?= b) (String.compare s t).
Proof.
  intros Ha Hb. rewrite compare_app, pad_compare by (done || by rewrite !length_pad). f_equal.
  cbn [String.compare]. unfold Ascii.compare. by rewrite N.compare_refl.
Qed.

#[local] Ltac ordered_by H :=
  symmetry; (apply Z.compare_lt_iff || apply Z.compare_gt_iff); specialize (H ltac:(lia)); lia.

(** Fields in lexicographic order are times in order, to the second. *)
Lemma fields_compare w w' :
  valid_fields w -> valid_fields w' ->
  then_compare (year w ?= year w') (then_compare (month w ?= month w') (then_compare (day w ?= day w')
    (then_compare (hour w ?= hour w') (then_compare (minute w ?= minute w') (second w ?= second w'))))) =
  (time_of w / 1000 ?= time_of w' / 1000).
Proof.
  assert (E : forall v, valid_fields v -> time_of v / 1000 =
    days_of_civil (year v) (month v) (day v) * 86400 + hour v * 3600 + minute v * 60 + second v).
  { intros v [_ Hh Hm Hs Hi]. symmetry. apply (Z.div_unique_pos _ _ _ (milli v)); unfold time_of, ms_per_day; lia. }
  intros Hw Hw'. rewrite !E by done. destruct Hw as [Hd Hh Hm Hs _], Hw' as [Hd' Hh' Hm' Hs' _].
  pose proof (days_of_civil_lt _ _ _ _ _ _ Hd Hd') as Hlt. pose proof (days_of_civil_lt _ _ _ _ _ _ Hd' Hd) as Hgt.
  pose proof (vd_month _ _ _ Hd). pose proof (vd_month _ _ _ Hd').
  destruct (Z.compare_spec (year w) (year w')) as [E1|E1|E1]; cbn [then_compare].
  2: ordered_by Hlt.
  2: ordered_by Hgt.
  destruct (Z.compare_spec (month w) (month w')) as [E2|E2|E2]; cbn [then_compare].
  2: ordered_by Hlt.
  2: ordered_by Hgt.
  destruct (Z.compare_spec (day w) (day w')) as [E3|E3|E3]; cbn [then_compare].
  2: ordered_by Hlt.
  2: ordered_by Hgt.
  rewrite E1, E2, E3.
  destruct (Z.compare_spec (hour w) (hour w')), (Z.compare_spec (minute w) (minute w')),
    (Z.compare_spec (second w) (second w')); cbn [then_compare]; symmetry;
    (apply Z.compare_eq_iff || apply Z.compare_lt_iff || apply Z.compare_gt_iff); lia.
Qed.

(** Texts of wall times are ordered as their times are. *)
Lemma minute_text_compare w w' :
  valid_fields w -> valid_fields w' -> four_digits w -> four_digits w' -> on_the_minute w -> on_the_minute w' ->
  String.compare (minute_text w) (minute_text w') = (time_of w ?= time_of w').
Proof.
  intros Hw Hw' Hy Hy' [Hs Hi] [Hs' Hi']. pose proof (fields_compare w w' Hw Hw') as Hf. rewrite Hs, Hs' in Hf.
  replace (then_compare (minute w ?= minute w') (0 ?= 0)) with (minute w ?= minute w') in Hf
    by (by destruct (minute w ?= minute w')).
  unfold minute_text. rewrite !year_text_four by done.
  destruct Hw as [Hd Hh Hm _ _], Hw' as [Hd' Hh' Hm' _ _].
  pose proof (days_in_month_bound (year w) (month w)). pose proof (days_in_month_bound (year w') (month w')).
  pose proof (vd_month _ _ _ Hd). pose proof (vd_month _ _ _ Hd').
  pose proof (vd_day _ _ _ Hd). pose proof (vd_day _ _ _ Hd'). unfold four_digits in *. cbn [append].
  rewrite !pad_then_compare by (change (10 ^ Z.of_nat 4) with 10000; change (10 ^ Z.of_nat 2) with 100; lia).
  rewrite pad_compare by (change (10 ^ Z.of_nat 2) with 100; lia). rewrite Hf.
  assert (E : forall v, second v = 0 -> milli v = 0 -> time_of v = 1000 * (time_of v / 1000)).
  { intros v Hv0 Hv1. apply Z_div_exact_full_2; [done|]. symmetry. unfold time_of. rewrite Hv0, Hv1. unfold ms_per_day.
    apply (Z.mod_unique_pos _ _ (days_of_civil (year v) (month v) (day v) * 86400 + hour v * 3600 + minute v * 60)); lia. }
  rewrite (Zmult_compare_compat_l _ _ 1000) by done. by rewrite <- (E w), <- (E w') by done.
Qed.
