(* ===== verification/Ranking.v ===== *)
(** * Collections in the order of insertion, and rankings

    [Set] and [Map] keep their elements in the order in which they were first put
    in; the summaries of the pages count labels with a [Map] and show the first few
    of a sort.  [sorted_by_counting] says what such a sort shows: the element in
    place [i] is the one with exactly [i] elements ahead of it. *)

From S2P Require Import Prelude JsString.

(** ** Collations *)

(** A comparator whose sign is antisymmetric, as [localeCompare] is documented to be. *)
Class Antisymmetric {A} (cmp : A -> A -> Z) : Prop :=
  cmp_anti : forall x y, Z.sgn (cmp x y) = - Z.sgn (cmp y x).

Class Collation (cmp : string -> string -> Z) : Prop := {
  collation_comparator :: Comparator cmp;
  collation_anti :: Antisymmetric cmp
}.

#[export] Instance code_unit_collation : Collation code_unit_compare.
Proof.
  split; [apply _|]. intros x y. unfold code_unit_compare.
  rewrite (String.compare_antisym x y). by destruct (String.compare y x).
Qed.

(** [(left, right) => left - right]. *)
Definition ascending (a b : Z) : Z := a - b.

#[export] Instance ascending_comparator : Comparator ascending.
Proof. split; unfold ascending; lia. Qed.

#[export] Instance ascending_anti : Antisymmetric ascending.
Proof. intros x y. unfold ascending. lia. Qed.

(** [c1(a, b) || c2(a, b)]: the first comparison that is not zero. *)
Definition then_by {A} (c1 c2 : A -> A -> Z) (a b : A) : Z :=
  if c1 a b =? 0 then c2 a b else c1 a b.

(** [cmp] on a part of the elements. *)
Definition on {A B} (f : A -> B) (cmp : B -> B -> Z) (a b : A) : Z := cmp (f a) (f b).

(** [(left, right) => cmp(right, left)]. *)
Definition flipped {A} (cmp : A -> A -> Z) (a b : A) : Z := cmp b a.

#[global] Typeclasses Opaque then_by on flipped.

#[export] Instance on_comparator {A B} (f : A -> B) cmp `{!Comparator cmp} : Comparator (on f cmp).
Proof. split; unfold on; [intros; apply cmp_total, _|intros x y z; apply cmp_trans, _]. Qed.

#[export] Instance on_anti {A B} (f : A -> B) cmp `{!Antisymmetric cmp} : Antisymmetric (on f cmp).
Proof. intros x y. exact (cmp_anti (f x) (f y)). Qed.

#[export] Instance flipped_comparator {A} (cmp : A -> A -> Z) `{!Comparator cmp} : Comparator (flipped cmp).
Proof.
  split; unfold flipped; [intros; apply cmp_total, _|].
  intros x y z H1 H2. by eapply cmp_trans.
Qed.

#[export] Instance flipped_anti {A} (cmp : A -> A -> Z) `{!Antisymmetric cmp} : Antisymmetric (flipped cmp).
Proof. intros x y. exact (cmp_anti y x). Qed.

(** Equal and ordered elements, from the signs. *)
Lemma cmp_zero_le {A} (cmp : A -> A -> Z) `{!Comparator cmp, !Antisymmetric cmp} x y z :
  cmp x y = 0 -> Z.sgn (cmp x z) = Z.sgn (cmp y z).
Proof.
  intros H. pose proof (cmp_trans cmp) as T. pose proof (cmp_anti x y) as Hxy.
  pose proof (cmp_anti x z) as Hxz. pose proof (cmp_anti y z) as Hyz.
  pose proof (T x y z). pose proof (T y x z). pose proof (T z x y). pose proof (T z y x). lia.
Qed.

#[export] Instance then_by_comparator {A} (c1 c2 : A -> A -> Z)
  `{!Comparator c1, !Antisymmetric c1, !Comparator c2} : Comparator (then_by c1 c2).
Proof.
  split; unfold then_by.
  - intros x y. pose proof (cmp_anti (cmp := c1) x y). pose proof (cmp_total c1 x y).
    pose proof (cmp_total c2 x y). repeat case_bool; boolify; lia.
  - intros x y z. pose proof (cmp_anti (cmp := c1) x y). pose proof (cmp_anti (cmp := c1) y z).
    pose proof (cmp_anti (cmp := c1) x z).
    pose proof (cmp_zero_le c1 x y z). pose proof (cmp_zero_le c1 y z x).
    pose proof (cmp_zero_le c1 z y x). pose proof (cmp_anti (cmp := c1) z y).
    pose proof (cmp_trans c1 x y z). pose proof (cmp_trans c2 x y z).
    pose proof (cmp_anti (cmp := c1) z x). pose proof (cmp_anti (cmp := c1) y x).
    pose proof (cmp_zero_le c1 x z y). repeat case_bool; boolify; lia.
Qed.

#[export] Instance then_by_anti {A} (c1 c2 : A -> A -> Z) `{!Antisymmetric c1, !Antisymmetric c2} :
  Antisymmetric (then_by c1 c2).
Proof.
  intros x y. unfold then_by. pose proof (cmp_anti (cmp := c1) x y).
  pose proof (cmp_anti (cmp := c2) x y). repeat case_bool; boolify; lia.
Qed.

Lemma StronglySorted_weaken {A} (R S : A -> A -> Prop) l :
  (forall x y, R x y -> S x y) -> StronglySorted R l -> StronglySorted S l.
Proof.
  intros H. induction 1 as [|x l Hl IH Hx]; constructor; [done|].
  eapply List.Forall_impl; [|exact Hx]. auto.
Qed.

(** ** Ranks by counting *)

Lemma sort_insert_ext {A} (c1 c2 : A -> A -> Z) x l :
  (forall y, y ∈ l -> c1 x y = c2 x y) -> sort_insert c1 x l = sort_insert c2 x l.
Proof.
  induction l as [|y l IH]; intros H; simpl; [done|].
  rewrite (H y) by set_solver. rewrite IH by (intros; apply H; set_solver). done.
Qed.

Lemma js_sort_ext {A} (c1 c2 : A -> A -> Z) l :
  (forall x y, x ∈ l -> y ∈ l -> c1 x y = c2 x y) -> js_sort c1 l = js_sort c2 l.
Proof.
  induction l as [|x l IH]; intros H; simpl; [done|].
  rewrite IH by (intros; apply H; set_solver). apply sort_insert_ext.
  intros y Hy. rewrite js_sort_perm in Hy. apply H; set_solver.
Qed.

(** How many elements come before [x]. *)
Definition ahead {A} (cmp : A -> A -> Z) (l : list A) (x : A) : nat :=
  length (bfilter (fun y => cmp y x <? 0) l).

Lemma ahead_perm {A} (cmp : A -> A -> Z) l l' x : l ≡ₚ l' -> ahead cmp l x = ahead cmp l' x.
Proof.
  unfold ahead. induction 1 as [|y l l' _ IH|y z l|l1 l2 l3 _ IH1 _ IH2]; simpl; [done| | |by etrans].
  - destruct (cmp y x <? 0); simpl; by rewrite IH.
  - by destruct (cmp y x <? 0), (cmp z x <? 0).
Qed.

Lemma bfilter_none {A} (p : A -> bool) l : (forall x, x ∈ l -> p x = false) -> bfilter p l = [].
Proof.
  induction l as [|x l IH]; intros H; simpl; [done|].
  rewrite H by set_solver. apply IH. intros; apply H; set_solver.
Qed.

(** In a strictly sorted list the place of an element is the number of those
    ahead of it. *)
Lemma sorted_place {A} (cmp : A -> A -> Z) l i x :
  StronglySorted (fun a b => cmp a b < 0) l -> (forall a b, cmp a b < 0 -> ~ cmp b a < 0) ->
  l !! i = Some x -> ahead cmp l x = i.
Proof.
  intros Hl Hanti. revert i. induction Hl as [|y l Hl IH Hy]; intros i Hi; [done|].
  rewrite List.Forall_forall in Hy. unfold ahead. simpl. destruct i as [|i]; simpl in Hi.
  - injection Hi as ->. destruct (Z.ltb_spec (cmp x x) 0) as [H|_]; [by destruct (Hanti _ _ H)|].
    rewrite bfilter_none; [done|]. intros z Hz. apply Z.ltb_ge.
    apply list_elem_of_In, Hy in Hz. specialize (Hanti _ _ Hz). lia.
  - assert (Hx : x ∈ l) by by eapply list_elem_of_lookup_2.
    apply list_elem_of_In, Hy in Hx. rewrite (proj2 (Z.ltb_lt _ _)) by done. simpl.
    f_equal. by apply IH.
Qed.

Lemma strictly_sorted {A} (cmp : A -> A -> Z) l :
  StronglySorted (le_of cmp) l -> NoDup l ->
  (forall a b, a ∈ l -> b ∈ l -> a <> b -> cmp a b <> 0) ->
  StronglySorted (fun a b => cmp a b < 0) l.
Proof.
  induction 1 as [|y l Hl IH Hy]; intros Hn Hd; [constructor|].
  apply list.NoDup_cons in Hn as [Hyl Hn]. constructor.
  - apply IH; [done|]. intros a b Ha Hb. apply Hd; set_solver.
  - apply List.Forall_forall. intros z Hz. rewrite List.Forall_forall in Hy.
    specialize (Hy z Hz). apply list_elem_of_In in Hz. unfold le_of in Hy.
    assert (cmp y z <> 0); [|lia]. apply Hd; set_solver.
Qed.

(** A sort by a consistent comparison that tells the elements apart puts each in the
    place that counting gives. *)
Lemma sorted_by_counting {A} (cmp : A -> A -> Z) `{!Comparator cmp, !Antisymmetric cmp} l i x :
  NoDup l -> (forall a b, a ∈ l -> b ∈ l -> a <> b -> cmp a b <> 0) ->
  js_sort cmp l !! i = Some x <-> x ∈ l /\ ahead cmp l x = i.
Proof.
  intros Hn Hd.
  assert (Hplace : forall j y, js_sort cmp l !! j = Some y -> ahead cmp l y = j).
  { intros j y Hj. rewrite <- (ahead_perm cmp _ _ y (js_sort_perm cmp l)).
    apply sorted_place; [| |done].
    - apply strictly_sorted; [apply js_sort_sorted, _|by rewrite js_sort_perm|].
      intros a b. rewrite !js_sort_perm. apply Hd.
    - intros a b. pose proof (cmp_anti (cmp := cmp) a b). lia. }
  split.
  - intros Hi. split; [|by apply Hplace].
    rewrite <- (js_sort_perm cmp l). by eapply list_elem_of_lookup_2.
  - intros [Hx <-]. rewrite <- (js_sort_perm cmp l) in Hx.
    apply list_elem_of_lookup in Hx as [j Hj]. by rewrite (Hplace _ _ Hj).
Qed.

Lemma sorted_perm_unique {A} (cmp : A -> A -> Z) l l' :
  (forall a b, cmp a b <= 0 -> cmp b a <= 0 -> a = b) ->
  l ≡ₚ l' -> StronglySorted (le_of cmp) l -> StronglySorted (le_of cmp) l' -> l = l'.
Proof.
  intros Hanti. revert l'. induction l as [|x l IH]; intros l' Hp Hs Hs'.
  - by apply Permutation_nil_l in Hp.
  - destruct l' as [|y l']; [by apply Permutation_nil_r in Hp|].
    apply StronglySorted_inv in Hs as [Hs Hx], Hs' as [Hs' Hy].
    rewrite List.Forall_forall in Hx, Hy.
    assert (Hxy : x = y).
    { assert (H1 : x ∈ y :: l') by (rewrite <- Hp; left). assert (H2 : y ∈ x :: l) by (rewrite Hp; left).
      apply elem_of_cons in H1 as [H1|H1]; [done|]. apply elem_of_cons in H2 as [H2|H2]; [done|].
      apply list_elem_of_In in H1, H2. by apply Hanti; [apply Hx|apply Hy]. }
    subst. f_equal. apply IH; [|done..]. by apply Permutation_cons_inv in Hp.
Qed.

Lemma strict_perm_unique {A} (R : A -> A -> Prop) l l' :
  (forall a b, R a b -> R b a -> False) ->
  l ≡ₚ l' -> StronglySorted R l -> StronglySorted R l' -> l = l'.
Proof.
  intros Hanti. revert l'. induction l as [|x l IH]; intros l' Hp Hs Hs'.
  - by apply Permutation_nil_l in Hp.
  - destruct l' as [|y l']; [by apply Permutation_nil_r in Hp|].
    apply StronglySorted_inv in Hs as [Hs Hx], Hs' as [Hs' Hy].
    rewrite List.Forall_forall in Hx, Hy.
    assert (Hxy : x = y).
    { assert (H1 : x ∈ y :: l') by (rewrite <- Hp; left). assert (H2 : y ∈ x :: l) by (rewrite Hp; left).
      apply elem_of_cons in H1 as [H1|H1]; [done|]. apply elem_of_cons in H2 as [H2|H2]; [done|].
      apply list_elem_of_In in H1, H2. exfalso. by apply (Hanti x y); [apply Hx|apply Hy]. }
    subst. f_equal. apply IH; [|done..]. by apply Permutation_cons_inv in Hp.
Qed.

(** [cmp(a, b) * -1]. *)
Definition opposite {A} (cmp : A -> A -> Z) (a b : A) : Z := cmp a b * -1.

#[global] Typeclasses Opaque opposite.

#[export] Instance opposite_comparator {A} (cmp : A -> A -> Z) `{!Comparator cmp, !Antisymmetric cmp} :
  Comparator (opposite cmp).
Proof.
  split; unfold opposite.
  - intros x y. pose proof (cmp_anti (cmp := cmp) x y). lia.
  - intros x y z. pose proof (cmp_anti (cmp := cmp) x y). pose proof (cmp_anti (cmp := cmp) y z).
    pose proof (cmp_anti (cmp := cmp) x z). pose proof (cmp_trans cmp z y x). lia.
Qed.

Lemma sorted_reverse {A} (R : A -> A -> Prop) l :
  StronglySorted R l -> StronglySorted (fun a b => R b a) (reverse l).
Proof.
  induction 1 as [|x l Hl IH Hx]; [constructor|]. rewrite reverse_cons.
  assert (Hx' : forall y, y ∈ reverse l -> R x y).
  { intros y Hy. rewrite elem_of_reverse in Hy. apply list_elem_of_In in Hy.
    by apply (proj1 (List.Forall_forall _ _) Hx). }
  clear Hl Hx. induction IH as [|y l' Hl' IH' Hy]; simpl; [by repeat constructor|].
  constructor; [apply IH'; intros; apply Hx'; set_solver|].
  apply List.Forall_app. split; [done|]. constructor; [apply Hx'; set_solver|constructor].
Qed.

(** When the values differ, the other direction is the reverse order. *)
Lemma sort_opposite {A} (cmp : A -> A -> Z) `{!Comparator cmp, !Antisymmetric cmp} l :
  NoDup l -> (forall a b, a ∈ l -> b ∈ l -> a <> b -> cmp a b <> 0) ->
  js_sort (opposite cmp) l = reverse (js_sort cmp l).
Proof.
  intros Hn Hd. assert (Hs : forall c, Comparator c -> (forall a b, a ∈ l -> b ∈ l -> a <> b -> c a b <> 0) ->
    StronglySorted (fun a b => c a b < 0) (js_sort c l)).
  { intros c Hc Hd'. apply strictly_sorted; [apply js_sort_sorted, Hc|by rewrite js_sort_perm|].
    intros a b. rewrite !js_sort_perm. apply Hd'. }
  apply (strict_perm_unique (fun a b => cmp b a < 0)).
  - intros a b. pose proof (cmp_anti (cmp := cmp) a b). lia.
  - by rewrite reverse_Permutation, !js_sort_perm.
  - eapply StronglySorted_weaken; [|apply (Hs (opposite cmp)); [apply _|]].
    + unfold opposite. intros a b. pose proof (cmp_anti (cmp := cmp) a b). lia.
    + unfold opposite. intros a b Ha Hb Hne. pose proof (Hd a b Ha Hb Hne). lia.
  - by apply sorted_reverse, Hs.
Qed.

(** ** [Array.from(new Set(values))] *)

Section Distinct.
Context {A : Type} `{EqDecision A}.

Definition distinct (values : list A) : list A := fold_left oset_add values [].

Lemma distinct_from (s values : list A) :
  NoDup s -> NoDup (fold_left oset_add values s) /\
  forall x, x ∈ fold_left oset_add values s <-> x ∈ s \/ x ∈ values.
Proof.
  revert s. induction values as [|v values IH]; intros s Hs; simpl; [split; [done|set_solver]|].
  destruct (IH (oset_add s v)) as [H1 H2]; [by apply oset_add_NoDup|]. split; [done|].
  intros x. rewrite H2, elem_of_oset_add. set_solver.
Qed.

Lemma distinct_NoDup values : NoDup (distinct values).
Proof. apply distinct_from. constructor. Qed.

Lemma elem_of_distinct values x : x ∈ distinct values <-> x ∈ values.
Proof. unfold distinct. rewrite (proj2 (distinct_from [] values (NoDup_nil_2))). set_solver. Qed.

(** Sorted, it is the strictly increasing list of the values. *)
Lemma sorted_distinct (cmp : A -> A -> Z) `{!Comparator cmp} values :
  (forall a b, a <> b -> cmp a b <> 0) ->
  StronglySorted (fun a b => cmp a b < 0) (js_sort cmp (distinct values)).
Proof.
  intros H. apply strictly_sorted; [apply js_sort_sorted, _| |auto].
  rewrite js_sort_perm. apply distinct_NoDup.
Qed.

(** How often a value occurs. *)
Definition occurrences (x : A) (values : list A) : Z :=
  Z.of_nat (length (bfilter (fun y => bool_decide (y = x)) values)).

Lemma occurrences_app x l1 l2 : occurrences x (l1 ++ l2) = occurrences x l1 + occurrences x l2.
Proof. unfold occurrences. rewrite bfilter_app, length_app. lia. Qed.

Lemma occurrences_one x y : occurrences x [y] = if decide (y = x) then 1 else 0.
Proof. unfold occurrences. simpl. case_bool_decide; case_decide; done. Qed.

Lemma occurrences_pos x values : 0 < occurrences x values <-> x ∈ values.
Proof.
  induction values as [|y values IH]; [split; [done|by intros ?%elem_of_nil]|].
  change (y :: values) with ([y] ++ values). rewrite occurrences_app, occurrences_one, elem_of_app, <- IH.
  assert (0 <= occurrences x values) by (unfold occurrences; lia).
  case_decide; subst; set_solver by lia.
Qed.
End Distinct.

(** ** [Map] *)

Section Map.
Context {K V : Type} `{EqDecision K}.

Definition map_get (m : list (K * V)) (k : K) : option V :=
  snd <$> find_first (fun e => bool_decide (e.1 = k)) m.

Fixpoint map_set (m : list (K * V)) (k : K) (v : V) : list (K * V) :=
  match m with
  | [] => [(k, v)]
  | e :: rest => if bool_decide (e.1 = k) then (k, v) :: rest else e :: map_set rest k v
  end.

Lemma map_get_cons e m k :
  map_get (e :: m) k = if bool_decide (e.1 = k) then Some e.2 else map_get m k.
Proof. unfold map_get. simpl. by case_bool_decide. Qed.

#[local] Arguments map_get : simpl never.

Lemma map_get_set m k v k' :
  map_get (map_set m k v) k' = if bool_decide (k = k') then Some v else map_get m k'.
Proof.
  induction m as [|e m IH]; simpl; [by rewrite map_get_cons|].
  destruct (bool_decide_reflect (e.1 = k)); rewrite !map_get_cons; [subst; simpl; by case_bool_decide|].
  rewrite IH. repeat case_bool_decide; congruence.
Qed.

Lemma keys_set m k v : (map_set m k v).*1 = oset_add (m.*1) k.
Proof.
  induction m as [|e m IH]; [done|]. unfold oset_add in *. csimpl.
  case_bool_decide as He; csimpl.
  - rewrite decide_True by set_solver. by rewrite He.
  - rewrite IH. case_decide; [rewrite decide_True by set_solver|rewrite decide_False by set_solver]; done.
Qed.

Lemma map_get_None m k : map_get m k = None <-> k ∉ m.*1.
Proof.
  induction m as [|e m IH]; [split; [intros _; apply not_elem_of_nil|done]|].
  rewrite map_get_cons. csimpl. case_bool_decide; [|rewrite IH]; set_solver.
Qed.

Lemma map_get_elem m k v : NoDup (m.*1) -> map_get m k = Some v <-> (k, v) ∈ m.
Proof.
  induction m as [|e m IH]; csimpl; [intros _; split; [done|by intros ?%elem_of_nil]|].
  intros [Hn Hm]%list.NoDup_cons. rewrite map_get_cons, elem_of_cons. case_bool_decide as He.
  - destruct e as [k' v']; csimpl in *; subst k'. split; [intros [= ->]; by left|].
    intros [[= ->]|Hin]; [done|]. destruct Hn. apply list_elem_of_fmap. by exists (k, v).
  - rewrite IH by done. split; [by right|]. intros [[= <-]|?]; done.
Qed.
End Map.

(** ** Counting labels *)

Section Tally.
Context {A : Type} `{EqDecision A}.

(** [counts.set(label, (counts.get(label) ?? 0) + 1)]. *)
Definition count_up (counts : list (A * Z)) (label : A) : list (A * Z) :=
  map_set counts label ((map_get counts label ?? 0) + 1).

Definition tally (labels : list A) : list (A * Z) := fold_left count_up labels [].

Lemma tally_snoc labels label : tally (labels ++ [label]) = count_up (tally labels) label.
Proof. unfold tally. by rewrite fold_left_app. Qed.

Lemma tally_keys labels : (tally labels).*1 = distinct labels.
Proof.
  induction labels as [|l labels IH] using rev_ind; [done|]. rewrite tally_snoc. unfold count_up.
  rewrite keys_set, IH. unfold distinct. by rewrite fold_left_app.
Qed.

Lemma tally_NoDup labels : NoDup ((tally labels).*1).
Proof. rewrite tally_keys. apply distinct_NoDup. Qed.

Lemma tally_count labels x : map_get (tally labels) x ?? 0 = occurrences x labels.
Proof.
  induction labels as [|l labels IH] using rev_ind; [done|].
  rewrite tally_snoc, occurrences_app, occurrences_one. unfold count_up. rewrite map_get_set.
  case_bool_decide as H; case_decide; try congruence; subst; simpl; lia.
Qed.

(** An entry is a label that occurs, with how often it does. *)
Lemma elem_of_tally labels x n : (x, n) ∈ tally labels <-> x ∈ labels /\ n = occurrences x labels.
Proof.
  rewrite <- map_get_elem by apply tally_NoDup. pose proof (tally_count labels x) as Hc. split.
  - intros H. rewrite H in Hc. simpl in Hc. split; [|done]. rewrite <- elem_of_distinct, <- tally_keys.
    apply list_elem_of_fmap. exists (x, n). split; [done|]. by apply map_get_elem; [apply tally_NoDup|].
  - intros [Hx ->]. destruct (map_get (tally labels) x) as [m|] eqn:E; simpl in Hc; [by subst|].
    apply map_get_None in E. rewrite tally_keys, elem_of_distinct in E. done.
Qed.
End Tally.

(** The larger counts first, then the labels. *)
Definition by_count (localeCompare : string -> string -> Z) : string * Z -> string * Z -> Z :=
  then_by (flipped (on snd ascending)) (on fst localeCompare).

#[export] Instance by_count_comparator localeCompare `{!Collation localeCompare} :
  Comparator (by_count localeCompare).
Proof. unfold by_count. apply _. Qed.

#[export] Instance by_count_anti localeCompare `{!Collation localeCompare} :
  Antisymmetric (by_count localeCompare).
Proof. unfold by_count. apply _. Qed.

(** The first [n] of a count of labels: in place [i] the label with exactly [i] labels
    ahead of it, with the number of times that it occurs. *)
Lemma top_counts localeCompare `{!Collation localeCompare} n labels i x m :
  (forall a b, a ∈ labels -> b ∈ labels -> a <> b -> localeCompare a b <> 0) ->
  take n (js_sort (by_count localeCompare) (tally labels)) !! i = Some (x, m) <->
  x ∈ labels /\ m = occurrences x labels /\ (i < n)%nat /\
  ahead (by_count localeCompare) (tally labels) (x, m) = i.
Proof.
  intros Hd. rewrite lookup_take_Some, (sorted_by_counting (by_count localeCompare)).
  - rewrite elem_of_tally. tauto.
  - apply (NoDup_fmap_1 fst), tally_NoDup.
  - intros [a p] [b q] [Ha ->]%elem_of_tally [Hb ->]%elem_of_tally Hne.
    unfold by_count, then_by, flipped, on, ascending. simpl. case_bool; boolify; [|lia].
    apply Hd; [done..|]. by intros ->.
Qed.
