(* ===== verification/DashboardUtils.v ===== *)
(** * Feed paging and realtime merging ([lib/dashboard-utils.ts])

    The integer filters of the dashboards, the feed pages, the arithmetic of
    page offsets and the merge of a streamed page into the page on screen. *)

From S2P Require Import Prelude JsString JsNumber.

(** ** Integer filters *)

(** [raw] is [None] for a null; the result is [None] for undefined. *)
Definition parsePositiveInteger (raw : option string) (fallback : option Z) (max : Z)
    : option Z :=
  match raw with
  | None => fallback
  | Some r =>
      if is_empty r then fallback
      else match parse_int r with
           | None => fallback
           | Some parsed =>
               if parsed <=? 0 then fallback
               else if (max >? 0) && (parsed >? max) then Some max
               else Some parsed
           end
  end.

Definition parseNonNegativeInteger (raw : option string) : option Z :=
  match raw with
  | None => None
  | Some r =>
      if is_empty r then None
      else match parse_int r with
           | None => None
           | Some parsed => if parsed <? 0 then None else Some parsed
           end
  end.

(** ** Feed pages *)

(** [BaseAttackFeedPage], and the other pages of the dashboards. *)
Record Page (T : Type) := mkPage {
  items : list T;
  limit : Z;
  offset : Z;
  total_count : Z;
  has_prev : bool;
  has_next : bool
}.
Arguments mkPage {T}.
Arguments items {T}.
Arguments limit {T}.
Arguments offset {T}.
Arguments total_count {T}.
Arguments has_prev {T}.
Arguments has_next {T}.

(** ** Attack filters *)

Record AttackFilters := mkAttackFilters {
  f_limit : string;
  f_offset : string;
  f_attacker : string;
  f_victim : string;
  f_service : string;
  f_tickFrom : string;
  f_tickTo : string
}.

#[export] Instance AttackFilters_eq_dec : EqDecision AttackFilters.
Proof. solve_decision. Defined.

(** [{ ...filters, offset }]. *)
Definition with_offset (o : string) (f : AttackFilters) : AttackFilters :=
  mkAttackFilters (f_limit f) o (f_attacker f) (f_victim f) (f_service f)
    (f_tickFrom f) (f_tickTo f).

Definition isDefaultAttackFilters (filters defaults : AttackFilters) : bool :=
  String.eqb (f_limit filters) (f_limit defaults) &&
  String.eqb (f_offset filters) (f_offset defaults) &&
  String.eqb (f_attacker filters) (f_attacker defaults) &&
  String.eqb (f_victim filters) (f_victim defaults) &&
  String.eqb (f_service filters) (f_service defaults) &&
  String.eqb (f_tickFrom filters) (f_tickFrom defaults) &&
  String.eqb (f_tickTo filters) (f_tickTo defaults).

(** The loop body of [buildAttackFilterOptions]: the trimmed label is added
    when it is not blank. *)
Definition add_label (values : list string) (candidate : string) : list string :=
  if blank candidate then values else oset_add values (trim candidate).

(** [localeCompare] is the collation of the host. *)
Definition buildAttackFilterOptions (localeCompare : string -> string -> Z)
    (candidates : list string) (current : string) : list string :=
  let values := fold_left add_label candidates [] in
  js_sort localeCompare (add_label values current).

(** ** Page offsets *)

Inductive Direction := Prev | Next.

Definition computePageOffset (filters : AttackFilters) (direction : Direction)
    (defaultLimit maxLimit : Z) : AttackFilters :=
  let lim := parsePositiveInteger (Some (f_limit filters)) (Some defaultLimit) maxLimit
             ?? defaultLimit in
  let currentOffset := parseNonNegativeInteger (Some (f_offset filters)) ?? 0 in
  let nextOffset :=
    match direction with
    | Prev => Some (Z.max 0 (js_sub currentOffset lim ?? 0))
    | Next => js_add currentOffset lim
    end in
  with_offset (sum_to_string nextOffset) filters.

(** ** Realtime merge *)

Section Feed.
Context {T : Type} (id : T -> string).

(** The ids of [nextPage] that are not on the current page, at most four. *)
Definition collectNewAttackIDs (currentPage nextPage : Page T) : list string :=
  let currentIDs := id <$> items currentPage in
  take 4 (id <$> bfilter (fun item => negb (bool_decide (id item ∈ currentIDs)))
                   (items nextPage)).

(** The merge loop: [merged] is [mergedItems], [seen] is [seenIDs]. *)
Fixpoint merge_loop (lim : Z) (current merged : list T) (seen : gset string) : list T :=
  match current with
  | [] => merged
  | item :: rest =>
      if decide (id item ∈ seen) then merge_loop lim rest merged seen
      else
        let merged' := merged ++ [item] in
        if Z.of_nat (length merged') >=? lim then merged'
        else merge_loop lim rest merged' ({[id item]} ∪ seen)
  end.

Definition mergeRealtimeAttackPage (currentPage streamedPage : Page T)
    (requestedLimit : string) : Page T :=
  let lim := parsePositiveInteger (Some requestedLimit) (Some (limit streamedPage)) 0
             ?? limit streamedPage in
  if lim <=? limit streamedPage then streamedPage
  else
    let mergedItems :=
      merge_loop lim (items currentPage) (items streamedPage)
        (list_to_set (id <$> items streamedPage)) in
    mkPage mergedItems lim (offset streamedPage) (total_count streamedPage)
      (has_prev streamedPage)
      (total_count streamedPage >? Z.of_nat (length mergedItems)).

(** The message handler: [None] when the handler has no effect (not live, or a
    malformed frame, [data = None]); otherwise the page to show and the ids to
    highlight, none of which are scheduled when the list is empty. *)
Definition handleRealtimeAttackMessage (isLive : bool) (currentPage : Page T)
    (limitStr : string) (data : option (Page T)) : option (Page T * list string) :=
  if negb isLive then None
  else match data with
       | None => None
       | Some nextPage =>
           let mergedPage := mergeRealtimeAttackPage currentPage nextPage limitStr in
           Some (mergedPage, collectNewAttackIDs currentPage mergedPage)
       end.

(** ** Lemmas on the merge *)

Lemma merge_loop_prefix lim current merged seen :
  exists extra, merge_loop lim current merged seen = merged ++ extra /\
                extra `sublist_of` current.
Proof.
  revert merged seen. induction current as [|x l IH]; intros merged seen; simpl.
  - exists []. by rewrite app_nil_r.
  - case_decide.
    + destruct (IH merged seen) as (e & -> & He). exists e. split; [done|]. by constructor.
    + case_bool.
      * exists [x]. split; [done|]. constructor. apply sublist_nil_l.
      * destruct (IH (merged ++ [x]) ({[id x]} ∪ seen)) as (e & -> & He).
        exists (x :: e). rewrite <-app_assoc. split; [done|]. by constructor.
Qed.

Lemma merge_loop_NoDup lim current merged seen :
  NoDup (id <$> merged) -> (forall x, x ∈ merged -> id x ∈ seen) ->
  NoDup (id <$> merge_loop lim current merged seen).
Proof.
  revert merged seen. induction current as [|x l IH]; intros merged seen Hm Hs; simpl; [done|].
  case_decide as Hx; [by apply IH|].
  assert (Hn : NoDup (id <$> merged ++ [x])).
  { rewrite fmap_app. apply list.NoDup_app. split_and!; [done| |apply NoDup_singleton].
    intros y (z & -> & Hz)%list_elem_of_fmap [Hi|Hi]%elem_of_cons; [|set_solver].
    apply Hx. rewrite <-Hi. by apply Hs. }
  case_bool; [done|]. apply IH; [done|].
  intros y [Hy|Hy]%elem_of_app; [set_solver|].
  apply list_elem_of_singleton in Hy as ->. set_solver.
Qed.

Lemma merge_loop_length lim current merged seen :
  Z.of_nat (length (merge_loop lim current merged seen)) <=
  Z.max lim (Z.of_nat (length merged) + 1).
Proof.
  revert merged seen. induction current as [|x l IH]; intros merged seen; simpl; [lia|].
  case_decide; [apply IH|].
  pose proof (length_app merged [x]) as Hl. simpl in Hl.
  destruct (Z.of_nat (length (merged ++ [x])) >=? lim) eqn:E; [lia|].
  rewrite IH, Hl. rewrite Z.geb_leb in E. boolify. lia.
Qed.

(** Unless the limit was reached, every current row is still on the page. *)
Lemma merge_loop_complete lim current merged seen x :
  (forall y, id y ∈ seen -> id y ∈ id <$> merged) ->
  Z.of_nat (length (merge_loop lim current merged seen)) < lim ->
  x ∈ current -> id x ∈ id <$> merge_loop lim current merged seen.
Proof.
  revert merged seen. induction current as [|y l IH]; intros merged seen Hs Hl Hx; simpl in *;
    [set_solver|].
  case_decide as Hy.
  - apply elem_of_cons in Hx as [->|Hx]; [|by apply IH].
    destruct (merge_loop_prefix lim l merged seen) as (e & -> & _).
    rewrite fmap_app, elem_of_app. left. by apply Hs.
  - destruct (Z.of_nat (length (merged ++ [y])) >=? lim) eqn:E.
    { rewrite Z.geb_leb in E. boolify. lia. }
    apply elem_of_cons in Hx as [->|Hx].
    + destruct (merge_loop_prefix lim l (merged ++ [y]) ({[id y]} ∪ seen)) as (e & -> & _).
      rewrite !fmap_app. set_solver.
    + apply IH; [|done..]. intros z Hz. rewrite fmap_app. set_solver.
Qed.
End Feed.

(** ** Integer filters: bounds *)

(** Whatever the query says, a parsed limit is the fallback or lies in
    [1, max]. *)
Lemma parsePositiveInteger_range raw fallback max n :
  0 < max -> parsePositiveInteger raw fallback max = Some n ->
  fallback = Some n \/ 1 <= n <= max.
Proof.
  intros Hm. unfold parsePositiveInteger.
  destruct raw as [r|]; [|by left]. destruct (is_empty r); [by left|].
  destruct (parse_int r) as [v|]; [|by left].
  destruct (v <=? 0) eqn:E1; [by left|]. boolify.
  destruct ((max >? 0) && (v >? max)) eqn:E2; intros [= <-]; right; [lia|].
  apply andb_false_iff in E2 as [E2|E2]; rewrite Z.gtb_ltb in E2; boolify; lia.
Qed.

Lemma parsePositiveInteger_lower raw fallback n :
  parsePositiveInteger raw fallback 0 = Some n -> fallback = Some n \/ 1 <= n.
Proof.
  unfold parsePositiveInteger.
  destruct raw as [r|]; [|by left]. destruct (is_empty r); [by left|].
  destruct (parse_int r) as [v|]; [|by left].
  destruct (v <=? 0) eqn:E1; [by left|]. boolify. simpl. intros [= <-]. right. lia.
Qed.

Lemma num_to_string_nonempty n : safe n -> is_empty (num_to_string n) = false.
Proof.
  intros Hs. destruct (is_empty (num_to_string n)) eqn:E; [|done].
  apply is_empty_spec in E. pose proof (parse_int_num_to_string n Hs) as H.
  rewrite E in H. done.
Qed.

Lemma parsePositiveInteger_num n fallback max :
  safe n -> 1 <= n -> max = 0 \/ n <= max ->
  parsePositiveInteger (Some (num_to_string n)) fallback max = Some n.
Proof.
  intros Hs Hn Hm. unfold parsePositiveInteger.
  rewrite num_to_string_nonempty, parse_int_num_to_string by done.
  rewrite (proj2 (Z.leb_gt n 0)) by lia.
  destruct ((max >? 0) && (n >? max)) eqn:E; [|done].
  apply andb_true_iff in E as [E1 E2]. rewrite Z.gtb_ltb in E1, E2. boolify. lia.
Qed.

Lemma parseNonNegativeInteger_num n :
  safe n -> 0 <= n -> parseNonNegativeInteger (Some (num_to_string n)) = Some n.
Proof.
  intros Hs Hn. unfold parseNonNegativeInteger.
  rewrite num_to_string_nonempty, parse_int_num_to_string by done.
  by rewrite (proj2 (Z.ltb_ge n 0)) by lia.
Qed.

Lemma parseNonNegativeInteger_nonneg raw n :
  parseNonNegativeInteger raw = Some n -> 0 <= n.
Proof.
  unfold parseNonNegativeInteger. destruct raw as [r|]; [|done].
  destruct (is_empty r); [done|]. destruct (parse_int r); [|done].
  case_bool; [done|]. boolify. congruence.
Qed.

Lemma page_limit_range f d m :
  1 <= d <= m ->
  1 <= (parsePositiveInteger (Some (f_limit f)) (Some d) m ?? d) <= m.
Proof.
  intros Hd. destruct (parsePositiveInteger _ _ _) as [n|] eqn:E; simpl; [|lia].
  apply parsePositiveInteger_range in E as [[= <-]|?]; lia.
Qed.

(** ** Properties *)

(** C9: what a streamed page of attacks becomes, when it has no duplicate row and at most
    as many rows as its own limit.  If the screen asks for no more rows than the
    streamed page may hold, the screen shows the streamed page, and the rows of before
    that it lacks are gone.  If it asks for more, it shows the streamed rows first and
    then rows of before in their order, no row twice and at most as many as it asked
    for; and as long as there is room left, none of before is gone. *)
Theorem mergeRealtimeAttackPage_correct {T} (id : T -> string)
    (currentPage streamedPage : Page T) (requestedLimit : string) :
  NoDup (id <$> items streamedPage) ->
  Z.of_nat (length (items streamedPage)) <= limit streamedPage ->
  let asked := parsePositiveInteger (Some requestedLimit) (Some (limit streamedPage)) 0
                 ?? limit streamedPage in
  let m := mergeRealtimeAttackPage id currentPage streamedPage requestedLimit in
  NoDup (id <$> items m) /\
  Z.of_nat (length (items m)) <= limit m /\
  (exists extra, items m = items streamedPage ++ extra /\ extra `sublist_of` items currentPage) /\
  (asked <= limit streamedPage -> m = streamedPage) /\
  (limit streamedPage < asked ->
   limit m = asked /\
   (Z.of_nat (length (items m)) < asked -> forall x, x ∈ items currentPage -> id x ∈ id <$> items m)).
Proof.
  intros Hnd Hlen asked m. subst m. unfold mergeRealtimeAttackPage. fold asked.
  destruct (asked <=? limit streamedPage) eqn:E; boolify.
  { split_and!; [done|done| |done|lia]. exists []. rewrite app_nil_r.
    split; [done|apply sublist_nil_l]. }
  cbn [items limit].
  set (seen := list_to_set (id <$> items streamedPage) : gset string).
  destruct (merge_loop_prefix id asked (items currentPage) (items streamedPage) seen)
    as (extra & Hm & Hsub).
  split_and!.
  - apply merge_loop_NoDup; [done|]. intros x Hx. apply elem_of_list_to_set. set_solver.
  - pose proof (merge_loop_length id asked (items currentPage) (items streamedPage) seen). lia.
  - rewrite Hm. by exists extra.
  - lia.
  - intros _. split; [done|]. intros Hl x Hx. apply merge_loop_complete; [|done..].
    intros y Hy. by apply elem_of_list_to_set in Hy.
Qed.

Lemma mergeRealtimeAttackPage_correct_witness :
  let cur := mkPage ["c"; "b"; "a"]%string 3 0 3 false false in
  let str := mkPage ["d"; "c"]%string 2 0 4 false true in
  items (mergeRealtimeAttackPage (fun x => x) cur str "3") = ["d"; "c"; "b"]%string /\
  NoDup ((fun x : string => x) <$> items (mergeRealtimeAttackPage (fun x => x) cur str "3")).
Proof.
  intros cur str. split; [vm_compute; reflexivity|].
  refine (proj1 (mergeRealtimeAttackPage_correct (fun x => x) cur str "3" _ _)).
  - apply (bool_decide_unpack _). vm_compute. exact I.
  - vm_compute. discriminate.
Defined.

(** The handler highlights at most four rows, each of them a row of the
    frame that was not on the screen, and a frame is dropped exactly when the
    feed is not live or the frame is malformed. *)
Theorem handleRealtimeAttackMessage_highlights {T} (id : T -> string) isLive
    (currentPage : Page T) limitStr data :
  match handleRealtimeAttackMessage id isLive currentPage limitStr data with
  | None => isLive = false \/ data = None
  | Some (page, ids) =>
      exists frame, data = Some frame /\ isLive = true /\
      (length ids <= 4)%nat /\
      forall i, i ∈ ids -> i ∈ id <$> items frame /\ i ∉ id <$> items currentPage
  end.
Proof.
  unfold handleRealtimeAttackMessage. destruct isLive; simpl; [|by left].
  destruct data as [frame|]; [|by right]. exists frame. split_and!; [done..| |].
  { unfold collectNewAttackIDs. rewrite length_take. lia. }
  intros i Hi. unfold collectNewAttackIDs in Hi.
  assert (Hi' : i ∈ id <$> bfilter (fun item => negb (bool_decide (id item ∈ id <$> items currentPage)))
                     (items (mergeRealtimeAttackPage id currentPage frame limitStr))).
  { rewrite <-(take_drop 4). apply elem_of_app. by left. }
  apply list_elem_of_fmap in Hi' as (x & -> & [Hx Hin]%elem_of_bfilter).
  apply negb_true_iff, bool_decide_eq_false in Hx. split; [|done].
  unfold mergeRealtimeAttackPage in Hin. case_bool_in Hin.
  { apply list_elem_of_fmap. eauto. }
  cbn [items] in Hin.
  match type of Hin with context [merge_loop _ ?l ?c ?m ?s] =>
    destruct (merge_loop_prefix id l c m s) as (e & Hm & Hsub); rewrite Hm in Hin end.
  apply elem_of_app in Hin as [Hin|Hin]; apply list_elem_of_fmap; [eauto|].
  exfalso. apply Hx, list_elem_of_fmap. exists x. split; [done|]. by eapply elem_of_sublist.
Qed.

(** Paging forward and then back returns to the page one came from, for
    every limit text (parsed, clamped to [maxLimit] or defaulted) and every
    offset the doubles hold exactly. *)
Theorem computePageOffset_next_prev filters d m o :
  1 <= d <= m -> f_offset filters = num_to_string o -> 0 <= o -> o + m < 2 ^ 53 ->
  computePageOffset (computePageOffset filters Next d m) Prev d m = filters.
Proof.
  intros Hd Ho Hpos Hsafe. unfold computePageOffset.
  pose proof (page_limit_range filters d m Hd) as Hlim.
  cbn [f_limit f_offset with_offset]. rewrite Ho.
  rewrite parseNonNegativeInteger_num by (unfold safe; lia). cbn [default id].
  set (lim := _ ?? d) in *.
  unfold js_add. rewrite round_double_safe by (unfold safe; lia). cbn [sum_to_string].
  rewrite parseNonNegativeInteger_num by (unfold safe; lia). cbn [default id].
  unfold js_sub. rewrite round_double_safe by (unfold safe; lia). cbn [default id].
  replace (Z.max 0 (o + lim - lim)) with o by lia.
  destruct filters; cbn in *. by subst.
Qed.

Lemma computePageOffset_next_prev_witness :
  let f := mkAttackFilters "25" "50" "" "" "" "" "" in
  f_offset (computePageOffset f Next 12 200) = "75"%string /\
  computePageOffset (computePageOffset f Next 12 200) Prev 12 200 = f.
Proof.
  intros f. split; [vm_compute; reflexivity|].
  apply (computePageOffset_next_prev f 12 200 50);
    [lia|vm_compute; reflexivity|lia|reflexivity].
Defined.

Section FilterOptions.
Context (localeCompare : string -> string -> Z) `{!Comparator localeCompare}.

Lemma add_label_elem values c x :
  x ∈ add_label values c <-> x ∈ values \/ (blank c = false /\ x = trim c).
Proof.
  unfold add_label. destruct (blank c).
  - split; [by left|]. by intros [?|[? _]].
  - rewrite elem_of_oset_add. naive_solver.
Qed.

Lemma add_label_NoDup values c : NoDup values -> NoDup (add_label values c).
Proof. unfold add_label. destruct (blank c); [done|]. apply oset_add_NoDup. Qed.

Lemma fold_labels candidates values x :
  x ∈ fold_left add_label candidates values <->
  x ∈ values \/ exists c, c ∈ candidates /\ blank c = false /\ x = trim c.
Proof.
  revert values. induction candidates as [|c l IH]; intros values; simpl; [set_solver|].
  rewrite IH, add_label_elem. set_solver.
Qed.

Lemma fold_labels_NoDup candidates values :
  NoDup values -> NoDup (fold_left add_label candidates values).
Proof.
  revert values. induction candidates as [|c l IH]; intros values Hv; simpl; [done|].
  by apply IH, add_label_NoDup.
Qed.

(** The dropdown lists every non-blank trimmed label once, and the current
    filter value, in the collation order; it lists nothing else. *)
Theorem buildAttackFilterOptions_spec candidates current :
  let l := buildAttackFilterOptions localeCompare candidates current in
  NoDup l /\ StronglySorted (le_of localeCompare) l /\
  forall x, x ∈ l <->
    (exists c, c ∈ candidates /\ blank c = false /\ x = trim c) \/
    (blank current = false /\ x = trim current).
Proof.
  intros l. unfold l, buildAttackFilterOptions. split_and!.
  - rewrite js_sort_perm. apply add_label_NoDup, fold_labels_NoDup, NoDup_nil_2.
  - by apply js_sort_sorted.
  - intros x. rewrite js_sort_perm, add_label_elem, fold_labels. set_solver.
Qed.
End FilterOptions.

Lemma buildAttackFilterOptions_spec_witness :
  buildAttackFilterOptions code_unit_compare [" web"; "db"; ""; "web"]%string "ftp "
    = ["db"; "ftp"; "web"]%string /\
  NoDup (buildAttackFilterOptions code_unit_compare [" web"; "db"; ""; "web"]%string "ftp ").
Proof.
  split; [vm_compute; reflexivity|].
  exact (proj1 (buildAttackFilterOptions_spec code_unit_compare
                  [" web"; "db"; ""; "web"]%string "ftp ")).
Defined.
