(* ===== verification/Controls.v ===== *)
(** * Controls

    What the pages of both dashboards are made of, for what a user can do: buttons with
    the condition that disables them, the action whose mark they show and what they start
    ([components/ui/paged-filter-controls.tsx] for the ones that the feeds share). *)

From S2P Require Import Prelude JsString JsNumber DashboardUtils.

#[local] Open Scope string_scope.
#[local] Open Scope Z_scope.
#[local] Open Scope list_scope.
#[local] Open Scope js_scope.

Record Control (E : Type) := mkControl {
  test_id : string;
  disabled : bool;
  spins_for : option string;
  calls : E
}.
Arguments mkControl {E} _ _ _ _.
Arguments test_id {E} _.
Arguments disabled {E} _.
Arguments spins_for {E} _.
Arguments calls {E} _.

Section Controls.
Context {E : Type}.

Definition disabled_if (b : bool) (c : Control E) : Control E :=
  mkControl (test_id c) (disabled c || b) (spins_for c) (calls c).

(** A button that nothing disables. *)
Definition always (name : string) (event : E) : Control E := mkControl name false None event.

Definition if_shown (b : bool) (c : Control E) : list (Control E) := if b then [c] else [].

(** The buttons below the filters of a feed. *)
Definition PagedFilterActions (disabled prev next : bool) (apply reset : E) (page : Direction -> E) : list (Control E) :=
  [mkControl "Apply" disabled None apply; mkControl "Reset" disabled None reset;
   mkControl "Previous" (disabled || negb prev) None (page Prev);
   mkControl "Next" (disabled || negb next) None (page Next)].

(** *** What holds of every control of a page *)

Lemma controls_bind {A} (P : Control E -> Prop) (f : A -> list (Control E)) l :
  (forall x, x ∈ l -> Forall P (f x)) -> Forall P (l ≫= f).
Proof.
  intros Hf. apply list.Forall_forall. intros c Hc. apply list_elem_of_bind in Hc as (x & Hc & Hx).
  exact (proj1 (list.Forall_forall _ _) (Hf x Hx) c Hc).
Qed.

Lemma controls_shown (P : Control E -> Prop) b c : P c -> Forall P (if_shown b c).
Proof. intros Hc. destruct b; [|constructor]. by apply List.Forall_cons; [|constructor]. Qed.

Lemma controls_in (P : Control E -> Prop) l c : Forall P l -> c ∈ l -> P c.
Proof. intros H. exact (proj1 (list.Forall_forall _ _) H c). Qed.
End Controls.

(** Goes through the controls of a page. *)
Ltac controls_step :=
  lazymatch goal with
  | |- Forall _ (_ ≫= _) => apply controls_bind; intros
  | |- Forall _ (_ ++ _) => apply list.Forall_app; split
  | |- Forall _ (if_shown _ _) => apply controls_shown
  | |- Forall _ (_ :: _) => apply List.Forall_cons
  | |- Forall _ [] => apply List.Forall_nil
  end.

(** ** Cards and navigation

    The links of a page ([components/ui/action-card.tsx], [components/ui/app-shell.tsx]). *)

Record ActionCard := mkActionCard { ac_href : string; ac_title : string; ac_meta : string }.

Definition NavItem : Type := string * string.

(** The item of the current page is marked; so is the menu of the other items. *)
Definition active_items (activePath : string) (items : list NavItem) : list NavItem :=
  bfilter (fun item => String.eqb activePath item.1) items.

Definition count_text {A} (l : list A) (what : string) : string := num_to_string (Z.of_nat (length l)) ++ₛ what.

(** ** Badges *)

Definition LiveModeBadge (filteredLabel liveLabel : string) (liveMode : bool) : string :=
  if liveMode then liveLabel else filteredLabel.

(** The rows of a page among all of them. *)
Definition SliceCountBadge (suffix : option string) (totalCount visibleCount offset : Z) : string :=
  let start := if visibleCount >? 0 then offset + 1 else 0 in
  let end_ := offset + visibleCount in
  let range := num_to_string start ++ₛ "-" ++ₛ num_to_string end_ in
  let label := "Showing " ++ₛ range ++ₛ " of " ++ₛ num_to_string totalCount in
  match suffix ≫= or_undefined with Some s => label ++ₛ " " ++ₛ s | None => label end.
