(* ===== verification/TeamCsv.v ===== *)
(** * Team rosters as CSV ([lib/team-csv.ts])

    The reader of one CSV line ([splitCsvLine]), the roster importer
    ([parseTeamCsv]) and the exporter ([toCsv]) with its guard against
    spreadsheet formulas.  [downloadText] (a DOM download) is not modelled. *)

From S2P Require Import Prelude JsString JsNumber.

Definition CR : ascii := "013"%char.
Definition LF : ascii := "010"%char.
Definition TAB : ascii := "009"%char.
Definition comma : ascii := ","%char.

Record TeamCsvPlayer := mkTeamCsvPlayer {
  display_name : string;
  email : string;
  password : string;
  role : string
}.

Record TeamCsvRow := mkTeamCsvRow {
  name : string;
  contact_email : string;
  players : list TeamCsvPlayer
}.

(** ** Reading a line *)

(** The loop of [splitCsvLine]: the rest of the line, [current], [inQuotes] and
    [cells]. *)
Fixpoint split_loop (s current : string) (inQuotes : bool) (cells : list string)
    : list string :=
  match s with
  | EmptyString => cells ++ [trim current]
  | String char rest =>
      if Ascii.eqb char dquote then
        match rest with
        | String next rest' =>
            if inQuotes && Ascii.eqb next dquote
            then split_loop rest' (current ++ₛ dq) inQuotes cells
            else split_loop rest current (negb inQuotes) cells
        | EmptyString => split_loop rest current (negb inQuotes) cells
        end
      else if Ascii.eqb char comma && negb inQuotes
      then split_loop rest EmptyString inQuotes (cells ++ [trim current])
      else split_loop rest (current ++ₛ String char EmptyString) inQuotes cells
  end.

Definition splitCsvLine (line : string) : list string :=
  split_loop line EmptyString false [].

(** ** Importing a roster *)

(** [text.split(/\r?\n/)]. *)
Fixpoint split_lines (s : string) : list string :=
  match s with
  | EmptyString => [EmptyString]
  | String c r =>
      if Ascii.eqb c LF then EmptyString :: split_lines r
      else
        let more :=
          match split_lines r with
          | [] => [String c EmptyString]
          | h :: t => String c h :: t
          end in
        match r with
        | String d r' =>
            if Ascii.eqb c CR && Ascii.eqb d LF then EmptyString :: split_lines r'
            else more
        | EmptyString => more
        end
  end.

(** [header.indexOf(name)]. *)
Fixpoint index_of (n : string) (l : list string) : option nat :=
  match l with
  | [] => None
  | x :: r => if String.eqb x n then Some O else S <$> index_of n r
  end.

(** [hasHeader ? cells[index(name)] : cells[position]]. *)
Definition cell (hasHeader : bool) (header cells : list string) (n : string)
    (position : nat) : option string :=
  if hasHeader then i ← index_of n header; cells !! i else cells !! position.

(** [teams.set(key, ...)] when the key is new. *)
Definition ensure_team (key : string) (row : TeamCsvRow)
    (teams : list (string * TeamCsvRow)) : list (string * TeamCsvRow) :=
  if bool_decide (key ∈ teams.*1) then teams else teams ++ [(key, row)].

(** [teams.get(key)?.players.push(player)]. *)
Definition push_player (key : string) (p : TeamCsvPlayer)
    (teams : list (string * TeamCsvRow)) : list (string * TeamCsvRow) :=
  map_if (fun e => String.eqb e.1 key)
    (fun e => (e.1, mkTeamCsvRow (name e.2) (contact_email e.2) (players e.2 ++ [p])))
    teams.

Definition team_key (teamName contactEmail : string) : string :=
  to_lower (trim teamName) ++ₛ "|" ++ₛ to_lower (trim contactEmail).

(** The body of the loop over the rows. *)
Definition import_row (hasHeader : bool) (header : list string)
    (teams : list (string * TeamCsvRow)) (line : string) : list (string * TeamCsvRow) :=
  let cells := splitCsvLine line in
  let teamName := cell hasHeader header cells "team_name" 0 ?? "" in
  let contactEmail := cell hasHeader header cells "contact_email" 1 ?? "" in
  if blank teamName || blank contactEmail then teams
  else
    let key := team_key teamName contactEmail in
    let teams1 := ensure_team key (mkTeamCsvRow (trim teamName) (trim contactEmail) []) teams in
    let displayName := cell hasHeader header cells "player_display_name" 2 ?? "" in
    let mail := cell hasHeader header cells "player_email" 3 ?? "" in
    let pass := cell hasHeader header cells "player_password" 4 ?? "" in
    let r := cell hasHeader header cells "player_role" 5 ?? "member" in
    if negb (blank displayName) && negb (blank mail) && negb (blank pass)
    then push_player key
           (mkTeamCsvPlayer (trim displayName) (trim mail) (trim pass)
              (str_or (trim r) "member")) teams1
    else teams1.

Definition csv_lines (text : string) : list string :=
  bfilter (fun l => negb (is_empty l)) (trim <$> split_lines text).

Definition parseTeamCsv (text : string) : list TeamCsvRow :=
  match csv_lines text with
  | [] => []
  | first :: rest =>
      let header := to_lower <$> splitCsvLine first in
      let hasHeader := bool_decide ("team_name" ∈ header) ||
                       bool_decide ("contact_email" ∈ header) in
      let rows := if hasHeader then rest else first :: rest in
      (fold_left (import_row hasHeader header) rows []).*2
  end.

(** ** Exporting *)

(** [/^\s*[=+\-@\t\r]/]: white space, then a character that starts a formula
    (TAB and CR are both). *)
Definition is_trigger (c : ascii) : bool :=
  Ascii.eqb c "="%char || Ascii.eqb c "+"%char || Ascii.eqb c "-"%char ||
  Ascii.eqb c "@"%char || Ascii.eqb c TAB || Ascii.eqb c CR.

Fixpoint formulaTrigger (s : string) : bool :=
  match s with
  | EmptyString => false
  | String c r => is_trigger c || (is_ws c && formulaTrigger r)
  end.

(** [/^[+-]?\d+(\.\d+)?$/]. *)
Definition plainNumber (s : string) : bool :=
  let '(_, body) := sign_split s in
  let '(ds, t) := span_digits body in
  negb (is_empty ds) &&
  match t with
  | EmptyString => true
  | String c r =>
      let '(fs, u) := span_digits r in
      Ascii.eqb c "."%char && negb (is_empty fs) && is_empty u
  end.

Definition quote_mark : ascii := "'"%char.

Definition neutralizeFormula (value : string) : string :=
  if plainNumber value || negb (formulaTrigger value) then value
  else String quote_mark value.

(** [value.replaceAll(dquote, two dquotes)]. *)
Fixpoint double_quotes (s : string) : string :=
  match s with
  | EmptyString => EmptyString
  | String c r =>
      if Ascii.eqb c dquote then String dquote (String dquote (double_quotes r))
      else String c (double_quotes r)
  end.

(** The characters a bare cell may not hold: double quote, comma, CR, LF. *)
Definition needs_quotes (c : ascii) : bool :=
  Ascii.eqb c dquote || Ascii.eqb c comma || Ascii.eqb c CR || Ascii.eqb c LF.

Definition csv_cell (c : string) : string :=
  let value := neutralizeFormula c in
  if has_char needs_quotes value then dq ++ₛ double_quotes value ++ₛ dq else value.

Definition csv_row (row : list string) : string := join "," (csv_cell <$> row).

Definition toCsv (rows : list (list string)) : string :=
  join (String LF EmptyString) (csv_row <$> rows).

(** ** The reader inverts the writer on a line *)

(** A separator or the end of the line. *)
Definition at_boundary (s : string) : Prop :=
  s = EmptyString \/ exists r, s = String comma r.

Lemma split_loop_plain v rest current cells :
  has_char needs_quotes v = false ->
  split_loop (v ++ₛ rest) current false cells = split_loop rest (current ++ₛ v) false cells.
Proof.
  revert current. induction v as [|c v IH]; intros current; simpl.
  - by rewrite app_nil_s.
  - intros [Hc Hv]%orb_false_iff. unfold needs_quotes in Hc.
    apply orb_false_iff in Hc as [[[H1 H2]%orb_false_iff _]%orb_false_iff _].
    rewrite H1, H2. simpl. rewrite IH by done. by rewrite app_assoc_s.
Qed.

Lemma split_loop_quoted v rest current cells :
  at_boundary rest ->
  split_loop (double_quotes v ++ₛ dq ++ₛ rest) current true cells =
  split_loop rest (current ++ₛ v) false cells.
Proof.
  intros Hb. revert current. induction v as [|c v IH]; intros current.
  - rewrite app_nil_s. by destruct Hb as [->|[r ->]].
  - simpl double_quotes. destruct (Ascii.eqb c dquote) eqn:E.
    + apply Ascii.eqb_eq in E as ->.
      change (split_loop (double_quotes v ++ₛ dq ++ₛ rest) (current ++ₛ dq) true cells =
              split_loop rest (current ++ₛ String dquote v) false cells).
      rewrite IH. by rewrite app_assoc_s.
    + simpl. rewrite E, andb_false_r.
      etransitivity; [apply IH|]. by rewrite app_assoc_s.
Qed.

(** An opening quote outside quotes only switches the mode. *)
Lemma open_quote s current cells :
  split_loop (String dquote s) current false cells = split_loop s current true cells.
Proof. by destruct s. Qed.

Lemma split_loop_cell c rest cells :
  at_boundary rest ->
  split_loop (csv_cell c ++ₛ rest) EmptyString false cells =
  split_loop rest (neutralizeFormula c) false cells.
Proof.
  intros Hb. unfold csv_cell. destruct (has_char needs_quotes (neutralizeFormula c)) eqn:E.
  - rewrite !app_assoc_s.
    pose proof (split_loop_quoted (neutralizeFormula c) rest EmptyString cells Hb) as H.
    change (dq ++ₛ double_quotes (neutralizeFormula c) ++ₛ dq ++ₛ rest)
      with (String dquote (double_quotes (neutralizeFormula c) ++ₛ dq ++ₛ rest)).
    rewrite open_quote. exact H.
  - by rewrite split_loop_plain.
Qed.

Lemma split_loop_row row cells :
  row <> [] ->
  split_loop (csv_row row) EmptyString false cells =
  cells ++ ((fun c => trim (neutralizeFormula c)) <$> row).
Proof.
  unfold csv_row. revert cells. induction row as [|c row IH]; intros cells Hne; [done|].
  destruct row as [|d row].
  - cbn [fmap list_fmap join]. rewrite <-(app_nil_s (csv_cell c)).
    rewrite split_loop_cell by (by left). done.
  - change (join "," (csv_cell <$> c :: d :: row))
      with (csv_cell c ++ₛ String comma (join "," (csv_cell <$> d :: row))).
    rewrite split_loop_cell by (right; eauto).
    cbn [split_loop]. change (Ascii.eqb comma dquote) with false.
    rewrite Ascii.eqb_refl. cbn [andb negb]. rewrite IH by done.
    by rewrite <-app_assoc.
Qed.

Lemma neutralize_safe c :
  plainNumber (neutralizeFormula c) || negb (formulaTrigger (neutralizeFormula c)) = true.
Proof.
  unfold neutralizeFormula.
  destruct (plainNumber c || negb (formulaTrigger c)) eqn:E; [done|].
  apply orb_true_iff. by right.
Qed.

(** ** Formula triggers survive no trimming *)

Lemma formulaTrigger_drop_start s :
  formulaTrigger s = false -> formulaTrigger (drop_start is_ws s) = false.
Proof.
  induction s as [|c s IH]; simpl; [done|]. intros H.
  destruct (is_ws c) eqn:W; [|simpl; by rewrite W].
  apply orb_false_iff in H as [_ H]. by apply IH.
Qed.

Lemma formulaTrigger_drop_end p s :
  formulaTrigger s = false -> formulaTrigger (drop_end p s) = false.
Proof.
  induction s as [|c s IH]; simpl; [done|].
  intros [Ht H]%orb_false_iff.
  assert (Hc : formulaTrigger (String c (drop_end p s)) = false).
  { simpl. rewrite Ht. simpl. destruct (is_ws c); [|done]. by apply IH. }
  destruct (drop_end p s); [|done]. destruct (p c); [done|].
  simpl in *. by rewrite Ht, andb_false_r.
Qed.

Lemma formulaTrigger_trim s : formulaTrigger s = false -> formulaTrigger (trim s) = false.
Proof. intros H. by apply formulaTrigger_drop_end, formulaTrigger_drop_start. Qed.

Lemma plainNumber_no_ws s : plainNumber s = true -> has_char is_ws s = false.
Proof.
  unfold plainNumber. intros H.
  assert (Hs : exists pre body, s = pre ++ₛ body /\ has_char is_ws pre = false /\
                 snd (sign_split s) = body).
  { destruct s as [|c s]; simpl; [by exists "", ""|].
    destruct (Ascii.eqb_spec c "-"%char) as [->|]; [by exists "-", s|].
    destruct (Ascii.eqb_spec c "+"%char) as [->|]; [by exists "+", s|].
    by exists "", (String c s). }
  destruct Hs as (pre & body & -> & Hpre & Hbody).
  destruct (sign_split (pre ++ₛ body)) as [neg b]. simpl in Hbody. subst b.
  rewrite has_char_app, Hpre. simpl.
  destruct (span_digits body) as [ds t] eqn:E.
  apply span_digits_spec in E as [-> Hds].
  rewrite has_char_app, (all_digits_no_ws ds) by done. simpl.
  apply andb_true_iff in H as [_ H]. destruct t as [|c r]; [done|].
  destruct (span_digits r) as [fs u] eqn:E.
  apply span_digits_spec in E as [-> Hfs].
  apply andb_true_iff in H as [[Hc _]%andb_true_iff Hu].
  apply Ascii.eqb_eq in Hc as ->. apply is_empty_spec in Hu as ->.
  rewrite app_nil_s. simpl. by apply all_digits_no_ws.
Qed.

(** C10: reading back an exported line gives the cells that were written, each
    neutralised and trimmed, and no cell a spreadsheet reads can start a
    formula unless it is a plain number. *)
Theorem csv_row_read_back row :
  row <> [] ->
  splitCsvLine (csv_row row) = (fun c => trim (neutralizeFormula c)) <$> row /\
  Forall (fun c => plainNumber c = true \/ formulaTrigger c = false)
    (splitCsvLine (csv_row row)).
Proof.
  intros Hne. unfold splitCsvLine. rewrite split_loop_row by done. split; [done|].
  rewrite app_nil_l. apply list.Forall_fmap, Forall_true. intros c. simpl.
  pose proof (neutralize_safe c) as H. apply orb_true_iff in H as [H|H].
  - left. by rewrite trim_no_ws by by apply plainNumber_no_ws.
  - right. apply formulaTrigger_trim. by apply negb_true_iff.
Qed.

Lemma csv_row_read_back_witness :
  csv_row ["=1+1"; "a,b"; "-3"]%string = ("'=1+1," ++ₛ dq ++ₛ "a,b" ++ₛ dq ++ₛ ",-3")%string /\
  splitCsvLine (csv_row ["=1+1"; "a,b"; "-3"]%string) = ["'=1+1"; "a,b"; "-3"]%string.
Proof.
  split; [vm_compute; reflexivity|].
  rewrite (proj1 (csv_row_read_back ["=1+1"; "a,b"; "-3"]%string ltac:(discriminate))).
  vm_compute. reflexivity.
Defined.

(** ** Invariant of the importer *)

Definition row_key (t : TeamCsvRow) : string := team_key (name t) (contact_email t).

Definition player_ok (p : TeamCsvPlayer) : Prop :=
  is_empty (display_name p) = false /\ is_empty (email p) = false /\
  is_empty (password p) = false /\ is_empty (role p) = false.

Definition row_ok (t : TeamCsvRow) : Prop :=
  is_empty (name t) = false /\ is_empty (contact_email t) = false /\
  Forall player_ok (players t).

Definition teams_inv (teams : list (string * TeamCsvRow)) : Prop :=
  NoDup teams.*1 /\ Forall (fun e => e.1 = row_key e.2 /\ row_ok e.2) teams.

Lemma team_key_trim a b : team_key (trim a) (trim b) = team_key a b.
Proof. unfold team_key. by rewrite !trim_idem. Qed.

Lemma ensure_team_inv key row teams :
  teams_inv teams -> key = row_key row -> row_ok row ->
  teams_inv (ensure_team key row teams) /\ key ∈ (ensure_team key row teams).*1.
Proof.
  intros [Hn Hf] Hk Hr. unfold ensure_team. case_bool_decide as Hin.
  - done.
  - rewrite fmap_app. split; [|set_solver]. split.
    + rewrite fmap_app. apply list.NoDup_app. split_and!; [done| |apply NoDup_singleton].
      simpl. set_solver.
    + apply list.Forall_app. split; [done|]. by apply list.Forall_singleton.
Qed.

Lemma push_player_inv key p teams :
  teams_inv teams -> player_ok p -> teams_inv (push_player key p teams).
Proof.
  intros [Hn Hf] Hp. unfold push_player. split.
  - by rewrite map_if_fmap.
  - unfold map_if. apply list.Forall_fmap. eapply List.Forall_impl; [|exact Hf].
    intros [k t] [Hk (H1 & H2 & H3)]. simpl in *. case_bool; simpl; [|done].
    split; [done|]. split_and!; [done..|]. apply list.Forall_app. split; [done|]. by apply list.Forall_singleton.
Qed.

Lemma import_row_inv hasHeader header teams line :
  teams_inv teams -> teams_inv (import_row hasHeader header teams line).
Proof.
  intros Hi. unfold import_row.
  set (tn := _ ?? ""). set (ce := _ ?? "").
  destruct (blank tn || blank ce) eqn:E; [done|].
  apply orb_false_iff in E as [E1 E2].
  set (row := mkTeamCsvRow (trim tn) (trim ce) []).
  destruct (ensure_team_inv (team_key tn ce) row teams) as [Hi1 _]; [done| | |].
  { unfold row_key, row. simpl. by rewrite team_key_trim. }
  { unfold row_ok, row. simpl. by split_and!; [..|constructor]. }
  case_bool; [|done]. apply push_player_inv; [done|]. boolify.
  unfold player_ok. simpl. split_and!; [done..|].
  unfold str_or. by case_bool.
Qed.

(** Every imported roster is well formed: no two teams share a name and
    contact up to case and surrounding blanks, no team has an empty name or
    contact, and every player has a name, an email, a password and a role. *)
Theorem parseTeamCsv_wf text :
  NoDup (row_key <$> parseTeamCsv text) /\ Forall row_ok (parseTeamCsv text).
Proof.
  unfold parseTeamCsv. destruct (csv_lines text) as [|first rest]; [by repeat constructor|].
  set (header := to_lower <$> splitCsvLine first). set (hasHeader := _ || _).
  set (rows := if hasHeader then rest else first :: rest).
  assert (Hi : forall l acc, teams_inv acc -> teams_inv (fold_left (import_row hasHeader header) l acc)).
  { induction l as [|x l IH]; intros acc Ha; simpl; [done|]. by apply IH, import_row_inv. }
  destruct (Hi rows []) as [Hn Hf]; [by split; constructor|].
  replace (row_key <$> (fold_left (import_row hasHeader header) rows []).*2)
    with ((fold_left (import_row hasHeader header) rows []).*1).
  - split; [done|]. apply list.Forall_fmap. eapply List.Forall_impl; [|exact Hf]. by intros ? [_ ?].
  - rewrite <-list_fmap_compose. apply list_fmap_ext. intros i x Hx.
    eapply list.Forall_lookup_1 in Hf; [|exact Hx]. simpl. tauto.
Qed.

(** ** No player is lost or duplicated *)

Definition complete_row (hasHeader : bool) (header : list string) (line : string) : bool :=
  let c := cell hasHeader header (splitCsvLine line) in
  negb (blank (c "team_name" 0%nat ?? "")) && negb (blank (c "contact_email" 1%nat ?? "")) &&
  negb (blank (c "player_display_name" 2%nat ?? "")) && negb (blank (c "player_email" 3%nat ?? "")) &&
  negb (blank (c "player_password" 4%nat ?? "")).

Definition total_players (rows : list TeamCsvRow) : nat :=
  sum_list ((fun t => length (players t)) <$> rows).

Lemma push_player_total key p teams :
  NoDup teams.*1 ->
  total_players (push_player key p teams).*2 =
  (total_players teams.*2 + if bool_decide (key ∈ teams.*1) then 1 else 0)%nat.
Proof.
  unfold push_player, map_if, total_players.
  induction teams as [|[k t] teams IH]; csimpl; [done|].
  intros [Hk Hn]%list.NoDup_cons. specialize (IH Hn).
  destruct (String.eqb_spec k key) as [->|Hne]; csimpl; rewrite IH.
  - rewrite length_app, bool_decide_false by done.
    rewrite bool_decide_true by set_solver. simpl. lia.
  - rewrite (bool_decide_ext (key ∈ k :: teams.*1) (key ∈ teams.*1)) by set_solver. lia.
Qed.

Lemma ensure_team_total key a b teams :
  total_players (ensure_team key (mkTeamCsvRow a b []) teams).*2 = total_players teams.*2.
Proof.
  unfold ensure_team. case_bool_decide; [done|].
  unfold total_players. rewrite !fmap_app, sum_list_app. simpl. lia.
Qed.

Lemma import_row_total hasHeader header teams line :
  teams_inv teams ->
  total_players (import_row hasHeader header teams line).*2 =
  (total_players teams.*2 + if complete_row hasHeader header line then 1 else 0)%nat.
Proof.
  intros Hi. unfold import_row, complete_row.
  set (tn := _ ?? ""). set (ce := _ ?? "").
  destruct (blank tn) eqn:E1; [simpl; lia|]. destruct (blank ce) eqn:E2; [simpl; lia|].
  cbn [orb negb andb].
  set (row := mkTeamCsvRow (trim tn) (trim ce) []).
  destruct (ensure_team_inv (team_key tn ce) row teams) as [[Hn _] Hk]; [done| | |].
  { unfold row_key, row. simpl. by rewrite team_key_trim. }
  { unfold row_ok, row. simpl. by split_and!; [..|constructor]. }
  case_bool.
  - rewrite push_player_total by done. rewrite bool_decide_true by done.
    unfold row. by rewrite ensure_team_total.
  - unfold row. rewrite ensure_team_total. lia.
Qed.

(** The imported roster holds exactly one player per line that names a team,
    a contact, a player, an email and a password. *)
Theorem parseTeamCsv_players text first rest :
  csv_lines text = first :: rest ->
  let header := to_lower <$> splitCsvLine first in
  let hasHeader := bool_decide ("team_name" ∈ header) ||
                   bool_decide ("contact_email" ∈ header) in
  total_players (parseTeamCsv text) =
  length (bfilter (complete_row hasHeader header)
            (if hasHeader then rest else first :: rest)).
Proof.
  intros Hl header hasHeader. unfold parseTeamCsv. rewrite Hl.
  fold header. fold hasHeader.
  set (rows := if hasHeader then rest else first :: rest).
  assert (H : forall l acc, teams_inv acc ->
    total_players (fold_left (import_row hasHeader header) l acc).*2 =
    (total_players acc.*2 + length (bfilter (complete_row hasHeader header) l))%nat).
  { induction l as [|x l IH]; intros acc Ha; simpl; [lia|].
    rewrite IH by by apply import_row_inv. rewrite import_row_total by done.
    destruct (complete_row hasHeader header x); simpl; lia. }
  rewrite H by (by split; constructor). done.
Qed.

Lemma parseTeamCsv_players_witness :
  let text := ("team_name,contact_email,player_display_name,player_email,player_password"
    ++ₛ String LF "Red,red@x,Ann,ann@x,pw" ++ₛ String LF " red ,RED@x,Bob,bob@x,pw"
    ++ₛ String LF "Blue,blue@x,,,")%string in
  (name <$> parseTeamCsv text) = ["Red"; "Blue"]%string /\
  total_players (parseTeamCsv text) = 2%nat.
Proof.
  intros text. split; [vm_compute; reflexivity|].
  unfold text. erewrite parseTeamCsv_players; [|vm_compute; reflexivity].
  vm_compute. reflexivity.
Defined.
