(* ===== verification/UrlParams.v ===== *)
(** * [URLSearchParams]

    The key/value lists behind the query strings: insertion, the
    application/x-www-form-urlencoded serializer and parser of the platform,
    and their round trip.  The parser answers [None] for a text that decodes
    outside the Latin-1 plane of the model. *)

From S2P Require Import Prelude JsString JsNumber.

(** [URLSearchParams.set]: the first binding of the key is replaced, the others
    are dropped; a new key goes last. *)
Fixpoint params_set (k v : string) (ps : list (string * string)) : list (string * string) :=
  match ps with
  | [] => [(k, v)]
  | (k', v') :: r =>
      if String.eqb k' k then (k, v) :: bfilter (fun e => negb (String.eqb e.1 k)) r
      else (k', v') :: params_set k v r
  end.

(** The application/x-www-form-urlencoded serializer, on UTF-8 bytes. *)
Definition hex_digit (n : Z) : ascii := if n <? 10 then chr (48 + n) else chr (55 + n).

Definition percent (b : Z) : string :=
  String "%"%char (String (hex_digit (b / 16)) (String (hex_digit (b mod 16)) EmptyString)).

Definition form_safe (c : ascii) : bool :=
  let z := code c in
  ((48 <=? z) && (z <=? 57)) || ((65 <=? z) && (z <=? 90)) || ((97 <=? z) && (z <=? 122)) ||
  Ascii.eqb c "*"%char || Ascii.eqb c "-"%char || Ascii.eqb c "."%char || Ascii.eqb c "_"%char.

(** The UTF-8 bytes of a code unit below 256. *)
Definition utf8 (c : ascii) : list Z :=
  let z := code c in
  if z <? 128 then [z] else [192 + z / 64; 128 + z mod 64].

Definition form_char (c : ascii) : string :=
  if form_safe c then String c EmptyString
  else if Ascii.eqb c " "%char then "+"
  else join "" (percent <$> utf8 c).

Fixpoint form_encode (s : string) : string :=
  match s with
  | EmptyString => EmptyString
  | String c r => form_char c ++ₛ form_encode r
  end.

Definition params_to_string (ps : list (string * string)) : string :=
  join "&" ((fun e => form_encode e.1 ++ₛ "=" ++ₛ form_encode e.2) <$> ps).

(** ** Parsing *)

Definition hex_value (c : ascii) : option Z :=
  let z := code c in
  if (48 <=? z) && (z <=? 57) then Some (z - 48)
  else if (65 <=? z) && (z <=? 70) then Some (z - 55)
  else if (97 <=? z) && (z <=? 102) then Some (z - 87)
  else None.

(** [+] is a space, [%XX] a byte; a stray percent sign is kept. *)
Fixpoint form_bytes (s : string) : list Z :=
  match s with
  | EmptyString => []
  | String c r =>
      if Ascii.eqb c "+"%char then 32 :: form_bytes r
      else if Ascii.eqb c "%"%char then
        match r with
        | String a (String b r') =>
            match hex_value a, hex_value b with
            | Some x, Some y => 16 * x + y :: form_bytes r'
            | _, _ => 37 :: form_bytes r
            end
        | _ => 37 :: form_bytes r
        end
      else utf8 c ++ form_bytes r
  end.

Fixpoint utf8_decode (bs : list Z) : option string :=
  match bs with
  | [] => Some EmptyString
  | b :: r =>
      if b <? 128 then String (chr b) <$> utf8_decode r
      else match r with
           | b2 :: r' =>
               if ((b =? 194) || (b =? 195)) && (128 <=? b2) && (b2 <? 192)
               then String (chr ((b - 192) * 64 + (b2 - 128))) <$> utf8_decode r'
               else None
           | [] => None
           end
  end.

Definition form_decode (s : string) : option string := utf8_decode (form_bytes s).

(** [name=value], cut at the first equals sign. *)
Fixpoint cut_eq (s : string) : string * string :=
  match s with
  | EmptyString => (EmptyString, EmptyString)
  | String c r =>
      if Ascii.eqb c "="%char then (EmptyString, r)
      else let '(a, b) := cut_eq r in (String c a, b)
  end.

Definition parse_pair (s : string) : option (string * string) :=
  let '(a, b) := cut_eq s in
  k ← form_decode a; v ← form_decode b; Some (k, v).

Definition parse_params (s : string) : option (list (string * string)) :=
  mapM parse_pair (bfilter (fun p => negb (is_empty p)) (split_on "&" s)).

(** [searchParams.get(name)]. *)
Definition params_get (n : string) (ps : list (string * string)) : option string :=
  snd <$> find_first (fun e => String.eqb e.1 n) ps.

(** ** Round trip *)

Ltac every_char c := destruct c as [[] [] [] [] [] [] [] []]; reflexivity.

Lemma form_bytes_char c t : form_bytes (form_char c ++ₛ t) = utf8 c ++ form_bytes t.
Proof. every_char c. Qed.

Lemma utf8_decode_char c bs : utf8_decode (utf8 c ++ bs) = String c <$> utf8_decode bs.
Proof. every_char c. Qed.

Lemma form_char_free_amp c : has_char (fun d => Ascii.eqb d "&"%char) (form_char c) = false.
Proof. every_char c. Qed.

Lemma form_char_free_eq c : has_char (fun d => Ascii.eqb d "="%char) (form_char c) = false.
Proof. every_char c. Qed.

Lemma form_decode_encode s : form_decode (form_encode s) = Some s.
Proof.
  unfold form_decode. induction s as [|c s IH]; [done|]. cbn [form_encode].
  by rewrite form_bytes_char, utf8_decode_char, IH.
Qed.

Lemma form_encode_free_amp s : free_of "&" (form_encode s).
Proof.
  unfold free_of. induction s as [|c s IH]; [done|]. cbn [form_encode].
  by rewrite has_char_app, form_char_free_amp, IH.
Qed.

Lemma form_encode_free_eq s : free_of "=" (form_encode s).
Proof.
  unfold free_of. induction s as [|c s IH]; [done|]. cbn [form_encode].
  by rewrite has_char_app, form_char_free_eq, IH.
Qed.

Lemma cut_eq_app a b : free_of "=" a -> cut_eq (a ++ₛ String "="%char b) = (a, b).
Proof.
  unfold free_of. induction a as [|c a IH]; simpl; [done|].
  intros [Hc Ha]%orb_false_iff. by rewrite Hc, IH.
Qed.

Definition pair_text (e : string * string) : string :=
  form_encode e.1 ++ₛ "=" ++ₛ form_encode e.2.

Lemma parse_pair_text e : parse_pair (pair_text e) = Some e.
Proof.
  unfold parse_pair, pair_text.
  change ("=" ++ₛ form_encode e.2) with (String "="%char (form_encode e.2)).
  rewrite cut_eq_app by apply form_encode_free_eq.
  rewrite !form_decode_encode. by destruct e.
Qed.

Lemma pair_text_free e : free_of "&" (pair_text e).
Proof.
  unfold pair_text, free_of. rewrite !has_char_app.
  pose proof (form_encode_free_amp e.1) as H1. pose proof (form_encode_free_amp e.2) as H2.
  unfold free_of in *. by rewrite H1, H2.
Qed.

Lemma pair_text_nonempty e : is_empty (pair_text e) = false.
Proof. unfold pair_text. by destruct (form_encode e.1). Qed.

Lemma parse_params_to_string ps : parse_params (params_to_string ps) = Some ps.
Proof.
  unfold parse_params, params_to_string. fold pair_text.
  change (fun e => form_encode e.1 ++ₛ "=" ++ₛ form_encode e.2) with pair_text.
  destruct ps as [|e ps]; [done|].
  rewrite split_join; [|done|apply list.Forall_fmap, Forall_true; apply pair_text_free].
  rewrite bfilter_id.
  - apply mapM_fmap_Some. apply parse_pair_text.
  - apply list.Forall_fmap, Forall_true. intros x. simpl. by rewrite pair_text_nonempty.
Qed.

Lemma params_to_string_empty ps : is_empty (params_to_string ps) = true <-> ps = [].
Proof.
  split; [|by intros ->]. destruct ps as [|e ps]; [done|]. unfold params_to_string.
  pose proof (pair_text_nonempty e) as H. change (pair_text e) with
    (form_encode e.1 ++ₛ "=" ++ₛ form_encode e.2) in H.
  destruct ps; cbn [fmap list_fmap join]; [congruence|].
  by destruct (form_encode e.1 ++ₛ "=" ++ₛ form_encode e.2).
Qed.

(** A new key goes last. *)
Lemma params_set_fresh k v ps : k ∉ ps.*1 -> params_set k v ps = ps ++ [(k, v)].
Proof.
  induction ps as [|[k' v'] ps IH]; csimpl; [done|].
  intros [Hne Hin]%not_elem_of_cons.
  destruct (String.eqb_spec k' k) as [->|]; [done|]. by rewrite IH.
Qed.
