(* ===== verification/ApiUtils.v ===== *)
(** * Talking to the platform API ([lib/api-utils.ts])

    JSON values, requests and responses, the errors the clients throw, the
    decoding of a response and the encoding of a query string. *)

From S2P Require Import Prelude JsString JsNumber UrlParams.

(** ** JSON

    The numbers the code reads from a JSON body are ids, counts, ticks and Unix
    times; they are integers here. *)

Inductive json :=
| JNull
| JBool (b : bool)
| JNum (n : Z)
| JStr (s : string)
| JArr (l : list json)
| JObj (fields : list (string * json)).

(** [key in value] and [value[key]] on an object: the last binding of a key
    wins, as in [JSON.parse]. *)
Fixpoint field (key : string) (fields : list (string * json)) : option json :=
  match fields with
  | [] => None
  | (k, v) :: r =>
      match field key r with
      | Some w => Some w
      | None => if String.eqb k key then Some v else None
      end
  end.

(** [Boolean(v)]. *)
Definition truthy (v : json) : bool :=
  match v with
  | JNull => false
  | JBool b => b
  | JNum n => negb (n =? 0)
  | JStr s => negb (is_empty s)
  | JArr _ | JObj _ => true
  end.

(** [String(v)]. *)
Fixpoint json_to_string (v : json) : string :=
  match v with
  | JNull => "null"
  | JBool true => "true"
  | JBool false => "false"
  | JNum n => num_to_string n
  | JStr s => s
  | JArr l =>
      join "," ((fix go (l : list json) : list string :=
                   match l with
                   | [] => []
                   | JNull :: r => EmptyString :: go r
                   | x :: r => json_to_string x :: go r
                   end) l)
  | JObj _ => "[object Object]"
  end.

(** ** Errors *)

(** What a [catch] may receive: a [PlatformAPIError], another [Error], or a
    thrown value that is no [Error]. *)
Inductive JsError :=
| PlatformAPIError (message : string) (status : Z) (retryAfter : option string)
| OtherError (message : string)
| NonError.

(** The constructor: [retryAfter?.trim() || undefined]. *)
Definition new_PlatformAPIError (message : string) (status : Z) (retryAfter : option string)
    : JsError :=
  PlatformAPIError message status (r ← retryAfter; or_undefined (trim r)).

(** [error instanceof Error ? error.message : fallback]. *)
Definition error_message (e : JsError) (fallback : string) : string :=
  match e with
  | PlatformAPIError message _ _ => message
  | OtherError message => message
  | NonError => fallback
  end.

Record UpstreamErrorDetails := mkUpstreamErrorDetails {
  detail : string;
  retryAfter : option string;
  err_status : Z
}.

Definition upstreamErrorDetails (error : JsError) (fallback : string) : UpstreamErrorDetails :=
  match error with
  | PlatformAPIError message status retry => mkUpstreamErrorDetails message retry status
  | _ => mkUpstreamErrorDetails (error_message error fallback) None 502
  end.

(** The outcome of a call that may throw. *)
Inductive Result (A : Type) :=
| Done (a : A)
| Thrown (e : JsError).
Arguments Done {A}.
Arguments Thrown {A}.

Definition result_bind {A B} (r : Result A) (f : A -> Result B) : Result B :=
  match r with Done a => f a | Thrown e => Thrown e end.

(** ** Requests and responses *)

(** Headers are looked up without regard to case; names are kept in lower case. *)
Definition Headers := list (string * string).

Definition header_get (n : string) (h : Headers) : option string :=
  snd <$> find_first (fun e => String.eqb e.1 (to_lower n)) h.

(** [Headers.set]. *)
Definition header_set (n v : string) (h : Headers) : Headers :=
  bfilter (fun e => negb (String.eqb e.1 (to_lower n))) h ++ [(to_lower n, v)].

Record Request := mkRequest {
  r_method : string;
  r_url : string;
  r_headers : Headers;
  r_body : option json
}.

(** What the code observes of a response: its status, its headers, its body
    when it is passed on as a stream or a text, the value [response.json()]
    yields on success ([inl]: it rejects with a message), and the value it
    yields on an error status ([None]: it rejects). *)
Record Response (T : Type) := mkResponse {
  status : Z;
  resp_headers : Headers;
  resp_body : option string;
  ok_json : string + T;
  err_json : option json
}.
Arguments mkResponse {T}.
Arguments status {T}.
Arguments resp_headers {T}.
Arguments resp_body {T}.
Arguments ok_json {T}.
Arguments err_json {T}.

Definition content_type {T} (r : Response T) : option string :=
  header_get "content-type" (resp_headers r).
Definition retry_after {T} (r : Response T) : option string :=
  header_get "retry-after" (resp_headers r).

(** [response.ok]. *)
Definition ok {T} (r : Response T) : bool := (200 <=? status r) && (status r <=? 299).

(** [contentType.includes("application/json") || contentType.includes("+json")]. *)
Definition isJsonLike (contentType : string) : bool :=
  includes "application/json" contentType || includes "+json" contentType.

Definition request_failed (path : string) (st : Z) : string :=
  "API request to " ++ₛ path ++ₛ " failed with status " ++ₛ num_to_string st.

(** The first truthy field of an error payload, in the order message, detail,
    title; a payload that is a primitive makes the [in] operator throw. *)
Definition payload_message (payload : json) (fallback : string) : Result string :=
  match payload with
  | JObj fields =>
      let pick key rest :=
        match field key fields with
        | Some v => if truthy v then json_to_string v else rest
        | None => rest
        end in
      Done (pick "message" (pick "detail" (pick "title" fallback)))
  | JArr _ => Done fallback
  | _ => Thrown (OtherError "Cannot use 'in' operator to search for 'message'")
  end.

Definition parseApiError {T} (response : Response T) (path : string) : Result string :=
  let fallback := request_failed path (status response) in
  let contentType := content_type response ?? "" in
  if negb (isJsonLike contentType) then Done fallback
  else match err_json response with
       | None => Done fallback
       | Some payload =>
           if truthy payload then payload_message payload fallback else Done fallback
       end.

(** [None] is the [undefined] a 204 answers with. *)
Definition processApiResponse {T} (response : Response T) (path : string)
    : Result (option T) :=
  if negb (ok response) then
    result_bind (parseApiError response path) (fun message =>
      Thrown (new_PlatformAPIError message (status response) (retry_after response)))
  else if status response =? 204 then Done None
  else match ok_json response with
       | inl message => Thrown (OtherError message)
       | inr payload => Done (Some payload)
       end.

(** The options of a request: [init] of [fetch]. *)
Record RequestInit := mkRequestInit {
  i_method : string;
  i_headers : Headers;
  i_body : option json
}.

Definition authenticatedFetch_request (baseUrl path : string) (token : option string)
    (init : RequestInit) : Request :=
  let h := i_headers init in
  let h1 := match token with
            | Some t => if is_empty t then h else header_set "Authorization" ("Bearer " ++ₛ t) h
            | None => h
            end in
  let h2 := match header_get "Content-Type" h1 with
            | Some _ => h1
            | None => header_set "Content-Type" "application/json" h1
            end in
  mkRequest (i_method init) (baseUrl ++ₛ path) h2 (i_body init).

(** ** Query strings *)

Inductive QueryValue := QUndefined | QString (s : string) | QNumber (n : Z) | QNaN.

Definition query_entry (ps : list (string * string)) (e : string * QueryValue)
    : list (string * string) :=
  match e.2 with
  | QUndefined | QNaN => ps
  | QString s => if is_empty s then ps else params_set e.1 s ps
  | QNumber n => params_set e.1 (num_to_string n) ps
  end.

Definition buildQueryString (query : list (string * QueryValue)) : string :=
  let encoded := params_to_string (fold_left query_entry query []) in
  if is_empty encoded then EmptyString else "?" ++ₛ encoded.

(** ** Forwarded addresses *)

Definition firstForwardedAddress (value : option string) : option string :=
  v ← value; find_first (fun e => negb (is_empty e)) (trim <$> split_on "," v).

(** ** Properties *)

(** The text of a value that is sent; [None] when the entry is skipped. *)
Definition query_text (v : QueryValue) : option string :=
  match v with
  | QUndefined | QNaN => None
  | QString s => or_undefined s
  | QNumber n => Some (num_to_string n)
  end.

Definition sent_entries (query : list (string * QueryValue)) : list (string * string) :=
  omap (fun e => (fun t => (e.1, t)) <$> query_text e.2) query.

Lemma query_entry_text ps e :
  query_entry ps e =
  match query_text e.2 with Some t => params_set e.1 t ps | None => ps end.
Proof.
  unfold query_entry, query_text, or_undefined. destruct e as [k [|s| |]]; simpl; try done.
  by destruct (is_empty s).
Qed.

Lemma fold_query_entries query ps :
  NoDup (ps.*1 ++ query.*1) ->
  fold_left query_entry query ps = ps ++ sent_entries query.
Proof.
  revert ps. induction query as [|[k v] query IH]; intros ps Hn; csimpl.
  { by rewrite app_nil_r. }
  csimpl in Hn. rewrite query_entry_text. cbn [fst snd].
  apply list.NoDup_app in Hn as (Hn1 & Hdis & [Hk Hn2]%list.NoDup_cons).
  unfold sent_entries. csimpl. destruct (query_text v) as [t|]; csimpl.
  - rewrite params_set_fresh by set_solver. rewrite IH.
    + unfold sent_entries. by rewrite <-app_assoc.
    + rewrite fmap_app. csimpl. rewrite <-app_assoc. simpl.
      apply list.NoDup_app. split_and!; [done|set_solver|by apply list.NoDup_cons].
  - apply IH. apply list.NoDup_app. split_and!; [done|set_solver|done].
Qed.

(** A query string built by the clients decodes to exactly the entries that
    are neither undefined, empty nor NaN, in order, and it is empty when there
    is none. *)
Theorem buildQueryString_parses query :
  NoDup query.*1 ->
  exists encoded,
    parse_params encoded = Some (sent_entries query) /\
    buildQueryString query =
      (if decide (sent_entries query = []) then EmptyString else "?" ++ₛ encoded).
Proof.
  intros Hn. exists (params_to_string (sent_entries query)).
  split; [apply parse_params_to_string|].
  unfold buildQueryString. rewrite (fold_query_entries query []) by done.
  rewrite app_nil_l. case_decide as E; [by rewrite E|].
  destruct (is_empty _) eqn:H; [|done]. by apply params_to_string_empty in H.
Qed.

Lemma buildQueryString_parses_witness :
  let q := [("limit", QNumber 12); ("offset", QUndefined); ("attacker", QString "Red & Co=1");
            ("service", QString "")]%string in
  buildQueryString q = "?limit=12&attacker=Red+%26+Co%3D1"%string /\
  exists encoded, parse_params encoded =
    Some [("limit", "12"); ("attacker", "Red & Co=1")]%string.
Proof.
  intros q. split; [vm_compute; reflexivity|].
  destruct (buildQueryString_parses q) as (e & He & _).
  - apply (bool_decide_unpack _). vm_compute. exact I.
  - exists e. exact He.
Defined.

(** Decoding a response never invents an outcome: a success status yields
    the payload (or undefined for 204) or the failure to read it, any other
    status throws, and when the error body is absent, malformed, an object or
    an array, what is thrown carries the upstream status and the trimmed
    [Retry-After]. *)
Theorem processApiResponse_outcome {T} (r : Response T) path :
  match processApiResponse r path with
  | Done None => status r = 204
  | Done (Some v) => ok r = true /\ status r <> 204 /\ ok_json r = inr v
  | Thrown e =>
      (ok r = true /\ exists m, ok_json r = inl m /\ e = OtherError m) \/
      (ok r = false /\
       (match err_json r with
        | None | Some JNull | Some (JObj _) | Some (JArr _) => True
        | _ => isJsonLike (content_type r ?? "") = false
        end ->
        exists m, e = new_PlatformAPIError m (status r) (retry_after r)))
  end.
Proof.
  unfold processApiResponse. destruct (ok r) eqn:Hok; simpl.
  - destruct (status r =? 204) eqn:E; boolify; [done|].
    destruct (ok_json r) as [m|v] eqn:Ej; [left; eauto|done].
  - unfold parseApiError. destruct (isJsonLike _) eqn:Hj; simpl; [|right; eauto].
    destruct (err_json r) as [p|]; [|right; eauto].
    destruct (truthy p) eqn:Ht; [|right; eauto].
    destruct p; simpl; right; split; try done; by eauto.
Qed.

(** ** What reaches the upstream *)

Lemma header_get_set_same n v h : header_get n (header_set n v h) = Some v.
Proof.
  unfold header_get, header_set. induction h as [|[k w] h IH]; simpl.
  - by rewrite String.eqb_refl.
  - destruct (String.eqb k (to_lower n)) eqn:E; simpl; [done|]. by rewrite E.
Qed.

Lemma header_get_set_other n m v h :
  to_lower n <> to_lower m -> header_get n (header_set m v h) = header_get n h.
Proof.
  intros Hne. unfold header_get, header_set. induction h as [|[k w] h IH]; simpl.
  - by destruct (String.eqb_spec (to_lower m) (to_lower n)); [congruence|].
  - destruct (String.eqb_spec k (to_lower m)) as [->|]; simpl.
    + destruct (String.eqb_spec (to_lower m) (to_lower n)); [congruence|done].
    + by destruct (String.eqb k (to_lower n)).
Qed.

(** A call with a token carries that token and nothing the caller put
    under the same header, keeps every other header of the caller, and always
    has a content type. *)
Theorem authenticatedFetch_headers baseUrl path token init t :
  token = Some t -> is_empty t = false ->
  let h := r_headers (authenticatedFetch_request baseUrl path token init) in
  header_get "Authorization" h = Some ("Bearer " ++ₛ t) /\
  is_Some (header_get "Content-Type" h) /\
  forall n, to_lower n <> "authorization" -> is_Some (header_get n (i_headers init)) ->
            header_get n h = header_get n (i_headers init).
Proof.
  intros -> He. unfold authenticatedFetch_request. cbn [r_headers]. rewrite He.
  set (h1 := header_set "Authorization" _ _).
  destruct (header_get "Content-Type" h1) as [ct|] eqn:Ec; split_and!.
  - apply header_get_set_same.
  - eauto.
  - intros n Hn _. unfold h1. by apply header_get_set_other.
  - rewrite header_get_set_other by done. apply header_get_set_same.
  - rewrite header_get_set_same. eauto.
  - intros n Hn Hs. rewrite header_get_set_other.
    + unfold h1. by apply header_get_set_other.
    + intros Hct. unfold h1 in Ec. rewrite header_get_set_other in Ec by done.
      unfold header_get in *. rewrite Hct in Hs. rewrite Ec in Hs. by destruct Hs.
Qed.

Lemma authenticatedFetch_headers_witness :
  header_get "Authorization"
    (r_headers (authenticatedFetch_request "http://api:8080" "/api/v2/challenges"
       (Some "participant-token") (mkRequestInit "GET" [("x-forwarded-for", "203.0.113.5")] None)))
  = Some "Bearer participant-token"%string.
Proof.
  exact (proj1 (authenticatedFetch_headers "http://api:8080" "/api/v2/challenges"
    (Some "participant-token"%string) (mkRequestInit "GET" [("x-forwarded-for", "203.0.113.5")] None)%string
    "participant-token" eq_refl eq_refl)).
Defined.
