(* ===== verification/Io.v ===== *)
(** * Server-side programs

    The handlers of the web tier are straight-line programs that call the
    platform services with [fetch], and may throw. A program is a tree of calls;
    [run] interprets it against an upstream that answers, or fails, depending on
    the calls already made. *)

From S2P Require Import Prelude JsString JsNumber ApiUtils.

Inductive Io (A : Type) :=
| Ret (a : A)
| Throw (e : JsError)
| Fetch (req : Request) (k : Result (Response json) -> Io A).
Arguments Ret {A}.
Arguments Throw {A}.
Arguments Fetch {A}.

(** [await fetch(req)]: a network failure is thrown. *)
Definition of_result {A} (r : Result A) : Io A :=
  match r with Done a => Ret a | Thrown e => Throw e end.

Definition fetch (req : Request) : Io (Response json) := Fetch req of_result.

Fixpoint io_bind {A B} (m : Io A) (f : A -> Io B) : Io B :=
  match m with
  | Ret a => f a
  | Throw e => Throw e
  | Fetch req k => Fetch req (fun r => io_bind (k r) f)
  end.

(** [try { m } catch (e) { h(e) }]. *)
Fixpoint try_catch {A} (m : Io A) (h : JsError -> Io A) : Io A :=
  match m with
  | Ret a => Ret a
  | Throw e => h e
  | Fetch req k => Fetch req (fun r => try_catch (k r) h)
  end.

Notation "'let!' x := m 'in' f" := (io_bind m (fun x => f))
  (at level 200, x pattern, m at level 100, f at level 200, right associativity) : js_scope.

(** ** Interpretation *)

(** What the services answer to a call, given the calls before it. *)
Definition Upstream := list Request -> Request -> Result (Response json).

Fixpoint run {A} (up : Upstream) (trace : list Request) (m : Io A) : list Request * Result A :=
  match m with
  | Ret a => (trace, Done a)
  | Throw e => (trace, Thrown e)
  | Fetch req k => run up (trace ++ [req]) (k (up trace req))
  end.

(** Every call the program can make, whatever it is answered, satisfies [P]. *)
Fixpoint all_requests {A} (P : Request -> Prop) (m : Io A) : Prop :=
  match m with
  | Ret _ | Throw _ => True
  | Fetch req k => P req /\ forall r, all_requests P (k r)
  end.

(** Every value the program can return satisfies [Q]. *)
Fixpoint returns {A} (Q : A -> Prop) (m : Io A) : Prop :=
  match m with
  | Ret a => Q a
  | Throw _ => True
  | Fetch _ k => forall r, returns Q (k r)
  end.

(** The program never throws. *)
Fixpoint never_throws {A} (m : Io A) : Prop :=
  match m with
  | Ret _ => True
  | Throw _ => False
  | Fetch _ k => forall r, never_throws (k r)
  end.

(** At most [n] calls are made. *)
Fixpoint at_most_calls {A} (n : nat) (m : Io A) : Prop :=
  match m with
  | Ret _ | Throw _ => True
  | Fetch _ k => match n with O => False | S n => forall r, at_most_calls n (k r) end
  end.

(** ** Laws *)

Section Laws.
Context {A B : Type}.

Lemma run_let up t (m : Io A) (f : A -> Io B) :
  run up t (io_bind m f) =
  match run up t m with
  | (t', Done a) => run up t' (f a)
  | (t', Thrown e) => (t', Thrown e)
  end.
Proof. revert t. induction m as [a|e|req k IH]; intros t; simpl; [done|done|apply IH]. Qed.

Lemma run_try_catch up t (m : Io A) h :
  run up t (try_catch m h) =
  match run up t m with
  | (t', Done a) => (t', Done a)
  | (t', Thrown e) => run up t' (h e)
  end.
Proof. revert t. induction m as [a|e|req k IH]; intros t; simpl; [done|done|apply IH]. Qed.

Lemma all_requests_bind P (m : Io A) (f : A -> Io B) :
  all_requests P m -> (forall a, all_requests P (f a)) -> all_requests P (io_bind m f).
Proof.
  intros Hm Hf. induction m as [a|e|req k IH]; simpl in *; [done|done|].
  destruct Hm as [Hr Hk]. split; [done|]. intros r. by apply IH.
Qed.

(** As above, when the continuation only runs on the values that satisfy [Q]. *)
Lemma all_requests_bind_returns P Q (m : Io A) (f : A -> Io B) :
  all_requests P m -> returns Q m -> (forall a, Q a -> all_requests P (f a)) ->
  all_requests P (io_bind m f).
Proof.
  intros Hm HQ Hf. induction m as [a|e|req k IH]; simpl in *; [auto|done|].
  destruct Hm as [Hr Hk]. split; [done|]. intros r. by apply IH.
Qed.

Lemma all_requests_try P (m : Io A) h :
  all_requests P m -> (forall e, all_requests P (h e)) -> all_requests P (try_catch m h).
Proof.
  intros Hm Hh. induction m as [a|e|req k IH]; simpl in *; [done|done|].
  destruct Hm as [Hr Hk]. split; [done|]. intros r. by apply IH.
Qed.

Lemma returns_bind Q R (m : Io A) (f : A -> Io B) :
  returns Q m -> (forall a, Q a -> returns R (f a)) -> returns R (io_bind m f).
Proof. intros Hm Hf. induction m as [a|e|req k IH]; simpl in *; auto. Qed.

Lemma returns_try Q (m : Io A) h :
  returns Q m -> (forall e, returns Q (h e)) -> returns Q (try_catch m h).
Proof. intros Hm Hh. induction m as [a|e|req k IH]; simpl in *; auto. Qed.

Lemma never_throws_try (m : Io A) h :
  (forall e, never_throws (h e)) -> never_throws (try_catch m h).
Proof. intros Hh. induction m as [a|e|req k IH]; simpl in *; auto. Qed.

Lemma never_throws_bind (m : Io A) (f : A -> Io B) :
  never_throws m -> (forall a, never_throws (f a)) -> never_throws (io_bind m f).
Proof. intros Hm Hf. induction m as [a|e|req k IH]; simpl in *; auto; done. Qed.

Lemma run_all_requests P up t (m : Io A) :
  all_requests P m -> exists calls, (run up t m).1 = t ++ calls /\ Forall P calls.
Proof.
  revert t. induction m as [a|e|req k IH]; intros t; simpl.
  - intros _. exists []. by rewrite app_nil_r.
  - intros _. exists []. by rewrite app_nil_r.
  - intros [Hr Hk]. destruct (IH (up t req) (t ++ [req]) (Hk _)) as (c & -> & Hc).
    exists (req :: c). split; [by rewrite <-app_assoc|]. by constructor.
Qed.

Lemma run_returns Q up t (m : Io A) a :
  returns Q m -> (run up t m).2 = Done a -> Q a.
Proof.
  revert t. induction m as [b|e|req k IH]; intros t; simpl; [|done|].
  - by intros ? [= <-].
  - intros Hk. by apply IH.
Qed.

Lemma run_never_throws up t (m : Io A) :
  never_throws m -> exists a, (run up t m).2 = Done a.
Proof.
  revert t. induction m as [b|e|req k IH]; intros t; simpl; [eauto|done|]. intros Hk. by apply IH.
Qed.

Lemma run_at_most up t n (m : Io A) :
  at_most_calls n m -> (length (run up t m).1 <= length t + n)%nat.
Proof.
  revert t n. induction m as [b|e|req k IH]; intros t n; simpl; [lia|lia|].
  destruct n as [|n]; [done|]. intros Hk. specialize (IH (up t req) (t ++ [req]) n (Hk _)).
  rewrite length_app in IH. simpl in IH. lia.
Qed.
End Laws.

(** ** The context of a request *)

(** [process.env], the variables the web tier reads. *)
Record Env := mkEnv {
  AD_PLATFORM_API_URL : option string;
  AD_PLATFORM_REALTIME_URL : option string;
  AD_PLATFORM_PUBLIC_BASE_URL : option string;
  AD_PLATFORM_TEAM_JWT : option string;
  REALTIME_ADMIN_TOKEN : option string;
  ADMIN_API_TOKEN : option string;
  TEAM_JWT_SECRET : option string;
  NODE_ENV : option string
}.

(** What a handler may read of the browser's request: its headers (absent
    outside of a request), the session cookie, and the clock in milliseconds. *)
Record Ctx := mkCtx {
  env : Env;
  incoming : option Headers;
  session_cookie : option string;
  now_ms : Z
}.

Definition apiBaseUrl (e : Env) : string :=
  trimBaseUrl (AD_PLATFORM_API_URL e ?? "http://127.0.0.1:8080").

(** [value?.trim()], kept when it is truthy. *)
Definition trimmed (v : option string) : option string := s ← v; or_undefined (trim s).

Lemma trimmed_some v t : trimmed v = Some t -> is_empty t = false /\ trim t = t.
Proof.
  destruct v as [s|]; [|done]. unfold trimmed, or_undefined. cbn [mbind option_bind].
  destruct (is_empty (trim s)) eqn:E; [done|]. intros [= <-]. by rewrite trim_idem.
Qed.

(** [authenticatedFetch]: the call, then the decoding of its answer. *)
Definition authenticatedFetch (baseUrl path : string) (token : option string) (init : RequestInit)
    : Io (option json) :=
  let! response := fetch (authenticatedFetch_request baseUrl path token init) in
  of_result (processApiResponse response path).

(** The answer of a successful call, or the [PlatformAPIError] of a failed one. *)
Definition require_ok (response : Response json) (path : string) : Io (Response json) :=
  if negb (ok response) then
    let! message := of_result (parseApiError response path) in
    Throw (new_PlatformAPIError message (status response) (retry_after response))
  else Ret response.

(** [await response.json()]. *)
Definition read_json (response : Response json) : Io json :=
  of_result (match ok_json response with inl m => Thrown (OtherError m) | inr v => Done v end).

Lemma all_requests_fetch P req : P req -> all_requests P (fetch req).
Proof. intros H. split; [done|]. by intros [r|e]. Qed.

Lemma all_requests_of_result {A} P (r : Result A) : all_requests P (of_result r).
Proof. by destruct r. Qed.

Lemma all_requests_authenticatedFetch P baseUrl path token init :
  P (authenticatedFetch_request baseUrl path token init) ->
  all_requests P (authenticatedFetch baseUrl path token init).
Proof.
  intros H. apply all_requests_bind; [by apply all_requests_fetch|].
  intros r. apply all_requests_of_result.
Qed.

Lemma all_requests_require_ok P r path : all_requests P (require_ok r path).
Proof.
  unfold require_ok. case_bool; [|done].
  apply all_requests_bind; [apply all_requests_of_result|done].
Qed.

#[export] Hint Resolve all_requests_fetch all_requests_of_result all_requests_authenticatedFetch
  all_requests_require_ok all_requests_bind all_requests_try : js.
