(* ===== verification/ApiHandler.v ===== *)
(** * Route handlers ([lib/api-handler.ts], [lib/participant-session-cookie.ts])

    The replies the Next.js routes send: problem documents, forwarded upstream
    answers, the session cookie, and the two id-taking handlers every mutation
    route uses. *)

From S2P Require Import Prelude JsString JsNumber UrlParams ApiUtils Io.

(** ** Replies *)

Inductive ReplyBody :=
| JsonBody (data : json)
| TextBody (text : string)
| NoBody.

(** [participantSessionCookie]. *)
Record Cookie := mkCookie {
  c_name : string;
  c_value : string;
  c_httpOnly : bool;
  c_sameSite : string;
  c_secure : bool;
  c_path : string;
  c_maxAge : Z
}.

Record Reply := mkReply {
  rp_status : Z;
  rp_headers : Headers;
  rp_body : ReplyBody;
  rp_cookie : option Cookie
}.

Definition participantSessionCookieName : string := "ad_platform_team_jwt".

Definition sessionCookieSecure (e : Env) : bool :=
  match NODE_ENV e with Some v => String.eqb v "production" | None => false end.

Definition participantSessionCookie (e : Env) (value : string) (maxAge : Z) : Cookie :=
  mkCookie participantSessionCookieName value true "lax" (sessionCookieSecure e) "/" maxAge.

(** [response.cookies.set(cookie)]. *)
Definition with_cookie (c : Cookie) (r : Reply) : Reply :=
  mkReply (rp_status r) (rp_headers r) (rp_body r) (Some c).

Definition json_reply (data : json) : Reply :=
  mkReply 200 [("content-type", "application/json")]%string (JsonBody data) None.

(** [NextResponse.json(data)]: undefined, which a 204 answer decodes to, is not
    serialisable and throws. *)
Definition next_json (data : option json) : Io Reply :=
  match data with
  | Some d => Ret (json_reply d)
  | None => Throw (OtherError "Value is not JSON serializable")
  end.

Definition problem (st : Z) (title detail : string) : json :=
  JObj [("title", JStr title); ("status", JNum st); ("detail", JStr detail)]%string.

Definition problemResponse (st : Z) (title detail : string) : Reply :=
  mkReply st [("content-type", "application/problem+json")]%string
    (JsonBody (problem st title detail)) None.

(** [response.headers.set(...)] on a reply. *)
Definition reply_header (n v : string) (r : Reply) : Reply :=
  mkReply (rp_status r) (header_set n v (rp_headers r)) (rp_body r) (rp_cookie r).

Definition not_authenticated : string := "participant session is not authenticated.".

Definition is_error (e : JsError) : bool :=
  match e with NonError => false | _ => true end.

Definition upstreamErrorResponse (error : JsError) (fallback title : string) : Reply :=
  if is_error error && String.eqb (error_message error "") not_authenticated
  then problemResponse 403 "Authentication required" (error_message error "")
  else
    let details := upstreamErrorDetails error fallback in
    let response := problemResponse (err_status details) title (detail details) in
    match retryAfter details with
    | Some v => if is_empty v then response else reply_header "Retry-After" v response
    | None => response
    end.

Definition upstream_title : string := "Upstream request failed".

(** [try { action } catch (error) { return upstreamErrorResponse(error, ...) }]. *)
Definition guarded (action : Io Reply) (fallback title : string) : Io Reply :=
  try_catch action (fun error => Ret (upstreamErrorResponse error fallback title)).

(** ** The id routes

    [param] is the dynamic segment of the route; [actionFn] is the awaited API
    call. *)

Definition invalid_id (idName : string) : Reply :=
  problemResponse 400 "Invalid request" (idName ++ₛ " is invalid.").

(** [Number.isInteger(id) && id > 0]. *)
Definition positive_id (idStr : string) : option Z :=
  match num_integer (js_number idStr) with
  | Some id => if id <=? 0 then None else Some id
  | None => None
  end.

Definition handleAdminIdRoute (param : option string) (idName actionName : string)
    (actionFn : Z -> Io (option json)) : Io Reply :=
  match param with
  | None => Ret (invalid_id idName)
  | Some idStr =>
      if is_empty idStr then Ret (invalid_id idName)
      else match positive_id idStr with
           | None => Ret (invalid_id idName)
           | Some id =>
               guarded (let! data := actionFn id in next_json data)
                 (actionName ++ₛ " failed") upstream_title
           end
  end.

Definition handleParticipantIdRoute (param : option string) (idName actionName : string)
    (actionFn : Z -> Io (option json)) : Io Reply :=
  match param with
  | None => Ret (invalid_id idName)
  | Some idStr =>
      if is_empty idStr then Ret (invalid_id idName)
      else match positive_id idStr with
           | None => Ret (invalid_id idName)
           | Some id =>
               guarded (let! data := actionFn id in next_json data)
                 (actionName ++ₛ " failed") upstream_title
           end
  end.

(** Copying the non-empty headers of an upstream answer. *)
Definition forward_header (response : Headers) (h : Headers) (n : string) : Headers :=
  match header_get n response with
  | Some v => if is_empty v then h else header_set n v h
  | None => h
  end.

Definition body_of (b : option string) : ReplyBody :=
  match b with Some t => TextBody t | None => NoBody end.

(** [response.text()] of a response without a body is empty. *)
Definition forwardUpstreamResponse (response : Response json) : Reply :=
  mkReply (status response)
    (fold_left (forward_header (resp_headers response)) ["content-type"; "retry-after"]%string [])
    (TextBody (resp_body response ?? "")) None.

(** ** Properties *)

Lemma positive_id_pos s id : positive_id s = Some id -> 0 < id.
Proof.
  unfold positive_id. destruct (num_integer _); [|done]. case_bool; [done|].
  intros [= <-]. boolify. lia.
Qed.

Lemma positive_id_num n : safe n -> 0 < n -> positive_id (num_to_string n) = Some n.
Proof.
  intros Hs Hn. unfold positive_id. rewrite js_number_num_to_string by (done || lia).
  by rewrite (proj2 (Z.leb_gt n 0)) by lia.
Qed.

Lemma guarded_never_throws action fallback title : never_throws (guarded action fallback title).
Proof. by apply never_throws_try. Qed.

Lemma run_guarded up t action fallback title :
  run up t (guarded action fallback title) =
  match run up t action with
  | (t', Done r) => (t', Done r)
  | (t', Thrown e) => (t', Done (upstreamErrorResponse e fallback title))
  end.
Proof. unfold guarded. rewrite run_try_catch. by destruct (run up t action) as [? []]. Qed.

(** The specification of an id route: a bad id is refused with 400 and nothing
    is sent; a good one runs the action, whose value is the reply, and whose
    failure, or a value that cannot be serialised, becomes a problem document. *)
Definition id_route_spec (param : option string) (idName actionName : string)
    (actionFn : Z -> Io (option json)) (up : Upstream) (t : list Request)
    (outcome : list Request * Result Reply) : Prop :=
  match s ← param; positive_id s with
  | None => outcome = (t, Done (invalid_id idName))
  | Some id =>
      0 < id /\
      match run up t (actionFn id) with
      | (t', Done (Some data)) => outcome = (t', Done (json_reply data))
      | (t', Done None) =>
          exists r, outcome = (t', Done r) /\ rp_status r = 502
      | (t', Thrown e) =>
          outcome = (t', Done (upstreamErrorResponse e (actionName ++ₛ " failed") upstream_title))
      end
  end.

(** Both id routes implement the id route specification against any
    upstream: no call is made for an id that is not a positive integer, and the
    route never throws. *)
Theorem id_routes_refine_spec param idName actionName actionFn up t :
  id_route_spec param idName actionName actionFn up t
    (run up t (handleAdminIdRoute param idName actionName actionFn)) /\
  handleParticipantIdRoute param idName actionName actionFn =
    handleAdminIdRoute param idName actionName actionFn.
Proof.
  split; [|done]. unfold handleAdminIdRoute, id_route_spec.
  destruct param as [s|]; [|done]. cbn [mbind option_bind].
  destruct (is_empty s) eqn:He.
  { apply is_empty_spec in He as ->. reflexivity. }
  destruct (positive_id s) as [id|] eqn:Hid; [|done].
  split; [by eapply positive_id_pos|]. rewrite run_guarded, run_let.
  destruct (run up t (actionFn id)) as [t' [[data|]|e]]; simpl; eauto.
Qed.

(** An upstream failure decoded by [processApiResponse] reaches the browser
    with the status of the upstream, the title of the route, and the upstream
    [Retry-After] when there is one that is not blank. *)
Theorem upstream_failure_preserved message st retry fallback title :
  String.eqb message not_authenticated = false ->
  let r := upstreamErrorResponse (new_PlatformAPIError message st retry) fallback title in
  rp_status r = st /\ rp_body r = JsonBody (problem st title message) /\
  header_get "Retry-After" (rp_headers r) = (v ← retry; or_undefined (trim v)).
Proof.
  intros Hm r. subst r. unfold upstreamErrorResponse, new_PlatformAPIError.
  cbn [is_error error_message andb]. rewrite Hm.
  cbn [upstreamErrorDetails err_status detail retryAfter].
  destruct (v ← retry; or_undefined (trim v)) as [w|] eqn:Ew; [|done].
  destruct retry as [v|]; simpl in Ew; [|done]. unfold or_undefined in Ew.
  destruct (is_empty (trim v)) eqn:Ev; [done|]. injection Ew as <-. rewrite Ev.
  cbn [rp_status rp_body rp_headers reply_header]. split_and!; [done..|].
  apply header_get_set_same.
Qed.

Lemma upstream_failure_preserved_witness :
  rp_status (upstreamErrorResponse
    (new_PlatformAPIError "slow down" 429 (Some " 7 ")) "failed" "T")%string = 429.
Proof.
  exact (proj1 (upstream_failure_preserved "slow down" 429 (Some " 7 "%string)
    "failed" "T" eq_refl)).
Defined.
