(* ===== verification/RealtimeProxy.v ===== *)
(** * Proxying the server-sent event streams ([lib/realtime-proxy.ts])

    The routes under [app/api/**/realtime] answer with the stream of the
    realtime gateway. *)

From S2P Require Import Prelude JsString JsNumber ApiUtils Io ApiHandler.

Definition streamResponseHeaders : Headers :=
  [("content-type", "text/event-stream"); ("cache-control", "no-cache, no-transform");
   ("connection", "keep-alive"); ("x-accel-buffering", "no")]%string.

(** [JSON.stringify({ status: 'failed', message })]. *)
Definition stream_failure (failureMessage : string) : ReplyBody :=
  JsonBody (JObj [("status", JStr "failed"); ("message", JStr failureMessage)])%string.

Section Proxy.
Context (e : Env).

Definition realtimeBaseUrl : string :=
  trimBaseUrl (AD_PLATFORM_REALTIME_URL e ?? "http://127.0.0.1:8086").

(** [a?.trim() || b?.trim()], then the throw on a missing token. *)
Definition adminRealtimeToken : Io string :=
  let token := match trimmed (REALTIME_ADMIN_TOKEN e) with
               | Some t => Some t
               | None => trimmed (ADMIN_API_TOKEN e)
               end in
  match token with
  | Some t => Ret t
  | None => Throw (OtherError
      "REALTIME_ADMIN_TOKEN or ADMIN_API_TOKEN must be set for realtime admin proxy calls")
  end.

(** [request] is the browser's request headers, when the route passes it. *)
Definition stream_request (path : string) (request : option Headers) (extra : Headers) : Request :=
  let forwardedFor := firstForwardedAddress (h ← request; header_get "x-forwarded-for" h) in
  mkRequest "GET" (realtimeBaseUrl ++ₛ path)
    ([("accept", "text/event-stream")]%string ++
     match forwardedFor with
     | Some a => if is_empty a then [] else [("x-forwarded-for"%string, a)]
     | None => []
     end ++ extra) None.

Definition stream_reply (failureMessage : string) (upstream : Response json) : Reply :=
  if negb (ok upstream) then
    let h := [("content-type"%string,
               header_get "content-type" (resp_headers upstream) ?? "application/json")] in
    let h' := match header_get "retry-after" (resp_headers upstream) with
              | Some v => if is_empty v then h else header_set "Retry-After" v h
              | None => h
              end in
    mkReply (status upstream) h'
      (match resp_body upstream with
       | Some b => TextBody b
       | None => stream_failure failureMessage
       end) None
  else
    match resp_body upstream with
    | None => mkReply 502 [("content-type", "application/json")]%string
                (stream_failure failureMessage) None
    | Some b => mkReply 200 streamResponseHeaders (TextBody b) None
    end.

Definition proxyRealtimeStream (path failureMessage : string) (request : option Headers)
    (extra : Headers) : Io Reply :=
  let! upstream := fetch (stream_request path request extra) in
  Ret (stream_reply failureMessage upstream).

Definition proxyPublicRealtimeStream (path failureMessage : string) (request : option Headers) :=
  proxyRealtimeStream path failureMessage request [].

Definition proxyAdminRealtimeStream (path failureMessage : string) (request : option Headers) :=
  let! token := adminRealtimeToken in
  proxyRealtimeStream path failureMessage request
    [("authorization"%string, "Bearer " ++ₛ token)].
End Proxy.

(** ** Properties *)

Lemma firstForwardedAddress_some v a :
  firstForwardedAddress v = Some a ->
  exists s e, v = Some s /\ e ∈ split_on "," s /\ a = trim e /\ is_empty a = false.
Proof.
  unfold firstForwardedAddress. destruct v as [s|]; [|done]. cbn [mbind option_bind].
  intros [Ha Hne]%find_first_Some. apply list_elem_of_fmap in Ha as (e & -> & He).
  exists s, e. split_and!; [done..|]. by apply negb_true_iff in Hne.
Qed.

(** What a request for an administration stream with token [t] does. *)
Definition admin_stream_sent (e : Env) (up : Upstream) (path msg t : string)
    (request : option Headers) (outcome : list Request * Result Reply) : Prop :=
  exists req,
    is_empty t = false /\ r_url req = realtimeBaseUrl e ++ₛ path /\
    header_get "Authorization" (r_headers req) = Some ("Bearer " ++ₛ t) /\
    header_get "X-Forwarded-For" (r_headers req) =
      firstForwardedAddress (h ← request; header_get "x-forwarded-for" h) /\
    match up [] req with
    | Thrown err => outcome = ([req], Thrown err)
    | Done u =>
        exists reply, outcome = ([req], Done reply) /\
        match ok u, resp_body u with
        | true, Some b => rp_status reply = 200 /\ rp_body reply = TextBody b
        | true, None => rp_status reply = 502
        | false, _ => rp_status reply = status u
        end
    end.

Lemma stream_reply_status msg u :
  match ok u, resp_body u with
  | true, Some b => rp_status (stream_reply msg u) = 200 /\ rp_body (stream_reply msg u) = TextBody b
  | true, None => rp_status (stream_reply msg u) = 502
  | false, _ => rp_status (stream_reply msg u) = status u
  end.
Proof. unfold stream_reply. destruct (ok u); [by destruct (resp_body u)|done]. Qed.

(** An administration stream is opened only with a configured, non-blank
    token, which is the only credential the gateway receives and without which
    nothing is sent; the forwarded address is the first non-blank one of the
    browser's header; the reply is the gateway's stream with status 200, or a
    failure with the gateway's error status, or 502 when it answers without a
    body. *)
Theorem proxyAdminRealtimeStream_spec e up path msg request :
  let outcome := run up [] (proxyAdminRealtimeStream e path msg request) in
  match trimmed (REALTIME_ADMIN_TOKEN e), trimmed (ADMIN_API_TOKEN e) with
  | Some t, _ | None, Some t => admin_stream_sent e up path msg t request outcome
  | None, None => exists err, outcome = ([], Thrown err)
  end.
Proof.
  assert (H : forall t, adminRealtimeToken e = Ret t -> is_empty t = false ->
    admin_stream_sent e up path msg t request
      (run up [] (proxyAdminRealtimeStream e path msg request))).
  { intros t Ht Hne. unfold proxyAdminRealtimeStream. rewrite Ht.
    exists (stream_request e path request [("authorization"%string, "Bearer " ++ₛ t)]).
    split_and!; [done|done| | |].
    - unfold stream_request. cbn [r_headers].
      destruct (firstForwardedAddress _) as [a|]; [|done]. by destruct (is_empty a).
    - unfold stream_request. cbn [r_headers].
      destruct (firstForwardedAddress _) as [a|] eqn:Ea; [|done].
      apply firstForwardedAddress_some in Ea as (? & ? & _ & _ & _ & He). by rewrite He.
    - simpl. destruct (up [] _) as [u|err]; [|done].
      eexists. split; [done|]. apply stream_reply_status. }
  cbn zeta. destruct (trimmed (REALTIME_ADMIN_TOKEN e)) as [t|] eqn:Er;
    [|destruct (trimmed (ADMIN_API_TOKEN e)) as [t|] eqn:Ea].
  - apply H; [|by apply trimmed_some in Er as [? _]]. unfold adminRealtimeToken. by rewrite Er.
  - apply H; [|by apply trimmed_some in Ea as [? _]]. unfold adminRealtimeToken. by rewrite Er, Ea.
  - unfold proxyAdminRealtimeStream, adminRealtimeToken. rewrite Er, Ea. simpl. eauto.
Qed.
