(* ===== verification/SessionToken.v ===== *)
(** * Participant session tokens ([lib/session-token.ts])

    The JWT verifier of the web tier: base64url decoding, the constant-time
    comparison of signatures, and the checks of [verifyParticipantSessionToken].
    HMAC-SHA256 (Web Crypto) and [JSON.parse] of a UTF-8 text are parameters. *)

From S2P Require Import Prelude JsString JsNumber UrlParams ApiUtils.

(** ** Bytes and base64 *)

Definition is_byte (b : Z) : Prop := 0 <= b < 256.

(** [TextEncoder.encode]. *)
Definition text_encode (s : string) : list Z := flat_map utf8 (list_ascii_of_string s).

(** [s.replace(/-/g, "+").replace(/_/g, "/")]. *)
Definition normal_char (c : ascii) : ascii :=
  if Ascii.eqb c "-" then "+"%char else if Ascii.eqb c "_" then "/"%char else c.

Definition normalize_base64 (s : list ascii) : list ascii := normal_char <$> s.

(** ["=".repeat(4 - n % 4)] unless [n % 4 === 0]. *)
Definition base64_padding (n : nat) : list ascii :=
  if (n mod 4 =? 0)%nat then [] else replicate (4 - n mod 4)%nat "="%char.

(** The value of a character of the base64 alphabet. *)
Definition base64_value (c : ascii) : option Z :=
  let n := code c in
  if (65 <=? n) && (n <=? 90) then Some (n - 65)
  else if (97 <=? n) && (n <=? 122) then Some (n - 71)
  else if (48 <=? n) && (n <=? 57) then Some (n + 4)
  else if n =? 43 then Some 62
  else if n =? 47 then Some 63
  else None.

Definition ascii_ws (c : ascii) : bool :=
  let n := code c in (n =? 9) || (n =? 10) || (n =? 12) || (n =? 13) || (n =? 32).

(** One or two trailing [=]. *)
Definition strip_padding (l : list ascii) : list ascii :=
  match rev l with
  | "="%char :: "="%char :: r => rev r
  | "="%char :: r => rev r
  | _ => l
  end.

Fixpoint sextets_bytes (l : list Z) : list Z :=
  match l with
  | a :: b :: c :: d :: r =>
      let n := a * 262144 + b * 4096 + c * 64 + d in
      n / 65536 :: (n / 256) mod 256 :: n mod 256 :: sextets_bytes r
  | [a; b; c] => let n := (a * 4096 + b * 64 + c) / 4 in [n / 256; n mod 256]
  | [a; b] => [(a * 64 + b) / 16]
  | _ => []
  end.

(** [Uint8Array.from(atob(data), c => c.charCodeAt(0))]; [None]: [atob] throws. *)
Definition atob (data : list ascii) : option (list Z) :=
  let d := bfilter (fun c => negb (ascii_ws c)) data in
  let d := if (length d mod 4 =? 0)%nat then strip_padding d else d in
  if (length d mod 4 =? 1)%nat then None
  else sextets_bytes <$> mapM base64_value d.

(** The bytes [decodeBase64Url] hands to the text decoder. *)
Definition decodeBase64Url (value : string) : option (list Z) :=
  let normalized := normalize_base64 (list_ascii_of_string value) in
  atob (normalized ++ base64_padding (length normalized)).

(** The signature part: padded by the length of the part itself. *)
Definition decode_signature (part : string) : option (list Z) :=
  let l := list_ascii_of_string part in
  atob (normalize_base64 l ++ base64_padding (length l)).

(** ** Comparing signatures *)

Fixpoint xor_diff (diff : Z) (a b : list Z) : Z :=
  match a, b with
  | x :: a, y :: b => xor_diff (Z.lor diff (Z.lxor x y)) a b
  | _, _ => diff
  end.

Definition timingSafeEqual (a b : list Z) : bool :=
  if negb (length a =? length b)%nat then false
  else xor_diff 0 a b =? 0.

(** ** Verification *)

Section Verify.
(** HMAC-SHA256 of a key and a text, and [JSON.parse] of decoded bytes. *)
Variable hmac : list Z -> list Z -> list Z.
Variable json_parse : list Z -> option json.

Definition decodeJWTClaims (token : string) : option json :=
  match split_on "." token with
  | [_; p; _] => b ← decodeBase64Url p; json_parse b
  | _ => None
  end.

(** [value.key] where [value] came from [JSON.parse]; [None]: it throws. *)
Definition get_property (key : string) (value : json) : option (option json) :=
  match value with
  | JNull => None
  | JObj fields => Some (field key fields)
  | _ => Some None
  end.

Definition is_str (v : option json) (s : string) : bool :=
  match v with Some (JStr t) => String.eqb t s | _ => false end.

(** [typeof exp === "number" && exp <= Math.floor(Date.now() / 1000)]. *)
Definition expired (now_ms : Z) (exp : option json) : bool :=
  match exp with Some (JNum e) => e <=? now_ms / 1000 | _ => false end.

Definition verifyParticipantSessionToken (now_ms : Z) (token secret : string) : option json :=
  let trimmedSecret := trim secret in
  if is_empty (trim token) || is_empty trimmedSecret then None
  else match split_on "." token with
       | [h; p; s] =>
           hb ← decodeBase64Url h; header ← json_parse hb;
           alg ← get_property "alg" header; typ ← get_property "typ" header;
           if negb (is_str alg "HS256") || negb (is_str typ "JWT") then None
           else
             let data := text_encode (h ++ₛ "." ++ₛ p) in
             let signature := hmac (text_encode trimmedSecret) data in
             provided ← decode_signature s;
             if negb (timingSafeEqual signature provided) then None
             else
               pb ← decodeBase64Url p; claims ← json_parse pb;
               exp ← get_property "exp" claims;
               if expired now_ms exp then None else Some claims
       | _ => None
       end.

End Verify.

(** ** What a signer produces

    The unpadded base64url text of RFC 4648, section 5, the reference for the
    decoder, and the token a holder of the secret issues (RFC 7519). *)

Definition url_char (n : Z) : ascii :=
  if n <? 26 then chr (n + 65)
  else if n <? 52 then chr (n + 71)
  else if n <? 62 then chr (n - 4)
  else if n =? 62 then "-"%char else "_"%char.

Fixpoint bytes_sextets (l : list Z) : list Z :=
  match l with
  | x :: y :: z :: r =>
      x / 4 :: (x mod 4) * 16 + y / 16 :: (y mod 16) * 4 + z / 64 :: z mod 64 :: bytes_sextets r
  | [x; y] => [x / 4; (x mod 4) * 16 + y / 16; (y mod 16) * 4]
  | [x] => [x / 4; (x mod 4) * 16]
  | [] => []
  end.

Definition base64url (l : list Z) : string :=
  string_of_list_ascii (url_char <$> bytes_sextets l).

Definition issue_token (hmac : list Z -> list Z -> list Z) (header claims : list Z)
    (secret : string) : string :=
  let data := base64url header ++ₛ "." ++ₛ base64url claims in
  data ++ₛ "." ++ₛ base64url (hmac (text_encode (trim secret)) (text_encode data)).

(** ** The decoder inverts the encoder *)

Definition sextet (n : Z) : Prop := 0 <= n < 64.

Lemma list3_ind {A} (P : list A -> Prop) :
  P [] -> (forall x, P [x]) -> (forall x y, P [x; y]) ->
  (forall x y z l, P l -> P (x :: y :: z :: l)) -> forall l, P l.
Proof.
  intros H0 H1 H2 H3.
  assert (H : forall n l, (length l <= n)%nat -> P l).
  { induction n as [|n IH]; intros [|x [|y [|z l]]] Hl; simpl in Hl; auto; try lia.
    apply H3, IH. lia. }
  intros l. by apply (H (length l)).
Qed.

Ltac bytes := unfold is_byte, sextet in *; Z.to_euclidean_division_equations; lia.

Lemma bytes_sextets_range l : Forall is_byte l -> Forall sextet (bytes_sextets l).
Proof.
  induction l as [|x|x y|x y z l IH] using list3_ind; intros H; decompose_Forall_hyps;
    repeat constructor; try (by apply IH); bytes.
Qed.

Lemma sextets_bytes_sextets l : Forall is_byte l -> sextets_bytes (bytes_sextets l) = l.
Proof.
  induction l as [|x|x y|x y z l IH] using list3_ind; intros H; decompose_Forall_hyps; simpl.
  - done.
  - f_equal. bytes.
  - f_equal; [bytes|]. f_equal. bytes.
  - rewrite IH by done. f_equal; [bytes|]. f_equal; [bytes|]. f_equal. bytes.
Qed.

Lemma bytes_sextets_length l : (length (bytes_sextets l) mod 4 <> 1)%nat.
Proof.
  induction l as [|x|x y|x y z l IH] using list3_ind; [done..|].
  cbn [bytes_sextets length]. set (n := length (bytes_sextets l)) in *.
  replace (S (S (S (S n)))) with (n + 1 * 4)%nat by lia. by rewrite Nat.Div0.mod_add.
Qed.

(** Facts on the 64 characters of the alphabet. *)
Definition alphabet_ok (n : Z) : bool :=
  let c := normal_char (url_char n) in
  bool_decide (base64_value c = Some n) && negb (ascii_ws c) && negb (Ascii.eqb c "=") &&
  negb (Ascii.eqb (url_char n) ".") && negb (is_ws (url_char n)).

Lemma alphabet n : sextet n -> alphabet_ok n = true.
Proof.
  intros Hn. assert (H : forallb alphabet_ok (seqZ 0 64) = true) by reflexivity.
  rewrite forallb_forall in H. apply H. apply list_elem_of_In, elem_of_seqZ. unfold sextet in Hn. lia.
Qed.

Lemma alphabet_facts n :
  sextet n ->
  base64_value (normal_char (url_char n)) = Some n /\
  ascii_ws (normal_char (url_char n)) = false /\
  ~ (normal_char (url_char n) = "="%char) /\ ~ (url_char n = "."%char) /\
  is_ws (url_char n) = false.
Proof.
  intros H%alphabet. unfold alphabet_ok in H. boolify.
  split_and!; try done; [by eapply bool_decide_eq_true_1|by apply Ascii.eqb_neq..].
Qed.

Lemma mapM_alphabet l :
  Forall sextet l -> mapM base64_value (normalize_base64 (url_char <$> l)) = Some l.
Proof.
  induction 1 as [|n l Hn _ IH]; [done|]. unfold normalize_base64 in *.
  rewrite !fmap_cons. cbn [mapM].
  destruct (alphabet_facts n Hn) as (-> & _). by rewrite IH.
Qed.

Lemma no_ws_alphabet l :
  Forall sextet l ->
  Forall (fun c => negb (ascii_ws c) = true) (normalize_base64 (url_char <$> l)).
Proof.
  intros H. unfold normalize_base64. rewrite !list.Forall_fmap. eapply List.Forall_impl; [|exact H].
  intros n Hn. simpl. by destruct (alphabet_facts n Hn) as (_ & -> & _).
Qed.

Lemma no_eq_alphabet l :
  Forall sextet l -> "="%char ∉ normalize_base64 (url_char <$> l).
Proof.
  intros H [c [Hc Hin]]%list_elem_of_fmap. apply list_elem_of_fmap in Hin as (n & -> & Hn).
  rewrite list.Forall_forall in H. destruct (alphabet_facts n (H n Hn)) as (_ & _ & ? & _). congruence.
Qed.

(** Padding to a multiple of four, and removing it again. *)
Lemma strip_padding_none l : "="%char ∉ l -> strip_padding l = l.
Proof.
  intros H. unfold strip_padding. destruct (rev l) as [|c r] eqn:E; [done|].
  assert (Hc : c ∈ l). { apply list_elem_of_In, in_rev. rewrite E. by left. }
  assert (c <> "="%char) by congruence.
  destruct c as [[] [] [] [] [] [] [] []]; done.
Qed.

Lemma strip_padding_pad k l :
  "="%char ∉ l -> (k <= 2)%nat -> strip_padding (l ++ replicate k "="%char) = l.
Proof.
  intros H Hk. destruct k as [|[|[|k]]]; [|..|lia]; simpl.
  - rewrite app_nil_r. by apply strip_padding_none.
  - unfold strip_padding. rewrite rev_app_distr. simpl.
    destruct (rev l) as [|c r] eqn:E.
    { by rewrite <-(rev_involutive l), E. }
    assert (Hc : c ∈ l). { apply list_elem_of_In, in_rev. rewrite E. by left. }
    assert (c <> "="%char) by congruence.
    rewrite <-(rev_involutive l), E.
    destruct c as [[] [] [] [] [] [] [] []]; done.
  - unfold strip_padding. rewrite rev_app_distr. simpl. apply rev_involutive.
Qed.

Lemma base64_padding_small n :
  (n mod 4 <> 1)%nat ->
  exists k, (k <= 2)%nat /\ base64_padding n = replicate k "="%char /\ ((n + k) mod 4 = 0)%nat.
Proof.
  intros Hn. unfold base64_padding. destruct (Nat.eqb_spec (n mod 4) 0) as [H|H].
  - exists 0%nat. rewrite Nat.add_0_r. split_and!; [lia|done|done].
  - exists (4 - n mod 4)%nat. pose proof (Nat.mod_upper_bound n 4).
    split_and!; [lia|done|].
    rewrite (Nat.div_mod_eq n 4) at 1.
    replace (4 * (n / 4) + n mod 4 + (4 - n mod 4))%nat with ((n / 4 + 1) * 4)%nat by lia.
    by rewrite Nat.Div0.mod_mul.
Qed.

Lemma atob_padded l :
  Forall sextet l -> (length l mod 4 <> 1)%nat ->
  let chars := normalize_base64 (url_char <$> l) in
  atob (chars ++ base64_padding (length chars)) = Some (sextets_bytes l).
Proof.
  intros Hl Hlen chars.
  assert (Hc : length chars = length l) by (by unfold chars, normalize_base64; rewrite !length_fmap).
  rewrite Hc. destruct (base64_padding_small (length l) Hlen) as (k & Hk & -> & Hmod).
  unfold atob. rewrite bfilter_id.
  2:{ apply list.Forall_app. split; [by apply no_ws_alphabet|].
      apply list.Forall_replicate. reflexivity. }
  rewrite length_app, length_replicate, Hc, Hmod, Nat.eqb_refl.
  rewrite strip_padding_pad by (by apply no_eq_alphabet || done).
  rewrite Hc. destruct (Nat.eqb_spec (length l mod 4) 1) as [E|_].
  { by destruct Hlen. }
  unfold chars. rewrite mapM_alphabet by done. reflexivity.
Qed.

Lemma list_ascii_base64url l :
  list_ascii_of_string (base64url l) = url_char <$> bytes_sextets l.
Proof. apply list_ascii_of_string_of_list_ascii. Qed.

Lemma decodeBase64Url_base64url l : Forall is_byte l -> decodeBase64Url (base64url l) = Some l.
Proof.
  intros H. unfold decodeBase64Url. rewrite list_ascii_base64url.
  rewrite atob_padded.
  - by rewrite sextets_bytes_sextets.
  - by apply bytes_sextets_range.
  - apply bytes_sextets_length.
Qed.

Lemma decode_signature_eq part : decode_signature part = decodeBase64Url part.
Proof.
  unfold decode_signature, decodeBase64Url, normalize_base64. by rewrite length_fmap.
Qed.

(** ** Properties *)

Lemma lor_eq_0 a b : Z.lor a b = 0 <-> a = 0 /\ b = 0.
Proof. apply Z.lor_eq_0_iff. Qed.

Lemma xor_diff_spec a b d :
  length a = length b -> xor_diff d a b = 0 <-> d = 0 /\ a = b.
Proof.
  revert b d. induction a as [|x a IH]; intros [|y b] d Hl; simpl in *; try done.
  { naive_solver. }
  rewrite IH by lia. rewrite lor_eq_0, Z.lxor_eq_0_iff. naive_solver.
Qed.

Lemma timingSafeEqual_spec a b : timingSafeEqual a b = true <-> a = b.
Proof.
  unfold timingSafeEqual. destruct (Nat.eqb_spec (length a) (length b)) as [Hl|Hl]; simpl.
  - rewrite Z.eqb_eq, xor_diff_spec by done. naive_solver.
  - split; [done|]. intros ->. done.
Qed.

Lemma free_of_base64url l : Forall is_byte l -> free_of "." (base64url l).
Proof.
  intros H%bytes_sextets_range. unfold base64url, free_of.
  induction H as [|n bs Hn _ IH]; [done|]. rewrite fmap_cons. simpl. rewrite IH.
  destruct (alphabet_facts n Hn) as (_ & _ & _ & Hd & _).
  apply Ascii.eqb_neq in Hd. by rewrite Hd.
Qed.

Lemma base64url_no_ws l : Forall is_byte l -> has_char is_ws (base64url l) = false.
Proof.
  intros H%bytes_sextets_range. unfold base64url.
  induction H as [|n bs Hn _ IH]; [done|]. rewrite fmap_cons. simpl. rewrite IH.
  by destruct (alphabet_facts n Hn) as (_ & _ & _ & _ & ->).
Qed.

(** A token is issued as three parts that the verifier finds again. *)
Lemma split_issued hmac header claims secret :
  Forall is_byte header -> Forall is_byte claims ->
  Forall is_byte (hmac (text_encode (trim secret))
    (text_encode (base64url header ++ₛ "." ++ₛ base64url claims))) ->
  split_on "." (issue_token hmac header claims secret) =
    [base64url header; base64url claims;
     base64url (hmac (text_encode (trim secret))
       (text_encode (base64url header ++ₛ "." ++ₛ base64url claims)))].
Proof.
  intros Hh Hc Hs.
  assert (E : issue_token hmac header claims secret =
    join "." [base64url header; base64url claims;
     base64url (hmac (text_encode (trim secret))
       (text_encode (base64url header ++ₛ "." ++ₛ base64url claims)))]).
  { unfold issue_token. cbn [join]. by rewrite !app_assoc_s. }
  rewrite E. apply split_join; [done|].
  repeat (constructor; [by apply free_of_base64url|]). constructor.
Qed.

Section Properties.
Variable hmac : list Z -> list Z -> list Z.
Variable json_parse : list Z -> option json.

Lemma is_str_spec v s : is_str v s = true <-> v = Some (JStr s).
Proof.
  destruct v as [[]|]; simpl; try (split; congruence).
  rewrite String.eqb_eq. split; congruence.
Qed.

(** C3: a token is accepted only when it has exactly three parts, its header
    names HS256 and JWT, its third part decodes to the HMAC of the first two
    under the trimmed secret, and its claims are not expired; the claims returned
    are those of the signed second part. *)
Theorem verifyParticipantSessionToken_sound now token secret claims :
  verifyParticipantSessionToken hmac json_parse now token secret = Some claims ->
  exists h p s hb pb header,
    token = h ++ₛ "." ++ₛ p ++ₛ "." ++ₛ s /\
    Forall (free_of ".") [h; p; s] /\
    is_empty (trim secret) = false /\
    decodeBase64Url h = Some hb /\ json_parse hb = Some (JObj header) /\
    field "alg" header = Some (JStr "HS256") /\ field "typ" header = Some (JStr "JWT") /\
    decodeBase64Url s = Some (hmac (text_encode (trim secret)) (text_encode (h ++ₛ "." ++ₛ p))) /\
    decodeBase64Url p = Some pb /\ json_parse pb = Some claims /\ claims <> JNull /\
    (forall fields e, claims = JObj fields -> field "exp" fields = Some (JNum e) -> now / 1000 < e).
Proof.
  unfold verifyParticipantSessionToken. case_bool; [done|]. boolify.
  pose proof (join_split "." token) as Hj. pose proof (split_on_parts_free "." token) as Hf.
  destruct (split_on "." token) as [|h [|p [|s [|]]]] eqn:Es; try done.
  destruct (decodeBase64Url h) as [hb|] eqn:Eh; [|done]. cbn [mbind option_bind].
  destruct (json_parse hb) as [header|] eqn:Ej; [|done]. cbn [mbind option_bind].
  destruct header as [| | | | |hf]; try done. cbn [get_property mbind option_bind].
  case_bool; [done|]. boolify.
  repeat match goal with H : is_str _ _ = true |- _ => apply is_str_spec in H end.
  rewrite decode_signature_eq. destruct (decodeBase64Url s) as [sb|] eqn:Eq; [|done].
  cbn [mbind option_bind]. case_bool; [done|]. boolify.
  match goal with H : timingSafeEqual _ _ = true |- _ => apply timingSafeEqual_spec in H as Hsig end.
  destruct (decodeBase64Url p) as [pb|] eqn:Ep; [|done]. cbn [mbind option_bind].
  destruct (json_parse pb) as [c|] eqn:Ec; [|done]. cbn [mbind option_bind].
  destruct (get_property "exp" c) as [e|] eqn:Ee; [|done]. cbn [mbind option_bind].
  destruct (expired now e) eqn:Ex; [done|]. intros [= <-].
  exists h, p, s, hb, pb, hf. split_and!; try done.
  - by rewrite Hsig.
  - by intros ->.
  - intros fields x -> Hx. simpl in Ee. injection Ee as <-. rewrite Hx in Ex. simpl in Ex.
    boolify. lia.
Qed.

(** Every token issued by a holder of the secret, for an HS256 header and
    claims that are not expired, is accepted and yields those claims. *)
Theorem verifyParticipantSessionToken_complete now header claims secret hf c e :
  Forall is_byte header -> Forall is_byte claims ->
  Forall is_byte (hmac (text_encode (trim secret))
    (text_encode (base64url header ++ₛ "." ++ₛ base64url claims))) ->
  is_empty (trim secret) = false ->
  json_parse header = Some (JObj hf) ->
  field "alg" hf = Some (JStr "HS256") -> field "typ" hf = Some (JStr "JWT") ->
  json_parse claims = Some c -> get_property "exp" c = Some e -> expired now e = false ->
  verifyParticipantSessionToken hmac json_parse now
    (issue_token hmac header claims secret) secret = Some c.
Proof.
  intros Hh Hc Hs Hsec Hph Halg Htyp Hpc He Hx. unfold verifyParticipantSessionToken.
  assert (Ht : is_empty (trim (issue_token hmac header claims secret)) = false).
  { rewrite trim_no_ws; [|].
    - unfold issue_token. rewrite app_assoc_s. by destruct (base64url header).
    - unfold issue_token. rewrite !has_char_app, !base64url_no_ws by done. done. }
  rewrite Ht, Hsec. cbn [orb]. rewrite split_issued by done.
  rewrite !decode_signature_eq, !decodeBase64Url_base64url by done.
  cbn [mbind option_bind]. rewrite Hph. cbn [mbind option_bind get_property].
  rewrite Halg, Htyp. cbn [is_str]. rewrite !String.eqb_refl. cbn [negb orb].
  assert (Heq : forall l, timingSafeEqual l l = true) by (intros; by apply timingSafeEqual_spec).
  rewrite Heq. cbn [negb]. rewrite Hpc. cbn [mbind option_bind]. rewrite He.
  cbn [mbind option_bind]. by rewrite Hx.
Qed.
End Properties.

(** A concrete signer and parser: the bytes of the header are [1;2;3], those of
    the claims [4;5], the signature sums the bytes it covers. *)
Definition sample_hmac (key data : list Z) : list Z := [foldr Z.add 0 (key ++ data) mod 256; 250].
Definition sample_parse (bs : list Z) : option json :=
  if decide (bs = [1; 2; 3])
  then Some (JObj [("alg", JStr "HS256"); ("typ", JStr "JWT")]%string)
  else if decide (bs = [4; 5])
  then Some (JObj [("player_id", JNum 7); ("exp", JNum 1700000001)]%string)
  else None.

Lemma verifyParticipantSessionToken_complete_witness :
  verifyParticipantSessionToken sample_hmac sample_parse 1700000000999
    (issue_token sample_hmac [1; 2; 3] [4; 5] " secret ") " secret " =
  Some (JObj [("player_id", JNum 7); ("exp", JNum 1700000001)]%string).
Proof.
  apply (verifyParticipantSessionToken_complete sample_hmac sample_parse 1700000000999
    [1; 2; 3] [4; 5] " secret " [("alg", JStr "HS256"); ("typ", JStr "JWT")]%string
    (JObj [("player_id", JNum 7); ("exp", JNum 1700000001)]%string) (Some (JNum 1700000001)));
    try reflexivity.
  - repeat constructor; lia.
  - repeat constructor; lia.
  - apply List.Forall_forall. vm_compute. intros x [<-|[<-|[]]]; split; done.
Defined.

Lemma verifyParticipantSessionToken_sound_witness :
  exists h p s hb pb header,
    issue_token sample_hmac [1; 2; 3] [4; 5] "secret" = h ++ₛ "." ++ₛ p ++ₛ "." ++ₛ s /\
    decodeBase64Url h = Some hb /\ sample_parse hb = Some (JObj header) /\
    decodeBase64Url p = Some pb.
Proof.
  destruct (verifyParticipantSessionToken_sound sample_hmac sample_parse 1700000000000
    (issue_token sample_hmac [1; 2; 3] [4; 5] "secret") "secret"
    (JObj [("player_id", JNum 7); ("exp", JNum 1700000001)]%string) eq_refl)
    as (h & p & s & hb & pb & hd & H1 & _ & _ & H2 & H3 & _ & _ & _ & H4 & _).
  exists h, p, s, hb, pb, hd. auto.
Defined.
