(* ===== verification/Session.v ===== *)
(** * Sessions and the edge proxy ([lib/session-validation.ts], [proxy.ts], and
      [getParticipantSession] of [lib/platform-api.ts])

    Every session is checked twice: the signature and the expiry of the token
    locally, then the token against the platform API. *)

From S2P Require Import Prelude JsString JsNumber ApiUtils Io ApiHandler SessionToken.

(** ** Validation against the API *)

Record ValidatedParticipantSession := mkValidated {
  v_player_id : Z;
  v_team_id : Z;
  v_team_name : string;
  v_team_contact_email : string;
  v_display_name : string;
  v_email : string;
  v_role : string
}.

Inductive ParticipantSessionValidation :=
| Validated (s : ValidatedParticipantSession)
| Deactivated
| Invalid.

(** [typeof payload[key] === "string" ? payload[key] : ""]. *)
Definition string_or_empty (v : option json) : string :=
  match v with Some (JStr s) => s | _ => EmptyString end.

(** A property read that throws on null. *)
Definition prop_of (key : string) (value : json) : Io (option json) :=
  match get_property key value with
  | Some v => Ret v
  | None => Throw (OtherError "Cannot read properties of null")
  end.

Definition session_request (e : Env) (token : string) : Request :=
  mkRequest "GET" (apiBaseUrl e ++ₛ "/api/v2/session")
    [("authorization"%string, "Bearer " ++ₛ token)] None.

(** The problem document of a 403: [problem?.title]. *)
Definition is_deactivated (problem : option json) : bool :=
  match problem with
  | Some (JObj fields) => is_str (field "title" fields) "Access deactivated"
  | _ => false
  end.

Definition read_session (response : Response json) : Io ParticipantSessionValidation :=
  if negb (ok response) then
    if (status response =? 403) && is_deactivated (err_json response) then Ret Deactivated
    else Ret Invalid
  else
    let! payload := of_result (match ok_json response with
                               | inl m => Thrown (OtherError m)
                               | inr p => Done p
                               end) in
    let! player := prop_of "player_id" payload in
    let! team := prop_of "team_id" payload in
    let! role := prop_of "role" payload in
    match player, team, role with
    | Some (JNum p), Some (JNum t), Some (JStr r) =>
        let! team_name := prop_of "team_name" payload in
        let! contact := prop_of "team_contact_email" payload in
        let! display := prop_of "display_name" payload in
        let! email := prop_of "email" payload in
        Ret (Validated (mkValidated p t (string_or_empty team_name) (string_or_empty contact)
              (string_or_empty display) (string_or_empty email) r))
    | _, _, _ => Ret Invalid
    end.

Definition validateParticipantSessionWithAPI (e : Env) (token : string)
    : Io ParticipantSessionValidation :=
  if is_empty (trim token) then Ret Invalid
  else try_catch (let! response := fetch (session_request e token) in read_session response)
         (fun _ => Ret Invalid).

(** ** The participant's session *)

Inductive SessionSource := FromCookie | FromEnv | FromNone.

Record ParticipantSession := mkSession {
  authenticated : bool;
  s_token : option string;
  s_claims : option ValidatedParticipantSession;
  source : SessionSource;
  deactivated : bool
}.

Definition no_session : ParticipantSession := mkSession false None None FromNone false.
Definition deactivated_session : ParticipantSession := mkSession false None None FromNone true.

Definition authenticatedSession (token : string) (src : SessionSource)
    (claims : ValidatedParticipantSession) : ParticipantSession :=
  mkSession true (Some token) (Some claims) src false.

Section Session.
Variable hmac : list Z -> list Z -> list Z.
Variable json_parse : list Z -> option json.

Definition secret_of (e : Env) : string := trim (TEAM_JWT_SECRET e ?? "").

Definition verify (c : Ctx) (token : string) : option json :=
  verifyParticipantSessionToken hmac json_parse (now_ms c) token (secret_of (env c)).

Definition validated_session (e : Env) (token : string) (src : SessionSource)
    : Io ParticipantSession :=
  let! validated := validateParticipantSessionWithAPI e token in
  match validated with
  | Deactivated => Ret deactivated_session
  | Validated v => Ret (authenticatedSession token src v)
  | Invalid => Ret no_session
  end.

Definition getParticipantSession (c : Ctx) : Io ParticipantSession :=
  match trimmed (AD_PLATFORM_TEAM_JWT (env c)) with
  | Some directToken => validated_session (env c) directToken FromEnv
  | None =>
      match trimmed (session_cookie c) with
      | None => Ret no_session
      | Some cookieToken =>
          match verify c cookieToken with
          | None => Ret no_session
          | Some claims =>
              if truthy claims then validated_session (env c) cookieToken FromCookie
              else Ret no_session
          end
      end
  end.

(** ** The edge proxy *)

Record NextRequest := mkNextRequest {
  n_method : string;
  n_pathname : string;
  n_host : string;
  n_protocol : string;
  n_headers : Headers
}.

Inductive ProxyAnswer :=
| Next
| RedirectTo (path : string)
| Refused (reply : Reply).

Definition unauthorizedApi (detail : string) : ProxyAnswer :=
  Refused (mkReply 403 [("content-type", "application/json")]%string
    (JsonBody (problem 403 "Authentication required" detail)) None).

Definition isSafeMethod (method : string) : bool :=
  String.eqb method "GET" || String.eqb method "HEAD" || String.eqb method "OPTIONS".

Definition isBrowserMutationRoute (pathname : string) : bool :=
  starts_with "/api/admin/" pathname ||
  starts_with "/api/platform/services/" pathname ||
  starts_with "/api/platform/session/" pathname.

(** [protocol.replace(/:$/, "")]. *)
Fixpoint strip_colon (s : string) : string :=
  match s with
  | EmptyString => EmptyString
  | String ":" EmptyString => EmptyString
  | String c r => String c (strip_colon r)
  end.

Definition requestOrigin (request : NextRequest) : string :=
  let host := header_get "host" (n_headers request) ?? n_host request in
  let forwardedProto := (fun v => trim (hd EmptyString (split_on "," v)))
                          <$> header_get "x-forwarded-proto" (n_headers request) in
  let protocol := match forwardedProto with
                  | Some p => str_or p (strip_colon (n_protocol request))
                  | None => strip_colon (n_protocol request)
                  end in
  protocol ++ₛ "://" ++ₛ host.

(** [new URL(text).origin], by the platform's URL parser; [None]: it throws. *)
Variable url_origin : string -> option string.

Definition sameOriginBrowserMutation (request : NextRequest) : bool :=
  if isSafeMethod (n_method request) || negb (isBrowserMutationRoute (n_pathname request))
  then true
  else
    let expectedOrigin := requestOrigin request in
    let header n := v ← header_get n (n_headers request); or_undefined v in
    let matches text := match url_origin text with
                        | Some o => String.eqb o expectedOrigin
                        | None => false
                        end in
    match to_lower <$> header_get "sec-fetch-site" (n_headers request) with
    | Some "cross-site"%string => false
    | _ =>
        match header "origin"%string with
        | Some origin => matches origin
        | None =>
            match header "referer"%string with
            | Some referer => matches referer
            | None => true
            end
        end
    end.

Definition organizerSession (c : Ctx) : Io (option ValidatedParticipantSession) :=
  match trimmed (session_cookie c) with
  | None => Ret None
  | Some token =>
      if is_empty (secret_of (env c)) then Ret None
      else match verify c token with
           | None => Ret None
           | Some claims =>
               if truthy claims then
                 let! validated := validateParticipantSessionWithAPI (env c) token in
                 match validated with
                 | Validated v => Ret (Some v)
                 | Deactivated | Invalid => Ret None
                 end
               else Ret None
           end
  end.

Definition is_organizer (session : option ValidatedParticipantSession) : bool :=
  match session with Some v => String.eqb (v_role v) "organizer" | None => false end.

Definition proxy (c : Ctx) (request : NextRequest) : Io ProxyAnswer :=
  let pathname := n_pathname request in
  if negb (sameOriginBrowserMutation request)
  then Ret (unauthorizedApi "cross-site mutation requests are not allowed.")
  else
    let! session := organizerSession c in
    let organizer := is_organizer session in
    if starts_with "/api/admin/" pathname then
      if negb organizer then
        Ret (unauthorizedApi (if session then "please authenticate as organizer."
                              else "please authenticate before accessing organizer routes."))
      else Ret Next
    else if negb (starts_with "/admin" pathname) then Ret Next
    else if negb (if session then true else false) then Ret (RedirectTo "/login")
    else if negb organizer then Ret (RedirectTo "/")
    else Ret Next.

(** ** Properties *)

(** The API vouches for the token of a call: it answers the session request with a
    successful JSON document that names the player, the team and the role. *)
Definition vouches (answer : Result (Response json))
    (v : ValidatedParticipantSession) : Prop :=
  exists r fields, answer = Done r /\ ok r = true /\ ok_json r = inr (JObj fields) /\
    field "player_id" fields = Some (JNum (v_player_id v)) /\
    field "team_id" fields = Some (JNum (v_team_id v)) /\
    field "role" fields = Some (JStr (v_role v)).

Lemma read_session_validated up t r v :
  run up t (read_session r) = (t, Done (Validated v)) -> vouches (Done r) v.
Proof.
  unfold read_session. destruct (ok r) eqn:Hok; cbn [negb]; [|case_bool; done].
  destruct (ok_json r) as [m|p] eqn:Ej; [done|]. cbn [of_result io_bind].
  destruct p as [| | | | |fields]; try done. unfold prop_of. cbn [get_property io_bind].
  destruct (field "player_id" fields) as [[]|] eqn:Ep; cbn; try done;
  destruct (field "team_id" fields) as [[]|] eqn:Et; cbn; try done;
  destruct (field "role" fields) as [[]|] eqn:Er; cbn; try done.
  intros [= <-]. exists r, fields. by split_and!.
Qed.

Lemma read_session_trace up t r : (run up t (read_session r)).1 = t.
Proof.
  unfold read_session. destruct (ok r); cbn [negb].
  - destruct (ok_json r) as [|[| | | | |f]]; try done. unfold prop_of. cbn [of_result io_bind get_property].
    by repeat (case_match; try done).
  - by case_bool.
Qed.

(** The four outcomes of a validation. *)
Lemma validate_spec e token up t :
  match run up t (validateParticipantSessionWithAPI e token) with
  | (t', Done (Validated v)) =>
      is_empty (trim token) = false /\
      t' = t ++ [session_request e token] /\ vouches (up t (session_request e token)) v
  | (t', Done _) => t' = t \/ t' = t ++ [session_request e token]
  | (_, Thrown _) => False
  end.
Proof.
  unfold validateParticipantSessionWithAPI. destruct (is_empty (trim token)) eqn:Ht; simpl; [auto|].
  destruct (up t (session_request e token)) as [r|err]; simpl; [|auto].
  rewrite run_try_catch.
  pose proof (read_session_trace up (t ++ [session_request e token]) r) as Htr.
  destruct (run up _ (read_session r)) as [t' o] eqn:Er. simpl in Htr. subst t'.
  destruct o as [[v| |]|err]; simpl; auto.
  split_and!; [done..|]. by eapply read_session_validated.
Qed.

(** The gate, whatever calls were made before. *)
Lemma organizer_gate c request up t0 t answer :
  (starts_with "/api/admin/" (n_pathname request) || starts_with "/admin" (n_pathname request))
    = true ->
  run up t0 (proxy c request) = (t, answer) ->
  (exists a, answer = Done a) /\
  (answer = Done Next ->
   exists token claims v,
     trimmed (session_cookie c) = Some token /\
     verify c token = Some claims /\
     t = t0 ++ [session_request (env c) token] /\
     vouches (up t0 (session_request (env c) token)) v /\
     v_role v = "organizer"%string).
Proof.
  intros Hpath. unfold proxy. destruct (sameOriginBrowserMutation request); cbn [negb].
  2:{ cbn. intros [= <- <-]. split; [eauto|done]. }
  rewrite run_let. unfold organizerSession.
  destruct (trimmed (session_cookie c)) as [token|] eqn:Ec.
  2:{ cbn. case_bool; [intros [= <- <-]; split; [eauto|done]|]. simpl in Hpath.
      rewrite Hpath. cbn. intros [= <- <-]. split; [eauto|done]. }
  assert (Hno : forall t1,
    run up t1 (if starts_with "/api/admin/" (n_pathname request)
      then if negb (is_organizer None) then
        Ret (unauthorizedApi "please authenticate before accessing organizer routes.") else Ret Next
      else if negb (starts_with "/admin" (n_pathname request)) then Ret Next
      else if negb false then Ret (RedirectTo "/login")
      else if negb (is_organizer None) then Ret (RedirectTo "/") else Ret Next) = (t, answer) ->
    (exists a, answer = Done a) /\ answer <> Done Next).
  { intros t1. destruct (starts_with "/api/admin/" _); simpl in Hpath |- *;
      [|rewrite Hpath; cbn]; intros [= <- <-]; split; eauto; done. }
  case_bool; [cbn [run]; intros H%Hno; naive_solver|].
  destruct (verify c token) as [claims|] eqn:Ev; [|cbn [run]; intros H%Hno; naive_solver].
  case_bool; [|cbn [run]; intros H%Hno; naive_solver].
  rewrite run_let. pose proof (validate_spec (env c) token up t0) as Hv.
  destruct (run up t0 (validateParticipantSessionWithAPI (env c) token)) as [t' [[v| |]|err]];
    [|cbn [run]; intros H%Hno; naive_solver..|done].
  destruct Hv as (Hne & -> & Hvouch). cbn [run].
  destruct (is_organizer (Some v)) eqn:Ho; cbn [negb].
  - simpl in Ho. apply String.eqb_eq in Ho.
    destruct (starts_with "/api/admin/" _); simpl in Hpath |- *; [|rewrite Hpath; cbn];
      intros [= <- <-]; split; eauto; intros _; exists token, claims, v; by split_and!.
  - destruct (starts_with "/api/admin/" _); simpl in Hpath |- *; [|rewrite Hpath; cbn];
      intros [= <- <-]; split; eauto; done.
Qed.

(** C1: a page or an API route of the organizers is let through only for a
    request whose session cookie is a token signed with the configured secret
    and not expired, after exactly one call to the platform API, in which the API
    vouched for that very token with the role organizer; every other outcome of
    the proxy on those routes is a refusal or a redirection, and the proxy
    never throws. *)
Theorem proxy_organizer_gate c request up t answer :
  (starts_with "/api/admin/" (n_pathname request) || starts_with "/admin" (n_pathname request))
    = true ->
  run up [] (proxy c request) = (t, answer) ->
  (exists a, answer = Done a) /\
  (answer = Done Next ->
   exists token claims v,
     trimmed (session_cookie c) = Some token /\
     verify c token = Some claims /\
     t = [session_request (env c) token] /\
     vouches (up [] (session_request (env c) token)) v /\
     v_role v = "organizer"%string).
Proof. apply organizer_gate. Qed.

(** C36: an unsafe request to a browser mutation route is refused before any
    call is made when the browser marks it cross-site, and whenever its Origin,
    or in the absence of one its Referer, is not a URL of the expected origin. *)
Theorem proxy_refuses_cross_site c request up :
  isSafeMethod (n_method request) = false ->
  isBrowserMutationRoute (n_pathname request) = true ->
  (let sent n := v ← header_get n (n_headers request); or_undefined v in
   to_lower <$> header_get "sec-fetch-site" (n_headers request) = Some "cross-site"%string \/
   exists text,
     match sent "origin"%string with Some o => Some o | None => sent "referer"%string end = Some text /\
     url_origin text <> Some (requestOrigin request)) ->
  exists r, run up [] (proxy c request) = ([], Done (Refused r)) /\ rp_status r = 403.
Proof.
  intros Hsafe Hroute H.
  assert (E : sameOriginBrowserMutation request = false).
  { unfold sameOriginBrowserMutation. rewrite Hsafe, Hroute. cbn [orb negb].
    destruct H as [->|(text & Ht & Hne)]; [done|].
    assert (Hm : match url_origin text with
                 | Some o => String.eqb o (requestOrigin request) | None => false end = false).
    { destruct (url_origin text) as [o|]; [|done]. apply String.eqb_neq. congruence. }
    assert (Hb : forall b : bool, match to_lower <$> header_get "sec-fetch-site" (n_headers request) with
      | Some "cross-site"%string => false | _ => b end = false <->
      (b = false \/ to_lower <$> header_get "sec-fetch-site" (n_headers request) = Some "cross-site"%string)).
    { intros b. destruct (to_lower <$> _) as [s|]; [|naive_solver].
      destruct (decide (s = "cross-site"%string)) as [->|Hs]; [naive_solver|].
      assert (Hx : match s with "cross-site"%string => false | _ => b end = b)
        by (repeat (case_match; try done)).
      rewrite Hx. naive_solver. }
    destruct (v ← header_get "origin" _; or_undefined v) as [o|] eqn:Eo.
    - injection Ht as ->. apply Hb. auto.
    - rewrite Ht. apply Hb. auto. }
  unfold proxy. rewrite E. cbn. eauto.
Qed.

(** A session that is read, whatever calls were made before. *)
Lemma session_gate c up t0 t s :
  run up t0 (getParticipantSession c) = (t, Done s) ->
  if authenticated s then
    exists token v, s = authenticatedSession token (source s) v /\
      t = t0 ++ [session_request (env c) token] /\
      vouches (up t0 (session_request (env c) token)) v /\
      match trimmed (AD_PLATFORM_TEAM_JWT (env c)) with
      | Some direct => source s = FromEnv /\ token = direct
      | None => source s = FromCookie /\ trimmed (session_cookie c) = Some token /\
                exists claims, verify c token = Some claims /\ truthy claims = true
      end
  else s = no_session \/ s = deactivated_session.
Proof.
  assert (Hv : forall token src, run up t0 (validated_session (env c) token src) = (t, Done s) ->
    if authenticated s then exists v, s = authenticatedSession token src v /\
      t = t0 ++ [session_request (env c) token] /\ vouches (up t0 (session_request (env c) token)) v
    else s = no_session \/ s = deactivated_session).
  { intros token src. unfold validated_session. rewrite run_let.
    pose proof (validate_spec (env c) token up t0) as Hs.
    destruct (run up t0 (validateParticipantSessionWithAPI _ _)) as [t' [[v| |]|err]]; [|..|done];
      cbn; intros [= <- <-]; simpl; auto. destruct Hs as (_ & -> & ?). by exists v. }
  unfold getParticipantSession. destruct (trimmed (AD_PLATFORM_TEAM_JWT (env c))) as [d|] eqn:Ed.
  - intros H%Hv. destruct (authenticated s); [|done]. destruct H as (v & -> & -> & ?).
    by exists d, v.
  - destruct (trimmed (session_cookie c)) as [token|] eqn:Ec; [|intros [= <- <-]; simpl; auto].
    destruct (verify c token) as [claims|] eqn:Ev; [|intros [= <- <-]; simpl; auto].
    destruct (truthy claims) eqn:Ht; [|intros [= <- <-]; simpl; auto].
    intros H%Hv. destruct (authenticated s); [|done]. destruct H as (v & -> & -> & ?).
    exists token, v. split_and!; try done. by exists claims.
Qed.

(** C35: a participant session is only ever built from a token that the API
    vouched for in the one call made; a session read from the cookie needs,
    besides, a valid signature and truthy claims, and a token of the environment
    shadows the cookie. *)
Theorem getParticipantSession_sound c up t s :
  run up [] (getParticipantSession c) = (t, Done s) ->
  if authenticated s then
    exists token v, s = authenticatedSession token (source s) v /\
      t = [session_request (env c) token] /\
      vouches (up [] (session_request (env c) token)) v /\
      match trimmed (AD_PLATFORM_TEAM_JWT (env c)) with
      | Some direct => source s = FromEnv /\ token = direct
      | None => source s = FromCookie /\ trimmed (session_cookie c) = Some token /\
                exists claims, verify c token = Some claims /\ truthy claims = true
      end
  else s = no_session \/ s = deactivated_session.
Proof. apply session_gate. Qed.

(** With a configured secret, an organizer with a valid cookie whose token
    the API vouches for passes on every organizer route when the request is
    not cross-site, and a participant is refused on the API and sent home from the
    pages. *)
Theorem proxy_lets_organizers_in c request up token claims v :
  sameOriginBrowserMutation request = true ->
  trimmed (session_cookie c) = Some token ->
  is_empty (secret_of (env c)) = false ->
  verify c token = Some claims -> truthy claims = true ->
  vouches (up [] (session_request (env c) token)) v ->
  starts_with "/admin" (n_pathname request) = true ->
  run up [] (proxy c request) =
    ([session_request (env c) token],
     Done (if String.eqb (v_role v) "organizer" then Next else RedirectTo "/")).
Proof.
  intros Hsame Hc Hsec Hver Htr (r & fields & Hup & Hok & Hj & Hp & Ht & Hr) Hpath.
  unfold proxy. rewrite Hsame. cbn [negb]. unfold organizerSession. rewrite Hc, Hsec, Hver, Htr.
  apply trimmed_some in Hc as [Hne Htrim].
  unfold validateParticipantSessionWithAPI. rewrite Htrim, Hne.
  cbn [io_bind fetch try_catch run app]. rewrite Hup. cbn [of_result io_bind try_catch].
  unfold read_session. rewrite Hok, Hj. cbn [negb of_result io_bind]. unfold prop_of.
  cbn [get_property io_bind]. rewrite Hp, Ht, Hr.
  cbn [io_bind try_catch run is_organizer v_role].
  assert (Hapi : starts_with "/api/admin/" (n_pathname request) = false).
  { apply starts_with_spec in Hpath as [rest ->]. reflexivity. }
  rewrite Hapi, Hpath. cbn [negb]. by destruct (String.eqb (v_role v) "organizer").
Qed.
End Session.

(** ** Witnesses *)

Section Witnesses.
Let e : Env := mkEnv None None None None None None (Some "secret")%string None.
Let cookie : string := issue_token sample_hmac [1; 2; 3] [4; 5] "secret".
Let c : Ctx := mkCtx e None (Some cookie) 1700000000000.
Let organizer_json : json :=
  JObj [("player_id", JNum 7); ("team_id", JNum 0); ("role", JStr "organizer")]%string.
Let up : Upstream := fun _ _ =>
  Done (mkResponse 200 [] None (inr organizer_json) None).
Let page : NextRequest := mkNextRequest "GET" "/admin/teams" "localhost:3000" "http:" [].

Lemma proxy_organizer_gate_witness :
  run up [] (proxy sample_hmac sample_parse (fun _ => None) c page)
    = ([session_request e cookie], Done Next) /\
  exists token, [session_request e cookie] = [session_request e token].
Proof.
  split; [vm_compute; reflexivity|].
  destruct (proxy_organizer_gate sample_hmac sample_parse (fun _ => None) c page up
    [session_request e cookie] (Done Next)) as [_ H]; [reflexivity|vm_compute; reflexivity|].
  destruct (H eq_refl) as (token & claims & v & _ & _ & Ht & _). exists token. exact Ht.
Defined.

Lemma proxy_refuses_cross_site_witness :
  exists r, run up [] (proxy sample_hmac sample_parse (fun _ => Some "https://evil.example"%string) c
    (mkNextRequest "POST" "/api/admin/teams" "localhost:3000" "http:"
       [("origin", "https://evil.example"); ("host", "arena.example")]%string))
    = ([], Done (Refused r)) /\ rp_status r = 403.
Proof.
  apply proxy_refuses_cross_site; [reflexivity|reflexivity|].
  right. exists "https://evil.example"%string. split; [reflexivity|]. vm_compute. congruence.
Defined.

Lemma getParticipantSession_sound_witness :
  exists t s, run up [] (getParticipantSession sample_hmac sample_parse c) = (t, Done s) /\
    authenticated s = true /\
    exists token, t = [session_request e token].
Proof.
  eexists _, _. split; [vm_compute; reflexivity|]. split; [reflexivity|].
  destruct (getParticipantSession_sound sample_hmac sample_parse c up
    [session_request e cookie]
    (authenticatedSession cookie FromCookie (mkValidated 7 0 "" "" "" "" "organizer")%string))
    as (token & v & _ & Ht & _); [vm_compute; reflexivity|].
  exists token. exact Ht.
Defined.

Lemma proxy_lets_organizers_in_witness :
  run up [] (proxy sample_hmac sample_parse (fun _ => None) c page)
    = ([session_request e cookie], Done Next).
Proof.
  apply (proxy_lets_organizers_in sample_hmac sample_parse (fun _ => None) c page up cookie
    (JObj [("player_id", JNum 7); ("exp", JNum 1700000001)]%string)
    (mkValidated 7 0 "" "" "" "" "organizer")%string);
    try (vm_compute; reflexivity).
  eexists _, _. repeat split; vm_compute; reflexivity.
Defined.
End Witnesses.
