(* ===== verification/PlatformApi.v ===== *)
(** * The participants' API client ([lib/platform-api.ts], [lib/route-query.ts])

    The calls the web tier makes to the platform API on behalf of a
    participant or of an anonymous visitor, and the filters of the feed routes. *)

From S2P Require Import Prelude JsString JsNumber UrlParams DashboardUtils ApiUtils Io ApiHandler Session.

(** ** Feed filters *)

Definition parseTextFilter (raw : option string) : option string :=
  r ← raw; if is_empty r then None else or_undefined (trim r).

Definition parseLowercaseTextFilter (raw : option string) : option string :=
  to_lower <$> parseTextFilter raw.

(** The query object of the feeds; [None] is undefined. *)
Record AttackFeedQuery := mkAttackFeedQuery {
  q_limit : option Z;
  q_offset : option Z;
  q_attacker : option string;
  q_victim : option string;
  q_service : option string;
  q_tick_from : option Z;
  q_tick_to : option Z
}.

(** [searchParams] is the list of decoded pairs. *)
Definition parseAttackFeedQuery (searchParams : list (string * string))
    (defaultLimit maxLimit : Z) : AttackFeedQuery :=
  let get n := params_get n searchParams in
  mkAttackFeedQuery
    (parsePositiveInteger (get "limit"%string) (Some defaultLimit) maxLimit)
    (parseNonNegativeInteger (get "offset"%string))
    (parseTextFilter (get "attacker"%string))
    (parseTextFilter (get "victim"%string))
    (parseTextFilter (get "service"%string))
    (parseNonNegativeInteger (get "tick_from"%string))
    (parseNonNegativeInteger (get "tick_to"%string)).

Definition q_num (v : option Z) : QueryValue :=
  match v with Some n => QNumber n | None => QUndefined end.
Definition q_str (v : option string) : QueryValue :=
  match v with Some s => QString s | None => QUndefined end.

(** [Object.entries(query)]. *)
Definition feed_entries (q : AttackFeedQuery) : list (string * QueryValue) :=
  [("limit", q_num (q_limit q)); ("offset", q_num (q_offset q));
   ("attacker", q_str (q_attacker q)); ("victim", q_str (q_victim q));
   ("service", q_str (q_service q)); ("tick_from", q_num (q_tick_from q));
   ("tick_to", q_num (q_tick_to q))]%string.

(** ** Requests *)

Definition get_init : RequestInit := mkRequestInit "GET" [] None.
Definition send_init (method : string) (body : option json) : RequestInit :=
  mkRequestInit method [] body.

Section Client.
Context (c : Ctx).
(** [getParticipantSession()], memoised for the request by React's [cache]. *)
Variable session : Io ParticipantSession.

Definition platformRequestHeaders (initial : Headers) : Headers :=
  match firstForwardedAddress (h ← incoming c; header_get "x-forwarded-for" h) with
  | Some a => if is_empty a then initial else header_set "X-Forwarded-For" a initial
  | None => initial
  end.

Definition participantApiBaseUrl : string :=
  trimBaseUrl (AD_PLATFORM_PUBLIC_BASE_URL (env c) ?? apiBaseUrl (env c)).

Definition getParticipantToken : Io string :=
  let! s := session in
  match authenticated s, s_token s with
  | true, Some t => if is_empty t then Throw (OtherError not_authenticated) else Ret t
  | _, _ => Throw (OtherError not_authenticated)
  end.

Definition participantFetch (path : string) (init : RequestInit) : Io (option json) :=
  let! token := getParticipantToken in
  authenticatedFetch (apiBaseUrl (env c)) path (Some token)
    (mkRequestInit (i_method init) (platformRequestHeaders (i_headers init)) (i_body init)).

Definition participantFetchResponse (path : string) (init : RequestInit) : Io (Response json) :=
  let! token := getParticipantToken in
  let h := header_set "Authorization" ("Bearer " ++ₛ token)
             (platformRequestHeaders (i_headers init)) in
  let! response := fetch (mkRequest (i_method init) (apiBaseUrl (env c) ++ₛ path) h (i_body init)) in
  require_ok response path.

Definition publicFetch (path : string) : Io (option json) :=
  authenticatedFetch (apiBaseUrl (env c)) path None
    (mkRequestInit "GET" (platformRequestHeaders []) None).

(** A call that answers with a session token: [payload.token]. *)
Definition token_call (method path : string) (token : option string) (body : json)
    : Io (option json) :=
  let h := [("content-type"%string, "application/json"%string)] ++
           match token with
           | Some t => [("authorization"%string, "Bearer " ++ₛ t)]
           | None => []
           end in
  let! response := fetch (mkRequest method (apiBaseUrl (env c) ++ₛ path)
                           (platformRequestHeaders h) (Some body)) in
  let! response := require_ok response path in
  let! payload := read_json response in
  prop_of "token" payload.

(** ** Operations *)

Definition authenticateParticipant (email : string) (password : json) : Io (option json) :=
  token_call "POST" "/api/v2/authenticate" None
    (JObj [("email", JStr email); ("password", password)]%string).

Definition registerParticipant (displayName email : string) (password : json) : Io (option json) :=
  token_call "POST" "/api/v2/register" None
    (JObj [("display_name", JStr displayName); ("email", JStr email);
           ("password", password)]%string).

Definition joinCurrentParticipantTeam (teamKey : string) : Io (option json) :=
  let! token := getParticipantToken in
  token_call "POST" "/api/v2/me/team" (Some token) (JObj [("team_key", JStr teamKey)]%string).

Definition listCurrentTeamMembers : Io (option json) :=
  participantFetch "/api/v2/me/team/members" get_init.

Definition transferCurrentTeamCaptain (playerID : json) : Io (option json) :=
  let! token := getParticipantToken in
  token_call "POST" "/api/v2/me/team/captain" (Some token)
    (JObj [("player_id"%string, playerID)]).

Definition updateCurrentParticipantProfile (displayName email teamName teamContactEmail : string)
    : Io (option json) :=
  let! token := getParticipantToken in
  token_call "PUT" "/api/v2/me/profile" (Some token)
    (JObj [("display_name", JStr displayName); ("email", JStr email);
           ("team_name", JStr teamName); ("team_contact_email", JStr teamContactEmail)]%string).

Definition listChallenges : Io (option json) := publicFetch "/api/v2/challenges".
Definition listServices : Io (option json) := participantFetch "/api/v2/services" get_init.
Definition listScoreboard : Io (option json) := publicFetch "/api/v2/scoreboard".
Definition getScoreboardFreezeStatus : Io (option json) := publicFetch "/api/v2/scoreboard/freeze".
Definition getGameStatus : Io (option json) := publicFetch "/api/v2/game/status".

Definition listAttackFeed (query : AttackFeedQuery) : Io (option json) :=
  publicFetch ("/api/v2/attacks" ++ₛ buildQueryString (feed_entries query)).

Definition listTeamServices : Io (option json) :=
  participantFetch "/api/v2/team/services" get_init.

Definition service_path (challengeID : Z) (operation : string) : string :=
  "/api/v2/services/" ++ₛ num_to_string challengeID ++ₛ operation.

Definition unlockService (challengeID : Z) (proof : string) : Io (option json) :=
  participantFetch (service_path challengeID "/unlock")
    (send_init "POST" (Some (JObj [("proof", JStr proof)]%string))).

Definition createSSHSession (challengeID : Z) : Io (option json) :=
  participantFetch (service_path challengeID "/ssh-session") (send_init "POST" None).

Definition factoryResetService (challengeID : Z) : Io (option json) :=
  participantFetch (service_path challengeID "/reset/factory") (send_init "POST" None).

Definition restartService (challengeID : Z) : Io (option json) :=
  participantFetch (service_path challengeID "/reset/restart") (send_init "POST" None).

Definition downloadChallengeSource (challengeID : Z) : Io (Response json) :=
  participantFetchResponse
    ("/api/v2/challenges/" ++ₛ num_to_string challengeID ++ₛ "/source") get_init.

Definition downloadParticipantWireGuard : Io (Response json) :=
  participantFetchResponse "/api/v2/me/wireguard" get_init.

Definition submitFlags (flags : list string) : Io (option json) :=
  participantFetch "/api/v2/submit"
    (send_init "POST" (Some (JObj [("flags"%string, JArr (JStr <$> flags))]))).

Definition changeParticipantPassword (currentPassword newPassword : json) : Io (option json) :=
  participantFetch "/api/v2/me/password"
    (send_init "PUT" (Some (JObj [("current_password"%string, currentPassword);
                                  ("new_password"%string, newPassword)]))).

Definition listAnnouncements : Io (option json) := publicFetch "/api/v2/announcements".

(** Every operation that acts for the participant. *)
Definition participant_operations (id : Z) (proof teamKey a b d e : string) (flags : list string)
    (p q : json) : list (Io (option json)) :=
  let forget m := let! _ := m in Ret None in
  [joinCurrentParticipantTeam teamKey; listCurrentTeamMembers; transferCurrentTeamCaptain p;
   updateCurrentParticipantProfile a b d e; listServices; listTeamServices;
   unlockService id proof; createSSHSession id; factoryResetService id; restartService id;
   forget (downloadChallengeSource id); forget downloadParticipantWireGuard;
   submitFlags flags; changeParticipantPassword p q].
End Client.

(** ** Properties *)

(** A call made with the token [t] and the address of the browser. *)
Definition authorized (c : Ctx) (t : string) (req : Request) : Prop :=
  header_get "Authorization" (r_headers req) = Some ("Bearer " ++ₛ t) /\
  starts_with (apiBaseUrl (env c) ++ₛ "/api/v2/") (r_url req) = true /\
  header_get "X-Forwarded-For" (r_headers req) =
    firstForwardedAddress (h ← incoming c; header_get "x-forwarded-for" h).

Lemma forwarded_header c h :
  header_get "X-Forwarded-For" h = None ->
  header_get "X-Forwarded-For" (platformRequestHeaders c h) =
    firstForwardedAddress (h ← incoming c; header_get "x-forwarded-for" h).
Proof.
  intros Hn. unfold platformRequestHeaders.
  destruct (firstForwardedAddress _) as [a|] eqn:Ea; [|done].
  assert (He : is_empty a = false).
  { unfold firstForwardedAddress in Ea. destruct (h ← incoming c; _) as [v|]; [|done].
    apply find_first_Some in Ea as [_ Ea]. by apply negb_true_iff in Ea. }
  rewrite He. apply header_get_set_same.
Qed.

Lemma authorization_kept c h :
  header_get "Authorization" (platformRequestHeaders c h) = header_get "Authorization" h.
Proof.
  unfold platformRequestHeaders. destruct (firstForwardedAddress _); [|done].
  case_bool; [done|]. by apply header_get_set_other.
Qed.

(** The base URL and the path of an operation. *)
Lemma api_url base rest : starts_with (base ++ₛ "/api/v2/") (base ++ₛ "/api/v2/" ++ₛ rest) = true.
Proof. apply starts_with_spec. exists rest. by rewrite app_assoc_s. Qed.

Lemma authorized_fetch c t path init :
  is_empty t = false -> header_get "X-Forwarded-For" (i_headers init) = None ->
  starts_with (apiBaseUrl (env c) ++ₛ "/api/v2/") (apiBaseUrl (env c) ++ₛ path) = true ->
  authorized c t (authenticatedFetch_request (apiBaseUrl (env c)) path (Some t)
    (mkRequestInit (i_method init) (platformRequestHeaders c (i_headers init)) (i_body init))).
Proof.
  intros Ht Hn Hp. unfold authenticatedFetch_request. rewrite Ht. cbn [i_headers].
  set (h := header_set "Authorization" _ _).
  assert (Ha : header_get "Authorization" h = Some ("Bearer " ++ₛ t)) by apply header_get_set_same.
  assert (Hf : header_get "X-Forwarded-For" h =
    firstForwardedAddress (h ← incoming c; header_get "x-forwarded-for" h)).
  { unfold h. rewrite header_get_set_other by done. by apply forwarded_header. }
  destruct (header_get "Content-Type" h); split_and!; try done;
    cbn [r_headers]; by rewrite header_get_set_other.
Qed.

Section Authorized.
Context (c : Ctx) (s : ParticipantSession).

(** A call in the name of [s]: only when the session is authenticated. *)
Definition in_name_of (req : Request) : Prop :=
  authenticated s = true /\ exists t, s_token s = Some t /\ authorized c t req.

Lemma token_returns :
  returns (fun t => authenticated s = true /\ s_token s = Some t /\ is_empty t = false)
    (getParticipantToken (Ret s)).
Proof.
  unfold getParticipantToken. cbn [io_bind]. destruct (authenticated s); [|done].
  destruct (s_token s) as [t|]; [|done]. by destruct (is_empty t) eqn:E.
Qed.

Lemma token_no_calls P : all_requests P (getParticipantToken (Ret s)).
Proof. unfold getParticipantToken. cbn [io_bind]. by repeat (case_match; try done). Qed.

Lemma participantFetch_in_name rest init :
  header_get "X-Forwarded-For" (i_headers init) = None ->
  all_requests in_name_of (participantFetch c (Ret s) ("/api/v2/" ++ₛ rest) init).
Proof.
  intros Hn. eapply all_requests_bind_returns; [apply token_no_calls|apply token_returns|].
  intros t (Ha & Ht & He). apply all_requests_authenticatedFetch. split; [done|].
  exists t. split; [done|]. apply authorized_fetch; [done..|apply api_url].
Qed.

Lemma participantFetchResponse_in_name rest init :
  header_get "X-Forwarded-For" (i_headers init) = None ->
  all_requests in_name_of (participantFetchResponse c (Ret s) ("/api/v2/" ++ₛ rest) init).
Proof.
  intros Hn. eapply all_requests_bind_returns; [apply token_no_calls|apply token_returns|].
  intros t (Ha & Ht & He). apply all_requests_bind; [|auto with js].
  apply all_requests_fetch. split; [done|]. exists t. split; [done|]. split_and!; cbn [r_headers r_url].
  - apply header_get_set_same.
  - apply api_url.
  - rewrite header_get_set_other by done. by apply forwarded_header.
Qed.

Lemma token_call_in_name method rest body :
  all_requests in_name_of (let! t := getParticipantToken (Ret s) in
                           token_call c method ("/api/v2/" ++ₛ rest) (Some t) body).
Proof.
  eapply all_requests_bind_returns; [apply token_no_calls|apply token_returns|].
  intros t (Ha & Ht & He). apply all_requests_bind.
  - apply all_requests_fetch. split; [done|]. exists t. split; [done|].
    split_and!; cbn [r_headers r_url].
    + by rewrite authorization_kept.
    + apply api_url.
    + by apply forwarded_header.
  - intros r. apply all_requests_bind; [auto with js|]. intros r'.
    apply all_requests_bind; [unfold read_json; auto with js|].
    intros v. unfold prop_of. by case_match.
Qed.

(** C37: no operation of the participant client makes a call unless the session
    is authenticated, and every call it makes goes to the platform API with the
    token of that session and the first forwarded address of the browser. *)
Theorem participant_operations_authorized id proof teamKey a b d e flags p q :
  Forall (all_requests in_name_of)
    (participant_operations c (Ret s) id proof teamKey a b d e flags p q).
Proof.
  assert (Hf : forall m : Io (Response json), all_requests in_name_of m ->
    all_requests in_name_of (let! _ := m in Ret (@None json))).
  { intros m Hm. by apply all_requests_bind. }
  unfold participant_operations. repeat constructor;
    first [ apply token_call_in_name | by apply participantFetch_in_name
          | apply Hf; by apply participantFetchResponse_in_name ].
Qed.
End Authorized.

(** Filters that the pages can hold: numbers in range, texts trimmed. *)
Definition text_ok (v : option string) : Prop :=
  forall s, v = Some s -> trim s = s /\ is_empty s = false.

Definition feed_query_ok (maxLimit : Z) (q : AttackFeedQuery) : Prop :=
  (exists l, q_limit q = Some l /\ 0 < l <= maxLimit) /\
  (forall n, q_offset q = Some n \/ q_tick_from q = Some n \/ q_tick_to q = Some n ->
             safe n /\ 0 <= n) /\
  text_ok (q_attacker q) /\ text_ok (q_victim q) /\ text_ok (q_service q).

Lemma parse_text_ok v : text_ok v -> parseTextFilter v = v.
Proof.
  destruct v as [s|]; [|done]. intros H. destruct (H s eq_refl) as [Ht He].
  unfold parseTextFilter. cbn [mbind option_bind]. by rewrite He, Ht; unfold or_undefined; rewrite He.
Qed.

Lemma num_text_nonempty n : safe n -> 0 <= n -> is_empty (num_to_string n) = false.
Proof. intros Hs Hn. rewrite num_to_string_safe by done. apply dec_nonempty. Qed.

Lemma parse_natural n :
  safe n -> 0 <= n -> parseNonNegativeInteger (Some (num_to_string n)) = Some n.
Proof.
  intros Hs Hn. unfold parseNonNegativeInteger. rewrite num_text_nonempty by done.
  rewrite parse_int_num_to_string by done. by destruct (Z.ltb_spec n 0); [lia|].
Qed.

Lemma parse_limit l d m :
  safe l -> 0 < l <= m -> parsePositiveInteger (Some (num_to_string l)) d m = Some l.
Proof.
  intros Hs Hl. unfold parsePositiveInteger. rewrite num_text_nonempty by (done || lia).
  rewrite parse_int_num_to_string by done. destruct (Z.leb_spec l 0); [lia|].
  destruct (Z.gtb_spec l m); [lia|]. by rewrite andb_false_r.
Qed.

Lemma sent_str v : text_ok v -> query_text (q_str v) = v.
Proof.
  destruct v as [s|]; [|done]. intros H. destruct (H s eq_refl) as [_ He].
  simpl. unfold or_undefined. by rewrite He.
Qed.

(** Reading a sent entry back by its name. *)
Lemma sent_params_get es n v :
  NoDup es.*1 -> (n, v) ∈ es -> params_get n (sent_entries es) = query_text v.
Proof.
  unfold params_get, sent_entries. induction es as [|[k w] es IH]; csimpl; [set_solver|].
  intros [Hk Hn]%list.NoDup_cons Hin.
  assert (Hskip : n ∈ es.*1 -> String.eqb k n = false).
  { intros H. apply String.eqb_neq. intros ->. done. }
  assert (Hnone : n ∉ es.*1 ->
    find_first (fun e => String.eqb e.1 n)
      (omap (fun e => (fun t => (e.1, t)) <$> query_text e.2) es) = None).
  { intros H. apply find_first_None, list.Forall_forall. intros [k' t] Hi.
    apply list_elem_of_omap in Hi as ([k'' w''] & Hi & He). simpl in *.
    destruct (query_text w''); simplify_eq/=. apply String.eqb_neq. intros ->.
    apply H, list_elem_of_fmap. by exists (n, w''). }
  apply elem_of_cons in Hin as [[= -> ->]|Hin].
  - destruct (query_text w) as [t|]; csimpl; [by rewrite String.eqb_refl|]. by rewrite Hnone.
  - assert (Hes : n ∈ es.*1) by (apply list_elem_of_fmap; by exists (n, v)).
    destruct (query_text w) as [t|]; csimpl; [rewrite Hskip by done|]; by apply IH.
Qed.

Lemma feed_params_get (q : AttackFeedQuery) n v :
  (n, v) ∈ feed_entries q ->
  params_get n (sent_entries (feed_entries q)) = query_text v.
Proof.
  apply sent_params_get. apply (bool_decide_unpack _). vm_compute. exact I.
Qed.

(** The sent filters, read back by the route. *)
Lemma feed_entries_parsed q defaultLimit maxLimit :
  feed_query_ok maxLimit q -> maxLimit < 2 ^ 53 ->
  parseAttackFeedQuery (sent_entries (feed_entries q)) defaultLimit maxLimit = q.
Proof.
  intros ((l & Hl & Hlr) & Hnum & Ha & Hv & Hs) Hm.
  assert (Hsl : safe l) by (unfold safe; lia). unfold parseAttackFeedQuery.
  rewrite (feed_params_get q "limit" (q_num (q_limit q))), (feed_params_get q "offset" (q_num (q_offset q))),
    (feed_params_get q "attacker" (q_str (q_attacker q))),
    (feed_params_get q "victim" (q_str (q_victim q))),
    (feed_params_get q "service" (q_str (q_service q))),
    (feed_params_get q "tick_from" (q_num (q_tick_from q))),
    (feed_params_get q "tick_to" (q_num (q_tick_to q))) by (unfold feed_entries; set_solver).
  destruct q as [ql qo qa qv qs qf qt]. cbn [q_limit q_offset q_attacker q_victim q_service
    q_tick_from q_tick_to] in *. subst ql.
  rewrite !sent_str, !parse_text_ok by done. cbn [q_num query_text].
  rewrite parse_limit by done.
  assert (Hz : forall o, (forall n, o = Some n -> safe n /\ 0 <= n) ->
    parseNonNegativeInteger (query_text (q_num o)) = o).
  { intros [n|] Ho; [|done]. destruct (Ho n eq_refl). by apply parse_natural. }
  rewrite !Hz; [done|intros n ->; apply Hnum; auto..].
Qed.

(** The filters of a feed survive the trip through the web tier: the query
    string built from them is decoded by the feed route to the same filters, so
    the route asks the platform API exactly what the page asked the route. *)
Theorem feed_query_round_trip q defaultLimit maxLimit :
  feed_query_ok maxLimit q -> maxLimit < 2 ^ 53 ->
  exists encoded params,
    buildQueryString (feed_entries q) = "?" ++ₛ encoded /\
    parse_params encoded = Some params /\
    parseAttackFeedQuery params defaultLimit maxLimit = q.
Proof.
  intros ((l & Hl & Hlr) & Hnum & Ha & Hv & Hs) Hm.
  assert (Hsl : safe l) by (unfold safe; lia).
  set (es := sent_entries (feed_entries q)).
  assert (Hne : es <> []).
  { unfold es, sent_entries, feed_entries. rewrite Hl. discriminate. }
  exists (params_to_string es), es. split_and!.
  - unfold buildQueryString. rewrite (fold_query_entries (feed_entries q) []).
    2:{ apply (bool_decide_unpack _). vm_compute. exact I. }
    rewrite app_nil_l. destruct (is_empty _) eqn:E; [|done]. by apply params_to_string_empty in E.
  - apply parse_params_to_string.
  - apply feed_entries_parsed; [|done]. split_and!; [by exists l|done..].
Qed.

Lemma feed_query_round_trip_witness :
  let q := mkAttackFeedQuery (Some 12) (Some 24) (Some "Red & Co") None (Some "shop") None (Some 7) in
  exists encoded params, buildQueryString (feed_entries q) = "?" ++ₛ encoded /\
    parse_params encoded = Some params /\ parseAttackFeedQuery params 12 200 = q.
Proof.
  intros q. apply (feed_query_round_trip q 12 200); [|reflexivity].
  split_and!.
  - exists 12. split; [reflexivity|]. split; reflexivity || discriminate.
  - intros n [[= <-]|[H|[= <-]]]; [split; reflexivity || discriminate|discriminate H|].
    split; reflexivity || discriminate.
  - intros s [= <-]. split; reflexivity.
  - intros s H. discriminate H.
  - intros s [= <-]. split; reflexivity.
Defined.
