(* ===== verification/PlatformRoutes.v ===== *)
(** * The participants' routes ([app/api/platform/**/route.ts])

    Each handler reads the browser's JSON body, validates it, makes one call of
    the participants' client and answers. [body] is the parsed body, null when it
    cannot be parsed. A property read or a method call that JavaScript refuses
    throws; outside of the [try] of the handler nothing catches it. *)

From S2P Require Import Prelude JsString JsNumber UrlParams DashboardUtils ApiUtils Io ApiHandler Session PlatformApi RealtimeProxy.

(** ** Reading a body *)

(** [body?.key]. *)
Definition opt_field (key : string) (body : json) : option json :=
  match body with JObj fields => field key fields | _ => None end.

(** [v?.trim()]: undefined on a nullish value, a type error on a value that is
    neither a string nor nullish. *)
Definition opt_trim (v : option json) : Io (option string) :=
  match v with
  | None | Some JNull => Ret None
  | Some (JStr s) => Ret (Some (trim s))
  | Some _ => Throw (OtherError "trim is not a function")
  end.

(** [v ?? fallback] on a JSON value. *)
Definition nullish (v : option json) (fallback : json) : json :=
  match v with None | Some JNull => fallback | Some w => w end.

(** [v?.trim() || rest]: the rest is only evaluated when needed. *)
Definition trim_or (v : option json) (rest : Io string) : Io string :=
  let! t := opt_trim v in
  match t with
  | Some s => if is_empty s then rest else Ret s
  | None => rest
  end.

(** [Number(v)] of a JSON value. *)
Definition json_number (v : json) : num :=
  match v with
  | JNull => Finite 0 0
  | JBool b => Finite (if b then 1 else 0) 0
  | JNum n => Finite n 0
  | JStr s => js_number s
  | JArr _ => js_number (json_to_string v)
  | JObj _ => NaN
  end.

(** The cookie value made of a token: an undefined token serialises to the empty
    string. *)
Definition token_text (token : option json) : string :=
  match token with None | Some JNull => EmptyString | Some v => json_to_string v end.

Definition day : Z := 60 * 60 * 24.

Definition flag_reply (key : string) : Reply := json_reply (JObj [(key, JBool true)]).

Section Routes.
Context (c : Ctx).
Variable session : Io ParticipantSession.
(** How a JSON number that is not an integer is written in a JSON text; the
    numbers of [json] are integers. *)
Variable fraction : Z -> Z -> json.

Definition bad_request (detail : string) : Reply := problemResponse 400 "Invalid request" detail.

(** [JSON.stringify] of a number: NaN and the infinities become null. *)
Definition number_json (x : num) : json :=
  match x with
  | Finite m e => match num_integer x with Some n => JNum n | None => fraction m e end
  | _ => JNull
  end.

(** [response.cookies.set(participantSessionCookie(token, day))]. *)
Definition session_reply (key : string) (token : option json) : Reply :=
  with_cookie (participantSessionCookie (env c) (token_text token) day) (flag_reply key).

(** ** Session routes *)

Record LoginCredentials := mkCredentials { l_email : string; l_password : json }.

Definition readLoginCredentials (body : json) : Io LoginCredentials :=
  let! email := opt_trim (opt_field "email" body) in
  Ret (mkCredentials (email ?? "") (nullish (opt_field "password" body) (JStr ""))).

(** [email !== "" && password.trim() !== ""]. *)
Definition hasRequiredCredentials (credentials : LoginCredentials) : Io bool :=
  if is_empty (l_email credentials) then Ret false
  else let! t := opt_trim (Some (l_password credentials)) in
       Ret (negb (is_empty (t ?? ""))).

Definition missingCredentialsResponse : Reply := bad_request "email and password are required.".

Definition login_POST (body : json) : Io Reply :=
  let! credentials := readLoginCredentials body in
  let! complete := hasRequiredCredentials credentials in
  if negb complete then Ret missingCredentialsResponse
  else guarded
    (let! token := authenticateParticipant c (l_email credentials) (l_password credentials) in
     Ret (session_reply "authenticated" token))
    "participant authentication failed" "Authentication failed".

Record RegisterRequest := mkRegister { g_name : string; g_email : string; g_password : json }.

Definition readRegisterRequest (body : json) : Io RegisterRequest :=
  let! name := trim_or (opt_field "display_name" body)
                 (trim_or (opt_field "displayName" body) (Ret EmptyString)) in
  let! email := opt_trim (opt_field "email" body) in
  Ret (mkRegister name (email ?? "") (nullish (opt_field "password" body) (JStr ""))).

Definition hasRequiredFields (request : RegisterRequest) : Io bool :=
  if is_empty (g_name request) then Ret false
  else if is_empty (g_email request) then Ret false
  else let! t := opt_trim (Some (g_password request)) in
       Ret (negb (is_empty (t ?? ""))).

Definition register_POST (body : json) : Io Reply :=
  let! request := readRegisterRequest body in
  let! complete := hasRequiredFields request in
  if negb complete then Ret (bad_request "display name, email, and password are required.")
  else guarded
    (let! token := registerParticipant c (g_name request) (g_email request) (g_password request) in
     Ret (session_reply "authenticated" token))
    "player registration failed" "Registration failed".

Record ProfileUpdate := mkProfile {
  p_name : string; p_email : string; p_team : string; p_contact : string
}.

Definition readProfileUpdate (body : json) : Io ProfileUpdate :=
  let! name := trim_or (opt_field "display_name" body)
                 (trim_or (opt_field "displayName" body) (Ret EmptyString)) in
  let! email := opt_trim (opt_field "email" body) in
  let! team := trim_or (opt_field "team_name" body)
                 (trim_or (opt_field "teamName" body) (Ret EmptyString)) in
  let! contact := trim_or (opt_field "team_contact_email" body)
                 (trim_or (opt_field "teamContactEmail" body) (Ret EmptyString)) in
  Ret (mkProfile name (email ?? "") team contact).

Definition profile_PUT (body : json) : Io Reply :=
  let! profile := readProfileUpdate body in
  if is_empty (p_name profile) || is_empty (p_email profile)
  then Ret (bad_request "display name and email are required.")
  else guarded
    (let! token := updateCurrentParticipantProfile c session (p_name profile) (p_email profile)
                     (p_team profile) (p_contact profile) in
     Ret (session_reply "updated" token))
    "profile update failed" "Profile update failed".

(** [data.updated], a JSON object with an absent key when it is undefined. *)
Definition password_PUT (body : json) : Io Reply :=
  let currentPassword := nullish (opt_field "current_password" body) (JStr "") in
  let newPassword := nullish (opt_field "new_password" body) (JStr "") in
  if negb (truthy currentPassword) || negb (truthy newPassword)
  then Ret (bad_request "current_password and new_password are required.")
  else guarded
    (let! data := changeParticipantPassword c session currentPassword newPassword in
     match data with
     | None => Throw (OtherError "Cannot read properties of undefined")
     | Some d =>
         let! updated := prop_of "updated" d in
         let! token := prop_of "token" d in
         let fields := match updated with Some u => [("updated"%string, u)] | None => [] end in
         Ret (with_cookie (participantSessionCookie (env c) (token_text token) day)
               (json_reply (JObj fields)))
     end)
    "password change failed" "Password change unavailable".

Definition readTeamKey (body : json) : Io string :=
  trim_or (opt_field "team_key" body) (trim_or (opt_field "teamKey" body) (Ret EmptyString)).

Definition team_POST (body : json) : Io Reply :=
  let! teamKey := readTeamKey body in
  if is_empty teamKey then Ret (bad_request "team key is required.")
  else guarded
    (let! token := joinCurrentParticipantTeam c session teamKey in
     Ret (session_reply "authenticated" token))
    "team join failed" "Team join failed".

(** [Number.isFinite(x) && x > 0]. *)
Definition positive_number (x : num) : bool :=
  match x with Finite m _ => 0 <? m | _ => false end.

Definition captain_POST (body : json) : Io Reply :=
  let playerID := json_number (nullish (opt_field "player_id" body)
                                 (nullish (opt_field "playerId" body) (JNum 0))) in
  if negb (positive_number playerID) then Ret (bad_request "player_id is required.")
  else guarded
    (let! token := transferCurrentTeamCaptain c session (number_json playerID) in
     Ret (session_reply "transferred" token))
    "captain transfer failed" "Captain transfer failed".

Definition members_GET : Io Reply :=
  guarded (let! members := listCurrentTeamMembers c session in next_json members)
    "team members unavailable" "Team members unavailable".

Definition logout_POST : Reply :=
  with_cookie (participantSessionCookie (env c) EmptyString 0) (mkReply 204 [] NoBody None).

(** ** Service routes *)

Definition unlock_POST (challengeId : string) (body : json) : Io Reply :=
  match positive_id challengeId with
  | None => Ret (bad_request "challenge id is invalid.")
  | Some challengeID =>
      let! proof := opt_trim (opt_field "proof" body) in
      match (p ← proof; or_undefined p) with
      | None => Ret (bad_request "unlock proof is invalid.")
      | Some p =>
          guarded (let! data := unlockService c session challengeID p in next_json data)
            "unlock request failed" "Unlock request failed"
      end
  end.

Definition ssh_session_POST (param : option string) : Io Reply :=
  handleParticipantIdRoute param "challenge id" "ssh session creation" (createSSHSession c session).
Definition reset_restart_POST (param : option string) : Io Reply :=
  handleParticipantIdRoute param "challenge id" "restart" (restartService c session).
Definition reset_factory_POST (param : option string) : Io Reply :=
  handleParticipantIdRoute param "challenge id" "factory reset" (factoryResetService c session).

(** [body.flags.map((flag) => String(flag).trim()).filter(Boolean)]. *)
Definition read_flags (body : json) : list string :=
  match opt_field "flags" body with
  | Some (JArr l) => bfilter (fun s => negb (is_empty s)) ((fun f => trim (json_to_string f)) <$> l)
  | _ => []
  end.

Definition submit_POST (body : json) : Io Reply :=
  let flags := read_flags body in
  match flags with
  | [] => Ret (bad_request "at least one flag is required.")
  | _ => guarded (let! data := submitFlags c session flags in next_json data)
           "submit failed" "Submit unavailable"
  end.

(** ** Feeds and downloads *)

Definition attacks_GET (searchParams : list (string * string)) : Io Reply :=
  guarded (let! data := listAttackFeed c (parseAttackFeedQuery searchParams 12 200) in
           next_json data)
    "attack feed failed" upstream_title.

Definition announcements_GET : Io Reply :=
  guarded (let! data := listAnnouncements c in next_json data)
    "announcements unavailable" "Announcements unavailable".

Definition team_services_GET : Io Reply :=
  guarded (let! data := listTeamServices c session in next_json data)
    "team services request failed" "Team services unavailable".

Definition passthroughHeaders (headers : Headers) : Headers :=
  fold_left (forward_header headers)
    ["content-type"; "content-disposition"; "content-length"; "cache-control"]%string [].

Definition passthrough (response : Response json) : Reply :=
  mkReply (status response) (passthroughHeaders (resp_headers response))
    (body_of (resp_body response)) None.

Definition source_GET (challengeId : string) : Io Reply :=
  match positive_id challengeId with
  | None => Ret (bad_request "challenge id is invalid.")
  | Some challengeID =>
      guarded (let! response := downloadChallengeSource c session challengeID in
               Ret (passthrough response))
        "challenge source download failed" "Source download failed"
  end.

Definition me_wireguard_GET : Io Reply :=
  guarded (let! response := downloadParticipantWireGuard c session in Ret (passthrough response))
    "wireguard config download failed" "VPN config download failed".

Definition realtime_attacks_GET (request : Headers) : Io Reply :=
  proxyPublicRealtimeStream (env c) "/public/v1/attacks/stream"
    "participant realtime attacks failed" (Some request).
Definition realtime_scoreboard_GET (request : Headers) : Io Reply :=
  proxyPublicRealtimeStream (env c) "/public/v1/scoreboard/stream"
    "participant realtime scoreboard failed" (Some request).
End Routes.

(** ** Properties *)

(** The flags that reach the API. *)
Lemma read_flags_spec body f :
  f ∈ read_flags body <->
  exists l v, opt_field "flags" body = Some (JArr l) /\ v ∈ l /\ f = trim (json_to_string v) /\
              f <> EmptyString.
Proof.
  unfold read_flags. destruct (opt_field "flags" body) as [[]|] eqn:E;
    try (split; [set_solver|naive_solver]).
  rewrite elem_of_bfilter, negb_true_iff, list_elem_of_fmap. split.
  - intros (He & v & -> & Hv). exists l, v. split_and!; try done.
    intros Hx. by apply is_empty_spec in Hx; rewrite Hx in He.
  - intros (l' & v & [= <-] & Hv & -> & Hne). split; [|by exists v].
    destruct (is_empty _) eqn:Hx; [|done]. by apply is_empty_spec in Hx.
Qed.

(** The submission route refuses a body without a usable flag with 400 and
    makes no call; any other body makes the single submission call, whose payload
    is the trimmed, non-empty flags in the order of the body; the reply is the
    API's answer. *)
Theorem submit_POST_spec c s t up body :
  authenticated s = true -> s_token s = Some t -> is_empty t = false ->
  match read_flags body with
  | [] => run up [] (submit_POST c (Ret s) body) =
            ([], Done (bad_request "at least one flag is required."))
  | flags =>
      exists req,
        r_method req = "POST"%string /\ r_url req = apiBaseUrl (env c) ++ₛ "/api/v2/submit" /\
        r_body req = Some (JObj [("flags"%string, JArr (JStr <$> flags))]) /\
        authorized c t req /\
        exists reply, run up [] (submit_POST c (Ret s) body) = ([req], Done reply) /\
          (forall r v, up [] req = Done r -> ok r = true -> status r <> 204 -> ok_json r = inr v ->
           reply = json_reply v)
  end.
Proof.
  intros Ha Ht He. unfold submit_POST. destruct (read_flags body) as [|f fs]; [done|].
  set (flags := f :: fs). unfold submitFlags, participantFetch, getParticipantToken.
  cbn [io_bind]. rewrite Ha, Ht, He. cbn [io_bind]. unfold authenticatedFetch.
  set (req := authenticatedFetch_request _ _ _ _). exists req.
  assert (Hreq : r_method req = "POST"%string /\
    r_url req = apiBaseUrl (env c) ++ₛ "/api/v2/submit" /\
    r_body req = Some (JObj [("flags"%string, JArr (JStr <$> flags))])) by done.
  destruct Hreq as (? & ? & ?). split_and!; try done.
  { apply authorized_fetch; [done|done|]. apply (api_url _ "submit"). }
  rewrite run_guarded, !run_let. cbn [run fetch app].
  destruct (up [] req) as [r|err]; cbn [of_result run]; [|by eexists].
  destruct (processApiResponse r "/api/v2/submit") as [[v|]|err] eqn:Ep; cbn [of_result run next_json].
  - eexists. split; [done|]. intros r' v' [= <-] Hok Hst Hj. unfold processApiResponse in Ep.
    rewrite Hok in Ep. apply Z.eqb_neq in Hst. rewrite Hst, Hj in Ep. by injection Ep as <-.
  - eexists. split; [done|]. intros r' v' [= <-] Hok Hst Hj. unfold processApiResponse in Ep.
    rewrite Hok in Ep. apply Z.eqb_neq in Hst. by rewrite Hst, Hj in Ep.
  - eexists. split; [done|]. intros r' v' [= <-] Hok Hst Hj. unfold processApiResponse in Ep.
    rewrite Hok in Ep. apply Z.eqb_neq in Hst. by rewrite Hst, Hj in Ep.
Qed.

Lemma submit_POST_spec_witness :
  exists req, r_body req = Some (JObj [("flags", JArr [JStr "FLAG{a}"; JStr "7"])])%string.
Proof.
  pose proof (submit_POST_spec
    (mkCtx (mkEnv None None None None None None None None) None None 0)
    (mkSession true (Some "jwt"%string) None FromCookie false) "jwt"
    (fun _ _ => Thrown NonError)
    (JObj [("flags", JArr [JStr " FLAG{a} "; JStr "  "; JNum 7])]%string)
    eq_refl eq_refl eq_refl) as H.
  vm_compute in H. destruct H as (req & _ & _ & H & _). exists req. exact H.
Defined.

(** The outcomes of a handler that sets the session cookie: a reply without a
    cookie, or the success reply whose cookie holds the token of [action]. *)
Lemma session_guarded up t c (action : Io (option json)) key fallback title :
  exists r, run up t (guarded (let! token := action in Ret (session_reply c key token)) fallback title)
            = ((run up t action).1, Done r) /\
    match rp_cookie r with
    | None => exists e, (run up t action).2 = Thrown e /\ r = upstreamErrorResponse e fallback title
    | Some cookie => exists token, (run up t action).2 = Done token /\ r = session_reply c key token
    end.
Proof.
  rewrite run_guarded, run_let. destruct (run up t action) as [t' [token|e]]; cbn [fst snd run].
  - eexists. split; [done|]. cbn [session_reply rp_cookie with_cookie]. eauto.
  - eexists. split; [done|].
    assert (Hc : rp_cookie (upstreamErrorResponse e fallback title) = None).
    { unfold upstreamErrorResponse. case_bool; [done|]. by repeat (case_match; try done). }
    rewrite Hc. eauto.
Qed.

(** A login with a string email and password never throws; blank
    credentials are refused with 400 and no call; otherwise the credentials go
    once to the API, the password untrimmed, and a session cookie is set exactly
    when the API answers successfully: its value is the token of that answer, it
    lasts a day and scripts cannot read it. *)
Theorem login_POST_spec c up email password :
  let body := JObj [("email", JStr email); ("password", JStr password)]%string in
  let call := run up [] (authenticateParticipant c (trim email) (JStr password)) in
  exists t r, run up [] (login_POST c body) = (t, Done r) /\
    if blank email || blank password
    then t = [] /\ rp_status r = 400 /\ rp_cookie r = None
    else t = call.1 /\
      match rp_cookie r with
      | None => exists e, call.2 = Thrown e
      | Some k => exists token, call.2 = Done token /\ rp_status r = 200 /\
          c_value k = token_text token /\ c_httpOnly k = true /\ c_maxAge k = 86400
      end.
Proof.
  intros body call. unfold login_POST, readLoginCredentials, body.
  cbn [opt_field field String.eqb Ascii.eqb Bool.eqb opt_trim io_bind nullish default id].
  unfold hasRequiredCredentials. cbn [l_email l_password].
  unfold blank. destruct (is_empty (trim email)) eqn:He; cbn [orb io_bind negb run].
  { eexists _, _. split; [reflexivity|]. by repeat split. }
  cbn [opt_trim io_bind default id]. destruct (is_empty (trim password)) eqn:Hp; cbn [negb run].
  { eexists _, _. split; [reflexivity|]. by repeat split. }
  destruct (session_guarded up [] c (authenticateParticipant c (trim email) (JStr password))
    "authenticated" "participant authentication failed" "Authentication failed") as (r & Hr & Hc).
  eexists _, r. split; [exact Hr|]. split; [done|].
  destruct (rp_cookie r) as [k|] eqn:Ek; [|naive_solver].
  destruct Hc as (token & Ht & ->). exists token. injection Ek as <-. by repeat split.
Qed.
