(* ===== verification/AdminApi.v ===== *)
(** * The organizers' API client ([lib/admin-api.ts])

    The calls the web tier makes to the platform API with the administration
    token.  The metrics of the services are read in [Prometheus]. *)

From S2P Require Import Prelude JsString JsNumber UrlParams DashboardUtils ApiUtils Io ApiHandler Session PlatformApi.

(** ** Inputs *)

Record TeamInput := mkTeamInput { ti_name : string; ti_contact_email : string }.

Record CreatePlayerInput := mkCreatePlayerInput {
  cp_team_id : json;
  cp_display_name : string;
  cp_email : string;
  cp_password : json;
  cp_role : string
}.

Record UpdatePlayerInput := mkUpdatePlayerInput {
  up_display_name : string;
  up_email : string;
  up_role : string
}.

(** [None] is undefined: the key is absent from the JSON text. *)
Record CreateChallengeInput := mkCreateChallengeInput {
  cc_name : string;
  cc_baseline_image : string;
  cc_checker_image : string;
  cc_source_bundle_path : option string;
  cc_service_port : option json;
  cc_service_subnet_octet : option json;
  cc_egress_enabled : option bool
}.

Record UpdateChallengeInput := mkUpdateChallengeInput {
  uc_name : string;
  uc_baseline_image : string;
  uc_checker_image : string;
  uc_source_bundle_path : option string;
  uc_egress_enabled : option bool
}.

(** [JSON.stringify] of an object literal: undefined members are left out. *)
Definition json_object (members : list (string * option json)) : json :=
  JObj (omap (fun e => (fun v => (e.1, v)) <$> e.2) members).

Definition team_json (i : TeamInput) : json :=
  JObj [("name", JStr (ti_name i)); ("contact_email", JStr (ti_contact_email i))]%string.

Definition create_player_json (i : CreatePlayerInput) : json :=
  JObj [("team_id", cp_team_id i); ("display_name", JStr (cp_display_name i));
        ("email", JStr (cp_email i)); ("password", cp_password i);
        ("role", JStr (cp_role i))]%string.

Definition update_player_json (i : UpdatePlayerInput) : json :=
  JObj [("display_name", JStr (up_display_name i)); ("email", JStr (up_email i));
        ("role", JStr (up_role i))]%string.

Definition create_challenge_json (i : CreateChallengeInput) : json :=
  json_object [("name", Some (JStr (cc_name i)));
    ("baseline_image", Some (JStr (cc_baseline_image i)));
    ("checker_image", Some (JStr (cc_checker_image i)));
    ("source_bundle_path", JStr <$> cc_source_bundle_path i);
    ("service_port", cc_service_port i);
    ("service_subnet_octet", cc_service_subnet_octet i);
    ("egress_enabled", JBool <$> cc_egress_enabled i)]%string.

Definition update_challenge_json (i : UpdateChallengeInput) : json :=
  json_object [("name", Some (JStr (uc_name i)));
    ("baseline_image", Some (JStr (uc_baseline_image i)));
    ("checker_image", Some (JStr (uc_checker_image i)));
    ("source_bundle_path", JStr <$> uc_source_bundle_path i);
    ("egress_enabled", JBool <$> uc_egress_enabled i)]%string.

Section Client.
Context (c : Ctx).
(** How the host prints a number that is not an integer. *)
Variable fraction_text : Z -> Z -> string.

(** [`${x}`]. *)
Definition number_text (x : num) : string :=
  match x with
  | NaN => "NaN"
  | Infinite neg => if neg then "-Infinity" else "Infinity"
  | Finite m e => match num_integer x with Some n => num_to_string n | None => fraction_text m e end
  end.

(** ** Requests *)

Definition adminBaseUrl : string :=
  trimBaseUrl (AD_PLATFORM_API_URL (env c) ?? "http://127.0.0.1:8080").

Definition organizerApiBaseUrl : string :=
  trimBaseUrl (AD_PLATFORM_PUBLIC_BASE_URL (env c) ?? adminBaseUrl).

Definition getAdminToken : Io string :=
  match trimmed (ADMIN_API_TOKEN (env c)) with
  | Some token => Ret token
  | None => Throw (OtherError "ADMIN_API_TOKEN must be set for server-side admin API calls")
  end.

Definition adminFetch (path : string) (init : RequestInit) : Io (option json) :=
  let! token := getAdminToken in
  authenticatedFetch adminBaseUrl path (Some token) init.

(** [{ Authorization, "Content-Type", ...init.headers }]: the headers of the
    caller override. *)
Definition adminProxyFetch (path : string) (init : RequestInit) : Io (Response json) :=
  let! token := getAdminToken in
  let base := (if is_empty token then [] else [("authorization"%string, "Bearer " ++ₛ token)]) ++
              [("content-type"%string, "application/json"%string)] in
  let h := fold_left (fun h e => header_set e.1 e.2 h) (i_headers init) base in
  fetch (mkRequest (i_method init) (adminBaseUrl ++ₛ path) h (i_body init)).

Definition publicFetch (path : string) : Io (option json) :=
  authenticatedFetch adminBaseUrl path None get_init.

Definition admin_path (rest : string) : string := "/api/v2/admin/" ++ₛ rest.
Definition admin_get (rest : string) : Io (option json) := adminFetch (admin_path rest) get_init.
Definition admin_post (rest : string) : Io (option json) :=
  adminFetch (admin_path rest) (send_init "POST" None).
Definition admin_send (method rest : string) (body : json) : Io (option json) :=
  adminFetch (admin_path rest) (send_init method (Some body)).
Definition admin_delete (rest : string) : Io (option json) :=
  adminFetch (admin_path rest) (send_init "DELETE" None).

Definition id_path (collection : string) (id : num) (operation : string) : string :=
  collection ++ₛ "/" ++ₛ number_text id ++ₛ operation.
Definition int_path (collection : string) (id : Z) (operation : string) : string :=
  collection ++ₛ "/" ++ₛ num_to_string id ++ₛ operation.

(** ** Operations *)

Definition listAdminTeams : Io (option json) := admin_get "teams".

Definition createAdminTeam (input : TeamInput) : Io (option json) :=
  admin_send "POST" "teams" (team_json input).

Definition deleteAdminTeam (teamID : num) : Io (option json) :=
  admin_delete (id_path "teams" teamID EmptyString).

Definition updateAdminTeam (teamID : num) (input : TeamInput) : Io (option json) :=
  admin_send "PUT" (id_path "teams" teamID EmptyString) (team_json input).

Definition deactivateAdminTeam (teamID : Z) : Io (option json) :=
  admin_post (int_path "teams" teamID "/deactivate").

Definition reactivateAdminTeam (teamID : Z) : Io (option json) :=
  admin_post (int_path "teams" teamID "/reactivate").

Definition putAdminChallengeMaintenance (challengeID : Z) : Io (option json) :=
  admin_post (int_path "challenges" challengeID "/maintenance").

Definition rotateAdminChallengeUnlockProof (challengeID : Z) : Io (option json) :=
  admin_post (int_path "challenges" challengeID "/rotate-unlock-proof").

Definition resumeAdminChallenge (challengeID : Z) : Io (option json) :=
  admin_post (int_path "challenges" challengeID "/resume").

Definition listAdminPlayers : Io (option json) := admin_get "players".

Definition createAdminPlayer (input : CreatePlayerInput) : Io (option json) :=
  admin_send "POST" "players" (create_player_json input).

Definition deleteAdminPlayer (playerID : num) : Io (option json) :=
  admin_delete (id_path "players" playerID EmptyString).

Definition updateAdminPlayer (playerID : num) (input : UpdatePlayerInput) : Io (option json) :=
  admin_send "PUT" (id_path "players" playerID EmptyString) (update_player_json input).

Definition deactivateAdminPlayer (playerID : Z) : Io (option json) :=
  admin_post (int_path "players" playerID "/deactivate").

Definition reactivateAdminPlayer (playerID : Z) : Io (option json) :=
  admin_post (int_path "players" playerID "/reactivate").

Definition getAdminPlayerWireGuard (playerID : Z) : Io (option json) :=
  admin_get (int_path "players" playerID "/wireguard").

Definition rotateAdminPlayerWireGuard (playerID : Z) : Io (option json) :=
  admin_post (int_path "players" playerID "/wireguard/rotate").

Definition revokeAdminPlayerWireGuard (playerID : Z) : Io (option json) :=
  admin_post (int_path "players" playerID "/wireguard/revoke").

Definition getAdminWireGuardGatewayStatus : Io (option json) := admin_get "wireguard/status".

Definition reconcileAdminWireGuardGateway : Io (option json) := admin_post "wireguard/reconcile".

Definition teardownAdminWireGuardGateway : Io (option json) := admin_post "wireguard/teardown".

Definition getAdminAccessStatus : Io (option json) := admin_get "access/status".

Definition reconcileAdminAccess : Io (option json) := admin_post "access/reconcile".

Definition teardownAdminAccess : Io (option json) := admin_post "access/teardown".

Definition listAdminChallenges : Io (option json) := admin_get "challenges".

Definition createAdminChallenge (input : CreateChallengeInput) : Io (option json) :=
  admin_send "POST" "challenges" (create_challenge_json input).

Definition deleteAdminChallenge (challengeID : num) : Io (option json) :=
  admin_delete (id_path "challenges" challengeID EmptyString).

Definition updateAdminChallenge (challengeID : num) (input : UpdateChallengeInput)
    : Io (option json) :=
  admin_send "PUT" (id_path "challenges" challengeID EmptyString) (update_challenge_json input).

Definition deployAdminChallenge (challengeID : Z) : Io (option json) :=
  admin_post (int_path "challenges" challengeID "/deploy").

Definition validateAdminChallenge (challengeID : Z) : Io (option json) :=
  admin_post (int_path "challenges" challengeID "/validate").

Definition listAdminDeployments : Io (option json) := admin_get "deployments".

Definition deleteAdminDeployment (deploymentID : num) : Io (option json) :=
  admin_delete (id_path "deployments" deploymentID EmptyString).

Definition listAdminAuditLogs (query : list (string * QueryValue)) : Io (option json) :=
  admin_get ("audit-logs" ++ₛ buildQueryString query).

Definition reconcileAdminDeployments : Io (option json) := admin_post "deployments/reconcile".

Definition getAdminGameStatus : Io (option json) := admin_get "game/status".

Definition getAdminOperationsStatus : Io (option json) := admin_get "operations/status".

Definition getAdminGameMatchStatus : Io (option json) := admin_get "game/match".

Definition startAdminGameMatch : Io (option json) := admin_post "game/match/start".

Definition pauseAdminGameMatch : Io (option json) := admin_post "game/match/pause".

Definition resumeAdminGameMatch : Io (option json) := admin_post "game/match/resume".

Definition stopAdminGameMatch : Io (option json) := admin_post "game/match/stop".

Definition updateAdminGameMatchSchedule (input : json) : Io (option json) :=
  admin_send "PUT" "game/match/schedule" input.

Definition advanceAdminGameTick : Io (option json) := admin_post "game/ticks/advance".

Definition listAdminCheckerRuns (query : list (string * QueryValue)) : Io (option json) :=
  admin_get ("game/checker-runs" ++ₛ buildQueryString query).

Definition listAdminGameAttacks (query : AttackFeedQuery) : Io (option json) :=
  publicFetch ("/api/v2/attacks" ++ₛ buildQueryString (feed_entries query)).

Definition getAdminGameSchedulerStatus : Io (option json) := admin_get "game/scheduler".

Definition listAdminGameSchedulerEvents (query : list (string * QueryValue)) : Io (option json) :=
  admin_get ("game/scheduler/events" ++ₛ buildQueryString query).

Definition startAdminGameScheduler : Io (option json) := admin_post "game/scheduler/start".

Definition stopAdminGameScheduler : Io (option json) := admin_post "game/scheduler/stop".

Definition updateAdminGameScheduler (intervalSeconds : Z) : Io (option json) :=
  admin_send "PUT" "game/scheduler/interval"
    (JObj [("interval_seconds", JNum intervalSeconds)]%string).

Definition listAdminGameScoreboard : Io (option json) := admin_get "game/scoreboard".

Definition getAdminScoreboardFreeze : Io (option json) := admin_get "game/scoreboard/freeze".

Definition setAdminScoreboardFreeze (freeze_at : string) (unfreeze_at : option string)
    : Io (option json) :=
  admin_send "POST" "game/scoreboard/freeze"
    (json_object [("freeze_at", Some (JStr freeze_at)); ("unfreeze_at", JStr <$> unfreeze_at)]%string).

Definition clearAdminScoreboardFreeze : Io (option json) := admin_post "game/scoreboard/unfreeze".

Definition recomputeAdminGameScoring : Io (option json) := admin_post "game/scoring/recompute".

Definition auditAdminGameScoring : Io (option json) := admin_get "game/scoring/audit".

Definition getAdminPlatformSettings : Io (option json) := admin_get "platform/settings".

Definition updateAdminPlatformSettings (flag_format_prefix : string) (max_team_members : Z)
    : Io (option json) :=
  admin_send "PUT" "platform/settings"
    (JObj [("flag_format_prefix", JStr flag_format_prefix);
           ("max_team_members", JNum max_team_members)]%string).

Definition reloadAdminFlagFormat : Io (option json) := admin_post "platform/settings/reload".

Definition listAdminAnnouncements : Io (option json) := admin_get "announcements".

Definition createAdminAnnouncement (body : string) : Io (option json) :=
  admin_send "POST" "announcements" (JObj [("body", JStr body)]%string).

Definition deleteAdminAnnouncement (announcementID : num) : Io (option json) :=
  admin_delete (id_path "announcements" announcementID EmptyString).

Definition bulkImportAdminTeams (teams : json) : Io (Z * json) :=
  let path := admin_path "import/teams" in
  let! token := getAdminToken in
  let! response := fetch (mkRequest "POST" (adminBaseUrl ++ₛ path)
    [("authorization"%string, "Bearer " ++ₛ token); ("content-type", "application/json")%string]
    (Some (JObj [("teams"%string, teams)]))) in
  if negb (status response =? 200) && negb (status response =? 422) then
    let! message := of_result (parseApiError response path) in
    Throw (new_PlatformAPIError message (status response) (retry_after response))
  else
    let! body := of_result (match (if ok response then ok_json response
                                   else match err_json response with
                                        | Some v => inr v
                                        | None => inl "Unexpected end of JSON input"%string
                                        end) with
                            | inl m => Thrown (OtherError m)
                            | inr v => Done v
                            end) in
    Ret (status response, body).

(** Every operation made with the administration token. *)
Definition admin_operations (id : Z) (x : num) (team : TeamInput) (player : CreatePlayerInput)
    (player' : UpdatePlayerInput) (challenge : CreateChallengeInput)
    (challenge' : UpdateChallengeInput) (q : list (string * QueryValue)) (j : json)
    (s : string) (o : option string) : list (Io (option json)) :=
  [listAdminTeams; createAdminTeam team; deleteAdminTeam x; updateAdminTeam x team;
   deactivateAdminTeam id; reactivateAdminTeam id; putAdminChallengeMaintenance id;
   rotateAdminChallengeUnlockProof id; resumeAdminChallenge id; listAdminPlayers;
   createAdminPlayer player; deleteAdminPlayer x; updateAdminPlayer x player';
   deactivateAdminPlayer id; reactivateAdminPlayer id; getAdminPlayerWireGuard id;
   rotateAdminPlayerWireGuard id; revokeAdminPlayerWireGuard id;
   getAdminWireGuardGatewayStatus; reconcileAdminWireGuardGateway; teardownAdminWireGuardGateway;
   getAdminAccessStatus; reconcileAdminAccess; teardownAdminAccess; listAdminChallenges;
   createAdminChallenge challenge; deleteAdminChallenge x; updateAdminChallenge x challenge';
   deployAdminChallenge id; validateAdminChallenge id; listAdminDeployments;
   deleteAdminDeployment x; listAdminAuditLogs q; reconcileAdminDeployments; getAdminGameStatus;
   getAdminOperationsStatus; getAdminGameMatchStatus; startAdminGameMatch; pauseAdminGameMatch;
   resumeAdminGameMatch; stopAdminGameMatch; updateAdminGameMatchSchedule j;
   advanceAdminGameTick; listAdminCheckerRuns q; getAdminGameSchedulerStatus;
   listAdminGameSchedulerEvents q; startAdminGameScheduler; stopAdminGameScheduler;
   updateAdminGameScheduler id; listAdminGameScoreboard; getAdminScoreboardFreeze;
   setAdminScoreboardFreeze s o; clearAdminScoreboardFreeze; recomputeAdminGameScoring;
   auditAdminGameScoring; getAdminPlatformSettings; updateAdminPlatformSettings s id;
   reloadAdminFlagFormat; listAdminAnnouncements; createAdminAnnouncement s;
   deleteAdminAnnouncement x;
   (let! _ := bulkImportAdminTeams j in Ret None);
   (let! _ := adminProxyFetch (admin_path s) (send_init "POST" None) in Ret None)].

(** ** Properties *)

(** A call of the administration API with the configured token. *)
Definition with_admin_token (req : Request) : Prop :=
  exists t, trimmed (ADMIN_API_TOKEN (env c)) = Some t /\
    header_get "Authorization" (r_headers req) = Some ("Bearer " ++ₛ t) /\
    starts_with (adminBaseUrl ++ₛ "/api/v2/admin/") (r_url req) = true.

Lemma getAdminToken_returns :
  returns (fun t => trimmed (ADMIN_API_TOKEN (env c)) = Some t) getAdminToken.
Proof. unfold getAdminToken. by destruct (trimmed _). Qed.

Lemma getAdminToken_no_calls P : all_requests P getAdminToken.
Proof. unfold getAdminToken. by destruct (trimmed _). Qed.

Lemma admin_url base rest : starts_with (base ++ₛ "/api/v2/admin/") (base ++ₛ admin_path rest) = true.
Proof. apply starts_with_spec. exists rest. unfold admin_path. by rewrite app_assoc_s. Qed.

Lemma adminFetch_token rest init :
  i_headers init = [] -> all_requests with_admin_token (adminFetch (admin_path rest) init).
Proof.
  intros Hi. eapply all_requests_bind_returns;
    [apply getAdminToken_no_calls|apply getAdminToken_returns|].
  intros t Ht. apply all_requests_authenticatedFetch. exists t. split; [done|].
  apply trimmed_some in Ht as [He _]. unfold authenticatedFetch_request. rewrite Hi, He.
  cbn [r_headers r_url]. split; [reflexivity|apply admin_url].
Qed.

Lemma bulkImport_token teams : all_requests with_admin_token (bulkImportAdminTeams teams).
Proof.
  eapply all_requests_bind_returns; [apply getAdminToken_no_calls|apply getAdminToken_returns|].
  intros t Ht. apply all_requests_bind.
  - apply all_requests_fetch. exists t. split; [done|]. split; [reflexivity|apply admin_url].
  - intros r. case_bool; apply all_requests_bind; auto with js; done.
Qed.

Lemma adminProxyFetch_token rest :
  all_requests with_admin_token (adminProxyFetch (admin_path rest) (send_init "POST" None)).
Proof.
  eapply all_requests_bind_returns; [apply getAdminToken_no_calls|apply getAdminToken_returns|].
  intros t Ht. apply all_requests_fetch. exists t. split; [done|].
  apply trimmed_some in Ht as [He _]. rewrite He. split; [reflexivity|apply admin_url].
Qed.

(** C38: every administration operation calls only the administration API,
    always with the configured token; without a configured token none of them makes
    any call. *)
Theorem admin_operations_authorized id x team player player' challenge challenge' q j s o :
  Forall (all_requests with_admin_token)
    (admin_operations id x team player player' challenge challenge' q j s o).
Proof.
  repeat constructor;
    first [ by apply adminFetch_token
          | apply all_requests_bind; [apply bulkImport_token|done]
          | apply all_requests_bind; [apply adminProxyFetch_token|done] ].
Qed.
End Client.
