(* ===== verification/AdminRoutes.v ===== *)
(** * The organizers' routes ([app/api/admin/**/route.ts])

    The edge proxy has already established that the caller is an organizer when
    one of these handlers runs (see [Session]); each handler validates its input,
    makes one call of the organizers' client and answers. The runtime evidence
    report and the service metrics are not modelled. *)

From S2P Require Import Prelude JsString JsNumber UrlParams DashboardUtils ApiUtils Io ApiHandler Session PlatformApi PlatformRoutes AdminApi RealtimeProxy.

Section Routes.
Context (c : Ctx).
Variable fraction_text : Z -> Z -> string.

(** [try { return NextResponse.json(await action) } catch ...]. *)
Definition answer_json (action : Io (option json)) (fallback : string) : Io Reply :=
  guarded (let! data := action in next_json data) fallback upstream_title.

(** [try { await action; return new Response(null, { status: 204 }) } catch ...]. *)
Definition answer_empty (action : Io (option json)) (fallback : string) : Io Reply :=
  guarded (let! _ := action in Ret (mkReply 204 [] NoBody None)) fallback upstream_title.

(** [v?.trim() || fallback] of a text. *)
Definition text_or (v : option json) (fallback : string) : Io string :=
  trim_or v (Ret fallback).

(** ** Teams *)

(** [parseTeamBody]. *)
Definition parseTeamBody (body : json) : Io (option string * option string) :=
  let! name := opt_trim (opt_field "name" body) in
  let! contactEmail := opt_trim (opt_field "contact_email" body) in
  Ret (name, contactEmail).

Definition team_input (parsed : option string * option string) : option TeamInput :=
  match parsed with
  | (Some name, Some contact) =>
      if is_empty name || is_empty contact then None else Some (mkTeamInput name contact)
  | _ => None
  end.

Definition teams_POST (body : json) : Io Reply :=
  let! parsed := parseTeamBody body in
  match team_input parsed with
  | None => Ret (bad_request "team request is invalid.")
  | Some input => answer_json (createAdminTeam c input) "team create failed"
  end.

Definition team_DELETE (teamId : string) : Io Reply :=
  answer_empty (deleteAdminTeam c fraction_text (js_number teamId)) "team delete failed".

Definition team_PUT (teamId : string) (body : json) : Io Reply :=
  let! parsed := parseTeamBody body in
  match team_input parsed with
  | None => Ret (bad_request "team update request is invalid.")
  | Some input =>
      answer_json (updateAdminTeam c fraction_text (js_number teamId) input) "team update failed"
  end.

Definition team_deactivate_POST (param : option string) : Io Reply :=
  handleAdminIdRoute param "team id" "team deactivate" (deactivateAdminTeam c).
Definition team_reactivate_POST (param : option string) : Io Reply :=
  handleAdminIdRoute param "team id" "team reactivate" (reactivateAdminTeam c).

(** ** Players *)

(** [v < 8] for the number of a JSON value. *)
Definition below_eight (v : json) : bool :=
  match json_number v with
  | Finite m e => if 0 <=? e then m * 2 ^ e <? 8 else m <? 8 * 2 ^ (- e)
  | Infinite neg => neg
  | NaN => false
  end.

(** [v.length < 8], then [v.trim()]: only a string has a [trim] to call. *)
Definition password_ok (v : json) : Io bool :=
  let short := match v with
               | JStr s => js_length s <? 8
               | JArr l => Z.of_nat (length l) <? 8
               | JObj fields => match field "length" fields with
                                | Some n => below_eight n
                                | None => false
                                end
               | _ => false
               end in
  if short then Ret false
  else match v with
       | JStr s => Ret (negb (blank s))
       | _ => Throw (OtherError "trim is not a function")
       end.

(** The body of a player creation, when it is complete; the checks are made in
    order and stop at the first that fails. *)
Definition player_input (body : json) : Io (option CreatePlayerInput) :=
  match opt_field "team_id" body with
  | None => Ret None
  | Some team_id =>
      if negb (truthy team_id) then Ret None
      else
        let! display_name := opt_trim (opt_field "display_name" body) in
        match (d ← display_name; or_undefined d) with
        | None => Ret None
        | Some d =>
            let! email := opt_trim (opt_field "email" body) in
            match (e ← email; or_undefined e), opt_field "password" body with
            | Some e, Some password =>
                if negb (truthy password) then Ret None
                else
                  let! fine := password_ok password in
                  if negb fine then Ret None
                  else Ret (Some (mkCreatePlayerInput team_id d e password EmptyString))
            | _, _ => Ret None
            end
        end
  end.

Definition players_POST (body : json) : Io Reply :=
  let! input := player_input body in
  match input with
  | None => Ret (bad_request "player request is invalid.")
  | Some i =>
      guarded
        (let! role := text_or (opt_field "role" body) "member" in
         let! data := createAdminPlayer c (mkCreatePlayerInput (cp_team_id i) (cp_display_name i)
                        (cp_email i) (cp_password i) role) in
         next_json data)
        "player create failed" upstream_title
  end.

Definition player_DELETE (playerId : string) : Io Reply :=
  answer_empty (deleteAdminPlayer c fraction_text (js_number playerId)) "player delete failed".

Definition player_PUT (playerId : string) (body : json) : Io Reply :=
  let! displayName := opt_trim (opt_field "display_name" body) in
  let! email := opt_trim (opt_field "email" body) in
  let! role := text_or (opt_field "role" body) "participant" in
  match (d ← displayName; or_undefined d), (e ← email; or_undefined e) with
  | Some d, Some e =>
      answer_json (updateAdminPlayer c fraction_text (js_number playerId)
                     (mkUpdatePlayerInput d e role)) "player update failed"
  | _, _ => Ret (bad_request "player update request is invalid.")
  end.

Definition player_deactivate_POST (param : option string) : Io Reply :=
  handleAdminIdRoute param "player id" "player deactivate" (deactivateAdminPlayer c).
Definition player_reactivate_POST (param : option string) : Io Reply :=
  handleAdminIdRoute param "player id" "player reactivate" (reactivateAdminPlayer c).
Definition player_wireguard_GET (param : option string) : Io Reply :=
  handleAdminIdRoute param "player id" "wireguard config fetch" (getAdminPlayerWireGuard c).
Definition player_wireguard_rotate_POST (param : option string) : Io Reply :=
  handleAdminIdRoute param "player id" "wireguard rotate" (rotateAdminPlayerWireGuard c).
Definition player_wireguard_revoke_POST (param : option string) : Io Reply :=
  handleAdminIdRoute param "player id" "wireguard revoke" (revokeAdminPlayerWireGuard c).

(** ** Challenges and deployments *)

Variable fraction : Z -> Z -> json.

(** [Number(v) || undefined]. *)
Definition number_or_undefined (v : option json) : option json :=
  match v with
  | None => None
  | Some w => match json_number w with
              | NaN => None
              | Finite 0 _ => None
              | x => Some (number_json fraction x)
              end
  end.

Definition challenges_POST (body : json) : Io Reply :=
  let! name := opt_trim (opt_field "name" body) in
  match (n ← name; or_undefined n) with
  | None => Ret (bad_request "challenge request is invalid.")
  | Some n =>
      guarded
        (let! baseline := text_or (opt_field "baseline_image" body) EmptyString in
         let! checker := text_or (opt_field "checker_image" body) EmptyString in
         let! bundle := text_or (opt_field "source_bundle_path" body) EmptyString in
         let! data := createAdminChallenge c (mkCreateChallengeInput n baseline checker
                        (Some bundle) (number_or_undefined (opt_field "service_port" body))
                        (number_or_undefined (opt_field "service_subnet_octet" body)) None) in
         next_json data)
        "challenge create failed" upstream_title
  end.

Definition challenge_DELETE (challengeId : string) : Io Reply :=
  answer_empty (deleteAdminChallenge c fraction_text (js_number challengeId))
    "challenge delete failed".

Definition challenge_PUT (challengeId : string) (body : json) : Io Reply :=
  let! name := opt_trim (opt_field "name" body) in
  match (n ← name; or_undefined n) with
  | None => Ret (bad_request "challenge update request is invalid.")
  | Some n =>
      guarded
        (let! baseline := text_or (opt_field "baseline_image" body) EmptyString in
         let! checker := text_or (opt_field "checker_image" body) EmptyString in
         let! bundle := text_or (opt_field "source_bundle_path" body) EmptyString in
         let! data := updateAdminChallenge c fraction_text (js_number challengeId)
                        (mkUpdateChallengeInput n baseline checker (Some bundle) None) in
         next_json data)
        "challenge update failed" upstream_title
  end.

Definition challenge_deploy_POST (param : option string) : Io Reply :=
  handleAdminIdRoute param "challenge id" "challenge deploy" (deployAdminChallenge c).
Definition challenge_maintenance_POST (param : option string) : Io Reply :=
  handleAdminIdRoute param "challenge id" "challenge maintenance" (putAdminChallengeMaintenance c).
Definition challenge_resume_POST (param : option string) : Io Reply :=
  handleAdminIdRoute param "challenge id" "challenge resume" (resumeAdminChallenge c).
Definition challenge_rotate_POST (param : option string) : Io Reply :=
  handleAdminIdRoute param "challenge id" "challenge unlock proof rotate"
    (rotateAdminChallengeUnlockProof c).
Definition challenge_validate_POST (param : option string) : Io Reply :=
  handleAdminIdRoute param "challenge id" "challenge validation" (validateAdminChallenge c).

Definition deployments_GET : Io Reply :=
  answer_json (listAdminDeployments c) "deployment list failed".

Definition deployment_DELETE (deploymentId : string) : Io Reply :=
  answer_empty (deleteAdminDeployment c fraction_text (js_number deploymentId))
    "deployment delete failed".

Definition deployments_reconcile_POST : Io Reply :=
  guarded (let! response := adminProxyFetch c "/api/v2/admin/deployments/reconcile"
                              (send_init "POST" None) in
           Ret (forwardUpstreamResponse response))
    "deployment reconcile failed" upstream_title.

(** ** Access and WireGuard *)

Definition access_status_GET : Io Reply :=
  answer_json (getAdminAccessStatus c) "controller access status failed".
Definition access_reconcile_POST : Io Reply :=
  answer_json (reconcileAdminAccess c) "controller access reconcile failed".
Definition access_teardown_POST : Io Reply :=
  answer_json (teardownAdminAccess c) "controller access teardown failed".

Definition wireguard_status_GET : Io Reply :=
  answer_json (getAdminWireGuardGatewayStatus c) "wireguard gateway status failed".
Definition wireguard_teardown_POST : Io Reply :=
  answer_json (teardownAdminWireGuardGateway c) "wireguard gateway teardown failed".
Definition wireguard_reconcile_POST : Io Reply :=
  guarded (let! response := adminProxyFetch c "/api/v2/admin/wireguard/reconcile"
                              (send_init "POST" None) in
           Ret (forwardUpstreamResponse response))
    "wireguard gateway reconcile failed" upstream_title.

(** ** Game control *)

Definition game_status_GET : Io Reply := answer_json (getAdminGameStatus c) "game-core status failed".
Definition operations_status_GET : Io Reply :=
  answer_json (getAdminOperationsStatus c) "operations status failed".
Definition match_GET : Io Reply := answer_json (getAdminGameMatchStatus c) "game match status failed".
Definition match_start_POST : Io Reply :=
  answer_json (startAdminGameMatch c) "game match start failed".
Definition match_pause_POST : Io Reply :=
  answer_json (pauseAdminGameMatch c) "game match pause failed".
Definition match_resume_POST : Io Reply :=
  answer_json (resumeAdminGameMatch c) "game match resume failed".
Definition match_stop_POST : Io Reply := answer_json (stopAdminGameMatch c) "game match stop failed".

(** [await request.json()] inside of the [try]; [None]: it rejects. *)
Definition request_json (body : option json) : Io json :=
  match body with Some b => Ret b | None => Throw (OtherError "Unexpected end of JSON input") end.

Definition match_schedule_PUT (body : option json) : Io Reply :=
  guarded (let! b := request_json body in
           let! data := updateAdminGameMatchSchedule c b in next_json data)
    "game match schedule update failed" upstream_title.

Definition ticks_advance_POST : Io Reply :=
  answer_json (advanceAdminGameTick c) "game-core tick advance failed".

Definition scheduler_GET : Io Reply :=
  answer_json (getAdminGameSchedulerStatus c) "scheduler status failed".
Definition scheduler_start_POST : Io Reply :=
  answer_json (startAdminGameScheduler c) "scheduler start failed".
Definition scheduler_stop_POST : Io Reply :=
  answer_json (stopAdminGameScheduler c) "scheduler stop failed".

Definition scheduler_interval_PUT (body : option json) : Io Reply :=
  guarded
    (let! b := request_json body in
     let! v := prop_of "interval_seconds" b in
     match v with
     | Some (JNum intervalSeconds) =>
         if intervalSeconds <? 1 then
           Ret (mkReply 400 [("content-type", "application/json")%string]
                 (JsonBody (problem 400 "Invalid request" "invalid interval")) None)
         else
           let! data := updateAdminGameScheduler c intervalSeconds in next_json data
     | _ => Ret (mkReply 400 [("content-type", "application/json")%string]
                  (JsonBody (problem 400 "Invalid request" "invalid interval")) None)
     end)
    "scheduler update failed" upstream_title.

Definition scoreboard_GET : Io Reply :=
  answer_json (listAdminGameScoreboard c) "scoreboard fetch failed".
Definition freeze_GET : Io Reply :=
  answer_json (getAdminScoreboardFreeze c) "freeze status fetch failed".
Definition unfreeze_POST : Io Reply := answer_json (clearAdminScoreboardFreeze c) "freeze clear failed".

Definition freeze_POST (body : option json) : Io Reply :=
  match body with
  | None => Ret (bad_request "freeze request is invalid.")
  | Some b =>
      let! freeze_at := prop_of "freeze_at" b in
      match freeze_at with
      | Some (JStr f) =>
          if blank f then Ret (bad_request "freeze_at is required.")
          else
            let! unfreeze_at := prop_of "unfreeze_at" b in
            let unfreezeAt := match unfreeze_at with
                              | Some (JStr u) => if blank u then None else Some u
                              | _ => None
                              end in
            answer_json (setAdminScoreboardFreeze c f unfreezeAt) "freeze set failed"
      | _ => Ret (bad_request "freeze_at is required.")
      end
  end.

Definition scoring_audit_GET : Io Reply := answer_json (auditAdminGameScoring c) "score audit failed".
Definition scoring_recompute_POST : Io Reply :=
  answer_json (recomputeAdminGameScoring c) "score recompute failed".

(** ** Feeds *)

Definition positive_param (n : string) (ps : list (string * string)) (fallback : option Z) (max : Z)
    : QueryValue := q_num (parsePositiveInteger (params_get n ps) fallback max).

Definition checker_runs_query (ps : list (string * string)) : list (string * QueryValue) :=
  [("limit"%string, positive_param "limit" ps (Some 25) 200);
   ("offset"%string, q_num (parseNonNegativeInteger (params_get "offset" ps)));
   ("tick_id"%string, positive_param "tick_id" ps None 0);
   ("team_id"%string, positive_param "team_id" ps None 0);
   ("challenge_id"%string, positive_param "challenge_id" ps None 0);
   ("phase"%string, q_str (parseLowercaseTextFilter (params_get "phase" ps)));
   ("status"%string, q_str (parseLowercaseTextFilter (params_get "status" ps)))].

Definition checker_runs_GET (ps : list (string * string)) : Io Reply :=
  answer_json (listAdminCheckerRuns c (checker_runs_query ps)) "checker runs failed".

Definition scheduler_events_query (ps : list (string * string)) : list (string * QueryValue) :=
  [("limit"%string, positive_param "limit" ps (Some 12) 200);
   ("offset"%string, q_num (parseNonNegativeInteger (params_get "offset" ps)));
   ("event_type"%string, q_str (parseLowercaseTextFilter (params_get "event_type" ps)));
   ("source"%string, q_str (parseLowercaseTextFilter (params_get "source" ps)));
   ("state"%string, q_str (parseLowercaseTextFilter (params_get "state" ps)))].

Definition scheduler_events_GET (ps : list (string * string)) : Io Reply :=
  answer_json (listAdminGameSchedulerEvents c (scheduler_events_query ps)) "scheduler events failed".

Definition admin_attacks_GET (ps : list (string * string)) : Io Reply :=
  answer_json (listAdminGameAttacks c (parseAttackFeedQuery ps 12 200)) "admin attacks failed".

(** ** Settings, announcements, import *)

Definition settings_GET : Io Reply :=
  answer_json (getAdminPlatformSettings c) "platform settings fetch failed".
Definition settings_reload_POST : Io Reply :=
  answer_json (reloadAdminFlagFormat c) "flag format reload failed".

Definition settings_PUT (body : json) : Io Reply :=
  let! prefix := opt_trim (opt_field "flag_format_prefix" body) in
  let maxTeamMembers := num_integer (json_number (nullish (opt_field "max_team_members" body)
                                                    (JNum 0))) in
  match (p ← prefix; or_undefined p), maxTeamMembers with
  | Some p, Some n =>
      if n <? 0 then Ret (bad_request
        "flag_format_prefix must not be empty and max_team_members must not be negative.")
      else answer_json (updateAdminPlatformSettings c p n) "platform settings update failed"
  | _, _ => Ret (bad_request
      "flag_format_prefix must not be empty and max_team_members must not be negative.")
  end.

Definition admin_announcements_GET : Io Reply :=
  answer_json (listAdminAnnouncements c) "announcements unavailable".

Definition announcements_POST (body : json) : Io Reply :=
  let! text := opt_trim (opt_field "body" body) in
  let text := text ?? EmptyString in
  if is_empty text then Ret (bad_request "body is required.")
  else answer_json (createAdminAnnouncement c text) "announcement create failed".

Definition announcement_DELETE (announcementId : string) : Io Reply :=
  let id := js_number announcementId in
  if negb (positive_number id) then Ret (bad_request "announcement_id is invalid.")
  else answer_json (deleteAdminAnnouncement c fraction_text id) "announcement delete failed".

Definition import_teams_POST (body : json) : Io Reply :=
  match opt_field "teams" body with
  | Some (JArr (team :: teams)) =>
      guarded
        (let! result := bulkImportAdminTeams c (JArr (team :: teams)) in
         Ret (mkReply result.1 [("content-type", "application/json")%string]
                (JsonBody result.2) None))
        "bulk import failed" upstream_title
  | _ => Ret (bad_request "teams array is required.")
  end.

(** ** Streams *)

Definition admin_realtime_GET (path message : string) (request : Headers) : Io Reply :=
  proxyAdminRealtimeStream (env c) path message (Some request).

Definition admin_realtime_attacks_GET (request : Headers) : Io Reply :=
  proxyPublicRealtimeStream (env c) "/public/v1/attacks/stream" "admin realtime attacks failed"
    (Some request).
Definition admin_realtime_checker_runs_GET : Headers -> Io Reply :=
  admin_realtime_GET "/admin/v1/game/checker-runs/stream" "admin realtime checker runs failed".
Definition admin_realtime_scheduler_events_GET : Headers -> Io Reply :=
  admin_realtime_GET "/admin/v1/game/scheduler/events/stream"
    "admin realtime scheduler events failed".
Definition admin_realtime_scoreboard_GET : Headers -> Io Reply :=
  admin_realtime_GET "/admin/v1/game/scoreboard/stream" "admin realtime scoreboard failed".
Definition admin_realtime_status_GET : Headers -> Io Reply :=
  admin_realtime_GET "/admin/v1/game/status/stream" "admin realtime game status failed".
End Routes.

(** ** Properties *)

Lemma admin_send_requests (P : Request -> Prop) c method rest body :
  (forall h, P (mkRequest method (adminBaseUrl c ++ₛ admin_path rest) h (Some body))) ->
  all_requests P (admin_send c method rest body).
Proof.
  intros H. apply all_requests_bind; [apply getAdminToken_no_calls|].
  intros t. apply all_requests_authenticatedFetch. apply H.
Qed.

Lemma opt_trim_requests P v : all_requests P (opt_trim v).
Proof. by destruct v as [[]|]. Qed.

Lemma text_or_requests P v d : all_requests P (text_or v d).
Proof.
  unfold text_or, trim_or. apply all_requests_bind; [apply opt_trim_requests|].
  intros [s|]; [by destruct (is_empty s)|done].
Qed.

Lemma next_json_requests P d : all_requests P (next_json d).
Proof. by destruct d. Qed.

Lemma guarded_requests P m f t : all_requests P m -> all_requests P (guarded m f t).
Proof. intros H. by apply all_requests_try. Qed.

#[local] Hint Resolve opt_trim_requests text_or_requests next_json_requests guarded_requests : js.

Lemma opt_trim_returns v : returns (fun o => forall s, o = Some s -> trim s = s) (opt_trim v).
Proof. destruct v as [[]|]; simpl; try done. intros s' [= <-]. apply trim_idem. Qed.

(** A trimmed text that is not empty. *)
Definition clean (s : string) : Prop := trim s = s /\ is_empty s = false.

Lemma trimmed_clean (o : option string) s :
  (forall s, o = Some s -> trim s = s) -> (x ← o; or_undefined x) = Some s -> clean s.
Proof.
  intros H. destruct o as [x|]; [|done]. unfold or_undefined. cbn [mbind option_bind].
  destruct (is_empty x) eqn:E; [done|]. intros [= <-]. split; [by apply H|done].
Qed.

(** What a player creation may send. *)
Definition player_payload_ok (v : option json) : Prop :=
  exists team d e p role,
    v = Some (create_player_json (mkCreatePlayerInput team d e (JStr p) role)) /\
    truthy team = true /\ clean d /\ clean e /\ 8 <= js_length p /\ blank p = false /\ clean role.

Lemma player_input_returns body :
  returns (fun o => forall i, o = Some i ->
      truthy (cp_team_id i) = true /\ clean (cp_display_name i) /\ clean (cp_email i) /\
      exists p, cp_password i = JStr p /\ 8 <= js_length p /\ blank p = false) (player_input body).
Proof.
  unfold player_input. destruct (opt_field "team_id" body) as [team|]; [|done].
  destruct (truthy team) eqn:Ht; [|done]. cbn [negb].
  eapply returns_bind; [apply opt_trim_returns|]. intros od Hd.
  destruct (d ← od; or_undefined d) as [d|] eqn:Ed; [|done].
  eapply returns_bind; [apply opt_trim_returns|]. intros oe He.
  destruct (e ← oe; or_undefined e) as [e|] eqn:Ee; [|done].
  destruct (opt_field "password" body) as [password|]; [|done].
  destruct (truthy password); [|done]. cbn [negb].
  apply (returns_bind (fun fine => fine = true ->
    exists p, password = JStr p /\ 8 <= js_length p /\ blank p = false)).
  - unfold password_ok. destruct password as [|?|?|s|?|?]; try (by repeat case_match; done).
    destruct (js_length s <? 8) eqn:El; boolify; [done|]. simpl. intros Hb%negb_true_iff. eauto.
  - intros [] Hp; [|done]. simpl. intros i [= <-]. cbn.
    destruct (Hp eq_refl) as (p & -> & ? & ?).
    split_and!; [done|exact (trimmed_clean od d Hd Ed)|exact (trimmed_clean oe e He Ee)|by exists p].
Qed.

Lemma text_or_returns v d : clean d -> returns clean (text_or v d).
Proof.
  intros Hd. unfold text_or, trim_or. eapply returns_bind; [apply opt_trim_returns|].
  intros [s|] H; [|done]. destruct (is_empty s) eqn:E; [done|]. split; [by apply H|done].
Qed.

(** Whatever its body, the player creation route sends nothing but a
    creation whose team is truthy, whose name, address and role are trimmed and not
    empty, and whose password is a text of at least eight characters that is
    not blank. *)
Theorem players_POST_validates c body :
  all_requests (fun req => r_method req = "POST"%string /\
      r_url req = adminBaseUrl c ++ₛ "/api/v2/admin/players" /\ player_payload_ok (r_body req))
    (players_POST c body).
Proof.
  unfold players_POST. eapply all_requests_bind_returns; [|apply player_input_returns|].
  { unfold player_input. destruct (opt_field "team_id" body) as [team|]; [|done].
    case_bool; [done|]. apply all_requests_bind; [auto with js|]. intros od.
    case_match; [|done]. apply all_requests_bind; [auto with js|]. intros oe.
    case_match; [|done]. case_match; [|done]. case_bool; [done|].
    apply all_requests_bind; [|by intros []]. unfold password_ok. by repeat case_match. }
  intros [i|] Hi; [|done]. destruct (Hi i eq_refl) as (Ht & Hd & He & p & Hp & Hl & Hb).
  apply guarded_requests. eapply all_requests_bind_returns;
    [apply text_or_requests|by apply (text_or_returns _ "member")|].
  intros role Hrole. apply all_requests_bind; [|auto with js].
  apply admin_send_requests. intros h. cbn [r_method r_url r_body].
  split_and!; [done|done|]. rewrite Hp. exists (cp_team_id i), (cp_display_name i), (cp_email i), p, role.
  by split_and!.
Qed.

(** A 204 of the platform API. *)
Definition no_content : Response json := mkResponse 204 [] None (inl "no body"%string) None.

(** The platform API answers a teardown with 204; both teardown routes then
    report a 502 problem although the teardown was carried out, because the
    undefined value of a 204 cannot be sent as JSON. *)
Theorem teardown_success_reported_as_failure c t :
  trimmed (ADMIN_API_TOKEN (env c)) = Some t ->
  let up : Upstream := fun _ _ => Done no_content in
  Forall (fun route => exists req r,
      run up [] route = ([req], Done r) /\ rp_status r = 502 /\
      header_get "Authorization" (r_headers req) = Some ("Bearer " ++ₛ t))
    [access_teardown_POST c; wireguard_teardown_POST c].
Proof.
  intros Ht up.
  assert (H : forall m msg, m = adminFetch c (admin_path "access/teardown") (send_init "POST" None) \/
       m = adminFetch c (admin_path "wireguard/teardown") (send_init "POST" None) ->
     exists req r, run up [] (answer_json m msg) = ([req], Done r) /\ rp_status r = 502 /\
      header_get "Authorization" (r_headers req) = Some ("Bearer " ++ₛ t)).
  { intros m msg Hm. unfold answer_json. rewrite run_guarded, run_let.
    pose proof (trimmed_some _ _ Ht) as [He _].
    assert (Hfetch : forall rest, run up [] (adminFetch c (admin_path rest) (send_init "POST" None)) =
      ([authenticatedFetch_request (adminBaseUrl c) (admin_path rest) (Some t)
          (send_init "POST" None)], Done None)).
    { intros rest. unfold adminFetch, getAdminToken. by rewrite Ht. }
    destruct Hm as [-> | ->]; rewrite Hfetch; eexists _, _;
      (split_and!; [reflexivity|reflexivity|]); unfold authenticatedFetch_request; by rewrite He. }
  repeat constructor; apply H; auto.
Qed.

Lemma teardown_success_reported_as_failure_witness :
  let c := mkCtx (mkEnv None None None None None (Some "admin") None None)%string None None 0 in
  exists req r, run (fun _ _ => Done no_content) [] (access_teardown_POST c) = ([req], Done r) /\
    rp_status r = 502.
Proof.
  intros c. pose proof (teardown_success_reported_as_failure c "admin" eq_refl) as H.
  inversion H as [|? ? (req & r & Hr & Hs & _) _]. exists req, r. split; [exact Hr|exact Hs].
Defined.

(** The value of [egress_enabled] in a payload. *)
Definition egress_sent (v : option json) : option json :=
  match v with Some (JObj fields) => field "egress_enabled" fields | _ => None end.

(** Neither the creation nor the update of a challenge passes
    [egress_enabled] on: whatever the organizer sends, the payload of the call to
    the platform API has no such member, and its name is trimmed and not empty. *)
Theorem challenge_routes_drop_egress c ft fr challengeId body :
  Forall (all_requests (fun req => egress_sent (r_body req) = None /\
      exists fields n, r_body req = Some (JObj fields) /\ field "name" fields = Some (JStr n) /\ clean n))
    [challenges_POST c fr body; challenge_PUT c ft challengeId body].
Proof.
  assert (Hn : forall o n, (forall s, o = Some s -> trim s = s) ->
    (n ← o; or_undefined n) = Some n -> clean n) by (intros; by eapply trimmed_clean).
  apply list.Forall_cons; split; [|apply list.Forall_singleton];
    unfold challenges_POST, challenge_PUT;
    (eapply all_requests_bind_returns; [apply opt_trim_requests|apply opt_trim_returns|]);
    intros o Ho; (destruct (n ← o; or_undefined n) as [n|] eqn:En; [|done]);
    specialize (Hn o n Ho En); apply guarded_requests;
    do 3 (apply all_requests_bind; [apply text_or_requests|intros ?]);
    (apply all_requests_bind; [|auto with js]); apply admin_send_requests; intros h;
    cbn [r_body egress_sent create_challenge_json update_challenge_json json_object].
  - split; [by destruct (number_or_undefined _ (opt_field "service_port" body)),
                     (number_or_undefined _ (opt_field "service_subnet_octet" body))|].
    eexists _, n. split; [reflexivity|]. split; [|done].
    by destruct (number_or_undefined _ (opt_field "service_port" body)),
                     (number_or_undefined _ (opt_field "service_subnet_octet" body)).
  - split; [done|]. eexists _, n. split; [reflexivity|]. by split.
Qed.
