(* ===== verification/ReactRuntime.v ===== *)
(** * Event handlers of the client: programs over hooks

    The dashboards are React hooks: a set of cells ([useState], [useRef]), and
    asynchronous handlers that write cells, call the web tier and use a few
    services of the browser.  A handler is a tree of such operations ([Prog]).
    Three readings of a program are used:
    - [run], a deterministic interpreter against an oracle that answers the calls;
    - [pstep] and [step], the interleaving of any number of handlers started by
      user events, on a store shared by all of them;
    - [spec], what a program may write, call, throw and return whatever it is
      answered, with its rules for sequencing and for [try]. *)

From Stdlib Require Import Eqdep_dec.
From S2P Require Import Prelude JsString JsNumber ApiUtils.

(** ** The requests of the browser *)

Definition browser_get (url : string) : Request := mkRequest "GET" url [] None.
Definition browser_call (method url : string) : Request := mkRequest method url [] None.
Definition browser_send (method url : string) (body : json) : Request :=
  mkRequest method url [("content-type", "application/json")]%string (Some body).

(** ** The interface of an application

    What a hook declares: its cells with their types, and the types of the
    payloads it receives. *)
Class App := {
  Cell : Type;
  Cell_eq_dec :: EqDecision Cell;
  CellTy : Cell -> Type;
  Payload : Type;
  PayloadTy : Payload -> Type
}.

(** What [navigator.clipboard?.writeText] does. *)
Inductive ClipboardOutcome := ClipboardAbsent | ClipboardWritten | ClipboardRejected.

Section Runtime.
Context {app : App}.

(** ** The store *)

Definition Store : Type := forall c : Cell, CellTy c.

Definition upd (c : Cell) (f : CellTy c -> CellTy c) (s : Store) : Store :=
  fun c' => match decide (c = c') with
            | left e => match e in _ = d return CellTy d with eq_refl => f (s c) end
            | right _ => s c'
            end.

Lemma upd_same c f s : upd c f s c = f (s c).
Proof.
  unfold upd. destruct (decide (c = c)) as [e|]; [|done].
  by rewrite (UIP_dec (fun x y => decide (x = y)) e eq_refl).
Qed.

Lemma upd_other c c' f s : c <> c' -> upd c f s c' = s c'.
Proof. unfold upd. by destruct (decide (c = c')). Qed.

(** ** Programs *)

(** The operations of the browser a handler uses. *)
Inductive Op :=
| OpFetch (req : Request) (p : Payload)
| OpNow
| OpIsoDate
| OpConfirm (message : string)
| OpClipboard (text : string)
| OpExecCopy (text : string)
| OpDownload (name content : string)
| OpSetTimeout (ms : Z)
| OpClearTimeout (timer : Z)
| OpSound (ids : list string)
| OpRefresh
| OpNavigate (path : string)
| OpDispatch (event : string).

Definition Answer (o : Op) : Type :=
  match o with
  | OpFetch _ p => Result (Response (PayloadTy p))
  | OpNow => Z
  | OpIsoDate => string
  | OpConfirm _ => bool
  | OpClipboard _ => ClipboardOutcome
  | OpExecCopy _ => bool
  | OpDownload _ _ => unit
  | OpSetTimeout _ => Z
  | OpClearTimeout _ => unit
  | OpSound _ => unit
  | OpRefresh => unit
  | OpNavigate _ => unit
  | OpDispatch _ => unit
  end.

(** [SetState] is a state setter or the assignment of a ref, [ReadRef] reads the
    current value of a ref, [Both] is [Promise.all] of two promises and [Spawn]
    starts a promise without awaiting it ([void f()]). *)
Inductive Prog (A : Type) : Type :=
| Return (a : A)
| Raise (e : JsError)
| SetState (c : Cell) (f : CellTy c -> CellTy c) (k : Prog A)
| ReadRef (c : Cell) (k : CellTy c -> Prog A)
| Do (o : Op) (k : Answer o -> Prog A)
| Both (p q : Prog unit) (k : Result unit -> Prog A)
| Spawn (p : Prog unit) (k : Prog A).
#[global] Arguments Return {A}.
#[global] Arguments Raise {A}.
#[global] Arguments SetState {A}.
#[global] Arguments ReadRef {A}.
#[global] Arguments Do {A}.
#[global] Arguments Both {A}.
#[global] Arguments Spawn {A}.

Fixpoint bind {A B : Type} (m : Prog A) (f : A -> Prog B) : Prog B :=
  match m with
  | Return a => f a
  | Raise e => Raise e
  | SetState c g k => SetState c g (bind k f)
  | ReadRef c k => ReadRef c (fun x => bind (k x) f)
  | Do o k => Do o (fun x => bind (k x) f)
  | Both p q k => Both p q (fun r => bind (k r) f)
  | Spawn p k => Spawn p (bind k f)
  end.

(** [try { m } catch (e) { h(e) }]. *)
Fixpoint catch {A : Type} (m : Prog A) (h : JsError -> Prog A) : Prog A :=
  match m with
  | Return a => Return a
  | Raise e => h e
  | SetState c g k => SetState c g (catch k h)
  | ReadRef c k => ReadRef c (fun x => catch (k x) h)
  | Do o k => Do o (fun x => catch (k x) h)
  | Both p q k => Both p q (fun r => catch (k r) h)
  | Spawn p k => Spawn p (catch k h)
  end.

(** [try { m } finally { f }]. *)
Fixpoint finally {A : Type} (m : Prog A) (f : Prog unit) : Prog A :=
  match m with
  | Return a => bind f (fun _ => Return a)
  | Raise e => bind f (fun _ => Raise e)
  | SetState c g k => SetState c g (finally k f)
  | ReadRef c k => ReadRef c (fun x => finally (k x) f)
  | Do o k => Do o (fun x => finally (k x) f)
  | Both p q k => Both p q (fun r => finally (k r) f)
  | Spawn p k => Spawn p (finally k f)
  end.

Definition of_outcome {A : Type} (r : Result A) : Prog A :=
  match r with Done a => Return a | Thrown e => Raise e end.

(** [set(v)], [set(f)] and [await fetch(req)] as statements. *)
Definition set_to (c : Cell) (v : CellTy c) : Prog unit := SetState c (fun _ => v) (Return tt).
Definition update (c : Cell) (f : CellTy c -> CellTy c) : Prog unit := SetState c f (Return tt).
Definition perform (o : Op) : Prog (Answer o) := Do o Return.
Definition read_ref (c : Cell) : Prog (CellTy c) := ReadRef c Return.

Definition fetch_response (req : Request) (p : Payload) : Prog (Response (PayloadTy p)) :=
  Do (OpFetch req p) of_outcome.

(** [await processApiResponse<T>(await fetch(req), path)] where the payload is
    used afterwards: the undefined of a 204, which none of the routes called
    this way answers, fails at its first use and is taken to fail at once. *)
Definition fetch_payload (req : Request) (p : Payload) (path : string) : Prog (PayloadTy p) :=
  bind (fetch_response req p) (fun response =>
    match processApiResponse response path with
    | Done (Some v) => Return v
    | Done None => Raise (OtherError "Cannot read properties of undefined")
    | Thrown e => Raise e
    end).

(** [await processApiResponse<void>(await fetch(req), path)]. *)
Definition fetch_void (req : Request) (p : Payload) (path : string) : Prog unit :=
  bind (fetch_response req p) (fun response =>
    match processApiResponse response path with
    | Done _ => Return tt
    | Thrown e => Raise e
    end).

(** [await processApiResponse<T | undefined>(await fetch(req), path)]. *)
Definition fetch_optional (req : Request) (p : Payload) (path : string)
    : Prog (option (PayloadTy p)) :=
  bind (fetch_response req p) (fun response => of_outcome (processApiResponse response path)).

(** [if (!response.ok) throw new Error(await parseApiError(response, path))]. *)
Definition checked_response (req : Request) (p : Payload) (path : string)
    : Prog (Response (PayloadTy p)) :=
  bind (fetch_response req p) (fun response =>
    if ok response then Return response
    else bind (of_outcome (parseApiError response path)) (fun m => Raise (OtherError m))).

(** [await response.json()]. *)
Definition response_json {T : Type} (response : Response T) : Prog T :=
  match ok_json response with inr value => Return value | inl m => Raise (OtherError m) end.

Definition skip : Prog unit := Return tt.
Definition when (b : bool) (m : Prog unit) : Prog unit := if b then m else skip.

(** [void p], [await Promise.all([...])]. *)
Definition spawn (p : Prog unit) : Prog unit := Spawn p (Return tt).
Definition both (p q : Prog unit) : Prog unit := Both p q of_outcome.
Definition promise_all (ps : list (Prog unit)) : Prog unit :=
  foldr both (Return tt) ps.

(** ** Running a program alone *)

(** What the browser answers to an operation, given the operations before it. *)
Definition Oracle : Type := list Op -> forall o : Op, Answer o.

Record Outcome (A : Type) := mkOutcome {
  o_trace : list Op;
  o_store : Store;
  o_result : Result A
}.
#[global] Arguments mkOutcome {A}.
#[global] Arguments o_trace {A}.
#[global] Arguments o_store {A}.
#[global] Arguments o_result {A}.

(** Started and joined promises run in order, to completion. *)
Fixpoint run {A : Type} (oracle : Oracle) (t : list Op) (s : Store) (m : Prog A) : Outcome A :=
  match m with
  | Return a => mkOutcome t s (Done a)
  | Raise e => mkOutcome t s (Thrown e)
  | SetState c f k => run oracle t (upd c f s) k
  | ReadRef c k => run oracle t s (k (s c))
  | Do o k => run oracle (t ++ [o]) s (k (oracle t o))
  | Both p q k =>
      let r1 := run oracle t s p in
      let r2 := run oracle (o_trace r1) (o_store r1) q in
      run oracle (o_trace r2) (o_store r2)
        (k (match o_result r1 with Thrown e => Thrown e | Done _ => o_result r2 end))
  | Spawn p k =>
      let r := run oracle t s p in
      run oracle (o_trace r) (o_store r) k
  end.

Lemma run_bind {A B : Type} oracle t s (m : Prog A) (f : A -> Prog B) :
  run oracle t s (bind m f) =
  let r := run oracle t s m in
  match o_result r with
  | Done a => run oracle (o_trace r) (o_store r) (f a)
  | Thrown e => mkOutcome (o_trace r) (o_store r) (Thrown e)
  end.
Proof.
  revert t s. induction m as [A a|A e|A c g k IH|A c k IH|A o k IH|A p _ q _ k IH|A p _ k IH];
    intros t s; simpl; try done; apply IH.
Qed.

Lemma run_catch {A : Type} oracle t s (m : Prog A) h :
  run oracle t s (catch m h) =
  let r := run oracle t s m in
  match o_result r with
  | Done a => r
  | Thrown e => run oracle (o_trace r) (o_store r) (h e)
  end.
Proof.
  revert t s. induction m as [A a|A e|A c g k IH|A c k IH|A o k IH|A p _ q _ k IH|A p _ k IH];
    intros t s; simpl; try done; apply IH.
Qed.

Lemma run_finally {A : Type} oracle t s (m : Prog A) f :
  run oracle t s (finally m f) =
  let r := run oracle t s m in
  run oracle (o_trace r) (o_store r) (bind f (fun _ => of_outcome (o_result r))).
Proof.
  revert t s. induction m as [A a|A e|A c g k IH|A c k IH|A o k IH|A p _ q _ k IH|A p _ k IH];
    intros t s; simpl; try done; apply IH.
Qed.

(** ** Answers of the calls *)

(** What a fetched payload comes to. *)
Definition payload_of {T} (answer : Result (Response T)) (path : string) : Result T :=
  result_bind answer (fun response =>
    match processApiResponse response path with
    | Done (Some v) => Done v
    | Done None => Thrown (OtherError "Cannot read properties of undefined")
    | Thrown e => Thrown e
    end).

Definition optional_of {T} (answer : Result (Response T)) (path : string) : Result (option T) :=
  result_bind answer (fun response => processApiResponse response path).

Definition void_of {T} (answer : Result (Response T)) (path : string) : Result unit :=
  result_bind answer (fun response =>
    result_bind (processApiResponse response path) (fun _ => Done tt)).

Lemma run_of_outcome {A : Type} oracle t s (r : Result A) :
  run oracle t s (of_outcome r) = mkOutcome t s r.
Proof. by destruct r. Qed.

Lemma run_fetch_payload oracle t s req p path :
  run oracle t s (fetch_payload req p path) =
  mkOutcome (t ++ [OpFetch req p]) s (payload_of (oracle t (OpFetch req p)) path).
Proof.
  unfold fetch_payload, fetch_response, payload_of. cbn [bind run].
  destruct (oracle t (OpFetch req p)) as [r|e]; [|done].
  cbn [of_outcome bind result_bind]. by destruct (processApiResponse r path) as [[v|]|e].
Qed.

Lemma run_fetch_optional oracle t s req p path :
  run oracle t s (fetch_optional req p path) =
  mkOutcome (t ++ [OpFetch req p]) s (optional_of (oracle t (OpFetch req p)) path).
Proof.
  unfold fetch_optional, fetch_response, optional_of. cbn [bind run].
  destruct (oracle t (OpFetch req p)) as [r|e]; [|done].
  cbn [of_outcome bind result_bind]. by rewrite run_of_outcome.
Qed.

Lemma run_fetch_void oracle t s req p path :
  run oracle t s (fetch_void req p path) =
  mkOutcome (t ++ [OpFetch req p]) s (void_of (oracle t (OpFetch req p)) path).
Proof.
  unfold fetch_void, fetch_response, void_of. cbn [bind run].
  destruct (oracle t (OpFetch req p)) as [r|e]; [|done].
  cbn [of_outcome bind result_bind]. by destruct (processApiResponse r path).
Qed.

Lemma run_then_payload {B : Type} oracle t s req p path (k : PayloadTy p -> Prog B) :
  run oracle t s (bind (fetch_payload req p path) k) =
  match payload_of (oracle t (OpFetch req p)) path with
  | Done a => run oracle (t ++ [OpFetch req p]) s (k a)
  | Thrown e => mkOutcome (t ++ [OpFetch req p]) s (Thrown e)
  end.
Proof. by rewrite run_bind, run_fetch_payload. Qed.

Lemma run_then_optional {B : Type} oracle t s req p path (k : option (PayloadTy p) -> Prog B) :
  run oracle t s (bind (fetch_optional req p path) k) =
  match optional_of (oracle t (OpFetch req p)) path with
  | Done a => run oracle (t ++ [OpFetch req p]) s (k a)
  | Thrown e => mkOutcome (t ++ [OpFetch req p]) s (Thrown e)
  end.
Proof. by rewrite run_bind, run_fetch_optional. Qed.

Lemma run_then_void {B : Type} oracle t s req p path (k : unit -> Prog B) :
  run oracle t s (bind (fetch_void req p path) k) =
  match void_of (oracle t (OpFetch req p)) path with
  | Done a => run oracle (t ++ [OpFetch req p]) s (k a)
  | Thrown e => mkOutcome (t ++ [OpFetch req p]) s (Thrown e)
  end.
Proof. by rewrite run_bind, run_fetch_void. Qed.

(** What a checked answer comes to, and the JSON of a checked answer. *)
Definition checked_of {T} (answer : Result (Response T)) (path : string) : Result (Response T) :=
  result_bind answer (fun response =>
    if ok response then Done response
    else result_bind (parseApiError response path) (fun m => Thrown (OtherError m))).

Definition json_of {T} (response : Response T) : Result T :=
  match ok_json response with inr value => Done value | inl m => Thrown (OtherError m) end.

Lemma run_checked {B : Type} oracle t s req p path (k : Response (PayloadTy p) -> Prog B) :
  run oracle t s (bind (checked_response req p path) k) =
  match checked_of (oracle t (OpFetch req p)) path with
  | Done r => run oracle (t ++ [OpFetch req p]) s (k r)
  | Thrown e => mkOutcome (t ++ [OpFetch req p]) s (Thrown e)
  end.
Proof.
  unfold checked_response, fetch_response, checked_of. cbn [bind run].
  destruct (oracle t (OpFetch req p)) as [r|e]; [|done].
  cbn [of_outcome bind result_bind]. destruct (ok r); [done|]. by destruct (parseApiError r path).
Qed.

Lemma run_json {B T : Type} oracle t s (response : Response T) (k : T -> Prog B) :
  run oracle t s (bind (response_json response) k) =
  match json_of response with
  | Done v => run oracle t s (k v)
  | Thrown e => mkOutcome t s (Thrown e)
  end.
Proof. unfold response_json, json_of. by destruct (ok_json response). Qed.

(** The outcome of a [try] from the outcome of its block. *)
Definition caught {A : Type} (oracle : Oracle) (h : JsError -> Prog A) (r : Outcome A) : Outcome A :=
  match o_result r with
  | Done _ => r
  | Thrown e => run oracle (o_trace r) (o_store r) (h e)
  end.

Lemma run_try {A : Type} oracle t s (m : Prog A) h :
  run oracle t s (catch m h) = caught oracle h (run oracle t s m).
Proof. apply run_catch. Qed.

(** Any outcome. *)
Definition any {A : Type} (_ : A) : Prop := True.

(** ** What a program may do

    [W] bounds the writes, [O] the operations, [E] what is thrown and [Q] what
    is returned; promises that are started must respect [W] and [O]. *)
Fixpoint spec {A : Type} (W : forall c, (CellTy c -> CellTy c) -> Prop) (O : Op -> Prop)
    (E : JsError -> Prop) (Q : A -> Prop) (m : Prog A) {struct m} : Prop :=
  match m with
  | Return a => Q a
  | Raise e => E e
  | SetState c f k => W c f /\ spec W O E Q k
  | ReadRef c k => forall x, spec W O E Q (k x)
  | Do o k => O o /\ forall x, spec W O E Q (k x)
  | Both p q k =>
      spec W O any any p /\ spec W O any any q /\ forall r, spec W O E Q (k r)
  | Spawn p k => spec W O any any p /\ spec W O E Q k
  end.

Section Rules.
Context {W : forall c, (CellTy c -> CellTy c) -> Prop} {O : Op -> Prop}.

Lemma spec_weaken {A : Type} E E' Q Q' (m : Prog A) :
  spec W O E Q m -> (forall e, E e -> E' e) -> (forall a, Q a -> Q' a) -> spec W O E' Q' m.
Proof.
  intros H HE HQ. induction m as [A a|A e|A c g k IH|A c k IH|A o k IH|A p _ q _ k IH|A p _ k IH];
    simpl in *; [auto|auto| | | | |].
  - destruct H as [? H]. split; [done|]. by eapply IH.
  - intros x. by eapply IH.
  - destruct H as [? H]. split; [done|]. intros x. by eapply IH.
  - destruct H as (Hp & Hq & Hk). split_and!; [done|done|]. intros r. by eapply IH.
  - destruct H as [? H]. split; [done|]. by eapply IH.
Qed.

Lemma spec_bind {A B : Type} E Q R (m : Prog A) (f : A -> Prog B) :
  spec W O E Q m -> (forall a, Q a -> spec W O E R (f a)) -> spec W O E R (bind m f).
Proof.
  intros H Hf. induction m as [A a|A e|A c g k IH|A c k IH|A o k IH|A p _ q _ k IH|A p _ k IH];
    simpl in *; [auto|auto| | | | |].
  - destruct H as [? H]. split; [done|]. by eapply IH.
  - intros x. by eapply IH.
  - destruct H as [? H]. split; [done|]. intros x. by eapply IH.
  - destruct H as (Hp & Hq & Hk). split_and!; [done|done|]. intros r. by eapply IH.
  - destruct H as [? H]. split; [done|]. by eapply IH.
Qed.

Lemma spec_catch {A : Type} E E' Q (m : Prog A) h :
  spec W O E' Q m -> (forall e, E' e -> spec W O E Q (h e)) -> spec W O E Q (catch m h).
Proof.
  intros H Hf. induction m as [A a|A e|A c g k IH|A c k IH|A o k IH|A p _ q _ k IH|A p _ k IH];
    simpl in *; [auto|auto| | | | |].
  - destruct H as [? H]. split; [done|]. by eapply IH.
  - intros x. by eapply IH.
  - destruct H as [? H]. split; [done|]. intros x. by eapply IH.
  - destruct H as (Hp & Hq & Hk). split_and!; [done|done|]. intros r. by eapply IH.
  - destruct H as [? H]. split; [done|]. by eapply IH.
Qed.

Lemma spec_finally {A : Type} E Q (m : Prog A) f :
  spec W O E Q m -> spec W O E (fun _ => True) f -> spec W O E Q (finally m f).
Proof.
  intros H Hf. induction m as [A a|A e|A c g k IH|A c k IH|A o k IH|A p _ q _ k IH|A p _ k IH];
    simpl in *.
  - by eapply spec_bind.
  - by eapply spec_bind.
  - destruct H as [? H]. split; [done|]. by eapply IH.
  - intros x. by eapply IH.
  - destruct H as [? H]. split; [done|]. intros x. by eapply IH.
  - destruct H as (Hp & Hq & Hk). split_and!; [done|done|]. intros r. by eapply IH.
  - destruct H as [? H]. split; [done|]. by eapply IH.
Qed.

Lemma spec_any {A : Type} E Q (m : Prog A) : spec W O E Q m -> spec W O any any m.
Proof. intros H. by eapply spec_weaken. Qed.

Lemma spec_fetch_response req p :
  O (OpFetch req p) -> spec W O any any (fetch_response req p).
Proof. intros H. split; [done|]. by intros [r|e]. Qed.

Lemma spec_fetch_payload req p path :
  O (OpFetch req p) -> spec W O any any (fetch_payload req p path).
Proof.
  intros H. eapply spec_bind; [by apply spec_fetch_response|].
  intros r _. by destruct (processApiResponse r path) as [[v|]|e].
Qed.

Lemma spec_fetch_void req p path :
  O (OpFetch req p) -> spec W O any any (fetch_void req p path).
Proof.
  intros H. eapply spec_bind; [by apply spec_fetch_response|].
  intros r _. by destruct (processApiResponse r path) as [v|e].
Qed.

Lemma spec_promise_all ps :
  Forall (spec W O any any) ps -> spec W O any any (promise_all ps).
Proof.
  induction 1 as [|p ps Hp _ IH]; [done|]. simpl. split_and!; [done|done|]. by intros [].
Qed.
End Rules.
(** A program that respects [spec] does so when it runs alone: every invariant
    of the allowed writes is kept, and the trace and the result are as stated. *)
Lemma run_spec {A : Type} W O E Q (I : Store -> Prop) oracle t s (m : Prog A) :
  spec W O E Q m -> (forall c f s, W c f -> I s -> I (upd c f s)) -> I s ->
  let r := run oracle t s m in
  (exists ops, o_trace r = t ++ ops /\ Forall O ops) /\ I (o_store r) /\
  match o_result r with Done a => Q a | Thrown e => E e end.
Proof.
  intros H HI. revert t s E Q H.
  induction m as [A a|A e|A c g k IH|A c k IH|A o k IH|A p IHp q IHq k IH|A p IHp k IH];
    intros t s E Q H Hs; simpl in *.
  - split_and!; [exists []; by rewrite app_nil_r|done|done].
  - split_and!; [exists []; by rewrite app_nil_r|done|done].
  - destruct H as [Hw H]. apply IH; auto.
  - by apply IH.
  - destruct H as [Ho H]. destruct (IH (oracle t o) (t ++ [o]) s E Q (H _) Hs) as ((ops & -> & Hops) & ?).
    split; [|done]. exists (o :: ops). by rewrite <-app_assoc; split; [|constructor].
  - destruct H as (Hp & Hq & Hk).
    destruct (IHp t s _ _ Hp Hs) as ((o1 & E1 & Ho1) & Hs1 & Hr1).
    destruct (IHq (o_trace (run oracle t s p)) (o_store (run oracle t s p)) _ _ Hq Hs1)
      as ((o2 & E2 & Ho2) & Hs2 & Hr2).
    set (r2 := run oracle _ _ q) in *.
    destruct (IH (match o_result (run oracle t s p) with
        | Thrown e => Thrown e | Done _ => o_result r2 end) (o_trace r2) (o_store r2) _ _ (Hk _) Hs2) as ((o3 & -> & Ho3) & ?).
    split; [|done]. exists (o1 ++ o2 ++ o3). rewrite E2, E1, <-!app_assoc.
    split; [done|]. by rewrite !list.Forall_app.
  - destruct H as [Hp H]. destruct (IHp t s _ _ Hp Hs) as ((o1 & E1 & Ho1) & Hs1 & _).
    destruct (IH (o_trace (run oracle t s p)) (o_store (run oracle t s p)) _ _ H Hs1)
      as ((o2 & -> & Ho2) & ?).
    split; [|done]. exists (o1 ++ o2). rewrite E1, <-app_assoc. by rewrite list.Forall_app.
Qed.

(** ** Interleaving *)

(** One operation of a program: the operations performed, the store after it,
    what is left to do and the promises started. *)
Inductive pstep : forall {A : Type}, Store -> Prog A -> list Op -> Store -> Prog A ->
    list (Prog unit) -> Prop :=
| pstep_set A s c f (k : Prog A) : pstep s (SetState c f k) [] (upd c f s) k []
| pstep_read A s c (k : CellTy c -> Prog A) : pstep s (ReadRef c k) [] s (k (s c)) []
| pstep_do A s o (k : Answer o -> Prog A) (a : Answer o) : pstep s (Do o k) [o] s (k a) []
| pstep_spawn A s p (k : Prog A) : pstep s (Spawn p k) [] s k [p]
| pstep_left A s p q (k : Result unit -> Prog A) ops s' p' sp :
    pstep s p ops s' p' sp -> pstep s (Both p q k) ops s' (Both p' q k) sp
| pstep_right A s p q (k : Result unit -> Prog A) ops s' q' sp :
    pstep s q ops s' q' sp -> pstep s (Both p q k) ops s' (Both p q' k) sp
| pstep_joined A s (k : Result unit -> Prog A) :
    pstep s (Both (Return tt) (Return tt) k) [] s (k (Done tt)) []
| pstep_failed_left A s e q (k : Result unit -> Prog A) :
    pstep s (Both (Raise e) q k) [] s (k (Thrown e)) [q]
| pstep_failed_right A s e p (k : Result unit -> Prog A) :
    pstep s (Both p (Raise e) k) [] s (k (Thrown e)) [p].

(** A page: the cells, the cells as they were last rendered, the handlers in
    progress and the operations performed so far. *)
Record Config := mkConfig {
  g_store : Store;
  g_rendered : Store;
  g_pool : list (Prog unit);
  g_trace : list Op
}.

Definition finished (m : Prog unit) : Prop := exists r, m = of_outcome r.

Section Page.
(** What an event may start, given what is on screen, and the effects that run
    after a render. *)
Variable handler : Store -> Prog unit -> Prop.
Variable commit : Store -> Store.

Inductive step : Config -> Config -> Prop :=
| step_thread s r l1 m l2 t ops s' m' sp :
    pstep s m ops s' m' sp ->
    step (mkConfig s r (l1 ++ m :: l2) t) (mkConfig s' r (l1 ++ m' :: l2 ++ sp) (t ++ ops))
| step_finished s r l1 m l2 t :
    finished m -> step (mkConfig s r (l1 ++ m :: l2) t) (mkConfig s r (l1 ++ l2) t)
| step_event s r l t m :
    handler r m -> step (mkConfig s r l t) (mkConfig s r (l ++ [m]) t)
| step_render s r l t :
    step (mkConfig s r l t) (mkConfig (commit s) (commit s) l t).

(** [run] is one of the interleavings, in any context of a thread. *)
Lemma run_steps {A : Type} oracle r (m : Prog A) (K : Prog A -> Prog unit) s l1 l2 t :
  (forall s m ops s' m' sp, pstep s m ops s' m' sp -> pstep s (K m) ops s' (K m') sp) ->
  let o := run oracle t s m in
  rtc step (mkConfig s r (l1 ++ K m :: l2) t)
    (mkConfig (o_store o) r (l1 ++ K (of_outcome (o_result o)) :: l2) (o_trace o)).
Proof.
  assert (Hone : forall (P : Type) s m ops s' m' sp (K : Prog P -> Prog unit) l1 l2 t,
    pstep s (K m) ops s' (K m') sp ->
    rtc step (mkConfig s r (l1 ++ K m :: l2) t) (mkConfig s' r (l1 ++ K m' :: l2 ++ sp) (t ++ ops))).
  { intros. by apply rtc_once, step_thread. }
  assert (Hend : forall l x s t,
    rtc step (mkConfig s r (l ++ [of_outcome x]) t) (mkConfig s r l t)).
  { intros. rewrite <-(app_nil_r l) at 2. apply rtc_once, step_finished. by exists x. }
  revert K s l1 l2 t.
  induction m as [A a|A e|A c g k IH|A c k IH|A o k IH|A p IHp q IHq k IH|A p IHp k IH];
    intros K s l1 l2 t HK; simpl.
  - apply rtc_refl.
  - apply rtc_refl.
  - etrans; [eapply Hone, HK, pstep_set|]. rewrite !app_nil_r. by apply IH.
  - etrans; [eapply Hone, HK, pstep_read|]. rewrite !app_nil_r. by apply IH.
  - etrans; [eapply Hone, HK, (pstep_do _ _ _ _ (oracle t o))|]. rewrite !app_nil_r. by apply IH.
  - etrans; [apply (IHp (fun p => K (Both p q k))); intros; by apply HK, pstep_left|].
    set (r1 := run oracle t s p).
    etrans; [apply (IHq (fun q => K (Both (of_outcome (o_result r1)) q k)));
             intros; by apply HK, pstep_right|].
    set (r2 := run oracle _ _ q). destruct (o_result r1) as [[]|e] eqn:E1; simpl.
    + destruct (o_result r2) as [[]|e] eqn:E2; simpl.
      * etrans; [eapply Hone, HK, pstep_joined|]. rewrite !app_nil_r. by apply IH.
      * etrans; [eapply Hone, HK, pstep_failed_right|]. rewrite app_nil_r.
        etrans; [|by apply IH]. rewrite app_comm_cons, app_assoc. apply (Hend _ (Done tt)).
    + etrans; [eapply Hone, HK, pstep_failed_left|]. rewrite app_nil_r.
      etrans; [|by apply IH]. rewrite app_comm_cons, app_assoc. apply (Hend _ (o_result r2)).
  - etrans; [eapply Hone, HK, pstep_spawn|]. rewrite app_nil_r.
    rewrite app_comm_cons, app_assoc.
    etrans; [apply (IHp (fun p => p) s (l1 ++ K k :: l2) [] t); done|].
    etrans; [apply Hend|]. by apply IH.
Qed.

(** A handler that runs to its end while the others wait. *)
Lemma thread_steps oracle s r l1 m l2 t :
  let o := run oracle t s m in
  rtc step (mkConfig s r (l1 ++ m :: l2) t) (mkConfig (o_store o) r (l1 ++ l2) (o_trace o)).
Proof.
  cbn zeta. etrans; [apply (run_steps oracle r m (fun p => p) s l1 l2 t); auto|].
  apply rtc_once, step_finished. by eexists.
Qed.

(** The same of the handler of a new event. *)
Lemma event_steps_in oracle s r l t m :
  handler r m ->
  let o := run oracle t s m in
  rtc step (mkConfig s r l t) (mkConfig (o_store o) r l (o_trace o)).
Proof.
  intros H. cbn zeta. etrans; [by apply rtc_once, step_event|].
  pose proof (thread_steps oracle s r l m [] t) as Ht. by rewrite app_nil_r in Ht.
Qed.

Lemma event_steps oracle s r t m :
  handler r m ->
  let o := run oracle t s m in
  rtc step (mkConfig s r [] t) (mkConfig (o_store o) r [] (o_trace o)).
Proof. apply event_steps_in. Qed.

(** ** Invariants of a page *)

Lemma pstep_spec {A : Type} W O E Q s (m : Prog A) ops s' m' sp :
  pstep s m ops s' m' sp -> spec W O E Q m ->
  Forall O ops /\ (s' = s \/ exists c f, W c f /\ s' = upd c f s) /\
  spec W O E Q m' /\ Forall (spec W O any any) sp.
Proof.
  intros H. revert E Q.
  induction H as [A s c f k|A s c k|A s o k a|A s p k|A s p q k ops s' p' sp H IH
                 |A s p q k ops s' q' sp H IH|A s k|A s e q k|A s e p k]; intros E Q Hs; simpl in *.
  - destruct Hs. split_and!; [done|right; by exists c, f|done|done].
  - split_and!; auto.
  - destruct Hs. split_and!; auto.
  - destruct Hs. split_and!; auto.
  - destruct Hs as (Hp & ? & ?). destruct (IH _ _ Hp) as (? & ? & ? & ?). by split_and!.
  - destruct Hs as (? & Hq & ?). destruct (IH _ _ Hq) as (? & ? & ? & ?). by split_and!.
  - destruct Hs as (Hp & Hq & Hk). split_and!; auto.
  - destruct Hs as (Hp & Hq & Hk). split_and!; auto.
  - destruct Hs as (Hp & Hq & Hk). split_and!; auto.
Qed.

(** What every handler respects, the page respects under any interleaving. *)
Theorem page_invariant W O (I : Store -> Prop) cfg cfg' :
  (forall r m, handler r m -> spec W O any any m) ->
  (forall c f s, W c f -> I s -> I (upd c f s)) -> (forall s, I s -> I (commit s)) ->
  rtc step cfg cfg' ->
  Forall (spec W O any any) (g_pool cfg) -> I (g_store cfg) -> Forall O (g_trace cfg) ->
  Forall (spec W O any any) (g_pool cfg') /\ I (g_store cfg') /\ Forall O (g_trace cfg').
Proof.
  intros Hh HI Hc Hsteps. induction Hsteps as [|c1 c2 c3 H _ IH]; [done|].
  intros Hp Hs Ht. apply IH; clear IH c3;
    destruct H as [s r l1 m l2 t ops s' m' sp H|s r l1 m l2 t H|s r l t m H|s r l t]; simpl in *.
  - apply list.Forall_app in Hp as [H1 [Hm H2]%list.Forall_cons].
    destruct (pstep_spec _ _ _ _ _ _ _ _ _ _ H Hm) as (? & ? & ? & ?).
    by rewrite list.Forall_app, list.Forall_cons, list.Forall_app.
  - apply list.Forall_app in Hp as [H1 [Hm H2]%list.Forall_cons]. by rewrite list.Forall_app.
  - rewrite list.Forall_app, list.Forall_singleton. split; [done|by eapply Hh].
  - done.
  - apply list.Forall_app in Hp as [H1 [Hm H2]%list.Forall_cons].
    destruct (pstep_spec _ _ _ _ _ _ _ _ _ _ H Hm) as (? & [->|(c & f & Hw & ->)] & _); auto.
  - done.
  - done.
  - auto.
  - apply list.Forall_app in Hp as [H1 [Hm H2]%list.Forall_cons].
    destruct (pstep_spec _ _ _ _ _ _ _ _ _ _ H Hm) as (? & _). by rewrite list.Forall_app.
  - done.
  - done.
  - done.
Qed.

(** ** Brackets: a busy mark that every handler takes back *)

Section Bracket.
Variable c0 : Cell.
Variable idle : CellTy c0 -> Prop.

(** The write leaves the mark idle. *)
Definition clears (c : Cell) (f : CellTy c -> CellTy c) : Prop :=
  c = c0 /\ forall s, idle (upd c f s c0).

(** Every completion of the program clears the mark. *)
Fixpoint releases {A : Type} (m : Prog A) : Prop :=
  match m with
  | Return _ | Raise _ => False
  | SetState c f k => clears c f \/ releases k
  | ReadRef c k => forall x, releases (k x)
  | Do o k => forall x, releases (k x)
  | Both p q k => releases p \/ releases q \/ forall r, releases (k r)
  | Spawn p k => releases k
  end.

(** Every mark that the program sets, it clears later. *)
Fixpoint balanced {A : Type} (m : Prog A) : Prop :=
  match m with
  | Return _ | Raise _ => True
  | SetState c f k => (c = c0 -> clears c f \/ releases k) /\ balanced k
  | ReadRef c k => forall x, balanced (k x)
  | Do o k => forall x, balanced (k x)
  | Both p q k => balanced p /\ balanced q /\ forall r, balanced (k r)
  | Spawn p k => balanced p /\ balanced k
  end.

Lemma releases_bind {A B : Type} (m : Prog A) (f : A -> Prog B) : releases m -> releases (bind m f).
Proof.
  induction m as [A a|A e|A c g k IH|A c k IH|A o k IH|A p _ q _ k IH|A p _ k IH];
    simpl; try done; naive_solver.
Qed.

Lemma releases_catch {A : Type} (m : Prog A) h : releases m -> releases (catch m h).
Proof.
  induction m as [A a|A e|A c g k IH|A c k IH|A o k IH|A p _ q _ k IH|A p _ k IH];
    simpl; try done; naive_solver.
Qed.

Lemma releases_finally {A : Type} (m : Prog A) f : releases f -> releases (finally m f).
Proof.
  intros Hf. induction m as [A a|A e|A c g k IH|A c k IH|A o k IH|A p _ q _ k IH|A p _ k IH];
    simpl; auto; by apply releases_bind.
Qed.

Lemma releases_finally_l {A : Type} (m : Prog A) f : releases m -> releases (finally m f).
Proof.
  induction m as [A a|A e|A c g k IH|A c k IH|A o k IH|A p _ q _ k IH|A p _ k IH];
    simpl; try done; naive_solver.
Qed.

Lemma balanced_bind {A B : Type} (m : Prog A) (f : A -> Prog B) :
  balanced m -> (forall a, balanced (f a)) -> balanced (bind m f).
Proof.
  intros Hm Hf. induction m as [A a|A e|A c g k IH|A c k IH|A o k IH|A p _ q _ k IH|A p _ k IH];
    simpl in *; auto.
  - destruct Hm as [Hc Hk]. split; [|auto]. intros ->. destruct (Hc eq_refl); [auto|].
    right. by apply releases_bind.
  - destruct Hm as (? & ? & ?). auto.
  - destruct Hm as [? ?]. auto.
Qed.

Lemma balanced_catch {A : Type} (m : Prog A) h :
  balanced m -> (forall e, balanced (h e)) -> balanced (catch m h).
Proof.
  intros Hm Hf. induction m as [A a|A e|A c g k IH|A c k IH|A o k IH|A p _ q _ k IH|A p _ k IH];
    simpl in *; auto.
  - destruct Hm as [Hc Hk]. split; [|auto]. intros ->. destruct (Hc eq_refl); [auto|].
    right. by apply releases_catch.
  - destruct Hm as (? & ? & ?). auto.
  - destruct Hm as [? ?]. auto.
Qed.

Lemma balanced_finally {A : Type} (m : Prog A) f :
  balanced m -> balanced f -> balanced (finally m f).
Proof.
  intros Hm Hf. induction m as [A a|A e|A c g k IH|A c k IH|A o k IH|A p _ q _ k IH|A p _ k IH];
    simpl in *; auto.
  - by apply balanced_bind.
  - by apply balanced_bind.
  - destruct Hm as [Hc Hk]. split; [|auto]. intros ->. destruct (Hc eq_refl); [auto|].
    right. by apply releases_finally_l.
  - destruct Hm as (? & ? & ?). auto.
  - destruct Hm as [? ?]. auto.
Qed.

(** A program that never writes the mark. *)
Lemma balanced_spec {A : Type} W O E Q (m : Prog A) :
  (forall f, ~ W c0 f) -> spec W O E Q m -> balanced m.
Proof.
  intros HW. revert E Q.
  induction m as [A a|A e|A c g k IH|A c k IH|A o k IH|A p IHp q IHq k IH|A p IHp k IH];
    intros E Q H; simpl in *; auto.
  - destruct H as [Hw H]. split; [|by eapply IH]. intros ->. by destruct (HW g).
  - intros x. by eapply IH.
  - destruct H as [_ H]. intros x. by eapply IH.
  - destruct H as (Hp & Hq & Hk). split_and!; [by eapply IHp|by eapply IHq|].
    intros r. by eapply IH.
  - destruct H as [Hp Hk]. split; [by eapply IHp|by eapply IH].
Qed.

Lemma pstep_balanced {A : Type} s (m : Prog A) ops s' m' sp :
  pstep s m ops s' m' sp -> balanced m ->
  balanced m' /\ Forall balanced sp /\
  (idle (s' c0) \/
   s' c0 = s c0 /\ (releases m -> releases m' \/ Exists releases sp) \/
   releases m').
Proof.
  induction 1 as [A s c f k|A s c k|A s o k a|A s p k|A s p q k ops s' p' sp H IH
                 |A s p q k ops s' q' sp H IH|A s k|A s e q k|A s e p k]; simpl; intros Hb.
  - destruct Hb as [Hc Hk]. split_and!; [done|done|].
    destruct (decide (c = c0)) as [->|Hne].
    + destruct (Hc eq_refl) as [[_ Hi]|Hr]; [by left|by right; right].
    + right; left. split; [by apply upd_other|]. intros [[? _]|?]; [done|by left].
  - split_and!; [done|done|]. right; left. split; [done|]. auto.
  - split_and!; [done|done|]. right; left. split; [done|]. auto.
  - destruct Hb. split_and!; [done|by constructor|]. right; left. auto.
  - destruct Hb as (Hp & Hq & Hk). destruct (IH Hp) as (? & ? & Hc). split_and!; [done..|].
    destruct Hc as [?|[[? Hr]|?]]; [by left|right; left; split; [done|]|right; right; by left].
    intros [Hx|[Hx|Hx]]; [destruct (Hr Hx); auto|auto..].
  - destruct Hb as (Hp & Hq & Hk). destruct (IH Hq) as (? & ? & Hc). split_and!; [done..|].
    destruct Hc as [?|[[? Hr]|?]]; [by left|right; left; split; [done|]|right; right; auto].
    intros [Hx|[Hx|Hx]]; [auto|destruct (Hr Hx); auto|auto].
  - destruct Hb as (_ & _ & Hk). split_and!; [done|done|]. right; left. split; [done|]. naive_solver.
  - destruct Hb as (_ & Hq & Hk). split_and!; [done|by constructor|]. right; left.
    split; [done|]. intros [[]|[?|?]]; [right; by constructor|left; auto].
  - destruct Hb as (Hp & _ & Hk). split_and!; [done|by constructor|]. right; left.
    split; [done|]. intros [?|[[]|?]]; [right; by constructor|left; auto].
Qed.

Lemma finished_releases m : finished m -> ~ releases m.
Proof. intros [[[]|e] ->] H; exact H. Qed.

(** The mark is idle, or a handler in progress will clear it. *)
Definition covered (cfg : Config) : Prop :=
  Forall balanced (g_pool cfg) /\
  (idle (g_store cfg c0) \/ Exists releases (g_pool cfg)).

Lemma step_covered cfg cfg' :
  (forall r m, handler r m -> balanced m) -> (forall s, commit s c0 = s c0) ->
  step cfg cfg' -> covered cfg -> covered cfg'.
Proof.
  intros Hh Hc [s r l1 m l2 t ops s' m' sp H|s r l1 m l2 t H|s r l t m H|s r l t] [Hb Hi];
    unfold covered; simpl in *.
  - apply list.Forall_app in Hb as [H1 [Hm H2]%list.Forall_cons].
    destruct (pstep_balanced _ _ _ _ _ _ H Hm) as (? & ? & Hstep). split.
    { by rewrite list.Forall_app, list.Forall_cons, list.Forall_app. }
    rewrite list.Exists_app, List.Exists_cons, list.Exists_app.
    rewrite list.Exists_app, List.Exists_cons in Hi.
    destruct Hstep as [?|[[-> Hr]|?]]; [by left| |tauto].
    tauto.
  - apply list.Forall_app in Hb as [H1 [Hm H2]%list.Forall_cons].
    split; [by apply list.Forall_app|]. apply finished_releases in H.
    rewrite list.Exists_app. rewrite list.Exists_app, List.Exists_cons in Hi. naive_solver.
  - split; [apply list.Forall_app; split; [done|]; constructor; [by eapply Hh|done]|].
    rewrite list.Exists_app. naive_solver.
  - by rewrite Hc.
Qed.

(** When no handler is in progress the mark is idle, whatever was interleaved. *)
Lemma quiescent_idle cfg cfg' :
  (forall r m, handler r m -> balanced m) -> (forall s, commit s c0 = s c0) ->
  rtc step cfg cfg' -> g_pool cfg = [] -> idle (g_store cfg c0) ->
  g_pool cfg' = [] -> idle (g_store cfg' c0).
Proof.
  intros Hh Hc Hsteps Hp Hi Hp'.
  assert (H : covered cfg').
  { assert (H0 : covered cfg) by (split; [by rewrite Hp; constructor|by left]).
    clear Hp Hi Hp'. induction Hsteps as [|c1 c2 c3 H _ IH]; [done|].
    apply IH. by eapply step_covered. }
  destruct H as [_ [?|He]]; [done|]. rewrite Hp' in He. by inversion He.
Qed.
End Bracket.
End Page.
End Runtime.

Notation "x <-! m ;; f" := (bind m (fun x => f))
  (at level 100, m at next level, right associativity) : js_scope.
Notation "m ;;! f" := (bind m (fun _ => f)) (at level 100, right associativity) : js_scope.
