(* ===== verification/ReactRules.v ===== *)
(** * Rules for the programs of a hook

    What [balanced] and [spec] say of each statement, for any application, the
    tactics that apply them along the structure of a handler, and the equations
    of [run] for refreshes that fail in silence; [settle], a handler that goes on until
    it has to wait. *)

From S2P Require Import Prelude ApiUtils ReactRuntime.

(** ** Handlers that wait *)

Section Settle.
Context {app : App}.

(** A handler goes on until it has to wait. *)
Fixpoint settle {A : Type} (s : Store) (m : Prog A) : Store * Prog A :=
  match m with
  | SetState c f k => settle (upd c f s) k
  | ReadRef c k => settle s (k (s c))
  | _ => (s, m)
  end.

Lemma settle_steps handler commit s r l (m : Prog unit) t :
  rtc (step handler commit) (mkConfig s r (l ++ [m]) t)
    (mkConfig (settle s m).1 r (l ++ [(settle s m).2]) t).
Proof.
  assert (H : forall A (m : Prog A) s (K : Prog A -> Prog unit),
    (forall s m ops s' m' sp, pstep s m ops s' m' sp -> pstep s (K m) ops s' (K m') sp) ->
    rtc (step handler commit) (mkConfig s r (l ++ [K m]) t)
      (mkConfig (settle s m).1 r (l ++ [K (settle s m).2]) t)).
  { clear m s. intros A m.
    induction m as [A a|A e|A c f k IH|A c k IH|A o k _|A p _ q _ k _|A p _ k _]; intros s K HK;
      try apply rtc_refl; cbn [settle].
    - etrans; [|by apply IH].
      pose proof (step_thread handler commit s r l _ [] t _ _ _ _ (HK _ _ _ _ _ _ (pstep_set _ s c f k))) as Hs.
      rewrite !app_nil_r in Hs. by apply rtc_once.
    - etrans; [|by apply IH].
      pose proof (step_thread handler commit s r l _ [] t _ _ _ _ (HK _ _ _ _ _ _ (pstep_read _ s c k))) as Hs.
      rewrite !app_nil_r in Hs. by apply rtc_once. }
  by apply (H unit m s (fun m => m)).
Qed.
End Settle.

Section Balanced.
Context {app : App} (c0 : Cell) (idle : CellTy c0 -> Prop).

Lemma set_to_balanced c v : c <> c0 -> balanced c0 idle (set_to c v).
Proof. intros H. by split. Qed.

Lemma update_balanced c f : c <> c0 -> balanced c0 idle (update c f).
Proof. intros H. by split. Qed.

Lemma of_outcome_balanced {A : Type} (r : Result A) : balanced c0 idle (of_outcome r).
Proof. by destruct r. Qed.

Lemma fetch_response_balanced req p : balanced c0 idle (fetch_response req p).
Proof. intros r. apply of_outcome_balanced. Qed.

Lemma fetch_payload_balanced req p path : balanced c0 idle (fetch_payload req p path).
Proof.
  apply balanced_bind; [apply fetch_response_balanced|].
  intros r. by destruct (processApiResponse r path) as [[]|].
Qed.

Lemma fetch_void_balanced req p path : balanced c0 idle (fetch_void req p path).
Proof.
  apply balanced_bind; [apply fetch_response_balanced|].
  intros r. by destruct (processApiResponse r path).
Qed.

Lemma fetch_optional_balanced req p path : balanced c0 idle (fetch_optional req p path).
Proof.
  apply balanced_bind; [apply fetch_response_balanced|]. intros r. apply of_outcome_balanced.
Qed.

Lemma perform_balanced o : balanced c0 idle (perform o).
Proof. by intros x. Qed.

Lemma read_ref_balanced c : balanced c0 idle (read_ref c).
Proof. by intros x. Qed.

Lemma spawn_balanced p : balanced c0 idle p -> balanced c0 idle (spawn p).
Proof. by split. Qed.

Lemma promise_all_balanced ps : Forall (balanced c0 idle) ps -> balanced c0 idle (promise_all ps).
Proof.
  induction 1 as [|p ps Hp _ IH]; [done|]. split_and!; [done|done|].
  intros r. apply of_outcome_balanced.
Qed.

Lemma when_balanced b m : balanced c0 idle m -> balanced c0 idle (when b m).
Proof. by destruct b. Qed.

End Balanced.

(** The rule of a statement; a definition or a case distinction is unfolded. *)
Ltac balanced_rule m :=
  lazymatch m with
  | Return _ => exact I
  | Raise _ => exact I
  | skip => exact I
  | fetch_payload _ _ _ => apply fetch_payload_balanced
  | fetch_void _ _ _ => apply fetch_void_balanced
  | fetch_optional _ _ _ => apply fetch_optional_balanced
  | fetch_response _ _ => apply fetch_response_balanced
  | of_outcome _ => apply of_outcome_balanced
  | perform _ => apply perform_balanced
  | read_ref ?c => exact (read_ref_balanced _ _ c)
  | set_to _ _ => apply set_to_balanced
  | update _ _ => apply update_balanced
  | spawn _ => apply spawn_balanced
  | when _ _ => apply when_balanced
  | promise_all _ => apply promise_all_balanced
  | bind _ _ => apply balanced_bind
  | catch _ _ => apply balanced_catch
  | finally _ _ => apply balanced_finally
  | match ?x with _ => _ end => destruct x
  | if ?x then _ else _ => destruct x
  | ?f _ _ _ _ _ _ _ _ _ => unfold f
  | ?f _ _ _ _ _ _ _ _ => unfold f
  | ?f _ _ _ _ _ _ _ => unfold f
  | ?f _ _ _ _ _ _ => unfold f
  | ?f _ _ _ _ _ => unfold f
  | ?f _ _ _ _ => unfold f
  | ?f _ _ _ => unfold f
  | ?f _ _ => unfold f
  | ?f _ => unfold f
  | ?f => unfold f
  end.

(** ** What a program may do *)

(** Nothing is thrown. *)
Definition nothing (_ : JsError) : Prop := False.

Section May.
Context {app : App}.
Context (W : forall c, (CellTy c -> CellTy c) -> Prop) (E : JsError -> Prop).
Notation may m := (spec W any E any m).

Lemma may_set_to c v : W c (fun _ => v) -> may (set_to c v).
Proof. by split. Qed.

Lemma may_update c f : W c f -> may (update c f).
Proof. by split. Qed.

Lemma may_perform o : may (perform o).
Proof. by split. Qed.

Lemma may_read_ref c : may (read_ref c).
Proof. by intros x. Qed.

Lemma may_spawn p : spec W any any any p -> may (spawn p).
Proof. by split. Qed.

Lemma may_when b m : may m -> may (when b m).
Proof. by destruct b. Qed.

Lemma may_bind {A B : Type} (m : Prog A) (f : A -> Prog B) :
  may m -> (forall a, may (f a)) -> may (bind m f).
Proof. intros Hm Hf. eapply spec_bind; [exact Hm|]. intros a _. apply Hf. Qed.

Lemma may_any {A : Type} (m : Prog A) : may m -> spec W any any any m.
Proof. intros H. by eapply spec_weaken. Qed.

Lemma may_of_outcome {A : Type} (r : Result A) : spec W any any any (of_outcome r).
Proof. by destruct r. Qed.

Lemma may_fetch_optional req p path : spec W any any any (fetch_optional req p path).
Proof.
  eapply spec_bind; [by apply spec_fetch_response|]. intros r _. apply may_of_outcome.
Qed.

End May.

(** The rule of a statement, as above. *)
Ltac may_rule m :=
  lazymatch m with
  | Return _ => exact I
  | Raise _ => exact I
  | skip => exact I
  | of_outcome _ => apply may_of_outcome
  | catch _ _ => eapply spec_catch with (E' := any)
  | finally _ _ => apply spec_finally
  | fetch_response _ _ => apply spec_fetch_response; exact I
  | fetch_optional _ _ _ => apply may_fetch_optional
  | fetch_payload _ _ _ => apply spec_fetch_payload; exact I
  | fetch_void _ _ _ => apply spec_fetch_void; exact I
  | promise_all _ => apply spec_promise_all
  | set_to _ _ => apply may_set_to
  | update _ _ => apply may_update
  | perform _ => apply may_perform
  | read_ref ?c => exact (may_read_ref _ _ c)
  | spawn _ => apply may_spawn
  | when (negb true) _ => exact I
  | when _ _ => apply may_when
  | bind _ _ => apply may_bind
  | match ?x with _ => _ end => destruct x
  | if ?x then _ else _ => destruct x
  | ?f _ _ _ _ _ _ _ _ _ => unfold f
  | ?f _ _ _ _ _ _ _ _ => unfold f
  | ?f _ _ _ _ _ _ _ => unfold f
  | ?f _ _ _ _ _ _ => unfold f
  | ?f _ _ _ _ _ => unfold f
  | ?f _ _ _ _ => unfold f
  | ?f _ _ _ => unfold f
  | ?f _ _ => unfold f
  | ?f _ => unfold f
  | ?f => unfold f
  end.

(** ** What a program may call *)

Definition any_write {app : App} (c : Cell) (_ : CellTy c -> CellTy c) : Prop := True.

Section Calls.
Context {app : App} (O : Op -> Prop).
Notation calls m := (spec any_write O any any m).

Lemma calls_set_to c v : calls (set_to c v).
Proof. by split. Qed.

Lemma calls_update c f : calls (update c f).
Proof. by split. Qed.

Lemma calls_perform o : O o -> calls (perform o).
Proof. by split. Qed.

Lemma calls_read_ref c : calls (read_ref c).
Proof. by intros x. Qed.

Lemma calls_spawn p : calls p -> calls (spawn p).
Proof. by split. Qed.

Lemma calls_when b m : calls m -> calls (when b m).
Proof. by destruct b. Qed.

Lemma calls_bind {A B : Type} (m : Prog A) (f : A -> Prog B) :
  calls m -> (forall a, calls (f a)) -> calls (bind m f).
Proof. intros Hm Hf. eapply spec_bind; [exact Hm|]. intros a _. apply Hf. Qed.

Lemma calls_catch {A : Type} (m : Prog A) h : calls m -> (forall e, calls (h e)) -> calls (catch m h).
Proof. intros Hm Hh. eapply spec_catch; [exact Hm|]. intros e _. apply Hh. Qed.

Lemma calls_of_outcome {A : Type} (r : Result A) : calls (of_outcome r).
Proof. by destruct r. Qed.

Lemma calls_fetch_optional req p path : O (OpFetch req p) -> calls (fetch_optional req p path).
Proof.
  intros H. eapply spec_bind; [by apply spec_fetch_response|]. intros r _. apply calls_of_outcome.
Qed.
End Calls.

(** The rule of a statement, as above; what is left is each call. *)
Ltac calls_rule m :=
  lazymatch m with
  | Return _ => exact I
  | Raise _ => exact I
  | skip => exact I
  | of_outcome _ => apply calls_of_outcome
  | catch _ _ => apply calls_catch
  | finally _ _ => apply spec_finally
  | fetch_response _ _ => apply spec_fetch_response
  | fetch_optional _ _ _ => apply calls_fetch_optional
  | fetch_payload _ _ _ => apply spec_fetch_payload
  | fetch_void _ _ _ => apply spec_fetch_void
  | promise_all _ => apply spec_promise_all
  | set_to _ _ => apply calls_set_to
  | update _ _ => apply calls_update
  | perform _ => apply calls_perform
  | read_ref ?c => exact (calls_read_ref _ c)
  | spawn _ => apply calls_spawn
  | when _ _ => apply calls_when
  | bind _ _ => apply calls_bind
  | match ?x with _ => _ end => destruct x
  | if ?x then _ else _ => destruct x
  | ?f _ _ _ _ _ _ _ _ _ => unfold f
  | ?f _ _ _ _ _ _ _ _ => unfold f
  | ?f _ _ _ _ _ _ _ => unfold f
  | ?f _ _ _ _ _ _ => unfold f
  | ?f _ _ _ _ _ => unfold f
  | ?f _ _ _ _ => unfold f
  | ?f _ _ _ => unfold f
  | ?f _ _ => unfold f
  | ?f _ => unfold f
  | ?f => unfold f
  end.

Ltac calls_step :=
  lazymatch goal with
  | |- forall _, _ => intros
  | |- Forall _ [] => apply List.Forall_nil
  | |- Forall _ (_ :: _) => apply List.Forall_cons
  | |- spec _ _ _ _ ?m => calls_rule m
  end.

(** ** Pages whose handlers depend on what is shown *)

(** As [page_invariant], for handlers that are only known from a page that is shown with
    the invariant. *)
Theorem shown_invariant {app : App} handler commit W O (I : Store -> Prop) cfg cfg' :
  (forall r m, I r -> handler r m -> spec W O any any m) ->
  (forall c f s, W c f -> I s -> I (upd c f s)) -> (forall s, I s -> I (commit s)) ->
  rtc (step handler commit) cfg cfg' ->
  Forall (spec W O any any) (g_pool cfg) -> I (g_store cfg) -> I (g_rendered cfg) -> Forall O (g_trace cfg) ->
  Forall (spec W O any any) (g_pool cfg') /\ I (g_store cfg') /\ I (g_rendered cfg') /\ Forall O (g_trace cfg').
Proof.
  intros Hh HI Hc Hsteps. induction Hsteps as [|c1 c2 c3 H _ IH]; [done|].
  intros Hp Hs Hr Ht. destruct H as [s r l1 m l2 t ops s' m' sp H|s r l1 m l2 t H|s r l t m H|s r l t];
    simpl in *; apply IH; try done; try (by apply Hc).
  - apply list.Forall_app in Hp as [H1 [Hm H2]%list.Forall_cons].
    destruct (pstep_spec _ _ _ _ _ _ _ _ _ _ H Hm) as (_ & _ & ? & ?).
    by rewrite list.Forall_app, list.Forall_cons, list.Forall_app.
  - apply list.Forall_app in Hp as [H1 [Hm H2]%list.Forall_cons].
    destruct (pstep_spec _ _ _ _ _ _ _ _ _ _ H Hm) as (_ & [->|(c & f & Hw & ->)] & _); auto.
  - apply list.Forall_app in Hp as [H1 [Hm H2]%list.Forall_cons].
    destruct (pstep_spec _ _ _ _ _ _ _ _ _ _ H Hm) as (? & _). by rewrite list.Forall_app.
  - apply list.Forall_app in Hp as [H1 [Hm H2]%list.Forall_cons]. by rewrite list.Forall_app.
  - rewrite list.Forall_app, list.Forall_singleton. split; [done|by eapply Hh].
Qed.

(** ** Programs that ask, refreshes that fail in silence *)

Section Asks.
Context {app : App}.

(** A program that only asks: it writes no cell. *)
Definition asks {A : Type} (m : Prog A) : Prop :=
  forall oracle t s, o_store (run oracle t s m) = s.

Lemma asks_fetch_payload req p path : asks (fetch_payload req p path).
Proof. intros oracle t s. by rewrite run_fetch_payload. Qed.

Lemma asks_fetch_optional req p path : asks (fetch_optional req p path).
Proof. intros oracle t s. by rewrite run_fetch_optional. Qed.

Lemma asks_fetch_void req p path : asks (fetch_void req p path).
Proof. intros oracle t s. by rewrite run_fetch_void. Qed.

End Asks.

Section Runs.
Context {app : App} (oracle : Oracle).

(** What a silent refresh does: one call, a write of its own cell at most, no
    throw. *)
Definition silently (t : list Op) (s : Store) (op : Op) (c : Cell) (r : Outcome unit) : Prop :=
  o_trace r = t ++ [op] /\ o_result r = Done tt /\ forall c', c' <> c -> o_store r c' = s c'.

(** What follows a silent refresh runs in the store it leaves. *)
Lemma run_after {B : Type} t s op c (m : Prog unit) (k : unit -> Prog B) :
  silently t s op c (run oracle t s m) ->
  run oracle t s (bind m k) = run oracle (t ++ [op]) (o_store (run oracle t s m)) (k tt).
Proof. intros (Ht & Hr & _). rewrite run_bind. cbn zeta. by rewrite Hr, Ht. Qed.

Lemma run_both_after t s op c (p q : Prog unit) :
  silently t s op c (run oracle t s p) ->
  run oracle t s (both p q) = run oracle (t ++ [op]) (o_store (run oracle t s p)) q.
Proof.
  intros (Ht & Hr & _). unfold both. cbn [run]. rewrite Ht, Hr.
  by destruct (run oracle (t ++ [op]) _ q) as [t2 s2 [[]|e]].
Qed.

End Runs.

(** ** Browsers for the concrete checks *)

Section Browsers.
Context {app : App}.
Open Scope string_scope.

(** A browser whose calls all fail. *)
Definition offline : Oracle := fun _ o =>
  match o return Answer o with
  | OpFetch _ p => Thrown (OtherError "offline")
  | OpNow => 0
  | OpIsoDate => "2024-01-01"
  | OpConfirm _ => true
  | OpClipboard _ => ClipboardAbsent
  | OpExecCopy _ => false
  | OpDownload _ _ => tt
  | OpSetTimeout _ => 1
  | OpClearTimeout _ => tt
  | OpSound _ => tt
  | OpRefresh => tt
  | OpNavigate _ => tt
  | OpDispatch _ => tt
  end.

(** A call that is answered. *)
Definition reply {T} (payload : T) : Result (Response T) :=
  Done (mkResponse 200 [("content-type", "application/json")] None (inr payload) None).
End Browsers.
