(* ===== verification/ReactMark.v ===== *)
(** * A mark that one handler at a time holds

    A page whose controls are disabled while an action is pending has at most one action
    on its way, provided that each handler takes the mark before it first waits and gives
    it back once.  [free] programs never write the mark; [holds] is what is left of a
    program that has taken it; [takes] is what a handler has to be.  [moves] is the page
    as a browser runs it: a press is handled up to where its handler waits, and what it
    set is rendered, before the next press.  They are some of the steps of the page. *)

From S2P Require Import Prelude ApiUtils ReactRuntime ReactRules.

(** Operations that answer at once: a handler does not wait for them. *)
Definition at_once {app : App} (o : Op) : bool :=
  match o with OpFetch _ _ | OpClipboard _ => false | _ => true end.

Definition waits {app : App} (m : Prog unit) : bool :=
  match m with SetState _ _ _ | ReadRef _ _ => false | Do o _ => negb (at_once o) | _ => true end.

Section Mark.
Context {app : App} (c0 : Cell) (idle : CellTy c0 -> Prop).

(** ** Programs *)

Definition elsewhere (c : Cell) (_ : CellTy c -> CellTy c) : Prop := c <> c0.

(** The program never writes the mark. *)
Definition free {A : Type} (m : Prog A) : Prop := spec elsewhere any any any m.

(** The program clears the mark once, before it ends, and does not write it otherwise. *)
Fixpoint holds {A : Type} (m : Prog A) : Prop :=
  match m with
  | Return _ | Raise _ => False
  | SetState c f k => (c <> c0 /\ holds k) \/ (clears c0 idle c f /\ free k)
  | ReadRef c k => forall x, holds (k x)
  | Do o k => forall x, holds (k x)
  | Both p q k => free p /\ free q /\ forall r, holds (k r)
  | Spawn p k => free p /\ holds k
  end.

Definition sets_mark (c : Cell) (f : CellTy c -> CellTy c) : Prop :=
  c = c0 /\ forall s, ~ idle (upd c f s c0).

(** The program takes the mark before it waits, or never. *)
Fixpoint takes {A : Type} (m : Prog A) : Prop :=
  free m \/
  match m with
  | SetState c f k => (c <> c0 /\ takes k) \/ (sets_mark c f /\ holds k)
  | ReadRef c k => forall x, takes (k x)
  | Do o k => at_once o = true /\ forall x, takes (k x)
  | _ => False
  end.

Lemma free_takes {A : Type} (m : Prog A) : free m -> takes m.
Proof. destruct m; by left. Qed.

Lemma holds_bind {A B : Type} (m : Prog A) (f : A -> Prog B) :
  holds m -> (forall a, free (f a)) -> holds (bind m f).
Proof.
  intros Hm Hf. induction m as [A a|A e|A c g k IH|A c k IH|A o k IH|A p _ q _ k IH|A p _ k IH]; simpl in *; try done; auto.
  - destruct Hm as [[Hc Hk]|[Hc Hk]]; [left; auto|]. right. split; [done|].
    eapply spec_bind; [exact Hk|]. intros a _. apply Hf.
  - destruct Hm as (? & ? & ?). auto.
  - destruct Hm as [? ?]. auto.
Qed.

Lemma holds_finally {A : Type} (m : Prog A) f : free m -> holds f -> holds (finally m f).
Proof.
  intros Hm Hf. induction m as [A a|A e|A c g k IH|A c k IH|A o k IH|A p _ q _ k IH|A p _ k IH];
    unfold free in Hm; simpl in *.
  - apply holds_bind; [exact Hf|]. intros _. exact I.
  - apply holds_bind; [exact Hf|]. intros _. exact I.
  - destruct Hm as [Hc Hk]. left. split; [exact Hc|by apply IH].
  - intros x. apply IH, Hm.
  - intros x. apply IH, Hm.
  - destruct Hm as (Hp & Hq & Hk). split; [exact Hp|split; [exact Hq|]]. intros r. apply IH, Hk.
  - destruct Hm as [Hp Hk]. split; [exact Hp|by apply IH].
Qed.

Lemma free_bind {A B : Type} (m : Prog A) (f : A -> Prog B) : free m -> (forall a, free (f a)) -> free (bind m f).
Proof. intros Hm Hf. eapply spec_bind; [exact Hm|]. intros a _. apply Hf. Qed.

Lemma takes_bind {A B : Type} (m : Prog A) (f : A -> Prog B) :
  takes m -> (forall a, free (f a)) -> takes (bind m f).
Proof.
  intros Hm Hf. induction m as [A a|A e|A c g k IH|A c k IH|A o k IH|A p _ q _ k IH|A p _ k IH];
    destruct Hm as [Hm|Hm]; try (by apply free_takes, free_bind); try done; right.
  - destruct Hm as [[Hc Hk]|[Hc Hk]]; [left|right]; (split; [exact Hc|]); [by apply IH|by apply holds_bind].
  - intros x. by apply IH.
  - destruct Hm as [Ho Hk]. split; [exact Ho|]. intros x. by apply IH.
Qed.

(** *** Statements *)

Lemma holds_clear (x : CellTy c0) : idle x -> holds (set_to c0 x).
Proof. intros Hx. right. split; [|exact I]. split; [done|]. intros s. by rewrite upd_same. Qed.

Lemma holds_set {A : Type} c x (rest : Prog A) : c <> c0 -> holds rest -> holds (set_to c x ;;! rest).
Proof. intros Hc Hr. by left. Qed.

Lemma takes_mark {A : Type} (x : CellTy c0) (rest : Prog A) : ~ idle x -> holds rest -> takes (set_to c0 x ;;! rest).
Proof. intros Hx Hr. right. right. split; [|exact Hr]. split; [done|]. intros s. by rewrite upd_same. Qed.

Lemma takes_set {A : Type} c x (rest : Prog A) : c <> c0 -> takes rest -> takes (set_to c x ;;! rest).
Proof. intros Hc Hr. right. by left. Qed.

Lemma takes_ask {A : Type} o (rest : Answer o -> Prog A) :
  at_once o = true -> (forall x, takes (rest x)) -> takes (x <-! perform o ;; rest x).
Proof. intros Ho Hr. right. by split. Qed.

Lemma pstep_free {A : Type} s (m : Prog A) ops s' m' sp :
  pstep s m ops s' m' sp -> free m -> s' c0 = s c0 /\ free m' /\ Forall free sp.
Proof.
  intros H Hm. destruct (pstep_spec _ _ _ _ _ _ _ _ _ _ H Hm) as (_ & Hs & Hm' & Hsp). split_and!; [|done|done].
  destruct Hs as [->|(c & f & Hc & ->)]; [done|]. by apply upd_other.
Qed.

Lemma pstep_holds {A : Type} s (m : Prog A) ops s' m' sp :
  pstep s m ops s' m' sp -> holds m ->
  Forall free sp /\ (s' c0 = s c0 /\ holds m' \/ idle (s' c0) /\ free m').
Proof.
  intros H. induction H as [A s c f k|A s c k|A s o k a|A s p k|A s p q k ops s' p' sp H IH
                 |A s p q k ops s' q' sp H IH|A s k|A s e q k|A s e p k]; simpl; intros Hm.
  - split; [constructor|]. destruct Hm as [[Hc Hk]|[[-> Hi] Hk]]; [left|by right].
    split; [by apply upd_other|done].
  - split; [constructor|by left].
  - split; [constructor|by left].
  - destruct Hm. split; [by apply list.Forall_singleton|by left].
  - destruct Hm as (Hp & Hq & Hk). destruct (pstep_free _ _ _ _ _ _ H Hp) as (? & ? & ?). split; [done|by left].
  - destruct Hm as (Hp & Hq & Hk). destruct (pstep_free _ _ _ _ _ _ H Hq) as (? & ? & ?). split; [done|by left].
  - destruct Hm as (Hp & Hq & Hk). split; [constructor|by left].
  - destruct Hm as (Hp & Hq & Hk). split; [by apply list.Forall_singleton|by left].
  - destruct Hm as (Hp & Hq & Hk). split; [by apply list.Forall_singleton|by left].
Qed.

(** ** A handler up to where it waits *)

Inductive sync_run : Store -> Prog unit -> list Op -> Store -> Prog unit -> Prop :=
| sync_waits s m : waits m = true -> sync_run s m [] s m
| sync_set s c f k ops s' m' : sync_run (upd c f s) k ops s' m' -> sync_run s (SetState c f k) ops s' m'
| sync_read s c k ops s' m' : sync_run s (k (s c)) ops s' m' -> sync_run s (ReadRef c k) ops s' m'
| sync_do s o k a ops s' m' : at_once o = true -> sync_run s (k a) ops s' m' -> sync_run s (Do o k) (o :: ops) s' m'.

Lemma free_run s m ops s' m' : sync_run s m ops s' m' -> free m -> s' c0 = s c0 /\ free m'.
Proof.
  induction 1 as [s m Hw|s c f k ops s' m' _ IH|s c k ops s' m' _ IH|s o k a ops s' m' Ho _ IH]; intros Hm; [done| | |].
  - destruct Hm as [Hc Hk]. rewrite <- (upd_other c c0 f s Hc). by apply IH.
  - apply IH, Hm.
  - apply IH, (proj2 Hm).
Qed.

Lemma holds_run s m ops s' m' :
  sync_run s m ops s' m' -> holds m -> s' c0 = s c0 /\ holds m' \/ idle (s' c0) /\ free m'.
Proof.
  induction 1 as [s m Hw|s c f k ops s' m' Hr IH|s c k ops s' m' _ IH|s o k a ops s' m' Ho _ IH]; intros Hm; [by left| | |].
  - destruct Hm as [[Hc Hk]|[[-> Hi] Hk]].
    + rewrite <- (upd_other c c0 f s Hc). by apply IH.
    + right. destruct (free_run _ _ _ _ _ Hr Hk) as [-> ?]. done.
  - apply IH, Hm.
  - apply IH, Hm.
Qed.

Lemma takes_run s m ops s' m' :
  sync_run s m ops s' m' -> takes m -> idle (s c0) ->
  idle (s' c0) /\ free m' \/ ~ idle (s' c0) /\ holds m'.
Proof.
  assert (Hfree : forall s m ops s' m', sync_run s m ops s' m' -> free m -> idle (s c0) -> idle (s' c0) /\ free m').
  { intros s1 m1 ops1 s1' m1' Hr Hm Hi. destruct (free_run _ _ _ _ _ Hr Hm) as [-> ?]. done. }
  intros Hr. pose proof Hr as Hall.
  induction Hr as [s m Hw|s c f k ops s' m' Hr IH|s c k ops s' m' Hr IH|s o k a ops s' m' Ho Hr IH]; intros Hm Hi.
  - destruct m; destruct Hm as [Hm|Hm]; try done; try (by left). destruct Hm as [Ho _]. simpl in Hw. by rewrite Ho in Hw.
  - destruct Hm as [Hm|[[Hc Hk]|[[-> Hn] Hk]]]; [left; by eapply Hfree| |].
    + apply IH; [done|done|]. by rewrite upd_other.
    + destruct (holds_run _ _ _ _ _ Hr Hk) as [[E Hh]|?]; [right|by left]. split; [|done]. rewrite E. apply Hn.
  - destruct Hm as [Hm|Hm]; [left; by eapply Hfree|]. by apply IH.
  - destruct Hm as [Hm|[_ Hm]]; [left; by eapply Hfree|]. by apply IH.
Qed.

(** ** The page *)

Section Page.
Context (quiet press : Store -> Prog unit -> Prop) (commit : Store -> Store).

Inductive moves : Config -> Config -> Prop :=
| move_work s r l1 m l2 t ops s' m' sp :
    pstep s m ops s' m' sp -> moves (mkConfig s r (l1 ++ m :: l2) t) (mkConfig s' r (l1 ++ m' :: l2 ++ sp) (t ++ ops))
| move_end s r l1 m l2 t : finished m -> moves (mkConfig s r (l1 ++ m :: l2) t) (mkConfig s r (l1 ++ l2) t)
| move_quiet s r l t m : quiet r m -> moves (mkConfig s r l t) (mkConfig s r (l ++ [m]) t)
| move_press s r l t m ops s' m' :
    press r m -> sync_run s m ops s' m' ->
    moves (mkConfig s r l t) (mkConfig (commit s') (commit s') (l ++ [m']) (t ++ ops))
| move_render s r l t : moves (mkConfig s r l t) (mkConfig (commit s) (commit s) l t).

Definition both (r : Store) (m : Prog unit) : Prop := quiet r m \/ press r m.

Lemma sync_run_steps s r l t m ops s' m' :
  sync_run s m ops s' m' ->
  rtc (step both commit) (mkConfig s r (l ++ [m]) t) (mkConfig s' r (l ++ [m']) (t ++ ops)).
Proof.
  assert (Hone : forall s r l t (m : Prog unit) ops s' m', pstep s m ops s' m' [] ->
    step both commit (mkConfig s r (l ++ [m]) t) (mkConfig s' r (l ++ [m']) (t ++ ops))).
  { intros s1 r1 l1 t1 m1 ops1 s1' m1' H. pose proof (step_thread both commit s1 r1 l1 m1 [] t1 _ _ _ _ H) as Hs. done. }
  intros H. revert t. induction H as [s m Hw|s c f k ops s' m' _ IH|s c k ops s' m' _ IH|s o k a ops s' m' Ho _ IH]; intros t.
  - rewrite app_nil_r. apply rtc_refl.
  - eapply rtc_l; [apply Hone, pstep_set|]. rewrite app_nil_r. apply IH.
  - eapply rtc_l; [apply Hone, pstep_read|]. rewrite app_nil_r. apply IH.
  - eapply rtc_l; [apply Hone, (pstep_do _ _ _ _ a)|]. specialize (IH (t ++ [o])). by rewrite <- app_assoc in IH.
Qed.

(** What the page does this way is one of its interleavings. *)
Lemma moves_steps page page' : rtc moves page page' -> rtc (step both commit) page page'.
Proof.
  induction 1 as [|p1 p2 p3 H _ IH]; [apply rtc_refl|]. etrans; [|exact IH].
  destruct H as [s r l1 m l2 t ops s' m' sp H|s r l1 m l2 t H|s r l t m H|s r l t m ops s' m' H Hr|s r l t].
  - by apply rtc_once, step_thread.
  - by apply rtc_once, step_finished.
  - apply rtc_once, step_event. by left.
  - eapply rtc_l; [apply step_event; right; exact H|]. etrans; [by apply sync_run_steps|]. apply rtc_once, step_render.
  - apply rtc_once, step_render.
Qed.

(** Nobody holds the mark and it is idle, or it is not, on the screen either, and exactly
    one thread holds it. *)
Definition exclusive (page : Config) : Prop :=
  idle (g_store page c0) /\ Forall free (g_pool page) \/
  ~ idle (g_store page c0) /\ ~ idle (g_rendered page c0) /\
  exists l1 m l2, g_pool page = l1 ++ m :: l2 /\ holds m /\ Forall free (l1 ++ l2).

Hypothesis quiet_free : forall r m, quiet r m -> free m.
Hypothesis press_takes : forall r m, press r m -> free m \/ idle (r c0) /\ takes m.
Hypothesis commit_mark : forall s, commit s c0 = s c0.

(** A pool of which one thread holds the mark, after one of its threads changed. *)
Lemma held_split {A} (l1 l2 k1 k2 : list A) (x y : A) :
  l1 ++ x :: l2 = k1 ++ y :: k2 ->
  (l1 = k1 /\ x = y /\ l2 = k2) \/
  (exists k, l1 = k1 ++ y :: k /\ k2 = k ++ x :: l2) \/
  (exists k, k1 = l1 ++ x :: k /\ l2 = k ++ y :: k2).
Proof.
  intros E. apply app_eq_app in E as (k & [[-> E]|[-> E]]); destruct k as [|z k]; simplify_list_eq.
  - by left.
  - right. left. by exists k.
  - by left.
  - right. right. by exists k.
Qed.

Lemma exclusive_move page page' : moves page page' -> exclusive page -> exclusive page'.
Proof.
  intros [s r l1 m l2 t ops s' m' sp H|s r l1 m l2 t H|s r l t m H|s r l t m ops s' m' H Hr|s r l t];
    unfold exclusive; cbn [g_store g_rendered g_pool].
  - intros [[Hi Hp]|(Hi & Hir & k1 & n & k2 & E & Hn & Hp)].
    + apply list.Forall_app in Hp as [H1 [Hm H2]%list.Forall_cons].
      destruct (pstep_free _ _ _ _ _ _ H Hm) as (-> & Hm' & Hsp). left. split; [done|].
      rewrite !list.Forall_app, list.Forall_cons, list.Forall_app. done.
    + destruct (held_split _ _ _ _ _ _ E) as [(-> & -> & ->)|[(k & -> & ->)|(k & -> & ->)]];
        rewrite ?list.Forall_app, ?list.Forall_cons in Hp.
      * destruct Hp as [H1 H2]. destruct (pstep_holds _ _ _ _ _ _ H Hn) as (Hsp & [[-> Hh]|[Hi' Hf]]).
        -- right. split_and!; [done|done|]. exists k1, m', (k2 ++ sp). rewrite !list.Forall_app. done.
        -- left. rewrite !list.Forall_app, list.Forall_cons, list.Forall_app. done.
      * destruct Hp as (H1 & H2 & Hm & H3). destruct (pstep_free _ _ _ _ _ _ H Hm) as (-> & Hm' & Hsp).
        right. split_and!; [done|done|]. exists k1, n, (k ++ m' :: l2 ++ sp).
        rewrite <- app_assoc, !list.Forall_app, list.Forall_cons, list.Forall_app. done.
      * destruct Hp as ((H1 & Hm & H2) & H3). destruct (pstep_free _ _ _ _ _ _ H Hm) as (-> & Hm' & Hsp).
        right. split_and!; [done|done|]. exists (l1 ++ m' :: k), n, (k2 ++ sp).
        split_and!; [by rewrite <- !app_assoc|done|].
        rewrite !list.Forall_app, list.Forall_cons. done.
  - destruct H as (x & ->). intros [[Hi Hp]|(Hi & Hir & k1 & n & k2 & E & Hn & Hp)].
    + left. split; [done|]. rewrite ?list.Forall_app, ?list.Forall_cons in *. naive_solver.
    + right. split_and!; [done|done|].
      destruct (held_split _ _ _ _ _ _ E) as [(-> & <- & ->)|[(k & -> & ->)|(k & -> & ->)]].
      * by destruct x.
      * exists k1, n, (k ++ l2). rewrite <- app_assoc. split_and!; [done|done|].
        rewrite ?list.Forall_app, ?list.Forall_cons in *. naive_solver.
      * exists (l1 ++ k), n, k2. rewrite <- app_assoc. split_and!; [done|done|].
        rewrite ?list.Forall_app, ?list.Forall_cons in *. naive_solver.
  - apply quiet_free in H. intros [[Hi Hp]|(Hi & Hir & k1 & n & k2 & -> & Hn & Hp)].
    + left. split; [done|]. by rewrite list.Forall_app, list.Forall_singleton.
    + right. split_and!; [done|done|]. exists k1, n, (k2 ++ [m]). rewrite <- app_assoc. split_and!; [done|done|].
      rewrite app_assoc, list.Forall_app, list.Forall_singleton. done.
  - rewrite !commit_mark. intros [[Hi Hp]|(Hi & Hir & k1 & n & k2 & -> & Hn & Hp)].
    + assert (Ht : takes m) by (destruct (press_takes _ _ H) as [?|[_ ?]]; [by apply free_takes|done]).
      destruct (takes_run _ _ _ _ _ Hr Ht Hi) as [[Hi' Hf]|[Hi' Hh]].
      * left. split; [done|]. by rewrite list.Forall_app, list.Forall_singleton.
      * right. split_and!; [done|done|]. exists l, m', []. by rewrite app_nil_r.
    + destruct (press_takes _ _ H) as [Hf|[? _]]; [|done].
      destruct (free_run _ _ _ _ _ Hr Hf) as [-> Hf']. right. split_and!; [done|done|].
      exists k1, n, (k2 ++ [m']). rewrite <- app_assoc. split_and!; [done|done|].
      rewrite app_assoc, list.Forall_app, list.Forall_singleton. done.
  - rewrite !commit_mark. intros [?|(Hi & Hir & H)]; [by left|by right].
Qed.

Theorem exclusive_moves page page' : rtc moves page page' -> exclusive page -> exclusive page'.
Proof. induction 1 as [|p1 p2 p3 H _ IH]; [done|]. intros He. apply IH. by eapply exclusive_move. Qed.
End Page.
End Mark.
