(* ===== verification/ReactTermination.v ===== *)
(** * Handlers terminate

    A handler is a finite tree, but several of them run at once and start others.
    Without new events the activity of a page is finite under every interleaving
    ([work_terminates]), it stops only when no handler is left ([stuck_is_empty]),
    and it can always be let run out ([work_runs_out]). *)

From S2P Require Import Prelude ApiUtils ReactRuntime ReactRules.

Section Termination.
Context {app : App}.

(** A step of a page that is neither an event nor a render. *)
Inductive work : Config -> Config -> Prop :=
| work_thread s r l1 m l2 t ops s' m' sp :
    pstep s m ops s' m' sp ->
    work (mkConfig s r (l1 ++ m :: l2) t) (mkConfig s' r (l1 ++ m' :: l2 ++ sp) (t ++ ops))
| work_finished s r l1 m l2 t :
    finished m -> work (mkConfig s r (l1 ++ m :: l2) t) (mkConfig s r (l1 ++ l2) t).

Lemma work_step handler commit cfg cfg' : work cfg cfg' -> step handler commit cfg cfg'.
Proof. intros H. destruct H; [by apply step_thread|by apply step_finished]. Qed.

(** ** The pool alone *)

(** The handlers in progress after a step, in any order. *)
Inductive pool_step : list (Prog unit) -> list (Prog unit) -> Prop :=
| pool_thread s m ops s' m' sp l l1 l2 :
    pstep s m ops s' m' sp -> l1 ≡ₚ m :: l -> l2 ≡ₚ m' :: l ++ sp -> pool_step l1 l2
| pool_finished m l l1 l2 : l1 ≡ₚ m :: l -> l2 ≡ₚ l -> pool_step l1 l2.

Definition terminates (l : list (Prog unit)) : Prop := Acc (fun l2 l1 => pool_step l1 l2) l.

Lemma terminates_perm l l' : l ≡ₚ l' -> terminates l -> terminates l'.
Proof.
  intros Hp [H]. constructor. intros l2 Hs. apply H.
  destruct Hs as [s m ops s' m' sp l0 l1 l2 Hm H1 H2|m l0 l1 l2 H1 H2].
  - eapply pool_thread; [done| |done]. by rewrite Hp.
  - eapply pool_finished; [|done]. by rewrite Hp.
Qed.

(** A handler that any terminating pool can take in. *)
Definition harmless (m : Prog unit) : Prop := forall l, terminates l -> terminates (m :: l).

Lemma harmless_all sp l : Forall harmless sp -> terminates l -> terminates (l ++ sp).
Proof.
  intros Hsp Hl. apply (terminates_perm (sp ++ l)); [by rewrite Permutation_app_comm|].
  induction Hsp as [|p sp Hp _ IH]; [done|]. by apply Hp.
Qed.

(** ** One program *)

(** Every execution of the program is finite and starts harmless promises. *)
Inductive halts {A : Type} (m : Prog A) : Prop :=
| halts_intro :
    (forall s ops s' m' sp, pstep s m ops s' m' sp -> halts m') ->
    (forall s ops s' m' sp, pstep s m ops s' m' sp -> Forall harmless sp) ->
    halts m.

Lemma cons_perm_cases {A : Type} (x y : A) l l' :
  x :: l ≡ₚ y :: l' -> (x = y /\ l ≡ₚ l') \/ (exists r, l ≡ₚ y :: r /\ l' ≡ₚ x :: r).
Proof.
  intros H. destruct (Permutation_vs_cons_inv H) as ([|z l1] & l2 & E); injection E as -> ->.
  - left. split; [done|]. by apply Permutation_cons_inv in H.
  - right. exists (l1 ++ l2). split; [by rewrite Permutation_middle|].
    apply (Permutation_cons_inv (a := y)). rewrite <-H, <-Permutation_middle. apply perm_swap.
Qed.

Lemma halts_harmless (m : Prog unit) : halts m -> harmless m.
Proof.
  induction 1 as [m _ IH Hsp]. intros l Hl. induction Hl as [l Hacc IHl].
  constructor. intros l2 Hs.
  inversion Hs as [s m0 ops s' m' sp l0 l1 l2' Hm H1 H2|m0 l0 l1 l2' H1 H2]; subst l1 l2';
    destruct (cons_perm_cases _ _ _ _ H1) as [[<- Hl]|(r & Hl & Hl0)].
  - apply (terminates_perm (m' :: l ++ sp)); [by rewrite H2, Hl|].
    apply (IH _ _ _ _ _ Hm), harmless_all; [by eapply Hsp|]. by constructor.
  - apply (terminates_perm (m :: m' :: r ++ sp)).
    { rewrite H2, Hl0. apply perm_swap. }
    apply IHl. by eapply pool_thread.
  - apply (terminates_perm l); [by rewrite H2, Hl|]. by constructor.
  - apply (terminates_perm (m :: r)); [by rewrite H2, Hl0|]. apply IHl. by eapply pool_finished.
Qed.

(** What a step of each program is. *)
Lemma pstep_inv {A : Type} s (m : Prog A) ops s' m' sp :
  pstep s m ops s' m' sp ->
  match m with
  | Return _ | Raise _ => False
  | SetState c f k => m' = k /\ sp = []
  | ReadRef c k => m' = k (s c) /\ sp = []
  | Do o k => (exists a, m' = k a) /\ sp = []
  | Spawn p k => m' = k /\ sp = [p]
  | Both p q k =>
      (exists p', pstep s p ops s' p' sp /\ m' = Both p' q k) \/
      (exists q', pstep s q ops s' q' sp /\ m' = Both p q' k) \/
      (exists r, m' = k r) /\ Forall (fun x => x = p \/ x = q) sp
  end.
Proof.
  destruct 1; eauto 10; right; right; (split; [by eexists|]); by repeat constructor; auto.
Qed.

Lemma halts_both {A : Type} (p q : Prog unit) (k : Result unit -> Prog A) :
  halts p -> halts q -> (forall r, halts (k r)) -> halts (Both p q k).
Proof.
  intros Hp. revert q. induction Hp as [p Hp IHp Hsp]. intros q Hq.
  induction Hq as [q Hq IHq Hsq]. intros Hk.
  assert (Hp' : harmless p) by by apply halts_harmless.
  assert (Hq' : harmless q) by by apply halts_harmless.
  constructor; intros s ops s' m' sp H; apply pstep_inv in H as
    [(p' & Hs & ->)|[(q' & Hs & ->)|[[r ->] Hall]]].
  - eapply IHp; [done| |done]. by constructor.
  - eapply IHq; done.
  - done.
  - by eapply Hsp.
  - by eapply Hsq.
  - eapply List.Forall_impl; [|exact Hall]. by intros x [->| ->].
Qed.

Lemma program_halts {A : Type} (m : Prog A) : halts m.
Proof.
  induction m as [A a|A e|A c g k IH|A c k IH|A o k IH|A p IHp q IHq k IH|A p IHp k IH].
  - constructor; intros s ops s' m' sp H; by apply pstep_inv in H.
  - constructor; intros s ops s' m' sp H; by apply pstep_inv in H.
  - constructor; intros s ops s' m' sp H; apply pstep_inv in H as [-> ->]; [exact IH|constructor].
  - constructor; intros s ops s' m' sp H; apply pstep_inv in H as [-> ->]; [apply IH|constructor].
  - constructor; intros s ops s' m' sp H; apply pstep_inv in H as [[a ->] ->];
      [apply IH|constructor].
  - exact (halts_both p q k IHp IHq IH).
  - constructor; intros s ops s' m' sp H; apply pstep_inv in H as [-> ->]; [exact IH|].
    constructor; [by apply halts_harmless|constructor].
Qed.

Lemma pool_terminates l : terminates l.
Proof.
  induction l as [|m l IH]; [|by apply halts_harmless, IH; apply program_halts].
  constructor. intros l2 H. inversion H as [s m ops s' m' sp l l1 l2' _ H1|m l l1 l2' H1]; subst;
    by apply Permutation_nil_cons in H1.
Qed.

(** ** Pages *)

(** Without new events the handlers in progress, and the promises they start, all
    finish, however they interleave and whatever they are answered. *)
Theorem work_terminates cfg : Acc (fun cfg2 cfg1 => work cfg1 cfg2) cfg.
Proof.
  remember (g_pool cfg) as l eqn:Hl. revert cfg Hl.
  induction (pool_terminates l) as [l _ IH]. intros cfg ->. constructor. intros cfg' H.
  eapply IH; [|reflexivity].
  destruct H as [s r l1 m l2 t ops s' m' sp H|s r l1 m l2 t H]; cbn [g_pool].
  - eapply (pool_thread _ _ _ _ _ _ (l1 ++ l2)); [exact H| |].
    + symmetry. apply Permutation_middle.
    + rewrite <-app_assoc. symmetry. apply Permutation_middle.
  - eapply (pool_finished m (l1 ++ l2)); [|done]. symmetry. apply Permutation_middle.
Qed.

(** Work is part of what a page does. *)
Lemma work_steps handler commit cfg cfg' : rtc work cfg cfg' -> rtc (step handler commit) cfg cfg'.
Proof. apply rtc_subrel. intros c1 c2. apply work_step. Qed.

(** A program can always go on, or is over: every operation has an answer. *)
Lemma program_goes_on {A : Type} s (m : Prog A) :
  (exists r, m = of_outcome r) \/ exists ops s' m' sp, pstep s m ops s' m' sp.
Proof.
  induction m as [A a|A e|A c f k _|A c k _|A o k _|A p IHp q IHq k _|A p _ k _].
  - left. by exists (Done a).
  - left. by exists (Thrown e).
  - right. do 4 eexists. constructor.
  - right. do 4 eexists. constructor.
  - right. exists [o], s, (k (offline [] o)), []. constructor.
  - right. destruct IHp as [[[[]|e] ->]|(ops & s' & p' & sp & H)];
      [|by do 4 eexists; apply pstep_failed_left|by do 4 eexists; apply pstep_left].
    destruct IHq as [[[[]|e] ->]|(ops & s' & q' & sp & H)];
      [by do 4 eexists; apply pstep_joined|by do 4 eexists; apply pstep_failed_right
      |by do 4 eexists; apply pstep_right].
  - right. do 4 eexists. constructor.
Qed.

(** Work stops only when no handler is left. *)
Lemma stuck_is_empty cfg : nf work cfg -> g_pool cfg = [].
Proof.
  destruct cfg as [s r [|m l] t]; [done|]. intros Hn. destruct Hn.
  destruct (program_goes_on s m) as [H|(ops & s' & m' & sp & H)].
  - exists (mkConfig s r l t). by apply (work_finished _ _ []).
  - eexists. by apply (work_thread _ _ [] _ l).
Qed.

(** The handlers in progress can be let run out. *)
Lemma work_runs_out cfg : exists final, rtc work cfg final /\ nf work final.
Proof.
  induction (work_terminates cfg) as [cfg _ IH].
  destruct cfg as [s r [|m l] t].
  - eexists. split; [apply rtc_refl|]. intros [cfg' H]. inversion H as [? ? [|]|? ? [|]].
  - destruct (program_goes_on s m) as [H|(ops & s' & m' & sp & H)].
    + destruct (IH (mkConfig s r l t)) as (final & Hs & Hn); [by apply (work_finished _ _ [])|].
      exists final. split; [|done]. eapply rtc_l; [|exact Hs]. by apply (work_finished _ _ []).
    + destruct (IH (mkConfig s' r (m' :: l ++ sp) (t ++ ops))) as (final & Hs & Hn);
        [by apply (work_thread _ _ [])|].
      exists final. split; [|done]. eapply rtc_l; [|exact Hs]. by apply (work_thread _ _ []).
Qed.
End Termination.
