(* ===== verification/Forms.v ===== *)
(** * Forms: what the dialogs and the panels of both dashboards share

    A form marks itself pending, runs its body, shows the message of what the body
    throws, and takes its mark back whatever happened:
    [try { ... } catch (e) { setError(message) } finally { setPending(false) }].
    [run_form] is its equation. *)

From S2P Require Import Prelude JsString JsNumber ApiUtils ReactRuntime ReactRules.

#[local] Open Scope js_scope.

Section Form.
Context {app : App}.
Variable set_pending : bool -> Prog unit.
Variable set_error : option string -> Prog unit.

Definition form (fallback : string) (body : Prog unit) : Prog unit :=
  finally (catch body (fun error => set_error (Some (error_message error fallback))))
    (set_pending false).

(** The setters of a form are setters of cells. *)
Definition setter {A} (set : A -> Prog unit) : Prop :=
  forall a, exists c f, set a = SetState c f (Return tt).

Context (Hpending : setter set_pending) (Herror : setter set_error).

(** What is left to do when the body came to its end. *)
Definition form_end (fallback : string) (result : Result unit) : Prog unit :=
  match result with
  | Done _ => set_pending false
  | Thrown error => set_error (Some (error_message error fallback)) ;;! set_pending false
  end.

Lemma run_form oracle t s fallback body :
  let r := run oracle t s body in
  run oracle t s (form fallback body) =
  run oracle (o_trace r) (o_store r) (form_end fallback (o_result r)).
Proof.
  intros r. unfold form. rewrite run_finally, run_catch. cbn zeta. fold r.
  destruct (Hpending false) as (cp & fp & Ep).
  destruct (o_result r) as [[]|error] eqn:Er; cbn [form_end].
  - rewrite Ep, Er. done.
  - destruct (Herror (Some (error_message error fallback))) as (ce & fe & Ee). by rewrite Ee, Ep.
Qed.

(** No form throws, and none leaves its mark. *)
Lemma form_done oracle t s fallback body :
  o_result (run oracle t s (form fallback body)) = Done tt.
Proof.
  rewrite run_form. destruct (Hpending false) as (cp & fp & Ep).
  destruct (o_result (run oracle t s body)) as [[]|error]; cbn [form_end].
  - by rewrite Ep.
  - destruct (Herror (Some (error_message error fallback))) as (ce & fe & Ee). by rewrite Ee, Ep.
Qed.
End Form.

(** [set_to c] is one. *)
Ltac solve_setter := let a := fresh in intros a; eexists _, _; reflexivity.

Section Checked.
Context {app : App}.

(** [if (!response.ok) throw new Error(await parseApiError(response, path))] after a
    fetch whose answer is not read. *)
Definition fetch_checked (req : Request) (p : Payload) (path : string) : Prog unit :=
  response <-! checked_response req p path ;; skip.

(** The same when the JSON of the answer is read. *)
Definition fetch_json (req : Request) (p : Payload) (path : string) : Prog (PayloadTy p) :=
  response <-! checked_response req p path ;; response_json response.

(** [await processApiResponse<T>(response, path)] after the check, where the value is
    used: an acceptance without a body fails at its first use. *)
Definition fetch_read (req : Request) (p : Payload) (path : string) : Prog (PayloadTy p) :=
  response <-! checked_response req p path ;;
  match processApiResponse response path with
  | Done (Some v) => Return v
  | Done None => Raise (OtherError "Cannot read properties of undefined")
  | Thrown e => Raise e
  end.

(** What they come to. *)
Definition accepted_of {T} (answer : Result (Response T)) (path : string) : Result unit :=
  result_bind (checked_of answer path) (fun _ => Done tt).

Definition value_of {T} (answer : Result (Response T)) (path : string) : Result T :=
  result_bind (checked_of answer path) json_of.

Definition read_of {T} (answer : Result (Response T)) (path : string) : Result T :=
  result_bind (checked_of answer path) (fun response =>
    match processApiResponse response path with
    | Done (Some v) => Done v
    | Done None => Thrown (OtherError "Cannot read properties of undefined")
    | Thrown e => Thrown e
    end).

Lemma run_fetch_checked {B : Type} oracle t s req p path (k : unit -> Prog B) :
  run oracle t s (bind (fetch_checked req p path) k) =
  match accepted_of (oracle t (OpFetch req p)) path with
  | Done _ => run oracle (t ++ [OpFetch req p]) s (k tt)
  | Thrown e => mkOutcome (t ++ [OpFetch req p]) s (Thrown e)
  end.
Proof.
  unfold fetch_checked, accepted_of. rewrite run_bind, run_checked.
  by destruct (checked_of _ path).
Qed.

Lemma run_fetch_json {B : Type} oracle t s req p path (k : PayloadTy p -> Prog B) :
  run oracle t s (bind (fetch_json req p path) k) =
  match value_of (oracle t (OpFetch req p)) path with
  | Done v => run oracle (t ++ [OpFetch req p]) s (k v)
  | Thrown e => mkOutcome (t ++ [OpFetch req p]) s (Thrown e)
  end.
Proof.
  unfold fetch_json, value_of. rewrite run_bind, run_checked.
  destruct (checked_of _ path) as [r|e]; cbn [result_bind]; [|done].
  unfold response_json, json_of. by destruct (ok_json r).
Qed.

Lemma run_fetch_read {B : Type} oracle t s req p path (k : PayloadTy p -> Prog B) :
  run oracle t s (bind (fetch_read req p path) k) =
  match read_of (oracle t (OpFetch req p)) path with
  | Done v => run oracle (t ++ [OpFetch req p]) s (k v)
  | Thrown e => mkOutcome (t ++ [OpFetch req p]) s (Thrown e)
  end.
Proof.
  unfold fetch_read, read_of. rewrite run_bind, run_checked.
  destruct (checked_of _ path) as [r|e]; cbn [result_bind]; [|done].
  by destruct (processApiResponse r path) as [[v|]|e].
Qed.
End Checked.
