(* ===== verification/AttackHighlights.v ===== *)
(** * Timed highlights of new attacks ([components/hooks/use-attack-highlights.ts])

    The hook of both dashboards, over the cells of the page that uses it: the
    timer, which is a ref, and the highlighted identifiers. *)

From S2P Require Import Prelude ApiUtils ReactRuntime.

Section Highlights.
Context {app : App}.
Variable get_timer : Prog (option Z).
Variable set_timer : option Z -> Prog unit.
Variable set_ids : list string -> Prog unit.

(** The timeout is of four seconds. *)
Definition schedule_highlights (ids : list string) : Prog unit :=
  timer <-! get_timer ;;
  match timer with
  | Some t => perform (OpClearTimeout t) ;;! skip
  | None => skip
  end ;;!
  set_ids ids ;;!
  t <-! perform (OpSetTimeout 4000) ;;
  set_timer (Some t).

(** The callback of that timeout. *)
Definition highlights_expired : Prog unit := set_ids [] ;;! set_timer None.

Definition clear_highlights : Prog unit :=
  timer <-! get_timer ;;
  match timer with
  | Some t => perform (OpClearTimeout t) ;;! set_timer None
  | None => skip
  end ;;!
  set_ids [].
End Highlights.
