(* ===== verification/DashboardTypes.v ===== *)
(** * Data of the participants' dashboard ([lib/dashboard-types.ts], [lib/platform-api.ts])

    The payloads of the public API and of the participant API, and the rows of the
    control centre.  Enumerations that the code only compares with literals are
    kept as the strings they are. *)

From S2P Require Import Prelude JsString JsNumber DashboardUtils.

Record ScoreServiceRow := mkScoreServiceRow {
  cs_challenge_id : Z;
  cs_service : string;
  cs_attack : num;
  cs_defense : num;
  cs_sla : num;
  cs_total : num
}.

Record ScoreRow := mkScoreRow {
  so_rank : Z;
  so_team : string;
  so_attack : num;
  so_defense : num;
  so_sla : num;
  so_total : num;
  so_delta : string;
  so_services : option (list ScoreServiceRow)
}.

(** A row of the control centre.  [challengeId], [teamId] and [port] may come from
    [Number(text)]. *)
Record ServiceRow := mkServiceRow {
  sv_id : string;
  sv_challengeId : num;
  sv_teamId : num;
  sv_name : string;
  sv_endpoint : string;
  sv_port : num;
  sv_status : string;
  sv_checker : string;
  sv_hasSourceDownload : bool;
  sv_unlocked : bool;
  sv_sshHint : string;
  sv_lastEvent : string;
  sv_resetCooldown : string;
  sv_maintenance : bool;
  sv_lockReason : option string;
  sv_slaStatus : string;
  sv_slaPhase : string;
  sv_slaTickId : option Z;
  sv_slaMessage : string
}.

Record AttackEvent := mkAttackEvent {
  av_id : string;
  av_attacker : string;
  av_victim : string;
  av_service : string;
  av_tick : Z;
  av_verdict : string
}.

Definition AttackFeedPage := Page AttackEvent.

(** ** Payloads of the API *)

Record Challenge := mkChallenge {
  cg_id : Z;
  cg_name : string;
  cg_has_source_download : bool;
  cg_maintenance : option bool
}.

(** [name] is required by the type and yet given a fallback by the code. *)
Record TeamServiceState := mkTeamServiceState {
  ts_challenge_id : Z;
  ts_team_id : Z;
  ts_name : option string;
  ts_endpoint : string;
  ts_status : string;
  ts_checker : string;
  ts_unlocked : bool;
  ts_ssh_hint : string;
  ts_last_event : string;
  ts_reset_cooldown : string;
  ts_maintenance : option bool;
  ts_lock_reason : option string;
  ts_sla_status : option string;
  ts_sla_phase : option string;
  ts_sla_tick_id : option Z;
  ts_sla_message : option string
}.

Record SSHSessionData := mkSSHSessionData {
  sh_challenge_id : Z;
  sh_host : string;
  sh_port : Z;
  sh_username : string;
  sh_password : string;
  sh_password_mode : option string;
  sh_connection_hint : string
}.

Record GameMatchStatus := mkGameMatchStatus {
  gm_state : string;
  gm_started_at : option string;
  gm_ended_at : option string;
  gm_scheduled_start_at : option string;
  gm_scheduled_end_at : option string;
  gm_schedule_configured : option bool;
  gm_accepting_submissions : bool
}.

Record GameSchedulerStatus := mkGameSchedulerStatus {
  gc_state : string;
  gc_interval_seconds : Z;
  gc_last_run_at : option string;
  gc_next_run_at : option string;
  gc_last_tick_id : option Z;
  gc_last_error : option string
}.

Record GameTickStatus := mkGameTickStatus { gt_id : Z; gt_status : string }.

Record GameStatus := mkGameStatus {
  gg_match : option GameMatchStatus;
  gg_current_tick : option GameTickStatus;
  gg_scheduler : option GameSchedulerStatus;
  gg_total_ticks : Z
}.

Record PublicScoreboardFreeze := mkPublicScoreboardFreeze {
  fz_frozen : bool;
  fz_configured : bool;
  fz_freeze_at : option string;
  fz_unfreeze_at : option string;
  fz_snapshot_taken_at : option string
}.

(** [Record<string, Record<string, string[]>>]: challenge, team, endpoints, in
    the order [Object.entries] lists them. *)
Definition ServicesResponseData := list (string * list (string * list string)).

(** ** Overview *)

Record PlatformOverview := mkPlatformOverview {
  po_source : string;
  po_message : option string;
  po_authenticated : bool;
  po_teamID : option Z;
  po_playerID : option Z;
  po_teamName : option string;
  po_teamContactEmail : option string;
  po_displayName : option string;
  po_email : option string;
  po_role : option string;
  po_challengeCount : Z;
  po_ownServiceCount : Z;
  po_enemyTargetCount : Z;
  po_matchState : option string;
  po_schedulerState : option string;
  po_currentTick : option Z;
  po_acceptingSubmissions : option bool;
  po_nextTickAt : option string;
  po_tickInterval : option Z;
  po_lastTickAt : option string;
  po_apiBaseUrl : string;
  po_realtimeBaseUrl : string;
  po_scoreboardFrozen : bool;
  po_scoreboardFreezeAt : option string;
  po_scoreboardUnfreezeAt : option string
}.

(** ** Numbers as JavaScript compares them *)

(** [x === y]: two finite values are compared at a common exponent; NaN is
    different from everything. *)
Definition num_eqb (x y : num) : bool :=
  match x, y with
  | Finite m e, Finite n f =>
      let g := Z.min e f in m * 2 ^ (e - g) =? n * 2 ^ (f - g)
  | Infinite a, Infinite b => Bool.eqb a b
  | _, _ => false
  end.

Definition num_of_Z (n : Z) : num := Finite n 0.

Lemma num_eqb_Z a b : num_eqb (num_of_Z a) (num_of_Z b) = (a =? b).
Proof. unfold num_eqb, num_of_Z. rewrite Z.min_id, Z.sub_diag. cbn. by rewrite !Z.mul_1_r. Qed.
