(* ===== verification/ParticipantForms.v ===== *)
(** * The participants' forms ([components/dashboard])

    Sign in and register ([participant-login-form.tsx]), join a team
    ([participant-join-team-form.tsx]), submit flags ([flag-submit-panel.tsx]) and the
    account settings ([participant-account-settings.tsx]): one module each, whose
    cells are the [useState]s of the component. *)

From S2P Require Import Prelude JsString JsNumber ApiUtils ReactRuntime ReactRules Forms DashboardTypes.

#[local] Open Scope string_scope.
#[local] Open Scope Z_scope.
#[local] Open Scope list_scope.
#[local] Open Scope js_scope.

(** ** Flags as they are typed *)

(** The separators of [/[\n,]+/]. *)
Definition is_separator (c : ascii) : bool := Ascii.eqb c "010" || Ascii.eqb c ",".

(** [text.split(/[\n,]+/)]: [part] is what was read of the current part, and [inside]
    says that the last character read belongs to a separator. *)
Fixpoint split_runs (inside : bool) (part text : string) : list string :=
  match text with
  | EmptyString => [part]
  | String c rest =>
      if is_separator c
      then if inside then split_runs true part rest else part :: split_runs true EmptyString rest
      else split_runs false (part ++ₛ String c EmptyString) rest
  end.

Definition parseFlags (raw : string) : list string :=
  bfilter (fun value => negb (is_empty value)) (trim <$> split_runs false EmptyString raw).

(** ** Sign in and register *)

Module Login.

Inductive LoginMode := ModeLogin | ModeRegister.

Inductive LoginCell := Mode | DisplayName | Email | Password | LoginPending | LoginError.

#[export] Instance LoginCell_eq_dec : EqDecision LoginCell.
Proof. solve_decision. Defined.

Definition LoginCellTy (c : LoginCell) : Type :=
  match c with
  | Mode => LoginMode
  | DisplayName | Email | Password => string
  | LoginPending => bool
  | LoginError => option string
  end.

(** The answer of a session call is not read. *)
#[export] Instance LoginApp : App := {
  Cell := LoginCell;
  CellTy := LoginCellTy;
  Payload := unit;
  PayloadTy := fun _ => json
}.

Definition login_endpoint (mode : LoginMode) : string :=
  match mode with
  | ModeRegister => "/api/platform/session/register"
  | ModeLogin => "/api/platform/session/login"
  end.

Definition login_payload (v : Store) : json :=
  let credentials := [("email", JStr (v Email)); ("password", JStr (v Password))] in
  match v Mode with
  | ModeRegister => JObj (("display_name", JStr (v DisplayName)) :: credentials)
  | ModeLogin => JObj credentials
  end.

Definition login_fallback (mode : LoginMode) : string :=
  match mode with
  | ModeRegister => "player registration failed"
  | ModeLogin => "participant login failed"
  end.

Definition submitLogin (v : Store) : Prog unit :=
  set_to LoginPending true ;;!
  set_to LoginError None ;;!
  form (set_to LoginPending) (set_to LoginError) (login_fallback (v Mode))
    (let endpoint := login_endpoint (v Mode) in
     fetch_checked (browser_send "POST" endpoint (login_payload v)) tt endpoint ;;!
     perform (OpNavigate "/services") ;;!
     perform OpRefresh ;;! skip).

(** The two tabs. *)
Definition chooseMode (mode : LoginMode) : Prog unit :=
  set_to Mode mode ;;! set_to LoginError None.

End Login.

(** ** Join a team *)

Module JoinTeam.

Inductive JoinCell := TeamKey | JoinPending | JoinError.

#[export] Instance JoinCell_eq_dec : EqDecision JoinCell.
Proof. solve_decision. Defined.

Definition JoinCellTy (c : JoinCell) : Type :=
  match c with TeamKey => string | JoinPending => bool | JoinError => option string end.

#[export] Instance JoinApp : App := {
  Cell := JoinCell;
  CellTy := JoinCellTy;
  Payload := unit;
  PayloadTy := fun _ => json
}.

Definition submitTeamKey (v : Store) : Prog unit :=
  set_to JoinPending true ;;!
  set_to JoinError None ;;!
  form (set_to JoinPending) (set_to JoinError) "team join failed"
    (fetch_checked (browser_send "POST" "/api/platform/session/team"
       (JObj [("team_key", JStr (v TeamKey))])) tt "/api/platform/session/team" ;;!
     perform OpRefresh ;;! skip).

End JoinTeam.

(** ** Submit flags *)

Module FlagSubmit.

Record Verdict := mkVerdict {
  vd_flag : string;
  vd_status : string;
  vd_detail : option string;
  vd_message : option string
}.

(** What is read of the answer. *)
Record Verdicts := mkVerdicts {
  vs_results : option (list Verdict);
  vs_accepted_count : option Z;
  vs_rejected_count : option Z
}.

Inductive FlagCell := RawFlags | FlagPending | FlagError | FlagNote | FlagVerdicts.

#[export] Instance FlagCell_eq_dec : EqDecision FlagCell.
Proof. solve_decision. Defined.

Definition FlagCellTy (c : FlagCell) : Type :=
  match c with
  | RawFlags => string
  | FlagPending => bool
  | FlagError | FlagNote => option string
  | FlagVerdicts => list Verdict
  end.

#[export] Instance FlagApp : App := {
  Cell := FlagCell;
  CellTy := FlagCellTy;
  Payload := unit;
  PayloadTy := fun _ => Verdicts
}.

Definition flag_note (payload : Verdicts) : string :=
  "Accepted " ++ₛ num_to_string (vs_accepted_count payload ?? 0) ++ₛ ", rejected " ++ₛ
  num_to_string (vs_rejected_count payload ?? 0) ++ₛ ".".

Definition submit_request (flags : list string) : Request :=
  browser_send "POST" "/api/platform/submit" (JObj [("flags", JArr (JStr <$> flags))]).

(** The focus of the text area is not modelled. *)
Definition submitFlagBatch (v : Store) : Prog unit :=
  let flags := parseFlags (v RawFlags) in
  if Z.of_nat (length flags) =? 0 then
    set_to FlagError (Some "Paste at least one flag.") ;;!
    set_to FlagNote None ;;!
    set_to FlagVerdicts []
  else
    set_to FlagPending true ;;!
    set_to FlagError None ;;!
    set_to FlagNote None ;;!
    set_to FlagVerdicts [] ;;!
    form (set_to FlagPending) (set_to FlagError) "Flag submit failed."
      (payload <-! fetch_json (submit_request flags) tt "/api/platform/submit" ;;
       set_to FlagVerdicts (vs_results payload ?? []) ;;!
       set_to FlagNote (Some (flag_note payload)) ;;!
       when ((vs_accepted_count payload ?? 0) >? 0) (set_to RawFlags "")).

(** Typing in the text area takes the error away, if there is one. *)
Definition typeFlags (v : Store) (text : string) : Prog unit :=
  set_to RawFlags text ;;!
  match v FlagError ≫= or_undefined with Some _ => set_to FlagError None | None => skip end.

(** What a key does in the text area: nothing, nothing but to be swallowed, or to
    submit the form. *)
Inductive KeyEffect := KeyIgnored | KeySwallowed | KeySubmits.

Definition submissions_closed (acceptingSubmissions : option bool) : bool :=
  bool_decide (acceptingSubmissions = Some false).

Definition onTextareaKeyDown (acceptingSubmissions : option bool) (pending : bool)
    (key : string) (metaKey ctrlKey : bool) : KeyEffect :=
  if negb (String.eqb key "Enter") || (negb metaKey && negb ctrlKey) then KeyIgnored
  else if pending || submissions_closed acceptingSubmissions then KeySwallowed
  else KeySubmits.

Definition railHint (acceptingSubmissions : option bool) (rawFlags : string) : string :=
  let flagCount := Z.of_nat (length (parseFlags rawFlags)) in
  if submissions_closed acceptingSubmissions then "Scoring is not accepting flags right now."
  else if flagCount >? 0 then
    num_to_string flagCount ++ₛ " flag" ++ₛ (if flagCount =? 1 then "" else "s") ++ₛ
    " ready · ⌘/Ctrl+Enter"
  else "One per line or comma-separated · ⌘/Ctrl+Enter".

(** A line of the list of verdicts: whether it is shown as accepted, and its text. *)
Definition verdict_line (verdict : Verdict) : bool * string :=
  let said := match vd_detail verdict ≫= or_undefined with
              | Some d => Some d
              | None => vd_message verdict ≫= or_undefined
              end in
  (includes "accept" (to_lower (vd_status verdict)),
   vd_status verdict ++ₛ ": " ++ₛ vd_flag verdict ++ₛ
   match said with Some m => " — " ++ₛ m | None => "" end).

End FlagSubmit.

(** ** Account settings *)

Module Account.

Record TeamMember := mkTeamMember {
  mb_player_id : Z;
  mb_display_name : string;
  mb_email : string;
  mb_role : string
}.

Record Draft := mkDraft {
  dr_displayName : string;
  dr_email : string;
  dr_teamName : string;
  dr_teamContactEmail : string
}.

Record PasswordDraft := mkPasswordDraft {
  pw_currentPassword : string;
  pw_newPassword : string;
  pw_confirmPassword : string
}.

Definition no_password : PasswordDraft := mkPasswordDraft "" "" "".

(** [Overview] is the property of the last render.  Each run of the effect that loads
    the members closes over a [cancelled] of its own, which the cleanup of that run
    sets: [LiveLoad] is the run whose [cancelled] is still false, and [Loads] counts the
    runs. *)
Inductive AccountCell :=
| Overview | Open | AccountPending | AccountMessage | AccountError | DraftState | PasswordState
| Members | MembersLoading | TransferPlayerID | LiveLoad | Loads.

#[export] Instance AccountCell_eq_dec : EqDecision AccountCell.
Proof. solve_decision. Defined.

Definition AccountCellTy (c : AccountCell) : Type :=
  match c with
  | Overview => PlatformOverview
  | Open | AccountPending | MembersLoading => bool
  | AccountMessage | AccountError => option string
  | DraftState => Draft
  | PasswordState => PasswordDraft
  | Members => list TeamMember
  | TransferPlayerID => option Z
  | LiveLoad => option nat
  | Loads => nat
  end.

(** The members may come as something that is no array. *)
Inductive AccountPayload := PMembers | PChange.

#[export] Instance AccountApp : App := {
  Cell := AccountCell;
  CellTy := AccountCellTy;
  Payload := AccountPayload;
  PayloadTy := fun p => match p with PMembers => option (list TeamMember) | PChange => json end
}.

Definition role_is (role : string) (overview : PlatformOverview) : bool :=
  bool_decide (po_role overview = Some role).

Definition hasTeam (overview : PlatformOverview) : bool :=
  ((po_teamID overview ?? 0) >? 0) && negb (role_is "organizer" overview).

Definition canEditTeam (overview : PlatformOverview) : bool :=
  hasTeam overview && role_is "captain" overview.

Definition transferableMembers (v : Store) : list TeamMember :=
  bfilter (fun member =>
    negb (String.eqb (mb_role member) "organizer") &&
    negb (String.eqb (mb_role member) "captain") &&
    negb (bool_decide (po_playerID (v Overview) = Some (mb_player_id member)))) (v Members).

Definition draftFromOverview (overview : PlatformOverview) : Draft :=
  mkDraft (po_displayName overview ?? "") (po_email overview ?? "") (po_teamName overview ?? "")
    (po_teamContactEmail overview ?? "").

(** *** Effects *)

(** The effect on [open]. *)
Definition open_effect (v : Store) : Prog unit :=
  if negb (v Open) then skip
  else
    set_to DraftState (draftFromOverview (v Overview)) ;;!
    set_to PasswordState no_password ;;!
    set_to AccountMessage None ;;!
    set_to AccountError None ;;!
    set_to TransferPlayerID None.

(** [if (!cancelled) m], in the run [load]. *)
Definition unless_cancelled (load : nat) (m : Prog unit) : Prog unit :=
  live <-! read_ref LiveLoad ;; when (bool_decide (live = Some load)) m.

Definition members_path : string := "/api/platform/session/team/members".

Definition load_members (load : nat) : Prog unit :=
  finally
    (catch
       (payload <-! fetch_json (browser_get members_path) PMembers members_path ;;
        unless_cancelled load (set_to Members (payload ?? [])))
       (fun error =>
          unless_cancelled load
            (set_to Members [] ;;!
             set_to AccountError (Some (error_message error "failed to load team members")))))
    (unless_cancelled load (set_to MembersLoading false)).

(** The cleanup of the last run, and the effect on [open] and [canEditTeam]. *)
Definition members_effect (v : Store) : Prog unit :=
  set_to LiveLoad None ;;!
  if negb (v Open) || negb (canEditTeam (v Overview)) then set_to Members []
  else
    load <-! read_ref Loads ;;
    update Loads S ;;!
    set_to LiveLoad (Some load) ;;!
    set_to MembersLoading true ;;!
    spawn (load_members load).

(** *** Handlers *)

Definition account_form : string -> Prog unit -> Prog unit :=
  form (set_to AccountPending) (set_to AccountError).

Definition profile_body (v : Store) : json :=
  let draft := v DraftState in
  JObj ([("display_name", JStr (dr_displayName draft)); ("email", JStr (dr_email draft))] ++
        (if canEditTeam (v Overview)
         then [("team_name", JStr (dr_teamName draft));
               ("team_contact_email", JStr (dr_teamContactEmail draft))]
         else [])).

Definition profile_request (v : Store) : Request :=
  browser_send "PUT" "/api/platform/session/profile" (profile_body v).

Definition password_request (p : PasswordDraft) : Request :=
  browser_send "PUT" "/api/platform/session/password"
    (JObj [("current_password", JStr (pw_currentPassword p));
           ("new_password", JStr (pw_newPassword p))]).

Definition wantsPasswordChange (p : PasswordDraft) : bool :=
  negb (String.eqb (pw_currentPassword p) "") || negb (String.eqb (pw_newPassword p) "") ||
  negb (String.eqb (pw_confirmPassword p) "").

(** Why a new password is not sent. *)
Definition password_refused (p : PasswordDraft) : option string :=
  if js_length (pw_newPassword p) <? 8 then Some "new password must be at least 8 characters"
  else if negb (String.eqb (pw_newPassword p) (pw_confirmPassword p))
  then Some "new password confirmation does not match"
  else None.

Definition saveAccount (v : Store) : Prog unit :=
  let p := v PasswordState in
  set_to AccountPending true ;;!
  set_to AccountMessage None ;;!
  set_to AccountError None ;;!
  account_form "profile update failed"
    (fetch_checked (profile_request v) PChange "/api/platform/session/profile" ;;!
     (if wantsPasswordChange p then
        match password_refused p with
        | Some message => Raise (OtherError message)
        | None =>
            fetch_checked (password_request p) PChange "/api/platform/session/password" ;;!
            set_to PasswordState no_password ;;!
            set_to AccountMessage (Some "Account settings and password saved.")
        end
      else set_to AccountMessage (Some "Account settings saved.")) ;;!
     perform OpRefresh ;;! skip).

Definition captain_request (player : Z) : Request :=
  browser_send "POST" "/api/platform/session/team/captain" (JObj [("player_id", JNum player)]).

Definition choose_a_teammate : string := "choose a teammate to receive captainship".

Definition transferCaptain (v : Store) : Prog unit :=
  match v TransferPlayerID with
  | None => set_to AccountError (Some choose_a_teammate)
  | Some player =>
      if player <=? 0 then set_to AccountError (Some choose_a_teammate)
      else
        set_to AccountPending true ;;!
        set_to AccountMessage None ;;!
        set_to AccountError None ;;!
        account_form "captain transfer failed"
          (fetch_checked (captain_request player) PChange "/api/platform/session/team/captain" ;;!
           set_to AccountMessage (Some "Captainship transferred. You are now a team member.") ;;!
           perform OpRefresh ;;! skip)
  end.

End Account.

(** ** What is read of the text of a batch *)

Definition separator_free (s : string) : Prop := has_char is_separator s = false.

Lemma has_char_drop_start p q s : has_char p s = false -> has_char p (drop_start q s) = false.
Proof.
  induction s as [|c s IH]; simpl; [done|]. intros [Hc Hs]%orb_false_iff.
  destruct (q c); [by apply IH|]. simpl. by rewrite Hc, Hs.
Qed.

Lemma has_char_drop_end p q s : has_char p s = false -> has_char p (drop_end q s) = false.
Proof.
  induction s as [|c s IH]; simpl; [done|]. intros [Hc Hs]%orb_false_iff. specialize (IH Hs).
  destruct (drop_end q s) as [|d r]; [destruct (q c); simpl; by rewrite ?Hc|].
  cbn [has_char] in IH |- *. by rewrite Hc.
Qed.

Lemma trim_separator_free s : separator_free s -> separator_free (trim s).
Proof. intros H. by apply has_char_drop_end, has_char_drop_start. Qed.

Lemma split_runs_app inside part s t :
  separator_free s ->
  split_runs inside part (s ++ₛ t) =
  split_runs (if is_empty s then inside else false) (part ++ₛ s) t.
Proof.
  unfold separator_free. revert inside part.
  induction s as [|c s IH]; intros inside part H; simpl; [by rewrite app_nil_s|].
  apply orb_false_iff in H as [Hc Hs]. rewrite Hc, IH by done. rewrite app_assoc_s.
  by destruct (is_empty s).
Qed.

(** A text as its parts and the separators between them; every text is one. *)
Fixpoint lay_out (first : string) (rest : list (ascii * string)) : string :=
  match rest with
  | [] => first
  | (sep, next) :: rest => first ++ₛ String sep (lay_out next rest)
  end.

Definition non_blank (parts : list string) : list string :=
  bfilter (fun value => negb (is_empty value)) (trim <$> parts).

Lemma non_blank_cons part parts : trim part = "" -> non_blank (part :: parts) = non_blank parts.
Proof. intros H. unfold non_blank. csimpl. by rewrite H. Qed.

Lemma split_runs_lay_out rest first part inside :
  (inside = true -> part = "") -> separator_free first -> Forall separator_free rest.*2 ->
  Forall (fun c => is_separator c = true) rest.*1 ->
  non_blank (split_runs inside part (lay_out first rest)) =
  non_blank ((part ++ₛ first) :: rest.*2).
Proof.
  revert first part inside. induction rest as [|[sep next] rest IH]; intros first part inside Hp Hf Hr Hs.
  - cbn [lay_out]. rewrite <- (app_nil_s first) at 1. by rewrite split_runs_app.
  - csimpl in Hr. csimpl in Hs. inversion Hr as [|? ? Hn Hr']; subst. inversion Hs as [|? ? Hc Hs']; subst.
    cbn [lay_out]. rewrite split_runs_app by done. cbn [split_runs]. rewrite Hc.
    destruct (is_empty first) eqn:Ef; [destruct inside|].
    + apply is_empty_spec in Ef as ->. rewrite Hp by done. csimpl.
      rewrite (IH next "" true) by done. by rewrite (non_blank_cons "").
    + apply is_empty_spec in Ef as ->. csimpl. unfold non_blank in *. csimpl.
      rewrite (IH next "" true) by done. done.
    + csimpl. unfold non_blank in *. csimpl. rewrite (IH next "" true) by done. done.
Qed.

Definition clean (flag : string) : Prop := flag <> "" /\ trim flag = flag /\ separator_free flag.

Lemma clean_non_blank flags : Forall clean flags -> non_blank flags = flags.
Proof.
  induction 1 as [|f flags (He & Ht & _) _ IH]; [done|]. unfold non_blank in *. csimpl.
  rewrite Ht. destruct (is_empty f) eqn:E; [by apply is_empty_spec in E|]. by rewrite IH.
Qed.

Lemma non_blank_clean parts : Forall separator_free parts -> Forall clean (non_blank parts).
Proof.
  intros H. apply list.Forall_forall. intros f. unfold non_blank. rewrite elem_of_bfilter.
  intros [He (p & -> & Hp)%list_elem_of_fmap]. split_and!.
  - intros E. by rewrite E in He.
  - apply trim_idem.
  - by apply trim_separator_free, (proj1 (list.Forall_forall _ _) H).
Qed.

Lemma join_lay_out first rest : join "," (first :: rest) = lay_out first ((fun f => (","%char, f)) <$> rest).
Proof. revert first. induction rest as [|f rest IH]; intros first; [done|]. csimpl. by rewrite <- IH. Qed.

Lemma parse_clean flags : Forall clean flags -> parseFlags (join "," flags) = flags.
Proof.
  intros H. destruct flags as [|first rest]; [done|]. rewrite join_lay_out.
  assert (Hc : forall f, f ∈ first :: rest -> separator_free f).
  { intros f Hf. by apply (proj1 (list.Forall_forall _ _) H). }
  assert (H2 : ((fun f => (","%char, f)) <$> rest).*2 = rest).
  { rewrite <- list_fmap_compose. by apply list_fmap_id. }
  unfold parseFlags. fold (non_blank (split_runs false "" (lay_out first ((fun f => (","%char, f)) <$> rest)))).
  rewrite split_runs_lay_out; [|done|apply Hc; left| |].
  - rewrite H2. by apply clean_non_blank.
  - rewrite H2. apply list.Forall_forall. intros f Hf. apply Hc. by right.
  - apply list.Forall_forall. intros c (x & -> & Hx)%list_elem_of_fmap.
    by apply list_elem_of_fmap in Hx as (f & -> & _).
Qed.

(** The flags of a batch are read back however they are laid out: whatever mix of
    new lines, commas, blanks and empty lines lies between the parts of the text, the
    flags are the parts that are not blank, trimmed and in their order; each is a
    clean flag, and writing them with commas and reading them again changes nothing. *)
Theorem flag_batch_read_back first rest :
  separator_free first -> Forall separator_free rest.*2 ->
  Forall (fun c => is_separator c = true) rest.*1 ->
  let flags := parseFlags (lay_out first rest) in
  flags = bfilter (fun value => negb (is_empty value)) (trim <$> first :: rest.*2) /\
  Forall clean flags /\ parseFlags (join "," flags) = flags.
Proof.
  intros Hf Hr Hs flags.
  assert (H : flags = non_blank (first :: rest.*2)) by by apply (split_runs_lay_out rest first "" false).
  assert (Hc : Forall clean flags) by (rewrite H; apply non_blank_clean; by constructor).
  split_and!; [exact H|exact Hc|by apply parse_clean].
Qed.

Lemma flag_batch_read_back_witness :
  let nl := String "010" EmptyString in
  parseFlags ("  FLAG{a}," ++ₛ nl ++ₛ nl ++ₛ " FLAG{b} ,," ++ₛ nl) = ["FLAG{a}"; "FLAG{b}"].
Proof.
  intros nl.
  apply (flag_batch_read_back "  FLAG{a}"
    [(","%char, ""); ("010"%char, ""); ("010"%char, " FLAG{b} "); (","%char, ""); (","%char, ""); ("010"%char, "")]).
  - reflexivity.
  - repeat constructor.
  - repeat constructor.
Defined.

(** ** The forms *)

Module LoginFacts.
Import Login.

Definition login_request (v : Store) : Request :=
  browser_send "POST" (login_endpoint (v Mode)) (login_payload v).

(** A sign-in makes one call, with the fields of its mode; the page moves to the
    services exactly when the call is accepted, and otherwise stays and shows why; in
    every case the form can be used again and keeps what was typed. *)
Theorem submitLogin_spec oracle t (s v : Store) :
  let ask := OpFetch (login_request v) tt in
  let r := run oracle t s (submitLogin v) in
  o_result r = Done tt /\ o_store r LoginPending = false /\
  (forall c, c <> LoginPending -> c <> LoginError -> o_store r c = s c) /\
  match accepted_of (oracle (t : list (Op (app := LoginApp))) ask) (login_endpoint (v Mode)) with
  | Done _ => o_trace r = t ++ [ask; OpNavigate "/services"; OpRefresh] /\ o_store r LoginError = None
  | Thrown e =>
      o_trace r = t ++ [ask] /\
      o_store r LoginError = Some (error_message e (login_fallback (v Mode)))
  end.
Proof.
  intros ask r. unfold r, submitLogin. cbn [bind set_to run].
  rewrite run_form by solve_setter. rewrite run_fetch_checked. fold (login_request v). fold ask.
  destruct (accepted_of _ _) as [u|e]; cbn [run bind perform skip form_end set_to o_trace o_store o_result].
  - rewrite <- !app_assoc. split_and!; try reflexivity. intros c Hp He. by destruct c.
  - split_and!; try reflexivity. intros c Hp He. by destruct c.
Qed.
End LoginFacts.

Module FlagFacts.
Import FlagSubmit.

(** A submission makes no call for a text without flags; otherwise it makes one,
    with the flags of the text.  The text is cleared exactly when the platform accepted
    at least one of them; a refusal or a failed call keeps it, so that the batch can be
    sent again, and shows why.  The form never stays pending. *)
Lemma submitFlagBatch_spec oracle t (s v : Store) :
  let flags := parseFlags (v RawFlags) in
  let ask := OpFetch (submit_request flags) tt in
  let r := run oracle t s (submitFlagBatch v) in
  o_result r = Done tt /\
  match flags with
  | [] => o_trace r = t /\ o_store r FlagPending = s FlagPending /\ o_store r RawFlags = s RawFlags /\ o_store r FlagVerdicts = [] /\
          o_store r FlagNote = None /\ o_store r FlagError = Some "Paste at least one flag."
  | _ =>
      o_trace r = t ++ [ask] /\ o_store r FlagPending = false /\
      match value_of (oracle (t : list (Op (app := FlagApp))) ask) "/api/platform/submit" with
      | Done payload =>
          let accepted := vs_accepted_count payload ?? 0 in
          o_store r FlagVerdicts = vs_results payload ?? [] /\
          o_store r FlagNote = Some (flag_note payload) /\ o_store r FlagError = None /\
          o_store r RawFlags = if accepted >? 0 then "" else s RawFlags
      | Thrown e =>
          o_store r FlagVerdicts = [] /\ o_store r FlagNote = None /\
          o_store r FlagError = Some (error_message e "Flag submit failed.") /\
          o_store r RawFlags = s RawFlags
      end
  end.
Proof.
  intros flags ask r. unfold r, submitFlagBatch. fold flags.
  destruct flags as [|flag others]; [by split_and!|].
  set (flags' := flag :: others) in *.
  assert (Hn : Z.of_nat (length flags') =? 0 = false) by (apply Z.eqb_neq; simpl; lia).
  rewrite Hn. cbn [bind set_to run].
  rewrite run_form by solve_setter. rewrite run_fetch_json. fold ask.
  destruct (value_of _ _) as [payload|e].
  - unfold when. cbn [run bind]. destruct ((vs_accepted_count payload ?? 0) >? 0) eqn:Ea;
      cbn [run bind skip form_end set_to o_trace o_store o_result]; by split_and!.
  - cbn [run bind form_end set_to o_trace o_store o_result]; by split_and!.
Qed.
End FlagFacts.

Module AccountFacts.
Import Account.

(** A load of the members that was cancelled is silent: whatever the call is
    answered, and whatever happened while it waited, a run of the effect that is no
    longer the live one changes nothing, and the live one shows what it loaded, or the
    reason why not, and takes the mark of loading away. *)
Theorem stale_members_ignored load :
  exists k, load_members load = Do (OpFetch (browser_get members_path) PMembers) k /\
  forall oracle t (s : Store) answer,
    let r := run oracle t s (k answer) in
    o_result r = Done tt /\ o_trace r = t /\
    (s LiveLoad <> Some load -> o_store r = s) /\
    (s LiveLoad = Some load ->
     o_store r MembersLoading = false /\
     match value_of answer members_path with
     | Done payload => o_store r Members = payload ?? [] /\ o_store r AccountError = s AccountError
     | Thrown e => o_store r Members = [] /\
                   o_store r AccountError = Some (error_message e "failed to load team members")
     end).
Proof.
  eexists. split; [reflexivity|]. intros oracle t s answer r.
  assert (Hr : r = run oracle t s
    (finally (catch (payload <-! of_outcome (value_of answer members_path) ;;
                     unless_cancelled load (set_to Members (payload ?? [])))
       (fun error => unless_cancelled load (set_to Members [] ;;!
          set_to AccountError (Some (error_message error "failed to load team members")))))
       (unless_cancelled load (set_to MembersLoading false)))).
  { unfold r, value_of, checked_of. destruct answer as [a|e]; [|done]. cbn [of_outcome bind result_bind].
    destruct (ok a); cbn [bind result_bind].
    - unfold response_json, json_of. by destruct (ok_json a).
    - by destruct (parseApiError a members_path). }
  rewrite Hr. clear Hr r. unfold unless_cancelled, when.
  destruct (value_of answer members_path) as [payload|e]; cbn [of_outcome bind catch finally run read_ref].
  - destruct (bool_decide_reflect (s LiveLoad = Some load)) as [E|E];
      cbn [finally catch bind run skip read_ref set_to o_result o_trace o_store].
    + change (upd (app := AccountApp) Members _ s LiveLoad) with (s LiveLoad). rewrite bool_decide_true by done.
      cbn [bind run set_to o_result o_trace o_store]. split_and!; try done.
    + rewrite bool_decide_false by done. split_and!; done.
  - destruct (bool_decide_reflect (s LiveLoad = Some load)) as [E|E];
      cbn [finally catch bind run skip read_ref set_to o_result o_trace o_store].
    + change (upd (app := AccountApp) AccountError _ (upd (app := AccountApp) Members _ s) LiveLoad) with (s LiveLoad).
      rewrite bool_decide_true by done.
      cbn [bind run set_to o_result o_trace o_store]. split_and!; try done.
    + rewrite bool_decide_false by done. split_and!; done.
Qed.

(** What a save of the account does.  The profile goes first; only then is a new
    password looked at.  A password that the form itself refuses is reported when the
    profile has already been saved: the page shows an error, is not refreshed, and so
    keeps showing the old names. *)
Theorem saveAccount_spec oracle t (s v : Store) :
  let p := v PasswordState in
  let profile := OpFetch (profile_request v) PChange in
  let password := OpFetch (password_request p) PChange in
  let r := run oracle t s (saveAccount v) in
  let saved message :=
    o_store r AccountMessage = Some message /\ o_store r AccountError = None in
  let failed message :=
    o_store r AccountMessage = None /\ o_store r AccountError = Some message /\
    o_store r PasswordState = s PasswordState in
  o_result r = Done tt /\ o_store r AccountPending = false /\
  match accepted_of (oracle (t : list (Op (app := AccountApp))) profile) "/api/platform/session/profile" with
  | Thrown e => o_trace r = t ++ [profile] /\ failed (error_message e "profile update failed")
  | Done _ =>
      if negb (wantsPasswordChange p) then
        o_trace r = t ++ [profile; OpRefresh] /\ saved "Account settings saved."
      else
        match password_refused p with
        | Some message => o_trace r = t ++ [profile] /\ failed message
        | None =>
            match accepted_of (oracle (t ++ [profile]) password) "/api/platform/session/password" with
            | Thrown e => o_trace r = t ++ [profile; password] /\
                          failed (error_message e "profile update failed")
            | Done _ => o_trace r = t ++ [profile; password; OpRefresh] /\
                        saved "Account settings and password saved." /\
                        o_store r PasswordState = no_password
            end
        end
  end.
Proof.
  intros p profile password r saved failed. unfold saved, failed, r, saveAccount. fold p.
  cbn [bind set_to run]. unfold account_form. rewrite run_form by solve_setter.
  rewrite run_fetch_checked. fold profile.
  destruct (accepted_of _ "/api/platform/session/profile") as [u|e]; [|by split_and!].
  destruct (wantsPasswordChange p); cbn [negb].
  2: { cbn [bind set_to run perform skip o_trace o_store o_result form_end].
       rewrite <- app_assoc. by split_and!. }
  destruct (password_refused p) as [message|]; [by split_and!|].
  rewrite run_bind, run_fetch_checked. fold password.
  destruct (accepted_of _ "/api/platform/session/password") as [u'|e].
  - cbn [bind set_to run perform skip o_trace o_store o_result form_end].
    rewrite <- !app_assoc. by split_and!.
  - cbn [bind set_to run perform skip o_trace o_store o_result form_end].
    rewrite <- !app_assoc. by split_and!.
Qed.

End AccountFacts.
