(* ===== verification/ParticipantShell.v ===== *)
(** * The frame of the participants' pages ([components/dashboard])

    [Banner] is [announcement-banner.tsx]: the banners of a page share one cache and
    one request in flight, both variables of the module.  [Readiness] is
    [match-readiness.tsx] with [onboarding-checklist.tsx].  [Shell] is what
    [participant-shell.tsx] and [control-center.tsx] offer to whom, and
    [participant-session-button.tsx]. *)

From S2P Require Import Prelude JsString JsNumber ApiUtils ReactRuntime ReactRules DashboardTypes ParticipantForms.

#[local] Open Scope string_scope.
#[local] Open Scope Z_scope.
#[local] Open Scope list_scope.
#[local] Open Scope js_scope.

(** ** The announcements of the organizers *)

Module Banner.

Record Announcement := mkAnnouncement {
  an_id : Z;
  an_body : string;
  an_created_at : string
}.

Definition announcements_path : string := "/api/platform/announcements".

(** A mounted or unmounted banner: its items, and the variable of its effect. *)
Record BannerState := mkBannerState { items : list Announcement; cancelled : bool }.

(** The two variables of the module; the fetches that are not answered; the refreshes
    that await a request, by its number and their banner; the refreshes whose promise
    is settled and which have not run on; the banners. *)
Record World := mkWorld {
  cachedAnnouncements : list Announcement;
  announcementRequest : option nat;
  outstanding : list nat;
  next_request : nat;
  waiting : list (nat * nat);
  woken : list (nat * option (list Announcement));
  banners : gmap nat BannerState
}.

Definition initial : World := mkWorld [] None [] 0 [] [] ∅.

(** What the request comes to: [None] is [null]. *)
Definition snapshot_of (answer : Result (Response (list Announcement))) : option (list Announcement) :=
  match answer with
  | Thrown _ => None
  | Done response =>
      if negb (ok response) then None
      else match processApiResponse response announcements_path with
           | Done (Some payload) => Some (firstn 5 payload)
           | _ => None
           end
  end.

(** A refresh of banner [b]: it calls [loadAnnouncements] and waits. *)
Definition refresh (b : nat) (w : World) : World :=
  match announcementRequest w with
  | Some r =>
      mkWorld (cachedAnnouncements w) (Some r) (outstanding w) (next_request w)
        (waiting w ++ [(r, b)]) (woken w) (banners w)
  | None =>
      let r := next_request w in
      mkWorld (cachedAnnouncements w) (Some r) (outstanding w ++ [r]) (S r)
        (waiting w ++ [(r, b)]) (woken w) (banners w)
  end.

Definition with_banners (bs : gmap nat BannerState) (w : World) : World :=
  mkWorld (cachedAnnouncements w) (announcementRequest w) (outstanding w) (next_request w)
    (waiting w) (woken w) bs.

(** The end of request [r]: its snapshot replaces the cache, the request is forgotten,
    and those that await it are woken. *)
Definition settle_request (r : nat) (snapshot : option (list Announcement)) (w : World) : World :=
  mkWorld (snapshot ?? cachedAnnouncements w) None
    (filter (fun r' => r' <> r) (outstanding w)) (next_request w)
    (filter (fun p => p.1 <> r) (waiting w))
    (woken w ++ ((fun p => (p.2, snapshot)) <$> filter (fun p => p.1 = r) (waiting w)))
    (banners w).

(** [if (!cancelled && nextItems) setItems(nextItems)]. *)
Definition show (nextItems : option (list Announcement)) (x : BannerState) : BannerState :=
  match nextItems with
  | Some l => if cancelled x then x else mkBannerState l false
  | None => x
  end.

(** The first woken refresh runs on. *)
Definition resume (w : World) : World :=
  match woken w with
  | [] => w
  | (b, nextItems) :: rest =>
      mkWorld (cachedAnnouncements w) (announcementRequest w) (outstanding w) (next_request w)
        (waiting w) rest (alter (show nextItems) b (banners w))
  end.

Inductive BannerEvent :=
| Mount (b : nat)
| Interval (b : nat)
| Unmount (b : nat)
| Answered (r : nat) (answer : Result (Response (list Announcement)))
| Resume.

(** [None] when the event cannot happen: a banner mounts once, the interval runs while
    it is mounted, a fetch is answered once. *)
Definition banner_step (e : BannerEvent) (w : World) : option World :=
  match e with
  | Mount b =>
      match banners w !! b with
      | Some _ => None
      | None => Some (refresh b (with_banners
                   (<[b := mkBannerState (cachedAnnouncements w) false]> (banners w)) w))
      end
  | Interval b =>
      match banners w !! b with
      | Some x => if cancelled x then None else Some (refresh b w)
      | None => None
      end
  | Unmount b =>
      match banners w !! b with
      | Some x => if cancelled x then None
                  else Some (with_banners (<[b := mkBannerState (items x) true]> (banners w)) w)
      | None => None
      end
  | Answered r answer =>
      if bool_decide (r ∈ outstanding w) then Some (settle_request r (snapshot_of answer) w) else None
  | Resume => if bool_decide (woken w = []) then None else Some (resume w)
  end.

Fixpoint banner_steps (es : list BannerEvent) (w : World) : option World :=
  match es with
  | [] => Some w
  | e :: es => banner_step e w ≫= banner_steps es
  end.

(** The texts of a banner. *)
Definition messages (x : BannerState) : list string :=
  (fun item => "Organizer: " ++ₛ an_body item) <$> items x.

End Banner.

(** ** The readiness of a participant *)

Module Readiness.

Definition VPN_DOWNLOADED_STORAGE_KEY : string := "adplatform.participant.vpn-downloaded".

(** [localStorage] may refuse to be read or written. *)
Record Storage := mkStorage { stored : gmap string string; readable : bool; writable : bool }.

(** The storage that is left, and the event that was dispatched. *)
Definition markVpnConfigDownloaded (st : Storage) : Storage * option string :=
  if writable st
  then (mkStorage (<[VPN_DOWNLOADED_STORAGE_KEY := "1"]> (stored st)) (readable st) (writable st),
        Some "adplatform:vpn-downloaded")
  else (st, None).

Definition readVpnDownloaded (st : Storage) : bool :=
  readable st && bool_decide (stored st !! VPN_DOWNLOADED_STORAGE_KEY = Some "1").

Record ChecklistItem := mkChecklistItem { ci_id : string; ci_label : string; ci_detail : string; ci_done : bool }.

Definition buildItems (overview : PlatformOverview) (vpnDownloaded : bool) : list ChecklistItem :=
  let hasTeam := (po_teamID overview ?? 0) >? 0 in
  let hasServices := po_ownServiceCount overview >? 0 in
  [mkChecklistItem "team" "Join a team" "Use a team join key if you registered without one." hasTeam;
   mkChecklistItem "vpn" "Download WireGuard config"
     "Use the VPN Config button in the header, then bring the tunnel up." (hasTeam && vpnDownloaded);
   mkChecklistItem "services" "Confirm owned services are listed"
     "Open Services after the organizer deploys challenges." hasServices].

(** The state of [useMatchReadiness], with the overview it was last called with. *)
Record Hook := mkHook { overview : PlatformOverview; is_open : bool; clientReady : bool; vpnDownloaded : bool }.

Definition remaining (h : Hook) : Z :=
  Z.of_nat (length (bfilter (fun item => negb (ci_done item)) (buildItems (overview h) (vpnDownloaded h)))).

Definition visible (h : Hook) : bool :=
  clientReady h && po_authenticated (overview h) && negb (Account.role_is "organizer" (overview h)) &&
  (remaining h >? 0).

(** What the hook returns as [open]. *)
Definition shown_open (h : Hook) : bool := visible h && is_open h.

(** The effect on [visible] and [open]: a checklist that is hidden is closed. *)
Definition close_hidden (h : Hook) : Hook :=
  if negb (visible h) && is_open h
  then mkHook (overview h) false (clientReady h) (vpnDownloaded h) else h.

Inductive ReadinessEvent :=
| Hydrate (st : Storage)
| VpnEvent
| Toggle
| NewOverview (o : PlatformOverview).

Definition readiness_handle (e : ReadinessEvent) (h : Hook) : Hook :=
  match e with
  | Hydrate st => mkHook (overview h) (is_open h) true (readVpnDownloaded st)
  | VpnEvent => mkHook (overview h) (is_open h) (clientReady h) true
  | Toggle => mkHook (overview h) (negb (is_open h)) (clientReady h) (vpnDownloaded h)
  | NewOverview o => mkHook o (is_open h) (clientReady h) (vpnDownloaded h)
  end.

(** An event, the render, and its effect. *)
Definition readiness_step (e : ReadinessEvent) (h : Hook) : Hook := close_hidden (readiness_handle e h).

Definition mounted (o : PlatformOverview) : Hook := mkHook o false false false.

Definition readiness_steps (es : list ReadinessEvent) (h : Hook) : Hook := fold_left (fun h e => readiness_step e h) es h.

End Readiness.

(** ** What the pages offer *)

Module Shell.

(** [hasParticipantTeam], which is also [showFlagSubmit] of the services page. *)
Definition hasParticipantTeam (overview : PlatformOverview) : bool :=
  po_authenticated overview && negb (Account.role_is "organizer" overview) && ((po_teamID overview ?? 0) >? 0).

Definition showFlagSubmit (overview : PlatformOverview) : bool :=
  po_authenticated overview && negb (Account.role_is "organizer" overview) && ((po_teamID overview ?? 0) >? 0).

Definition needsTeamJoin (overview : PlatformOverview) : bool :=
  po_authenticated overview && negb (Account.role_is "organizer" overview) && ((po_teamID overview ?? 0) <=? 0).

(** The controls of the header that depend on who reads the page. *)
Inductive HeaderAction := OrganizerLink | VpnConfig | AccountSettings | SignOut | SignIn.

#[export] Instance HeaderAction_eq_dec : EqDecision HeaderAction.
Proof. solve_decision. Defined.

Definition headerActions (overview : PlatformOverview) : list HeaderAction :=
  (if Account.role_is "organizer" overview then [OrganizerLink] else []) ++
  (if hasParticipantTeam overview then [VpnConfig] else []) ++
  (if po_authenticated overview
   then (if negb (Account.role_is "organizer" overview) then [AccountSettings] else []) ++ [SignOut]
   else [SignIn]).

(** The summary's [Signed In As]: empty texts count as absent. *)
Definition signed_in_as (overview : PlatformOverview) : string :=
  if po_authenticated overview then
    match po_displayName overview ≫= or_undefined with
    | Some name => name
    | None =>
        match po_teamName overview ≫= or_undefined with
        | Some name => name
        | None => "Team " ++ₛ match po_teamID overview with Some id => num_to_string id | None => "" end
        end
    end
  else "Not Signed In".

Definition state_is (state : string) (overview : PlatformOverview) : bool :=
  match po_matchState overview with Some s => String.eqb s state | None => false end.

Definition getParticipantGameAlertMessage (overview : PlatformOverview) : option string :=
  if state_is "finished" overview then
    Some ("The match has finished" ++ₛ
          match po_currentTick overview with Some t => " at tick #" ++ₛ num_to_string t | None => "" end ++ₛ
          ". Participant submissions are closed.")
  else if state_is "stopped" overview then
    Some "The match is currently stopped. Participant submissions are closed."
  else if state_is "paused" overview then
    Some ("The match is currently paused. Tick progression and checker runs are temporarily suspended. " ++ₛ
          "Submissions, service access, and SSH are blocked until organizers resume.")
  else if po_scoreboardFrozen overview then
    Some "The public scoreboard is frozen. Attack submissions and service controls still follow match state."
  else None.

(** The alerts above the page, in their order. *)
Inductive Alert := Announcements | Warning (message : string) | JoinForm.

Definition alertSection (overview : PlatformOverview) : list Alert :=
  [Announcements] ++
  (match po_message overview ≫= or_undefined with Some m => [Warning m] | None => [] end) ++
  (if needsTeamJoin overview then [JoinForm] else []) ++
  (match getParticipantGameAlertMessage overview with Some m => [Warning m] | None => [] end).

(** *** Signing out *)

Inductive LogoutCell := LogoutPending.

#[export] Instance LogoutCell_eq_dec : EqDecision LogoutCell.
Proof. solve_decision. Defined.

#[export] Instance LogoutApp : App := {
  Cell := LogoutCell;
  CellTy := fun _ => bool;
  Payload := unit;
  PayloadTy := fun _ => json
}.

Definition logout_request : Request := browser_call "POST" "/api/platform/session/logout".

Definition logout : Prog unit :=
  set_to LogoutPending true ;;!
  finally
    (response <-! fetch_response logout_request tt ;;
     perform (OpNavigate "/") ;;!
     perform OpRefresh ;;! skip)
    (set_to LogoutPending false).

End Shell.

(** ** What holds *)

Module BannerFacts.
Import Banner.

(** The answers that renewed the cache, in their order. *)
Definition snapshots (es : list BannerEvent) : list (list Announcement) :=
  omap (fun e => match e with Answered _ answer => snapshot_of answer | _ => None end) es.

(** The refreshes wait for the request in flight, which is the one fetch that is not
    answered, and whose number is the last that was given. *)
Definition single_flight (w : World) : Prop :=
  outstanding w = option_list (announcementRequest w) /\
  Forall (fun p => announcementRequest w = Some p.1) (waiting w) /\
  Forall (fun r => (r < next_request w)%nat) (outstanding w).

Lemma single_flight_refresh b w : single_flight w -> single_flight (refresh b w).
Proof.
  intros (Ho & Hw & Hn). unfold refresh, single_flight.
  destruct (announcementRequest w) as [r|] eqn:Er; cbn in *.
  - split_and!; [done| |done]. apply list.Forall_app. split; [done|]. by repeat constructor.
  - rewrite Ho in *. split_and!; [done| |repeat constructor; lia].
    assert (waiting w = []) as ->; [|by repeat constructor].
    destruct Hw; [done|]. congruence.
Qed.

Lemma settle_alone r w snapshot :
  single_flight w -> r ∈ outstanding w ->
  announcementRequest w = Some r /\
  settle_request r snapshot w =
  mkWorld (snapshot ?? cachedAnnouncements w) None [] (next_request w) []
    (woken w ++ ((fun p => (p.2, snapshot)) <$> waiting w)) (banners w).
Proof.
  intros (Ho & Hw & _) Hr. rewrite Ho in Hr.
  destruct (announcementRequest w) as [r'|] eqn:Er; [|by inversion Hr].
  apply list_elem_of_singleton in Hr as <-. split; [done|].
  unfold settle_request. rewrite Ho. cbn.
  assert (Hall : Forall (fun p : nat * nat => p.1 = r) (waiting w)).
  { eapply list.Forall_impl; [exact Hw|]. cbn. intros p Hp. congruence. }
  f_equal.
  - by rewrite decide_False by tauto.
  - clear -Hall. induction Hall as [|p l Hp _ IH]; [done|].
    rewrite filter_cons_False by tauto. done.
  - do 2 f_equal. clear -Hall. induction Hall as [|p l Hp _ IH]; [done|].
    rewrite filter_cons_True by done. by rewrite IH.
Qed.

Lemma single_flight_step e w w' : single_flight w -> banner_step e w = Some w' -> single_flight w'.
Proof.
  intros Hw. destruct e as [b|b|b|r answer|]; cbn.
  - destruct (banners w !! b); [done|]. intros [= <-]. by apply single_flight_refresh.
  - destruct (banners w !! b) as [x|]; [|done]. destruct (cancelled x); [done|].
    intros [= <-]. by apply single_flight_refresh.
  - destruct (banners w !! b) as [x|]; [|done]. destruct (cancelled x); [done|]. by intros [= <-].
  - destruct (bool_decide_reflect (r ∈ outstanding w)) as [Hr|]; [|done]. intros [= <-].
    destruct (settle_alone r w (snapshot_of answer) Hw Hr) as [_ ->]. by split_and!.
  - destruct (bool_decide _); [done|]. intros [= <-]. unfold resume.
    by destruct (woken w) as [|[b next] rest].
Qed.

Lemma steps_ind (P : World -> Prop) es w w' :
  (forall e u u', P u -> banner_step e u = Some u' -> P u') -> P w -> banner_steps es w = Some w' -> P w'.
Proof.
  intros Hstep. revert w. induction es as [|e es IH]; cbn; intros w Hw; [by intros [= <-]|].
  destruct (banner_step e w) as [u|] eqn:Eu; [|done]. cbn. apply IH. by eapply Hstep.
Qed.

(** C25: However banners mount, unmount and refresh, one request at most is in flight, and
    no refresh is left waiting without it: [single_flight] holds in every reachable
    world, so that an answer settles every refresh that waits. *)
Theorem one_request_in_flight es w :
  banner_steps es initial = Some w ->
  (length (outstanding w) <= 1)%nat /\ outstanding w = option_list (announcementRequest w) /\
  (forall p, p ∈ waiting w -> p.1 ∈ outstanding w).
Proof.
  intros H.
  assert (Hw : single_flight w) by (by eapply (steps_ind single_flight); [apply single_flight_step| |exact H]).
  destruct Hw as (Ho & Hwait & _). rewrite Ho. split_and!; [by destruct (announcementRequest w); cbn; lia|done|].
  intros p Hp. rewrite (proj1 (list.Forall_forall _ _) Hwait p Hp). cbn. apply list_elem_of_here.
Qed.

(** What is kept or shown comes from the platform, unless nothing did yet. *)
Definition seen_in (seen : list (list Announcement)) (l : list Announcement) : Prop :=
  l = [] \/ l ∈ seen.

Definition shows (seen : list (list Announcement)) (w : World) : Prop :=
  cachedAnnouncements w = list.last seen ?? [] /\
  (forall b next l, (b, next) ∈ woken w -> next = Some l -> seen_in seen l) /\
  (forall b x, banners w !! b = Some x -> seen_in seen (items x)).

Lemma seen_in_app seen seen' l : seen_in seen l -> seen_in (seen ++ seen') l.
Proof. intros [->|H]; [by left|right]. apply elem_of_app. by left. Qed.

Lemma seen_in_cache seen w : shows seen w -> seen_in seen (cachedAnnouncements w).
Proof.
  intros (-> & _). destruct (list.last seen) as [l|] eqn:E; [right|by left].
  by apply list.last_Some_elem_of.
Qed.

Lemma shows_refresh seen b w : shows seen w -> shows seen (refresh b w).
Proof. unfold refresh. by destruct (announcementRequest w). Qed.

Lemma shows_insert seen b x w :
  seen_in seen (items x) -> shows seen w -> shows seen (with_banners (<[b := x]> (banners w)) w).
Proof.
  intros Hx (Hc & Hk & Hb). split_and!; [done|done|]. cbn. intros b' x' H.
  destruct (decide (b = b')) as [<-|Hne].
  - rewrite lookup_insert_eq in H. by injection H as <-.
  - rewrite lookup_insert_ne in H by done. by eapply Hb.
Qed.

Lemma shows_resume seen w : shows seen w -> shows seen (resume w).
Proof.
  intros Hw. pose proof Hw as (Hc & Hk & Hb). unfold resume. destruct (woken w) as [|[b next] rest] eqn:Ew; [done|].
  split_and!; [done| |].
  - intros b' next' l Hin. apply (Hk b'). by apply list_elem_of_further.
  - cbn. intros b' x H. destruct (decide (b = b')) as [<-|Hne].
    + rewrite lookup_alter_eq in H. destruct (banners w !! b) as [y|] eqn:Ey; [|done].
      injection H as <-. unfold show. destruct next as [l|]; [destruct (cancelled y)|]; try by eapply Hb.
      apply (Hk b (Some l)); [apply list_elem_of_here|done].
    + rewrite lookup_alter_ne in H by done. by eapply Hb.
Qed.

Lemma shows_settle seen r answer w :
  shows seen w -> shows (seen ++ snapshots [Answered r answer]) (settle_request r (snapshot_of answer) w).
Proof.
  intros (Hc & Hk & Hb). unfold settle_request. cbn [snapshots omap list_omap].
  destruct (snapshot_of answer) as [l|] eqn:El.
  - split_and!; cbn.
    + by rewrite list.last_snoc.
    + intros b next m Hin ->. apply elem_of_app in Hin as [Hin|Hin].
      * apply seen_in_app. by eapply Hk.
      * apply list_elem_of_fmap in Hin as (p & [= -> ->] & _). right.
        apply elem_of_app. right. apply list_elem_of_here.
    + intros b x H. apply seen_in_app. by eapply Hb.
  - rewrite app_nil_r. split_and!; cbn; [done| |done].
    intros b next m Hin ->. apply elem_of_app in Hin as [Hin|Hin]; [by eapply Hk|].
    by apply list_elem_of_fmap in Hin as (p & [= -> ?] & _).
Qed.

Lemma shows_step seen e w w' :
  shows seen w -> banner_step e w = Some w' -> shows (seen ++ snapshots [e]) w'.
Proof.
  intros Hw. destruct e as [b|b|b|r answer|]; cbn [banner_step].
  5: { destruct (bool_decide _); [done|]. intros [= <-]. rewrite app_nil_r. by apply shows_resume. }
  4: { destruct (bool_decide _); [|done]. intros [= <-]. by apply shows_settle. }
  all: rewrite app_nil_r; destruct (banners w !! b) as [x|] eqn:Eb; try done.
  - intros [= <-]. apply shows_refresh, shows_insert; [by apply seen_in_cache|done].
  - destruct (cancelled x); [done|]. intros [= <-]. by apply shows_refresh.
  - destruct (cancelled x); [done|]. intros [= <-]. apply shows_insert; [|done].
    destruct Hw as (_ & _ & Hb). by apply (Hb b x).
Qed.

Lemma shows_steps seen es w w' : shows seen w -> banner_steps es w = Some w' -> shows (seen ++ snapshots es) w'.
Proof.
  revert seen w. induction es as [|e es IH]; intros seen w Hw; cbn [banner_steps].
  - intros [= <-]. by rewrite app_nil_r.
  - destruct (banner_step e w) as [u|] eqn:Eu; [|done]. cbn [mbind option_bind]. intros H.
    replace (snapshots (e :: es)) with (snapshots [e] ++ snapshots es) by (symmetry; apply (omap_app _ [e])).
    rewrite app_assoc. eapply IH; [|exact H]. by eapply shows_step.
Qed.

Lemma snapshots_short es l : l ∈ snapshots es -> (length l <= 5)%nat.
Proof.
  unfold snapshots. rewrite list_elem_of_omap. intros (e & _ & He). destruct e as [| | |r answer|]; try done.
  unfold snapshot_of in He. destruct answer as [response|]; [|done].
  destruct (negb (ok response)); [done|].
  destruct (processApiResponse response announcements_path) as [[payload|]|]; try done.
  injection He as <-. rewrite length_firstn. lia.
Qed.

(** What the banners show was announced: however banners and answers interleave, the
    cache is the last snapshot the platform gave, refusals and failures change
    nothing, and every banner shows one of the snapshots, of five announcements at
    most, or nothing at all. *)
Theorem banners_show_snapshots es w :
  banner_steps es initial = Some w ->
  cachedAnnouncements w = list.last (snapshots es) ?? [] /\
  forall b x, banners w !! b = Some x ->
    (items x = [] \/ items x ∈ snapshots es) /\ (length (items x) <= 5)%nat.
Proof.
  intros H.
  assert (Hw : shows ([] ++ snapshots es) w).
  { eapply shows_steps; [|exact H]. split_and!; [done| |].
    - intros b next l Hin. inversion Hin.
    - intros b x Hx. cbn in Hx. by rewrite lookup_empty in Hx. }
  destruct Hw as (Hc & _ & Hb). split; [done|]. intros b x Hx.
  destruct (Hb b x Hx) as [E|Hin]; [rewrite E; split; [by left|cbn; lia]|].
  split; [by right|]. by eapply snapshots_short.
Qed.

(** The woken refreshes run on, all of them. *)
Fixpoint resume_all (n : nat) (w : World) : World :=
  match n with O => w | S n => resume_all n (resume w) end.

Lemma resume_all_woken w b x (l : list Announcement) before after :
  banners w !! b = Some x -> cancelled x = false ->
  woken w = before ++ (b, Some l) :: after ->
  Forall (fun p => p.2 = Some l) after ->
  exists y, banners (resume_all (length (woken w)) w) !! b = Some y /\ items y = l /\ cancelled y = false.
Proof.
  intros Hb Hx Hw Hafter. rewrite Hw. revert w x Hb Hx Hw.
  assert (Hrest : forall rest w x, woken w = rest -> Forall (fun p => p.2 = Some l) rest ->
            banners w !! b = Some x -> items x = l -> cancelled x = false ->
            exists y, banners (resume_all (length rest) w) !! b = Some y /\ items y = l /\ cancelled y = false).
  { induction rest as [|[b' next] rest IH]; intros w x Hw Hall Hb Hi Hx; [by exists x|].
    inversion_clear Hall as [|? ? Hn Hr]. cbn [snd] in Hn. subst next. cbn [length resume_all].
    unfold resume. rewrite Hw. destruct (decide (b' = b)) as [->|Hne].
    - apply (IH _ (mkBannerState l false)); [done|done| |done|done].
      cbn. rewrite lookup_alter_eq, Hb. cbn. by rewrite Hx.
    - apply (IH _ x); [done|done| |done|done]. cbn. by rewrite lookup_alter_ne. }
  induction before as [|[b' next] before IH]; intros w x Hb Hx Hw; cbn [app length resume_all] in *.
  - unfold resume. rewrite Hw. apply (Hrest after _ (mkBannerState l false)); [done|done| |done|done].
    cbn. rewrite lookup_alter_eq, Hb. cbn. by rewrite Hx.
  - unfold resume. rewrite Hw. destruct (decide (b' = b)) as [->|Hne].
    + apply (IH _ (show next x)); [|by unfold show; destruct next; rewrite ?Hx|done].
      cbn. by rewrite lookup_alter_eq, Hb.
    + apply (IH _ x); [|done|done]. cbn. by rewrite lookup_alter_ne.
Qed.

(** An answer reaches every banner that waits for it: in any reachable world, once the
    request in flight is answered with announcements and the refreshes it wakes have
    run on, each banner that waited and is still mounted shows the first five, and no
    refresh waits any more. *)
Theorem answer_reaches_waiting_banners es w r answer l :
  banner_steps es initial = Some w -> r ∈ outstanding w -> snapshot_of answer = Some l ->
  let settled := settle_request r (snapshot_of answer) w in
  banner_step (Answered r answer) w = Some settled /\ waiting settled = [] /\ outstanding settled = [] /\
  forall b x, (r, b) ∈ waiting w -> banners w !! b = Some x -> cancelled x = false ->
    exists y, banners (resume_all (length (woken settled)) settled) !! b = Some y /\ items y = l.
Proof.
  intros H Hr Hl settled.
  assert (Hw : single_flight w) by (by eapply (steps_ind single_flight); [apply single_flight_step| |exact H]).
  destruct (settle_alone r w (snapshot_of answer) Hw Hr) as [_ Hset].
  split_and!; [cbn; by rewrite bool_decide_true|by unfold settled; rewrite Hset..|].
  intros b x Hin Hb Hx. unfold settled. rewrite Hset, Hl.
  apply list_elem_of_split in Hin as (before & after & Hwait).
  destruct (resume_all_woken
    (mkWorld (Some l ?? cachedAnnouncements w) None [] (next_request w) []
       (woken w ++ ((fun p => (p.2, Some l)) <$> waiting w)) (banners w)) b x l
    (woken w ++ ((fun p => (p.2, Some l)) <$> before)) ((fun p => (p.2, Some l)) <$> after)) as (y & Hy & Hi & _).
  - done.
  - done.
  - cbn [woken]. by rewrite Hwait, fmap_app, fmap_cons, app_assoc.
  - apply list.Forall_fmap, list.Forall_true. done.
  - exists y. by split.
Qed.

Lemma unmounted_keeps e w w' b x :
  banners w !! b = Some x -> cancelled x = true -> banner_step e w = Some w' -> banners w' !! b = Some x.
Proof.
  intros Hb Hx. assert (Hr : forall b' u, banners (refresh b' u) = banners u)
    by (intros b' u; unfold refresh; by destruct (announcementRequest u)).
  destruct e as [b'|b'|b'|r answer|]; cbn [banner_step].
  - destruct (banners w !! b') as [y|] eqn:Ey; [done|]. intros [= <-]. rewrite Hr. cbn.
    rewrite lookup_insert_ne; [done|congruence].
  - destruct (banners w !! b') as [y|]; [|done]. destruct (cancelled y); [done|]. intros [= <-]. by rewrite Hr.
  - destruct (banners w !! b') as [y|] eqn:Ey; [|done]. destruct (cancelled y) eqn:Ec; [done|].
    intros [= <-]. cbn. rewrite lookup_insert_ne; [done|congruence].
  - destruct (bool_decide _); [|done]. by intros [= <-].
  - destruct (bool_decide _); [done|]. intros [= <-]. unfold resume.
    destruct (woken w) as [|[b' next] rest]; [done|]. cbn.
    destruct (decide (b' = b)) as [->|Hne]; [|by rewrite lookup_alter_ne].
    rewrite lookup_alter_eq, Hb. cbn. unfold show. by destruct next; rewrite ?Hx.
Qed.

(** An unmounted banner is never written again. *)
Lemma unmounted_forever es w w' b x :
  banners w !! b = Some x -> cancelled x = true -> banner_steps es w = Some w' -> banners w' !! b = Some x.
Proof.
  intros Hb Hx H. eapply (steps_ind (fun u => banners u !! b = Some x)); [|exact Hb|exact H].
  intros e u u' Hu Hs. by eapply unmounted_keeps.
Qed.

(** Two banners mount; the first answer has six announcements. *)
Definition six : list Announcement :=
  (fun n => mkAnnouncement n ("n" ++ₛ num_to_string n) "now") <$> [1; 2; 3; 4; 5; 6].

Definition six_answered : Result (Response (list Announcement)) :=
  Done (mkResponse 200 [("content-type", "application/json")] (Some "[]") (inr six) None).

Definition two_banners : list BannerEvent := [Mount 0; Mount 1; Interval 0].

Lemma one_request_in_flight_witness :
  exists w, banner_steps two_banners initial = Some w /\ length (waiting w) = 3%nat /\ (length (outstanding w) <= 1)%nat.
Proof.
  eexists. split; [reflexivity|]. split; [reflexivity|].
  apply (one_request_in_flight two_banners). reflexivity.
Defined.

Lemma banners_show_snapshots_witness :
  exists w, banner_steps (two_banners ++ [Answered 0 six_answered; Resume]) initial = Some w /\
    cachedAnnouncements w = firstn 5 six.
Proof.
  eexists. split; [reflexivity|].
  refine (eq_trans (proj1 (banners_show_snapshots (two_banners ++ [Answered 0 six_answered; Resume]) _ _)) _);
    reflexivity.
Defined.

Lemma answer_reaches_waiting_banners_witness :
  exists w, banner_steps two_banners initial = Some w /\
    exists y, banners (resume_all 3 (settle_request 0 (snapshot_of six_answered) w)) !! 1%nat = Some y /\
              items y = firstn 5 six.
Proof.
  eexists. split; [reflexivity|].
  destruct (answer_reaches_waiting_banners two_banners _ 0 six_answered (firstn 5 six) eq_refl)
    as (_ & _ & _ & H); [apply (bool_decide_unpack _); vm_compute; exact I|reflexivity|].
  apply (H 1%nat (mkBannerState [] false)); [|reflexivity|reflexivity].
  apply (bool_decide_unpack _). vm_compute. exact I.
Defined.
End BannerFacts.

Module ReadinessFacts.
Import Readiness.

(** Nothing remains to be done exactly for a team that owns services and has its
    configuration. *)
Lemma remaining_none h :
  remaining h = 0 <->
  (po_teamID (overview h) ?? 0) > 0 /\ vpnDownloaded h = true /\ po_ownServiceCount (overview h) > 0.
Proof.
  unfold remaining, buildItems.
  destruct (Z.gtb_spec (po_teamID (overview h) ?? 0) 0), (Z.gtb_spec (po_ownServiceCount (overview h)) 0),
    (vpnDownloaded h); cbn; split; intros Hd; try lia; split_and!; try done; lia.
Qed.

Lemma close_hidden_open h : is_open (close_hidden h) = true -> visible (close_hidden h) = true.
Proof.
  unfold close_hidden. destruct (visible h) eqn:Ev, (is_open h) eqn:Eo; cbn; try done. by rewrite Eo.
Qed.

(** The checklist is shown only to a participant who has something left to do, and it
    does not come back by itself: after any events, the panel is open exactly when the
    hook's state says so, and then somebody is signed in who is no organizer, and some
    item is not done. *)
Theorem checklist_closes_when_done o es :
  let h := readiness_steps es (mounted o) in
  shown_open h = is_open h /\
  (is_open h = true ->
   clientReady h = true /\ po_authenticated (overview h) = true /\
   Account.role_is "organizer" (overview h) = false /\
   ~ ((po_teamID (overview h) ?? 0) > 0 /\ vpnDownloaded h = true /\ po_ownServiceCount (overview h) > 0)).
Proof.
  intros h.
  assert (Hinv : is_open h = true -> visible h = true).
  { unfold h, readiness_steps. assert (Hm : is_open (mounted o) = true -> visible (mounted o) = true) by done.
    revert Hm. generalize (mounted o). induction es as [|e es IH]; cbn [fold_left]; intros g Hg; [done|].
    apply IH. apply close_hidden_open. }
  unfold shown_open. split; [destruct (is_open h); [by rewrite Hinv|apply andb_false_r]|].
  intros Ho. specialize (Hinv Ho). unfold visible in Hinv.
  apply andb_true_iff in Hinv as [[[H1 H2]%andb_true_iff H3]%andb_true_iff H4].
  split_and!; [done|done|by apply negb_true_iff|].
  intros Hdone. apply (proj2 (remaining_none h)) in Hdone. rewrite Hdone in H4. done.
Qed.

(** The mark of the download reaches the checklists that are mounted and those to come;
    a browser that refuses to store it tells neither. *)
Lemma download_marks st h :
  writable st = true -> readable st = true ->
  (markVpnConfigDownloaded st).2 = Some "adplatform:vpn-downloaded" /\
  vpnDownloaded (readiness_step VpnEvent h) = true /\
  vpnDownloaded (readiness_step (Hydrate (markVpnConfigDownloaded st).1) h) = true.
Proof.
  intros Hw Hr. unfold markVpnConfigDownloaded, readiness_step. rewrite Hw. cbn [fst snd].
  assert (Hk : forall g, vpnDownloaded (close_hidden g) = vpnDownloaded g)
    by (intros g; unfold close_hidden; by destruct (_ && _)).
  rewrite !Hk. cbn. unfold readVpnDownloaded. cbn. rewrite Hr, lookup_insert_eq.
  split_and!; [done|done|]. by rewrite bool_decide_true.
Qed.

Lemma refused_storage_forgets st : writable st = false -> markVpnConfigDownloaded st = (st, None).
Proof. intros Hw. unfold markVpnConfigDownloaded. by rewrite Hw. Qed.
End ReadinessFacts.

Module ShellFacts.
Import Shell.

(** Who is offered what.  Somebody who is signed in is an organizer, or has a team, or
    is asked to join one, and only one of these; the configuration of the tunnel, the
    form that submits flags and the settings of a team go to those who have one; one
    can sign out exactly when one is signed in. *)
Theorem offers_are_exclusive o :
  let organizer := Account.role_is "organizer" o in
  let offered a := bool_decide (a ∈ headerActions o) in
  offered OrganizerLink = organizer /\
  offered VpnConfig = hasParticipantTeam o /\ showFlagSubmit o = hasParticipantTeam o /\
  offered SignOut = po_authenticated o /\ offered SignIn = negb (po_authenticated o) /\
  offered AccountSettings = po_authenticated o && negb organizer /\
  (if po_authenticated o
   then length (filter (fun b => b = true) [organizer; hasParticipantTeam o; needsTeamJoin o]) = 1%nat /\
        hasParticipantTeam o = Account.hasTeam o
   else hasParticipantTeam o = false /\ needsTeamJoin o = false).
Proof.
  intros organizer offered. unfold offered, organizer, headerActions, hasParticipantTeam, showFlagSubmit,
    needsTeamJoin, Account.hasTeam.
  rewrite Z.gtb_ltb, Z.leb_antisym.
  destruct (po_authenticated o), (Account.role_is "organizer" o), (0 <? (po_teamID o ?? 0));
    vm_compute; by split_and!.
Qed.

(** Signing out: whatever the platform answers, refusals included, the browser goes to
    the first page; a request that fails leaves the page where it is, the button free
    again, and the failure with nobody to handle it. *)
Theorem logout_spec oracle t (s : Store) :
  let ask := OpFetch logout_request tt in
  let r := run oracle t s logout in
  o_store r LogoutPending = false /\
  match oracle (t : list (Op (app := LogoutApp))) ask with
  | Done _ => o_trace r = t ++ [ask; OpNavigate "/"; OpRefresh] /\ o_result r = Done tt
  | Thrown e => o_trace r = t ++ [ask] /\ o_result r = Thrown e
  end.
Proof.
  intros ask r. unfold r, logout. cbn [bind set_to run]. rewrite run_finally.
  unfold fetch_response. cbn [bind run]. fold ask.
  destruct (oracle t ask) as [response|e]; cbn [of_outcome bind run perform o_trace o_store o_result];
    rewrite <- ?app_assoc; by split_and!.
Qed.
End ShellFacts.
