(* ===== verification/ControlCenter.v ===== *)
(** * The participants' control centre ([components/dashboard/use-control-center.ts])

    The hook of the participants' dashboard: the service rows with their unlock,
    SSH, restart and factory reset actions, and the attack feed.  As for the
    organizers, a handler reads the state of the render it was created in from the
    view [v]. *)

From S2P Require Import Prelude JsString JsNumber DashboardUtils UrlParams ApiUtils ReactRuntime ReactRules AttackHighlights DashboardTypes.

(** ** Cells, payloads, options *)

Record ControlCenterOptions := mkControlCenterOptions {
  cc_attackPage : AttackFeedPage;
  cc_realtimeBaseUrl : string;
  cc_scores : list ScoreRow;
  cc_services : list ServiceRow
}.

(** [Props] holds the options of the last render: a refresh of the router brings
    new ones. *)
Inductive CenterCell :=
| Props | Rows | ScoreRows | AttackPageState | Proof_ | UnlockTarget | SessionTarget | ResetTarget
| IssuedSession | PendingAction | ActionError | AttackFiltersState | AttackPageRef
| HighlightedAttackIDs | HighlightTimeoutRef.

#[export] Instance CenterCell_eq_dec : EqDecision CenterCell.
Proof. solve_decision. Defined.

Definition CenterCellTy (c : CenterCell) : Type :=
  match c with
  | Props => ControlCenterOptions
  | Rows => list ServiceRow
  | ScoreRows => list ScoreRow
  | AttackPageState | AttackPageRef => AttackFeedPage
  | Proof_ => string
  | UnlockTarget | SessionTarget | ResetTarget => option ServiceRow
  | IssuedSession => option SSHSessionData
  | PendingAction | ActionError => option string
  | AttackFiltersState => AttackFilters
  | HighlightedAttackIDs => list string
  | HighlightTimeoutRef => option Z
  end.

Inductive CenterPayload := PStates | PAttacks | PUnlock | PSession | PReset | PRestart.

(** The replies of unlock and restart are not read; that of a factory reset is
    read for [unlock_preserved] only. *)
Definition CenterPayloadTy (p : CenterPayload) : Type :=
  match p with
  | PStates => list TeamServiceState
  | PAttacks => AttackFeedPage
  | PUnlock | PRestart => json
  | PSession => SSHSessionData
  | PReset => bool
  end.

#[export] Instance ControlCenterApp : App := {
  Cell := CenterCell;
  CellTy := CenterCellTy;
  Payload := CenterPayload;
  PayloadTy := CenterPayloadTy
}.

(** ** Filters *)

Definition baseAttackFilters : AttackFilters := mkAttackFilters "12" "0" "" "" "" "" "".

Definition initialAttackFilters (v : Store) : AttackFilters :=
  let page := cc_attackPage (v Props) in
  mkAttackFilters (num_to_string (limit page)) (num_to_string (offset page))
    (f_attacker baseAttackFilters) (f_victim baseAttackFilters) (f_service baseAttackFilters)
    (f_tickFrom baseAttackFilters) (f_tickTo baseAttackFilters).

Definition attackRealtimeEnabled (v : Store) : bool :=
  String.eqb (f_offset (initialAttackFilters v)) "0".

Definition attackLiveMode (v : Store) : bool :=
  attackRealtimeEnabled v &&
  isDefaultAttackFilters (v AttackFiltersState) (initialAttackFilters v).

(** [if (test) params.set(name, value)]. *)
Definition set_if (test : bool) (name value : string) (params : list (string * string))
    : list (string * string) :=
  if test then params_set name value params else params.

Definition set_text (name value : string) (params : list (string * string)) : list (string * string) :=
  set_if (negb (blank value)) name (trim value) params.

Definition set_positive (name text : string) (params : list (string * string))
    : list (string * string) :=
  let n := parseNonNegativeInteger (Some text) ?? 0 in
  set_if (n >? 0) name (num_to_string n) params.

Definition attack_params (filters : AttackFilters) : list (string * string) :=
  let params := match parsePositiveInteger (Some (f_limit filters)) (Some 12) 200 with
                | Some n => params_set "limit" (num_to_string n) []
                | None => []
                end in
  set_positive "tick_to" (f_tickTo filters)
    (set_positive "tick_from" (f_tickFrom filters)
      (set_text "service" (f_service filters)
        (set_text "victim" (f_victim filters)
          (set_text "attacker" (f_attacker filters)
            (set_positive "offset" (f_offset filters) params))))).

Definition buildAttackQuery (filters : AttackFilters) : string :=
  let query := params_to_string (attack_params filters) in
  if is_empty query then "" else "?" ++ₛ query.

(** ** Updates of the service rows *)

(** [split(":").at(-1)]: there is always a last part. *)
Definition endpoint_port (endpoint : string) : num :=
  js_number (List.last (split_on ":"%char endpoint) EmptyString).

Definition mergeServiceState (row : ServiceRow) (state : TeamServiceState) : ServiceRow :=
  mkServiceRow (sv_id row) (sv_challengeId row) (sv_teamId row) (sv_name row)
    (ts_endpoint state) (endpoint_port (ts_endpoint state)) (ts_status state) (ts_checker state)
    (sv_hasSourceDownload row) (ts_unlocked state) (ts_ssh_hint state) (ts_last_event state)
    (ts_reset_cooldown state) (ts_maintenance state ?? sv_maintenance row)
    (match ts_lock_reason state with Some r => Some r | None => sv_lockReason row end)
    (ts_sla_status state ?? sv_slaStatus row) (ts_sla_phase state ?? sv_slaPhase row)
    (match ts_sla_tick_id state with Some t => Some t | None => sv_slaTickId row end)
    (ts_sla_message state ?? sv_slaMessage row).

(** [{ ...row, status, checker, unlocked, sshHint, lastEvent, resetCooldown }]. *)
Definition with_state (status checker : string) (unlocked : bool) (hint event cooldown : string)
    (row : ServiceRow) : ServiceRow :=
  mkServiceRow (sv_id row) (sv_challengeId row) (sv_teamId row) (sv_name row) (sv_endpoint row)
    (sv_port row) status checker (sv_hasSourceDownload row) unlocked hint event cooldown
    (sv_maintenance row) (sv_lockReason row) (sv_slaStatus row) (sv_slaPhase row)
    (sv_slaTickId row) (sv_slaMessage row).

Definition mark_unlocked (row : ServiceRow) : ServiceRow :=
  with_state (if String.eqb (sv_status row) "degraded" then "warming" else sv_status row)
    (sv_checker row) true "unlock accepted; use SSH Access to view the team credential"
    "unlock granted via participant API" (sv_resetCooldown row) row.

Definition mark_session (hint : string) (row : ServiceRow) : ServiceRow :=
  with_state (sv_status row) (sv_checker row) true hint "team ssh credential retrieved"
    (sv_resetCooldown row) row.

Definition mark_reset (unlock_preserved : bool) (row : ServiceRow) : ServiceRow :=
  with_state "warming" "warning" (if unlock_preserved then sv_unlocked row else false)
    (if unlock_preserved then "unlock preserved; open SSH Access to reapply the team credential"
     else sv_sshHint row)
    "factory reset triggered via participant API" "cooldown: 90s" row.

Definition mark_restarted (row : ServiceRow) : ServiceRow :=
  with_state "warming" "warning" (sv_unlocked row) (sv_sshHint row)
    "service restart triggered via participant API" "restart requested" row.

Definition with_hint (hint : string) (row : ServiceRow) : ServiceRow :=
  with_state (sv_status row) (sv_checker row) (sv_unlocked row) hint (sv_lastEvent row)
    (sv_resetCooldown row) row.

Definition same_row (target row : ServiceRow) : bool := String.eqb (sv_id row) (sv_id target).

(** ** Summary *)

Record ControlCenterSummary := mkControlCenterSummary {
  cs_acceptedFlags : Z;
  cs_currentTick : Z;
  cs_stableServices : nat;
  cs_unlockedServices : nat
}.

Definition summary (v : Store) : ControlCenterSummary :=
  mkControlCenterSummary (total_count (v AttackPageState))
    (fold_left (fun current attack => Z.max current (av_tick attack)) (items (v AttackPageState)) 0)
    (length (bfilter (fun row => String.eqb (sv_status row) "stable") (v Rows)))
    (length (bfilter sv_unlocked (v Rows))).

(** ** Handlers *)

Definition report (fallback : string) (error : JsError) : Prog unit :=
  set_to ActionError (Some (error_message error fallback)).

(** [setPendingAction(key); setActionError(null); try { body } catch { report }
    finally { setPendingAction(null) }]. *)
Definition action (key fallback : string) (body : Prog unit) : Prog unit :=
  set_to PendingAction (Some key) ;;! set_to ActionError None ;;!
  finally (catch body (report fallback)) (set_to PendingAction None).

Definition scheduleAttackHighlights : list string -> Prog unit :=
  schedule_highlights (read_ref HighlightTimeoutRef) (set_to HighlightTimeoutRef)
    (set_to HighlightedAttackIDs).
Definition highlightTimeout : Prog unit :=
  highlights_expired (set_to HighlightTimeoutRef) (set_to HighlightedAttackIDs).
Definition clearAttackHighlights : Prog unit :=
  clear_highlights (read_ref HighlightTimeoutRef) (set_to HighlightTimeoutRef)
    (set_to HighlightedAttackIDs).

Section Handlers.
(** [`${n}`] of a number that may not be an integer. *)
Variable number_text : num -> string.

Definition refreshServiceRow (challengeId : num) : Prog unit :=
  states <-! fetch_payload (browser_get "/api/platform/team/services") PStates
    "/api/platform/team/services" ;;
  match find_first (fun entry => num_eqb (num_of_Z (ts_challenge_id entry)) challengeId) states with
  | None => skip
  | Some nextState =>
      update Rows (map_if (fun row => num_eqb (sv_challengeId row) challengeId)
                     (fun row => mergeServiceState row nextState))
  end.

Definition refreshAttackFeed (silent : bool) (filters : AttackFilters) : Prog unit :=
  let body :=
    payload <-! fetch_payload (browser_get ("/api/platform/attacks" ++ₛ buildAttackQuery filters))
      PAttacks "/api/platform/attacks" ;;
    clearAttackHighlights ;;!
    set_to AttackPageState payload in
  if silent then catch body (fun _ => skip)
  else action "attacks:refresh" "attack feed fetch failed" body.

Definition applyAttackFilters (v : Store) : Prog unit :=
  let next := with_offset "0" (v AttackFiltersState) in
  set_to AttackFiltersState next ;;! refreshAttackFeed false next.

Definition resetAttackFilters (v : Store) : Prog unit :=
  set_to AttackFiltersState (initialAttackFilters v) ;;!
  refreshAttackFeed false (initialAttackFilters v).

Definition pageAttackFeed (v : Store) (direction : Direction) : Prog unit :=
  let next := computePageOffset (v AttackFiltersState) direction 12 200 in
  set_to AttackFiltersState next ;;! refreshAttackFeed false next.

Definition service_url (service : ServiceRow) (operation : string) : string :=
  "/api/platform/services/" ++ₛ number_text (sv_challengeId service) ++ₛ "/" ++ₛ operation.

Definition requestUnlock (v : Store) : Prog unit :=
  match v UnlockTarget with
  | None => skip
  | Some target =>
      action ("unlock:" ++ₛ sv_id target) "unlock request failed"
        (fetch_void (browser_send "POST" (service_url target "unlock")
           (JObj [("proof"%string, JStr (v Proof_))])) PUnlock "unlock request" ;;!
         update Rows (map_if (same_row target) mark_unlocked) ;;!
         refreshServiceRow (sv_challengeId target) ;;!
         set_to UnlockTarget None)
  end.

Definition requestSSHSession (v : Store) : Prog unit :=
  match v SessionTarget with
  | None => skip
  | Some target =>
      action ("ssh:" ++ₛ sv_id target) "ssh session request failed"
        (payload <-! fetch_payload (browser_call "POST" (service_url target "ssh-session")) PSession
           "ssh session request" ;;
         update Rows (map_if (same_row target) (mark_session (sh_connection_hint payload))) ;;!
         refreshServiceRow (sv_challengeId target) ;;!
         set_to IssuedSession (Some payload) ;;!
         update SessionTarget (fun current => with_hint (sh_connection_hint payload) <$> current))
  end.

Definition requestFactoryReset (v : Store) : Prog unit :=
  match v ResetTarget with
  | None => skip
  | Some target =>
      action ("reset:" ++ₛ sv_id target) "factory reset request failed"
        (unlock_preserved <-! fetch_payload (browser_call "POST" (service_url target "reset/factory"))
           PReset "factory reset request" ;;
         update Rows (map_if (same_row target) (mark_reset unlock_preserved)) ;;!
         refreshServiceRow (sv_challengeId target) ;;!
         set_to IssuedSession None ;;!
         set_to ResetTarget None)
  end.

Definition requestRestart (service : ServiceRow) : Prog unit :=
  action ("restart:" ++ₛ sv_id service) "restart request failed"
    (fetch_void (browser_call "POST" (service_url service "reset/restart")) PRestart
       "restart request" ;;!
     update Rows (map_if (same_row service) mark_restarted) ;;!
     refreshServiceRow (sv_challengeId service)).

(** The setters of the filters, one per field. *)
Inductive FilterField := FLimit | FOffset | FAttacker | FVictim | FService | FTickFrom | FTickTo.

Definition with_field (field : FilterField) (value : string) (f : AttackFilters) : AttackFilters :=
  match field with
  | FLimit => mkAttackFilters value (f_offset f) (f_attacker f) (f_victim f) (f_service f)
                (f_tickFrom f) (f_tickTo f)
  | FOffset => with_offset value f
  | FAttacker => mkAttackFilters (f_limit f) (f_offset f) value (f_victim f) (f_service f)
                   (f_tickFrom f) (f_tickTo f)
  | FVictim => mkAttackFilters (f_limit f) (f_offset f) (f_attacker f) value (f_service f)
                 (f_tickFrom f) (f_tickTo f)
  | FService => mkAttackFilters (f_limit f) (f_offset f) (f_attacker f) (f_victim f) value
                  (f_tickFrom f) (f_tickTo f)
  | FTickFrom => mkAttackFilters (f_limit f) (f_offset f) (f_attacker f) (f_victim f) (f_service f)
                   value (f_tickTo f)
  | FTickTo => mkAttackFilters (f_limit f) (f_offset f) (f_attacker f) (f_victim f) (f_service f)
                 (f_tickFrom f) value
  end.

Definition setAttackField (field : FilterField) (value : string) : Prog unit :=
  update AttackFiltersState (with_field field value).

Definition selectPrimaryAction (service : ServiceRow) : Prog unit :=
  if sv_unlocked service then set_to SessionTarget (Some service)
  else set_to UnlockTarget (Some service).

Definition selectResetTarget (service : ServiceRow) : Prog unit := set_to ResetTarget (Some service).
Definition closeUnlockDialog : Prog unit := set_to UnlockTarget None.
Definition closeSSHSessionDialog : Prog unit :=
  set_to SessionTarget None ;;! set_to IssuedSession None.
Definition closeFactoryResetDialog : Prog unit := set_to ResetTarget None.

(** ** Streams and effects *)

(** No stream is opened without a base URL. *)
Definition onScoreboard (v : Store) (data : option (list ScoreRow)) : Prog unit :=
  if is_empty (cc_realtimeBaseUrl (v Props)) then skip
  else match data with Some rows => set_to ScoreRows rows | None => skip end.

(** The handler is created again when the limit or the live mode changes: both
    are those of the render. *)
Definition onAttacks (v : Store) (data : option AttackFeedPage) : Prog unit :=
  if is_empty (cc_realtimeBaseUrl (v Props)) then skip
  else
    page <-! read_ref AttackPageRef ;;
    match handleRealtimeAttackMessage av_id (attackLiveMode v) page
            (f_limit (v AttackFiltersState)) data with
    | None => skip
    | Some (mergedPage, ids) =>
        set_to AttackPageState mergedPage ;;!
        match ids with
        | [] => skip
        | _ => scheduleAttackHighlights ids ;;! perform (OpSound ids) ;;! skip
        end
    end.

(** Every twenty seconds. *)
Definition poll_effect : Prog unit := perform OpRefresh ;;! skip.

(** The new options of a refresh, and the two effects that copy them. *)
Definition onProps (options : ControlCenterOptions) : Prog unit :=
  set_to Props options ;;!
  set_to Rows (cc_services options) ;;!
  set_to ScoreRows (cc_scores options).

(** The effect that copies the page into its ref. *)
Definition sync_refs (s : Store) : Store := upd AttackPageRef (fun _ => s AttackPageState) s.

Inductive Event :=
| EvRequestUnlock | EvRequestSSHSession | EvRequestFactoryReset | EvRequestRestart (service : ServiceRow)
| EvApplyFilters | EvResetFilters | EvPageFeed (direction : Direction)
| EvSetField (field : FilterField) (value : string) | EvSetProof (value : string)
| EvSelectPrimary (service : ServiceRow) | EvSelectReset (service : ServiceRow)
| EvCloseUnlock | EvCloseSession | EvCloseReset
| EvScoreboard (data : option (list ScoreRow)) | EvAttacks (data : option AttackFeedPage)
| EvPoll | EvProps (options : ControlCenterOptions) | EvHighlightTimeout.

Definition handle (v : Store) (event : Event) : Prog unit :=
  match event with
  | EvRequestUnlock => requestUnlock v
  | EvRequestSSHSession => requestSSHSession v
  | EvRequestFactoryReset => requestFactoryReset v
  | EvRequestRestart service => requestRestart service
  | EvApplyFilters => applyAttackFilters v
  | EvResetFilters => resetAttackFilters v
  | EvPageFeed direction => pageAttackFeed v direction
  | EvSetField field value => setAttackField field value
  | EvSetProof value => set_to Proof_ value
  | EvSelectPrimary service => selectPrimaryAction service
  | EvSelectReset service => selectResetTarget service
  | EvCloseUnlock => closeUnlockDialog
  | EvCloseSession => closeSSHSessionDialog
  | EvCloseReset => closeFactoryResetDialog
  | EvScoreboard data => onScoreboard v data
  | EvAttacks data => onAttacks v data
  | EvPoll => poll_effect
  | EvProps options => onProps options
  | EvHighlightTimeout => highlightTimeout
  end.

Definition initial_store (options : ControlCenterOptions) : Store := fun c =>
  match c return CenterCellTy c with
  | Props => options
  | Rows => cc_services options
  | ScoreRows => cc_scores options
  | AttackPageState => cc_attackPage options
  | AttackPageRef => cc_attackPage options
  | Proof_ => "unlock-proof-from-own-service"
  | UnlockTarget => None
  | SessionTarget => None
  | ResetTarget => None
  | IssuedSession => None
  | PendingAction => None
  | ActionError => None
  | AttackFiltersState =>
      mkAttackFilters (num_to_string (limit (cc_attackPage options)))
        (num_to_string (offset (cc_attackPage options))) "" "" "" "" ""
  | HighlightedAttackIDs => []
  | HighlightTimeoutRef => None
  end.

Definition center_step : Config -> Config -> Prop :=
  step (fun v m => exists event, m = handle v event) sync_refs.

Definition center_page (options : ControlCenterOptions) : Config :=
  mkConfig (initial_store options) (initial_store options) [] [].
End Handlers.
