(* ===== verification/ServiceCards.v ===== *)
(** * Cards and dialogs of the control centre ([components/dashboard/control-center-sections.tsx], [service-sla-detail.tsx])

    What the participants' page works out from a service row, from the overview and
    from the clock: the reason a service is locked, the state of its checker, the
    countdown to the next tick, the buttons that are disabled, the filters of the
    attack feed, and when the SSH dialog asks for a session by itself. *)

From S2P Require Import Prelude JsString JsNumber DashboardUtils DashboardTypes.

#[local] Open Scope string_scope.
#[local] Open Scope Z_scope.
#[local] Open Scope js_scope.

(** ** Lock reasons *)

Inductive LockReason := MatchPaused | MatchNotStarted | Deferred | Maintenance.

#[export] Instance LockReason_eq_dec : EqDecision LockReason.
Proof. solve_decision. Defined.

(** [value || ""]. *)
Definition or_empty (value : option string) : string := value ?? EmptyString.

Definition explicit_reason (explicit : string) : option LockReason :=
  if String.eqb explicit "match_paused" then Some MatchPaused
  else if String.eqb explicit "match_not_started" then Some MatchNotStarted
  else if String.eqb explicit "deferred" then Some Deferred
  else if String.eqb explicit "maintenance" then Some Maintenance
  else None.

Definition resolveServiceLockReason (service : ServiceRow) (matchState : option string) : LockReason :=
  let explicit := trim (or_empty (sv_lockReason service)) in
  match explicit_reason explicit with
  | Some reason => reason
  | None =>
      let mtch := to_lower (or_empty matchState) in
      let last := to_lower (sv_lastEvent service) in
      let reset := to_lower (sv_resetCooldown service) in
      let hint := to_lower (sv_sshHint service) in
      if String.eqb mtch "paused" || includes "paused" reset || includes "paused" last ||
         includes "paused" hint
      then MatchPaused
      else if String.eqb mtch "not_started" || includes "not started" reset ||
              includes "waiting for match start" last
      then MatchNotStarted
      else if String.eqb explicit "deferred" || includes "next tick" last || includes "next tick" reset
      then Deferred
      else Maintenance
  end.

Definition serviceLockBadgeLabel (service : ServiceRow) (matchState : option string) : string :=
  match resolveServiceLockReason service matchState with
  | MatchPaused => "Match paused"
  | MatchNotStarted => "Match not started"
  | Deferred => "Opens next tick"
  | Maintenance => "Under maintenance"
  end.

Definition serviceLockHelpText (service : ServiceRow) (matchState : option string) : string :=
  match resolveServiceLockReason service matchState with
  | MatchPaused => "Actions and network access are suspended while the match is paused."
  | MatchNotStarted =>
      "Service is locked until the organizer starts the match. Network access stays closed."
  | Deferred => "Challenge is warm-redeployed and will reopen on the next tick."
  | Maintenance => "Actions unavailable while this challenge is under maintenance."
  end.

(** ** The action bar of a card *)

Record ActionBar := mkActionBar {
  isPrimaryPending : bool;
  isRestartPending : bool;
  isResetPending : bool;
  actionsDisabled : bool;
  primaryLabel : string;
  offersSource : bool
}.

Definition pending_is (pendingAction : option string) (key : string) : bool :=
  match pendingAction with Some p => String.eqb p key | None => false end.

Definition ServiceActionBar (pendingAction : option string) (service : ServiceRow) : ActionBar :=
  mkActionBar
    (pending_is pendingAction ("unlock:" ++ₛ sv_id service) ||
     pending_is pendingAction ("ssh:" ++ₛ sv_id service))
    (pending_is pendingAction ("restart:" ++ₛ sv_id service))
    (pending_is pendingAction ("reset:" ++ₛ sv_id service))
    (match pendingAction with Some _ => true | None => false end || sv_maintenance service)
    (if sv_unlocked service then "SSH Access" else "Unlock Service")
    (sv_hasSourceDownload service && negb (sv_maintenance service)).

(** ** The SSH dialog *)

(** The two effects of the dialog after a render: whether it asks for a session,
    and the ref [hasTriggered]. *)
Definition ssh_dialog_effects (opened issued pending triggered : bool) : bool * bool :=
  let asks := opened && negb issued && negb pending && negb triggered in
  (asks, if opened then asks || triggered else false).

(** ** The state of the checker *)

Definition formatSLAPhaseLabel (phase : string) : string :=
  let key := to_lower (trim phase) in
  if String.eqb key "put" then "flag storage"
  else if String.eqb key "get" then "flag retrieval"
  else if String.eqb key "check" then "service functionality"
  else trim phase.

(** A tick is shown when it is neither null nor zero. *)
Definition shown_tick (tick : option Z) : option Z :=
  match tick with Some t => if t =? 0 then None else Some t | None => None end.

Definition tick_suffix (tick : option Z) : string :=
  match shown_tick tick with Some t => " on tick #" ++ₛ num_to_string t | None => EmptyString end.

(** [text], or [text] followed by what happened in the phase. *)
Definition with_phase (text joint phase : string) : string :=
  if is_empty phase then text else text ++ₛ joint ++ₛ phase.

(** The class of the text and the text. *)
Definition formatSLAState (service : ServiceRow) : string * string :=
  let phase := formatSLAPhaseLabel (sv_slaPhase service) in
  let suffix := tick_suffix (sv_slaTickId service) in
  let status := sv_slaStatus service in
  if String.eqb status "ok" then ("font-semibold text-positive", "ok" ++ₛ suffix)
  else if String.eqb status "recovering" then
    ("font-semibold text-highlight", with_phase "recovering" " after " phase ++ₛ suffix)
  else if String.eqb status "flag_not_found" then
    ("font-semibold text-negative", with_phase "flag not found" " during " phase ++ₛ suffix)
  else if String.eqb status "faulty" then
    ("font-semibold text-negative", with_phase "faulty" " during " phase ++ₛ suffix)
  else if String.eqb status "down" then
    ("font-semibold text-negative", with_phase "down" " during " phase ++ₛ suffix)
  else ("text-muted-foreground",
        match shown_tick (sv_slaTickId service) with
        | Some t => "awaiting detail after tick #" ++ₛ num_to_string t
        | None => "awaiting checker detail"
        end).

(** The line above the message of the checker, and the message. *)
Definition middle_dot : string := " " ++ₛ String (chr 183) " ".

Definition ServiceSLADetail (service : ServiceRow) : option string * string :=
  let phase := formatSLAPhaseLabel (sv_slaPhase service) in
  let tick := shown_tick (sv_slaTickId service) in
  (match is_empty (sv_slaPhase service), tick with
   | true, None => None
   | _, _ =>
       Some ((if is_empty phase then EmptyString else "Last checker phase: " ++ₛ phase) ++ₛ
             match tick with
             | Some t => (if is_empty phase then EmptyString else middle_dot) ++ₛ
                         "tick #" ++ₛ num_to_string t
             | None => EmptyString
             end)
   end,
   str_or (sv_slaMessage service) "No checker detail message yet.").

(** ** The match and its countdown *)

(** [replaceAll("_", " ")]. *)
Fixpoint underscores_to_spaces (s : string) : string :=
  match s with
  | EmptyString => EmptyString
  | String c r => String (if Ascii.eqb c "_" then " "%char else c) (underscores_to_spaces r)
  end.

Definition match_state_labels : list (string * string) :=
  [("not_started", "Not started"); ("running", "Running"); ("paused", "Paused");
   ("stopped", "Stopped"); ("finished", "Finished")].

(** The states of the match are the ones of the game core; the names that a
    JavaScript object inherits are not states. *)
Definition formatMatchStateLabel (state : option string) : string :=
  match state with
  | None => "Inactive"
  | Some s =>
      if is_empty s then "Inactive"
      else match find_first (fun e => String.eqb e.1 (to_lower s)) match_state_labels with
           | Some e => e.2
           | None => underscores_to_spaces s
           end
  end.

(** [n.toString().padStart(2, "0")] of a number with no sign. *)
Definition pad2 (n : Z) : string :=
  let s := num_to_string n in if (String.length s <? 2)%nat then "0" ++ₛ s else s.

Definition formatCountdown (seconds : Z) : string :=
  if seconds <? 60 then num_to_string seconds ++ₛ "s"
  else num_to_string (seconds / 60) ++ₛ "m " ++ₛ pad2 (seconds mod 60) ++ₛ "s".

(** [while (projected <= now) projected += intervalMs], on times in milliseconds;
    nothing when the fuel runs out. *)
Fixpoint project (fuel : nat) (projected intervalMs now : Z) : option Z :=
  if projected <=? now then
    match fuel with
    | O => None
    | S fuel => project fuel (projected + intervalMs) intervalMs now
    end
  else Some projected.

(** [Math.round(ms / 1000)]. *)
Definition round_seconds (ms : Z) : Z := (ms + 500) / 1000.

(** The callback of the timer: whether the boundary has passed, and the seconds
    left.  The time of a valid date and the interval are whole numbers. *)
Definition tick_update (target tickInterval now : Z) : option (bool * Z) :=
  let intervalMs := tickInterval * 1000 in
  let overdue := target <=? now in
  projected ← (if intervalMs >? 0
               then project (Z.to_nat (now - target + 1)) target intervalMs now
               else Some target);
  Some (overdue, Z.max 0 (round_seconds (projected - now))).

(** The big line of the countdown, none for a dash, and the small one. *)
Definition countdown (matchState : option string) (timeLeft tickInterval : option Z)
    : option string * option string :=
  let state := to_lower (or_empty matchState) in
  if String.eqb state "paused" then (Some "Suspended", Some "Match paused")
  else if String.eqb state "stopped" || String.eqb state "finished" ||
          String.eqb state "not_started" || is_empty state
  then (Some "Idle",
        Some (if String.eqb state "finished" then "Match finished"
              else if String.eqb state "not_started" then "Match not started"
              else "Ticks not running"))
  else match timeLeft with
       | Some seconds =>
           (Some (formatCountdown seconds),
            match shown_tick tickInterval with
            | Some s => Some ("Every " ++ₛ num_to_string s ++ₛ "s")
            | None => None
            end)
       | None => (None, None)
       end.

(** ** The filters of the attack feed *)

Definition filtersApplied (f : AttackFilters) : bool :=
  negb (blank (f_attacker f)) || negb (blank (f_victim f)) || negb (blank (f_service f)) ||
  negb (blank (f_tickFrom f)) || negb (blank (f_tickTo f)).

Section Choices.
Variable localeCompare : string -> string -> Z.

Definition team_candidates (teamOptions : list string) (currentTeamName : option string)
    (names : list string) : list string :=
  teamOptions ++
  (match currentTeamName with Some name => if is_empty name then [] else [name] | None => [] end) ++
  names.

Definition attackerChoices (teamOptions : list string) (currentTeamName : option string)
    (attackRows : list AttackEvent) (f : AttackFilters) : list string :=
  buildAttackFilterOptions localeCompare
    (team_candidates teamOptions currentTeamName (av_attacker <$> attackRows)) (f_attacker f).

Definition victimChoices (teamOptions : list string) (currentTeamName : option string)
    (attackRows : list AttackEvent) (f : AttackFilters) : list string :=
  buildAttackFilterOptions localeCompare
    (team_candidates teamOptions currentTeamName (av_victim <$> attackRows)) (f_victim f).

Definition serviceChoices (serviceOptions : list string) (attackRows : list AttackEvent)
    (f : AttackFilters) : list string :=
  buildAttackFilterOptions localeCompare (serviceOptions ++ (av_service <$> attackRows)) (f_service f).
End Choices.

(** The latest tick on the page: the button of the current tick is offered when it
    is positive. *)
Definition latestTick (attackRows : list AttackEvent) : Z :=
  fold_left (fun value row => Z.max value (av_tick row)) attackRows 0.

(** ** Properties *)

Lemma project_spec fuel p i now :
  0 < i -> now - p < Z.of_nat fuel ->
  exists k, 0 <= k /\ project fuel p i now = Some (p + k * i) /\ now < p + k * i /\
            (k = 0 \/ p + (k - 1) * i <= now).
Proof.
  intros Hi. revert p. induction fuel as [|fuel IH]; intros p Hf; cbn [project];
    destruct (Z.leb_spec p now) as [Hle|Hgt]; try lia.
  - exists 0. rewrite Z.mul_0_l, Z.add_0_r. auto with lia.
  - destruct (IH (p + i)) as (k & Hk & -> & Hlt & Hlast); [lia|].
    exists (k + 1). rewrite Z.mul_add_distr_r, Z.mul_1_l, (Z.add_comm (k * i) i), Z.add_assoc.
    split_and!; [lia|done|done|]. right. destruct Hlast as [->|?]; lia.
  - exists 0. rewrite Z.mul_0_l, Z.add_0_r. auto with lia.
Qed.

(** The loop of the countdown ends, and the countdown rolls over: at any time,
    however late the new boundary is, it counts down to the first boundary not yet
    reached among the announced one and those that follow it at whole intervals,
    and once the announced one is reached it stays between zero and the interval. *)
Theorem countdown_rolls_over target interval now :
  0 < interval ->
  exists k left,
    tick_update target interval now = Some (target <=? now, left) /\
    0 <= k /\ now < target + k * (interval * 1000) /\
    (k = 0 \/ target + (k - 1) * (interval * 1000) <= now) /\
    left = round_seconds (target + k * (interval * 1000) - now) /\
    0 <= left /\ (target <= now -> left <= interval).
Proof.
  intros Hi. unfold tick_update. rewrite (proj2 (Z.gtb_lt _ _)) by lia.
  destruct (project_spec (Z.to_nat (now - target + 1)) target (interval * 1000) now)
    as (k & Hk & -> & Hlt & Hlast); [lia|lia|]. cbn [mbind option_bind].
  set (p := target + k * (interval * 1000)) in *.
  assert (Hleft : 0 <= round_seconds (p - now)) by (apply Z.div_pos; lia).
  exists k, (round_seconds (p - now)). split_and!; [|done|done|done|done|done|].
  - by rewrite Z.max_r.
  - intros Ht. apply Z.lt_succ_r, Z.div_lt_upper_bound; [lia|].
    unfold p in *. destruct Hlast as [->|Hlast]; lia.
Qed.

Lemma countdown_rolls_over_witness :
  tick_update 1000 60 150500 = Some (true, 31) /\
  exists k, 150500 < 1000 + k * 60000 /\ 1000 + (k - 1) * 60000 <= 150500.
Proof.
  destruct (countdown_rolls_over 1000 60 150500) as (k & left & _ & _ & H1 & H2 & _); [reflexivity|].
  split; [reflexivity|]. exists k. split; [exact H1|]. destruct H2 as [->|H2]; [|exact H2].
  discriminate H1.
Defined.
