(* ===== verification/ControlCenterPage.v ===== *)
(** * The control centre: its handlers alone and together

    What each service action leaves, on every answer of its calls, and what holds
    of the page whatever handlers interleave: the pending action, the place of the
    rows, the query of the feed. *)

From S2P Require Import Prelude JsString JsNumber DashboardUtils UrlParams ApiUtils PlatformApi ReactRuntime ReactRules ReactTermination AttackHighlights DashboardTypes ControlCenter ServiceCards.

(** ** The pending action is a bracket *)

Definition no_pending (pending : option string) : Prop := pending = None.

Notation balanced_ := (balanced PendingAction no_pending).

Lemma center_action_balanced key fallback body :
  balanced_ body -> balanced_ (action key fallback body).
Proof.
  intros H.
  assert (Hr : forall s : Store, no_pending (upd PendingAction (fun _ => None) s PendingAction))
    by (intros s; by rewrite upd_same).
  split; [|split; [by intros [=]|]].
  - intros _. right. right. apply releases_finally. by left.
  - apply balanced_finally; [|by split; [left|]].
    apply balanced_catch; [done|]. intros e. by apply set_to_balanced.
Qed.

Ltac center_bal_step :=
  lazymatch goal with
  | |- forall _, _ => intros
  | |- ?c <> PendingAction => discriminate
  | |- balanced _ _ ?m =>
      lazymatch m with
      | action _ _ _ => apply center_action_balanced
      | _ => balanced_rule m
      end
  end.
Ltac center_bal := repeat center_bal_step.

(** Statements may write the cells of [W]. *)
Ltac center_may_step :=
  lazymatch goal with
  | |- forall _, _ => intros
  | |- spec _ _ _ _ ?m => may_rule m
  end.
Ltac center_may := repeat center_may_step.

Section Page.
Context (number_text : num -> string) (options : ControlCenterOptions).

Lemma center_handler_balanced v event : balanced_ (handle number_text v event).
Proof. destruct event; cbn [handle]; center_bal. Qed.

Lemma center_rest_idle page :
  rtc (center_step number_text) (center_page options) page ->
  g_pool page = [] -> g_store page PendingAction = None.
Proof.
  intros Hsteps Hpool. eapply (quiescent_idle _ sync_refs PendingAction no_pending);
    [| |exact Hsteps|done|done|done].
  - intros r m [event ->]. apply center_handler_balanced.
  - intros s. unfold sync_refs. by rewrite upd_other by discriminate.
Qed.

(** C40: take the control centre wherever the events have led it, and let only the
    handlers already in progress go on, however they interleave and whatever their
    calls answer or throw.  They cannot go on forever; as long as one is in progress
    something can happen; and every way they have of running out leaves no action
    pending, so no button stays disabled.  No further event is needed for that. *)
Theorem center_comes_to_rest page :
  rtc (center_step number_text) (center_page options) page ->
  Acc (fun page2 page1 => work page1 page2) page /\
  (exists final, rtc work page final /\ nf work final) /\
  forall final, rtc work page final -> nf work final ->
    g_pool final = [] /\ g_store final PendingAction = None.
Proof.
  intros Hsteps. split; [apply work_terminates|]. split; [apply work_runs_out|].
  intros final Hwork Hend. apply stuck_is_empty in Hend. split; [done|].
  apply center_rest_idle; [|done]. etrans; [exact Hsteps|]. by apply work_steps.
Qed.

(** ** The rows under interleaving *)

(** What a row is for: its key, its challenge, its team and its name. *)
Definition row_identity (row : ServiceRow) : string * num * num * string :=
  (sv_id row, sv_challengeId row, sv_teamId row, sv_name row).

Definition row_identities (s : Store) : list (string * num * num * string) :=
  row_identity <$> (s Rows : list ServiceRow).

Definition keeps_identities (c : Cell) (f : CellTy c -> CellTy c) : Prop :=
  forall s, row_identities (upd c f s) = row_identities s.

Lemma keeps_identities_other c f : c <> Rows -> keeps_identities c f.
Proof. intros H s. unfold row_identities. by rewrite upd_other. Qed.

Lemma keeps_identities_map test (f : ServiceRow -> ServiceRow) :
  (forall row, row_identity (f row) = row_identity row) -> keeps_identities Rows (map_if test f).
Proof.
  intros H s. unfold row_identities. rewrite upd_same.
  apply map_if_fmap. intros x _. apply H.
Qed.

(** The refreshes of the page's options that the server may deliver. *)
Context (D : ControlCenterOptions -> Prop).

(** What a handler may write: the identities stay, or the rows are those of a
    delivered refresh. *)
Inductive row_write : forall c : Cell, (CellTy c -> CellTy c) -> Prop :=
| write_keeps c f : keeps_identities c f -> row_write c f
| write_fresh o : D o -> row_write Rows (fun _ => cc_services o).

Definition delivers (event : Event) : Prop :=
  match event with EvProps o => D o | _ => True end.

Definition delivering (v : Store) (m : Prog unit) : Prop :=
  exists event, delivers event /\ m = handle number_text v event.

Lemma center_row_writes v event :
  delivers event -> spec row_write any any any (handle number_text v event).
Proof.
  intros H. destruct event; cbn [handle delivers] in *; center_may;
    first [by apply write_fresh
          |by apply write_keeps, keeps_identities_other; discriminate
          |by apply write_keeps, keeps_identities_map].
Qed.

(** The rows of some delivered refresh, by what they are for. *)
Definition delivered_rows (s : Store) : Prop :=
  exists o, D o /\ row_identities s = row_identity <$> cc_services o.

Lemma row_write_delivered c f s : row_write c f -> delivered_rows s -> delivered_rows (upd c f s).
Proof.
  destruct 1 as [c f H|o Ho]; intros Hs.
  - unfold delivered_rows. by rewrite H.
  - exists o. split; [done|]. unfold row_identities. by rewrite upd_same.
Qed.

Lemma row_identities_sync s : row_identities (sync_refs s) = row_identities s.
Proof. unfold row_identities, sync_refs. by rewrite upd_other. Qed.

Lemma center_pool_writes page :
  D options -> rtc (step delivering sync_refs) (center_page options) page ->
  Forall (spec row_write any any any) (g_pool page) /\ delivered_rows (g_store page).
Proof.
  intros HD Hsteps.
  destruct (page_invariant delivering sync_refs row_write any delivered_rows
    (center_page options) page) as (Hp & Hs & _); [| | |exact Hsteps|constructor| |constructor|done].
  - intros r m (event & He & ->). by apply center_row_writes.
  - apply row_write_delivered.
  - intros s. unfold delivered_rows. by rewrite row_identities_sync.
  - by exists options.
Qed.

(** C8: any unlocks, SSH requests, resets, restarts, row refreshes and refreshes
    of the page's options [D], in any interleaving and with any answers.  The
    service rows on the page are at every moment those of one of the delivered
    options, the same services in the same order under the same names, never a
    mixture of two; and what any single step of the page does is either to leave
    every identity and its place alone, or to put in the whole rows of a delivered
    refresh. *)
Theorem service_rows_keep_identity page :
  D options -> rtc (step delivering sync_refs) (center_page options) page ->
  (exists o, D o /\ row_identities (g_store page) = row_identity <$> cc_services o) /\
  forall page', step delivering sync_refs page page' ->
    row_identities (g_store page') = row_identities (g_store page) \/
    (exists o, D o /\ g_store page' = upd Rows (fun _ => cc_services o) (g_store page)).
Proof.
  intros HD Hsteps. destruct (center_pool_writes page HD Hsteps) as [Hp Hs]. split; [exact Hs|].
  intros page' H. destruct H as [s r l1 m l2 t ops s' m' sp H|s r l1 m l2 t _|s r l t m _|s r l t];
    cbn [g_store g_pool] in *; auto using row_identities_sync.
  apply list.Forall_app in Hp as [_ [Hm _]%list.Forall_cons].
  destruct (pstep_spec _ _ _ _ _ _ _ _ _ _ H Hm) as (_ & [->|(c & f & [c0 g Hk|o Ho] & ->)] & _);
    [by left|by left|by right; exists o].
Qed.
End Page.

(** ** The service actions, run alone *)

Definition states_read : Op :=
  OpFetch (browser_get "/api/platform/team/services") PStates.
Definition states_path : string := "/api/platform/team/services".

(** The rows once the states of the team's services are merged in. *)
Definition merge_states (states : list TeamServiceState) (challengeId : num) (rows : list ServiceRow)
    : list ServiceRow :=
  match find_first (fun entry => num_eqb (num_of_Z (ts_challenge_id entry)) challengeId) states with
  | None => rows
  | Some state =>
      map_if (fun row => num_eqb (sv_challengeId row) challengeId)
        (fun row => mergeServiceState row state) rows
  end.

Definition with_states (states : list TeamServiceState) (challengeId : num) (s : Store) : Store :=
  match find_first (fun entry => num_eqb (num_of_Z (ts_challenge_id entry)) challengeId) states with
  | None => s
  | Some state =>
      upd Rows (map_if (fun row => num_eqb (sv_challengeId row) challengeId)
                  (fun row => mergeServiceState row state)) s
  end.

Lemma with_states_rows states id (s : Store) :
  with_states states id s Rows = merge_states states id (s Rows).
Proof. unfold with_states, merge_states. destruct (find_first _ _); [by rewrite upd_same|done]. Qed.

Lemma with_states_other states id (s : Store) (c : Cell) :
  c <> Rows -> with_states states id s c = s c.
Proof. intros H. unfold with_states. destruct (find_first _ _); [by rewrite upd_other|done]. Qed.

Definition center_begun (key : string) (s : Store) : Store :=
  upd ActionError (fun _ => None) (upd PendingAction (fun _ => Some key) s).
Definition center_ended (s : Store) : Store := upd PendingAction (fun _ => None) s.
Definition center_reported (message : string) (s : Store) : Store :=
  upd ActionError (fun _ => Some message) s.

Section Run.
Context (oracle : Oracle (app := ControlCenterApp)) (number_text : num -> string).

Lemma run_center_action t s key fallback body :
  run oracle t s (action key fallback body) =
  let r := run oracle t (center_begun key s) body in
  mkOutcome (o_trace r)
    (center_ended (match o_result r with
                   | Done _ => o_store r
                   | Thrown e => center_reported (error_message e fallback) (o_store r)
                   end)) (Done tt).
Proof.
  unfold action. simpl. rewrite run_finally, run_catch. simpl.
  by destruct (run oracle t _ body) as [t1 s1 [[]|e]].
Qed.

Lemma run_refreshServiceRow t s id :
  run oracle t s (refreshServiceRow id) =
  let answer := payload_of (oracle t states_read) states_path in
  mkOutcome (t ++ [states_read])
    (match answer with Done states => with_states states id s | Thrown _ => s end)
    (match answer with Done _ => Done tt | Thrown e => Thrown e end).
Proof.
  unfold refreshServiceRow. rewrite run_then_payload. cbn zeta. unfold states_read, states_path.
  destruct (payload_of _ _) as [states|e]; [|done].
  unfold with_states. by destruct (find_first _ _).
Qed.

(** The shape the actions share: ask, mark the row, read the row again, close. *)
Lemma run_marked {A : Type} op (answer : Result A) (ask : Prog A) t s key fallback target
    (mark : A -> ServiceRow -> ServiceRow) (close : A -> Prog unit) (closed : A -> Store -> Store) :
  (forall s, run oracle t s ask = mkOutcome (t ++ [op]) s answer) ->
  (forall a t s, run oracle t s (close a) = mkOutcome t (closed a s) (Done tt)) ->
  run oracle t s (action key fallback
    (a <-! ask ;;
     update Rows (map_if (same_row target) (mark a)) ;;!
     refreshServiceRow (sv_challengeId target) ;;!
     close a)) =
  let s0 := center_begun key s in
  match answer with
  | Thrown e =>
      mkOutcome (t ++ [op]) (center_ended (center_reported (error_message e fallback) s0)) (Done tt)
  | Done a =>
      let s1 := upd Rows (map_if (same_row target) (mark a)) s0 in
      mkOutcome (t ++ [op; states_read])
        (center_ended
          (match payload_of (oracle (t ++ [op]) states_read) states_path with
           | Thrown e => center_reported (error_message e fallback) s1
           | Done states => closed a (with_states states (sv_challengeId target) s1)
           end)) (Done tt)
  end.
Proof.
  intros Hask Hclose. rewrite run_center_action. cbn zeta. rewrite run_bind, Hask. cbn zeta.
  destruct answer as [a|e]; [|done]. cbn [o_result o_trace o_store update bind run].
  rewrite run_bind, run_refreshServiceRow. cbn zeta. rewrite <-app_assoc.
  destruct (payload_of _ _) as [states|e]; [|done]. cbn [o_result o_trace o_store].
  by rewrite Hclose.
Qed.
End Run.

(** Reading a cell of an updated store. *)
Ltac center_cells :=
  unfold center_ended, center_reported, center_begun;
  repeat first [rewrite upd_same | rewrite upd_other by discriminate
               | rewrite with_states_rows | rewrite with_states_other by discriminate].

Section Actions.
Context (oracle : Oracle (app := ControlCenterApp)) (number_text : num -> string).

Definition unlock_request (target : ServiceRow) (proof : string) : Op :=
  OpFetch (browser_send "POST" (service_url number_text target "unlock")
             (JObj [("proof"%string, JStr proof)])) PUnlock.
Definition reset_request (target : ServiceRow) : Op :=
  OpFetch (browser_call "POST" (service_url number_text target "reset/factory")) PReset.

Lemma run_requestUnlock t (s v : Store) target :
  v UnlockTarget = Some target ->
  let ask := unlock_request target (v Proof_) in
  let marked := map_if (same_row target) mark_unlocked (s Rows) in
  let r := run oracle t s (requestUnlock number_text v) in
  o_store r PendingAction = None /\
  match void_of (oracle t ask) "unlock request" with
  | Thrown e =>
      o_trace r = t ++ [ask] /\ o_store r Rows = s Rows /\
      o_store r UnlockTarget = s UnlockTarget /\
      o_store r ActionError = Some (error_message e "unlock request failed")
  | Done _ =>
      o_trace r = t ++ [ask; states_read] /\
      match payload_of (oracle (t ++ [ask]) states_read) states_path with
      | Thrown e =>
          o_store r Rows = marked /\ o_store r UnlockTarget = s UnlockTarget /\
          o_store r ActionError = Some (error_message e "unlock request failed")
      | Done states =>
          o_store r Rows = merge_states states (sv_challengeId target) marked /\
          o_store r UnlockTarget = None /\ o_store r ActionError = None
      end
  end.
Proof.
  intros Ht ask marked r.
  assert (Hr : r = run oracle t s (requestUnlock number_text v)) by done.
  unfold requestUnlock in Hr. rewrite Ht in Hr.
  rewrite (run_marked oracle ask (void_of (oracle t ask) "unlock request") _ _ _ _ _ _
    (fun _ => mark_unlocked) (fun _ => set_to (app := ControlCenterApp) UnlockTarget None)
    (fun _ => upd (app := ControlCenterApp) UnlockTarget (fun _ => None))) in Hr;
    [|intros; apply run_fetch_void|done].
  cbn zeta in Hr. rewrite Hr. clear Hr r.
  destruct (void_of _ _) as [u|e].
  - destruct (payload_of _ _) as [states|e]; cbn [o_result o_trace o_store]; by center_cells.
  - cbn [o_result o_trace o_store]. by center_cells.
Qed.

(** The unlock of a service, on every answer.  A refused proof leaves the rows
    and the dialog as they were and reports why.  An accepted one marks the row;
    the row is then read again, and only if that succeeds does the dialog close:
    when it fails, the service is unlocked on screen and yet the dialog stays open
    with the error.  The pending action is over in every case. *)
Theorem requestUnlock_spec t (s v : Store) target :
  v UnlockTarget = Some target ->
  let ask := unlock_request target (v Proof_) in
  let marked := map_if (same_row target) mark_unlocked (s Rows) in
  let r := run oracle t s (requestUnlock number_text v) in
  o_result r = Done tt /\ o_store r PendingAction = None /\
  match void_of (oracle t ask) "unlock request" with
  | Thrown e =>
      o_trace r = t ++ [ask] /\ o_store r Rows = s Rows /\
      o_store r UnlockTarget = s UnlockTarget /\
      o_store r ActionError = Some (error_message e "unlock request failed")
  | Done _ =>
      o_trace r = t ++ [ask; states_read] /\
      match payload_of (oracle (t ++ [ask]) states_read) states_path with
      | Thrown e =>
          o_store r Rows = marked /\ o_store r UnlockTarget = s UnlockTarget /\
          o_store r ActionError = Some (error_message e "unlock request failed")
      | Done states =>
          o_store r Rows = merge_states states (sv_challengeId target) marked /\
          o_store r UnlockTarget = None /\ o_store r ActionError = None
      end
  end.
Proof.
  intros Ht ask marked r. split; [|by apply run_requestUnlock].
  unfold r, requestUnlock. by rewrite Ht, run_center_action.
Qed.

(** A factory reset that the call accepts leaves every other row as it is,
    keeps the unlock exactly when the platform preserved it, and closes the dialog
    and drops the issued credential only once the row has been read again; a
    refused reset changes no row. *)
Theorem requestFactoryReset_spec t (s v : Store) target :
  v ResetTarget = Some target ->
  let ask := reset_request target in
  let r := run oracle t s (requestFactoryReset number_text v) in
  o_result r = Done tt /\ o_store r PendingAction = None /\
  match payload_of (oracle t ask) "factory reset request" with
  | Thrown e =>
      o_trace r = t ++ [ask] /\ o_store r Rows = s Rows /\
      o_store r ResetTarget = s ResetTarget /\ o_store r IssuedSession = s IssuedSession /\
      o_store r ActionError = Some (error_message e "factory reset request failed")
  | Done unlock_preserved =>
      let marked := map_if (same_row target) (mark_reset unlock_preserved) (s Rows) in
      o_trace r = t ++ [ask; states_read] /\
      match payload_of (oracle (t ++ [ask]) states_read) states_path with
      | Thrown e =>
          o_store r Rows = marked /\ o_store r ResetTarget = s ResetTarget /\
          o_store r IssuedSession = s IssuedSession /\
          o_store r ActionError = Some (error_message e "factory reset request failed")
      | Done states =>
          o_store r Rows = merge_states states (sv_challengeId target) marked /\
          o_store r ResetTarget = None /\ o_store r IssuedSession = None /\
          o_store r ActionError = None
      end
  end.
Proof.
  intros Ht ask r.
  assert (Hr : r = run oracle t s (requestFactoryReset number_text v)) by done.
  unfold requestFactoryReset in Hr. rewrite Ht in Hr.
  rewrite (run_marked oracle ask (payload_of (oracle t ask) "factory reset request") _ _ _ _ _ _
    mark_reset (fun _ => bind (set_to (app := ControlCenterApp) IssuedSession None)
                           (fun _ => set_to (app := ControlCenterApp) ResetTarget None))
    (fun _ s => upd (app := ControlCenterApp) ResetTarget (fun _ => None)
                  (upd (app := ControlCenterApp) IssuedSession (fun _ => None) s))) in Hr;
    [|intros; apply run_fetch_payload|done].
  cbn zeta in Hr. rewrite Hr. clear Hr r.
  destruct (payload_of (oracle t ask) _) as [u|e].
  - destruct (payload_of _ _) as [states|e]; cbn [o_result o_trace o_store]; by center_cells.
  - cbn [o_result o_trace o_store]. by center_cells.
Qed.
End Actions.

(** ** Lock reasons that outlive the lock *)

(** The reason kept in a row wins over everything that is fresh.  When the state
    read again no longer gives a reason, the row keeps the old one, and the card
    shows it whatever the new texts and the state of the match say. *)
Theorem stale_lock_reason_wins row state matchState reason :
  explicit_reason (trim (or_empty (sv_lockReason row))) = Some reason ->
  ts_lock_reason state = None ->
  resolveServiceLockReason (mergeServiceState row state) matchState = reason.
Proof.
  intros Hr Hs. unfold resolveServiceLockReason, mergeServiceState. cbn [sv_lockReason].
  by rewrite Hs, Hr.
Qed.

(** ** The query of the feed *)

(** What the filters of the page ask for. *)
Definition asked_text (s : string) : option string := if blank s then None else Some (trim s).
Definition asked_number (s : string) : option Z :=
  let n := parseNonNegativeInteger (Some s) ?? 0 in if n >? 0 then Some n else None.

Definition asked (f : AttackFilters) : AttackFeedQuery :=
  mkAttackFeedQuery (parsePositiveInteger (Some (f_limit f)) (Some 12) 200)
    (asked_number (f_offset f)) (asked_text (f_attacker f)) (asked_text (f_victim f))
    (asked_text (f_service f)) (asked_number (f_tickFrom f)) (asked_number (f_tickTo f)).

Lemma sent_entries_app es1 es2 : sent_entries (es1 ++ es2) = sent_entries es1 ++ sent_entries es2.
Proof. apply omap_app. Qed.

Lemma sent_entries_names es : (sent_entries es).*1 `sublist_of` es.*1.
Proof.
  induction es as [|[k v] es IH]; [constructor|]. unfold sent_entries in *. csimpl.
  destruct (query_text v); csimpl; by constructor.
Qed.

Lemma sent_fresh name es : name ∉ es.*1 -> name ∉ (sent_entries es).*1.
Proof. intros H Hin. apply H. eapply elem_of_sublist; [exact Hin|apply sent_entries_names]. Qed.

Lemma set_positive_sent name s ps es :
  ps = sent_entries es -> name ∉ es.*1 ->
  set_positive name s ps = sent_entries (es ++ [(name, q_num (asked_number s))]).
Proof.
  intros -> H. rewrite sent_entries_app. unfold set_positive, set_if, asked_number.
  destruct (_ >? 0); csimpl; [by apply params_set_fresh, sent_fresh|by rewrite app_nil_r].
Qed.

Lemma set_text_sent name s ps es :
  ps = sent_entries es -> name ∉ es.*1 ->
  set_text name s ps = sent_entries (es ++ [(name, q_str (asked_text s))]).
Proof.
  intros -> H. rewrite sent_entries_app. unfold set_text, set_if, asked_text.
  destruct (blank s) eqn:E; csimpl; [by rewrite app_nil_r|].
  unfold blank in E. unfold or_undefined. rewrite E. by apply params_set_fresh, sent_fresh.
Qed.

Lemma attack_params_sent f : attack_params f = sent_entries (feed_entries (asked f)).
Proof.
  unfold attack_params.
  transitivity (sent_entries ((((((
    [("limit"%string, q_num (q_limit (asked f)))] ++
    [("offset"%string, q_num (q_offset (asked f)))]) ++
    [("attacker"%string, q_str (q_attacker (asked f)))]) ++
    [("victim"%string, q_str (q_victim (asked f)))]) ++
    [("service"%string, q_str (q_service (asked f)))]) ++
    [("tick_from"%string, q_num (q_tick_from (asked f)))]) ++
    [("tick_to"%string, q_num (q_tick_to (asked f)))])); [|done].
  repeat first [apply set_positive_sent | apply set_text_sent];
    try (cbn [fmap list_fmap app fst]; rewrite ?not_elem_of_cons; split_and!;
         first [discriminate | apply not_elem_of_nil]).
  cbn [asked q_limit]. by destruct (parsePositiveInteger _ _ _).
Qed.

(** The query of the control centre means the filters on screen: the feed
    route decodes it to the limit clamped to 1..200, the texts trimmed and left out
    when blank, and the positive numbers, whatever characters the texts hold. *)
Theorem attack_query_round_trip f :
  (forall n, n = f_offset f \/ n = f_tickFrom f \/ n = f_tickTo f ->
     forall z, asked_number n = Some z -> safe z) ->
  exists encoded params,
    buildAttackQuery f = "?" ++ₛ encoded /\ parse_params encoded = Some params /\
    parseAttackFeedQuery params 12 200 = asked f.
Proof.
  intros Hn. exists (params_to_string (attack_params f)), (attack_params f).
  assert (Hl : exists l, q_limit (asked f) = Some l /\ 0 < l <= 200).
  { unfold asked. cbn [q_limit].
    destruct (parsePositiveInteger _ _ _) as [l|] eqn:E.
    - exists l. split; [done|]. apply parsePositiveInteger_range in E as [[= <-]|?]; lia.
    - exfalso. revert E. unfold parsePositiveInteger. by repeat case_match. }
  split_and!.
  - unfold buildAttackQuery. destruct (is_empty _) eqn:E; [|done].
    apply params_to_string_empty in E. rewrite attack_params_sent in E.
    destruct Hl as (l & Hl & _). unfold feed_entries in E. rewrite Hl in E. discriminate E.
  - apply parse_params_to_string.
  - rewrite attack_params_sent. apply feed_entries_parsed; [|done].
    assert (Hpos : forall x z, asked_number x = Some z -> 0 <= z).
    { intros x z. unfold asked_number. set (n := parseNonNegativeInteger (Some x) ?? 0).
      destruct (n >? 0) eqn:E; [|done]. intros [= <-]. rewrite Z.gtb_ltb in E. boolify. lia. }
    assert (Ht : forall x, text_ok (asked_text x)).
    { intros x y. unfold asked_text. destruct (blank x) eqn:E; [done|]. intros [= <-].
      split; [apply trim_idem|exact E]. }
    split_and!; [exact Hl| |apply Ht..].
    intros n [H|[H|H]]; (split; [eapply Hn; [|exact H]; auto|eapply Hpos; exact H]).
Qed.

(** ** A session that arrives late *)

Section LateSession.
Context (number_text : num -> string) (options : ControlCenterOptions).

Definition session_request (service : ServiceRow) : Op :=
  OpFetch (browser_call "POST" (service_url number_text service "ssh-session")) PSession.

(** A browser whose requests for a session are answered, and whose reads of the
    states find nothing. *)
Definition issuing (payload : SSHSessionData) : Oracle (app := ControlCenterApp) := fun t o =>
  match o return Answer o with
  | OpFetch _ p =>
      match p return Result (Response (CenterPayloadTy p)) with
      | PSession => reply payload
      | PStates => reply []
      | _ => Thrown (OtherError "offline")
      end
  | o => offline t o
  end.

(** Closing the dialog does not cancel the request it made.  When the session
    of service [a] arrives after its dialog was closed, it is kept, and the dialog
    of any other unlocked service [b] then opens with the credential of [a]: with a
    session on screen the dialog does not ask for its own. *)
Theorem late_session_shown_for_another_service a b payload :
  sv_unlocked a = true -> sv_unlocked b = true ->
  exists page,
    rtc (center_step number_text) (center_page options) page /\ g_pool page = [] /\
    (g_store page : Store) SessionTarget = Some b /\
    (g_store page : Store) IssuedSession = Some payload /\
    (g_store page : Store) PendingAction = None /\
    g_trace page = [session_request a; states_read] /\
    fst (ssh_dialog_effects true (bool_decide (is_Some ((g_store page : Store) IssuedSession)))
           (bool_decide (is_Some ((g_store page : Store) PendingAction))) false) = false.
Proof.
  intros Ha Hb. set (s0 := initial_store options).
  set (r1 := sync_refs (upd (app := ControlCenterApp) SessionTarget (fun _ => Some a) s0)).
  assert (Hv : r1 SessionTarget = Some a) by done.
  eexists. split.
  { etrans; [apply (event_steps _ _ (issuing payload) _ _ _ (handle number_text s0 (EvSelectPrimary a)));
             by exists (EvSelectPrimary a)|].
    cbn [handle]. unfold selectPrimaryAction. rewrite Ha.
    eapply rtc_l; [apply step_render|]. fold r1.
    eapply rtc_l; [apply (step_event _ _ _ _ [] _ (handle number_text r1 EvRequestSSHSession));
                   by exists EvRequestSSHSession|].
    cbn [handle app]. unfold requestSSHSession. rewrite Hv.
    do 2 (eapply rtc_l; [apply (step_thread _ _ _ _ [] _ [] _ _ _ _ _ (pstep_set _ _ _ _ _))|]).
    eapply rtc_l; [apply (step_thread _ _ _ _ [] _ [] _ _ _ _ _
                            (pstep_do _ _ (session_request a) _ (reply payload)))|].
    etrans; [apply (event_steps_in _ _ (issuing payload) _ _ _ _ (handle number_text r1 EvCloseSession));
             by exists EvCloseSession|].
    etrans; [apply (thread_steps _ _ (issuing payload) _ _ [] _ [] _)|].
    eapply rtc_l; [apply step_render|].
    apply (event_steps _ _ (issuing payload) _ _ _ (handle number_text s0 (EvSelectPrimary b))).
    by exists (EvSelectPrimary b). }
  cbn [handle]. unfold selectPrimaryAction. rewrite Hb. by split_and!.
Qed.
End LateSession.

(** ** Concrete checks *)

Section Checks.
Open Scope string_scope.

Definition sample_service (id : string) (challenge : Z) (unlocked : bool) : ServiceRow :=
  mkServiceRow id (num_of_Z challenge) (num_of_Z 1) "notes" "10.0.0.1:8080" (num_of_Z 8080)
    "degraded" "warning" false unlocked "" "" "" false None "unknown" "" None "".

Definition sample_center : ControlCenterOptions :=
  mkControlCenterOptions (mkPage [] 12 0 0 false false) "" []
    [sample_service "svc-7" 7 false; sample_service "svc-8" 8 true].

Definition sample_state (challenge : Z) : TeamServiceState :=
  mkTeamServiceState challenge 1 None "10.0.0.1:9090" "stable" "passing" true "hint" "unlocked" ""
    None None None None None None.

Definition sample_session : SSHSessionData :=
  mkSSHSessionData 7 "10.0.0.1" 22 "root" "secret" None "ssh root@10.0.0.1".

(** The unlock is accepted; the states that are read may be missing. *)
Definition unlocking (states : option (list TeamServiceState)) : Oracle (app := ControlCenterApp) :=
  fun t o =>
  match o return Answer o with
  | OpFetch _ p =>
      match p return Result (Response (CenterPayloadTy p)) with
      | PUnlock => reply JNull
      | PReset => reply false
      | PStates => match states with Some l => reply l | None => Thrown (OtherError "offline") end
      | _ => Thrown (OtherError "offline")
      end
  | o => offline t o
  end.

Definition no_text (_ : num) : string := "7".

Definition selecting : Store (app := ControlCenterApp) :=
  upd (app := ControlCenterApp) ResetTarget (fun _ => Some (sample_service "svc-7" 7 true))
    (upd (app := ControlCenterApp) UnlockTarget (fun _ => Some (sample_service "svc-7" 7 false))
       (initial_store sample_center)).
End Checks.

(** A restart that was started, however its calls are answered. *)
Lemma center_comes_to_rest_witness :
  let s := initial_store sample_center in
  let restart := handle no_text s (EvRequestRestart (sample_service "svc-7" 7 false)) in
  let page := mkConfig s s [restart] [] in
  (exists final, rtc work page final /\ nf work final) /\
  forall final, rtc work page final -> nf work final -> g_store final PendingAction = None.
Proof.
  intros s restart page.
  destruct (center_comes_to_rest no_text sample_center page) as (_ & He & Hf).
  { apply rtc_once. apply (step_event _ _ s s [] []).
    by exists (EvRequestRestart (sample_service "svc-7" 7 false)). }
  split; [exact He|]. intros final H1 H2. by destruct (Hf final H1 H2).
Defined.

(** A restart answered while a refresh of the page with one service less arrives. *)
Lemma service_rows_keep_identity_witness :
  let fresh := mkControlCenterOptions (mkPage [] 12 0 0 false false) "" []
                 [sample_service "svc-8" 8 true] in
  let s := initial_store sample_center in
  let restart := handle no_text s (EvRequestRestart (sample_service "svc-7" 7 false)) in
  let page := mkConfig s s [restart; handle no_text s (EvProps fresh)] [] in
  exists o, (o = sample_center \/ o = fresh) /\
    row_identities (g_store page) = row_identity <$> cc_services o.
Proof.
  intros fresh s restart page.
  destruct (service_rows_keep_identity no_text sample_center
    (fun o => o = sample_center \/ o = fresh) page) as [H _]; [by left| |exact H].
  eapply rtc_l; [apply (step_event _ _ s s [] [] restart)|apply rtc_once, (step_event _ _ s s [restart] [])].
  - by exists (EvRequestRestart (sample_service "svc-7" 7 false)).
  - exists (EvProps fresh). split; [by right|done].
Defined.

(** The row is unlocked on screen and the dialog stays open with the error. *)
Lemma requestUnlock_spec_witness :
  let r := run (unlocking None) [] selecting (requestUnlock no_text selecting) in
  (sv_unlocked <$> (o_store r Rows : list ServiceRow)) = [true; true] /\
  (o_store r : Store) UnlockTarget = Some (sample_service "svc-7" 7 false) /\
  (o_store r : Store) ActionError = Some "offline"%string.
Proof.
  destruct (requestUnlock_spec (unlocking None) no_text [] selecting selecting
    (sample_service "svc-7" 7 false) eq_refl) as (_ & _ & _ & Hrows & Htarget & Herror).
  split_and!; [|exact Htarget|exact Herror].
  etrans; [exact (f_equal (fmap sv_unlocked) Hrows)|]. reflexivity.
Defined.

Lemma requestFactoryReset_spec_witness :
  let r := run (unlocking (Some [])) [] selecting (requestFactoryReset no_text selecting) in
  (sv_unlocked <$> (o_store r Rows : list ServiceRow)) = [false; true] /\
  (o_store r : Store) ResetTarget = None.
Proof.
  destruct (requestFactoryReset_spec (unlocking (Some [])) no_text [] selecting selecting
    (sample_service "svc-7" 7 true) eq_refl) as (_ & _ & _ & Hrows & Htarget & _).
  split; [|exact Htarget]. etrans; [exact (f_equal (fmap sv_unlocked) Hrows)|]. reflexivity.
Defined.

Lemma attack_query_round_trip_witness :
  let f := mkAttackFilters "999" "24" " Red & Co " "" " " "x" "7" in
  asked f = mkAttackFeedQuery (Some 200) (Some 24) (Some "Red & Co"%string) None None None (Some 7) /\
  exists encoded params, buildAttackQuery f = "?" ++ₛ encoded /\ parse_params encoded = Some params /\
    parseAttackFeedQuery params 12 200 = asked f.
Proof.
  intros f. split; [reflexivity|]. apply attack_query_round_trip.
  intros n [-> | [-> | ->]] z H; vm_compute in H; try discriminate H; injection H as <-; reflexivity.
Defined.

Lemma late_session_shown_for_another_service_witness :
  exists page, rtc (center_step no_text) (center_page sample_center) page /\
    (g_store page : Store) SessionTarget = Some (sample_service "svc-8" 8 true) /\
    (g_store page : Store) IssuedSession = Some sample_session.
Proof.
  destruct (late_session_shown_for_another_service no_text sample_center
    (sample_service "svc-7" 7 true) (sample_service "svc-8" 8 true) sample_session eq_refl eq_refl)
    as (page & Hsteps & _ & Ht & Hs & _).
  by exists page.
Defined.

(** A service under maintenance in a running match, read after a pause. *)
Lemma stale_lock_reason_wins_witness :
  let row := mkServiceRow "svc-7" (num_of_Z 7) (num_of_Z 1) "notes" "" NaN "stable" "passing" false
    true "" "" "paused" true (Some "match_paused") "ok" "" None "" in
  let state := mkTeamServiceState 7 1 None "10.0.0.1:8080" "stable" "passing" true ""
    "maintenance window" "" (Some true) None None None None None in
  serviceLockBadgeLabel (mergeServiceState row state) (Some "running"%string) = "Match paused"%string.
Proof.
  intros row state. unfold serviceLockBadgeLabel.
  rewrite (stale_lock_reason_wins row state (Some "running"%string) MatchPaused); reflexivity.
Defined.
