(* ===== verification/CenterControls.v ===== *)
(** * The controls of the control centre

    What a participant can do on each page of the control centre
    ([components/dashboard/control-center.tsx],
    [components/dashboard/control-center-sections.tsx]): the buttons of the cards, of the
    attack feed and of the three dialogs with the condition that disables them and the
    events of the hook ([ControlCenter]) that they start, and the fields.  A button may
    start several events.  The form for flags ([ParticipantForms]) and the map
    ([AttackMapPanel]) keep their own state and are left out; so is that an open dialog
    covers the page. *)

From S2P Require Import Prelude JsString JsNumber DashboardUtils Controls ApiUtils PlatformApi ReactRuntime ReactRules ReactMark DashboardTypes ControlCenter ServiceCards ControlCenterPage.

#[local] Open Scope string_scope.
#[local] Open Scope Z_scope.
#[local] Open Scope list_scope.
#[local] Open Scope js_scope.

Notation Control := (Controls.Control (list Event)).

(** ** Buttons *)

Definition busy (v : Store) : bool := bool_decide (v PendingAction <> None).

(** The bar of a card; [ServiceActionBar] tells which button spins. *)
Definition service_controls (v : Store) (service : ServiceRow) : list Control :=
  let bar := ServiceActionBar (v PendingAction) service in
  [mkControl (primaryLabel bar) (actionsDisabled bar) None [EvSelectPrimary service];
   mkControl "Restart" (actionsDisabled bar) (Some ("restart:" ++ₛ sv_id service)) [EvRequestRestart service];
   mkControl "Factory Reset" (actionsDisabled bar) None [EvSelectReset service]].

Definition ServicesPanel (v : Store) : list Control := (v Rows : list ServiceRow) ≫= service_controls v.

Definition attack_rows (v : Store) : list AttackEvent := items (v AttackPageState : AttackFeedPage).

Definition tactical_presets (currentTeamName : option string) (v : Store) : list Control :=
  match currentTeamName ≫= or_undefined with
  | Some name => [always "Against us" [EvSetField FVictim name]; always "By us" [EvSetField FAttacker name]]
  | None => []
  end ++
  let latest := latestTick (attack_rows v) in
  if_shown (latest >? 0) (always "Current tick"
    [EvSetField FTickFrom (num_to_string latest); EvSetField FTickTo (num_to_string latest)]).

(** The second reset, in place of the table when no row is [visible]. *)
Definition empty_view_reset (visible : list AttackEvent) (v : Store) : list Control :=
  match visible with
  | [] => if_shown (filtersApplied (v AttackFiltersState)) (always "Reset view" [EvResetFilters])
  | _ => []
  end.

(** The card keeps the rows that its map shows. *)
Definition AttacksPanel (currentTeamName : option string) (visible : list AttackEvent) (v : Store) : list Control :=
  tactical_presets currentTeamName v ++
  PagedFilterActions (busy v) (has_prev (v AttackPageState : AttackFeedPage)) (has_next (v AttackPageState : AttackFeedPage))
    [EvApplyFilters] [EvResetFilters] (fun direction => [EvPageFeed direction]) ++
  empty_view_reset visible v.

(** A dialog is also closed by its corner button, the Escape key and a press outside. *)
Definition UnlockServiceDialog (v : Store) : list Control :=
  if bool_decide (v UnlockTarget <> None)
  then [always "Cancel" [EvCloseUnlock]; mkControl "Unlock Service" (busy v) None [EvRequestUnlock];
        always "Dismiss" [EvCloseUnlock]]
  else [].

Definition SSHSessionDialog (v : Store) : list Control :=
  if bool_decide (v SessionTarget <> None)
  then always "Close" [EvCloseSession] ::
       if_shown (bool_decide (v IssuedSession <> None)) (mkControl "Reapply Credential" (busy v) None [EvRequestSSHSession]) ++
       [always "Dismiss" [EvCloseSession]]
  else [].

Definition FactoryResetDialog (v : Store) : list Control :=
  if bool_decide (v ResetTarget <> None)
  then [always "Cancel" [EvCloseReset];
        mkControl "Confirm Reset" (busy v || bool_decide (v ResetTarget = None)) None [EvRequestFactoryReset];
        always "Dismiss" [EvCloseReset]]
  else [].

Inductive CenterTab := ScoreboardTab | ServicesTab | AttacksTab.

(** What the page has beside the state of its hook. *)
Record Surroundings := mkSurroundings {
  initialTab : CenterTab;
  currentTeamName : option string;
  visibleRows : list AttackEvent
}.

Definition renderControlCenterPanel (p : Surroundings) (v : Store) : list Control :=
  match initialTab p with
  | ScoreboardTab => []
  | ServicesTab => ServicesPanel v
  | AttacksTab => AttacksPanel (currentTeamName p) (visibleRows p) v
  end.

Definition ControlCenter (p : Surroundings) (v : Store) : list Control :=
  renderControlCenterPanel p v ++ UnlockServiceDialog v ++ SSHSessionDialog v ++ FactoryResetDialog v.

(** ** Fields *)

Section Fields.
Context (localeCompare : string -> string -> Z).

Definition teamOptions (v : Store) : list string := so_team <$> (v ScoreRows : list ScoreRow).
Definition serviceOptions (v : Store) : list string := sv_name <$> (v Rows : list ServiceRow).

(** The choices of the lists, none first, and the fields that take any text. *)
Inductive edits (p : Surroundings) (v : Store) : list Event -> Prop :=
| choose_attacker x : initialTab p = AttacksTab ->
    x ∈ "" :: attackerChoices localeCompare (teamOptions v) (currentTeamName p) (attack_rows v) (v AttackFiltersState) ->
    edits p v [EvSetField FAttacker x]
| choose_victim x : initialTab p = AttacksTab ->
    x ∈ "" :: victimChoices localeCompare (teamOptions v) (currentTeamName p) (attack_rows v) (v AttackFiltersState) ->
    edits p v [EvSetField FVictim x]
| choose_service x : initialTab p = AttacksTab ->
    x ∈ "" :: serviceChoices localeCompare (serviceOptions v) (attack_rows v) (v AttackFiltersState) ->
    edits p v [EvSetField FService x]
| type_field field x : initialTab p = AttacksTab -> field ∈ [FTickFrom; FTickTo; FLimit] ->
    edits p v [EvSetField field x]
| type_proof x : v UnlockTarget <> None -> edits p v [EvSetProof x].

(** What a participant can bring about: an enabled button, or an edit. *)
Inductive offers (p : Surroundings) (v : Store) : list Event -> Prop :=
| press c : c ∈ ControlCenter p v -> disabled c = false -> offers p v (calls c)
| edit events : edits p v events -> offers p v events.

(** The dialog asks for a session by itself, once it is open. *)
Definition dialog_asks (v : Store) (triggered : bool) : bool :=
  (ssh_dialog_effects (bool_decide (v SessionTarget <> None)) (bool_decide (v IssuedSession <> None))
     (busy v) triggered).1.
End Fields.

(** ** The filters in words *)

Section Summary.
(** The dash between two ticks, outside Latin-1. *)
Variable en_dash : string.

Definition text_or (s fallback : string) : string := if is_empty s then fallback else s.

Definition formatAttackFilterSummary (f : AttackFilters) : string :=
  let part name s := if is_empty (trim s) then [] else [name ++ₛ " " ++ₛ trim s] in
  join ", " (part "attacker" (f_attacker f) ++ part "victim" (f_victim f) ++ part "service" (f_service f) ++
    (if is_empty (trim (f_tickFrom f)) && is_empty (trim (f_tickTo f)) then []
     else ["ticks " ++ₛ text_or (trim (f_tickFrom f)) "start" ++ₛ en_dash ++ₛ text_or (trim (f_tickTo f)) "latest"])).

(** The summary is shown exactly when there is something in it. *)
Lemma summary_when_filtered f : filtersApplied f = negb (is_empty (formatAttackFilterSummary f)).
Proof.
  unfold filtersApplied, formatAttackFilterSummary, blank.
  destruct (is_empty (trim (f_attacker f))), (is_empty (trim (f_victim f))), (is_empty (trim (f_service f))),
    (is_empty (trim (f_tickFrom f))), (is_empty (trim (f_tickTo f))); reflexivity.
Qed.
End Summary.

(** ** While an action is pending *)

(** The events that begin no action. *)
Definition idle_event (event : Event) : bool :=
  match event with
  | EvRequestUnlock | EvRequestSSHSession | EvRequestFactoryReset | EvRequestRestart _
  | EvApplyFilters | EvResetFilters | EvPageFeed _ => false
  | _ => true
  end.

(** What happens without the participant. *)
Definition background (event : Event) : bool :=
  match event with
  | EvScoreboard _ | EvAttacks _ | EvPoll | EvProps _ | EvHighlightTimeout => true
  | _ => false
  end.

(** The way around a pending action. *)
Definition loophole (p : Surroundings) (v : Store) (events : list Event) : Prop :=
  initialTab p = AttacksTab /\ visibleRows p = [] /\ filtersApplied (v AttackFiltersState) = true /\
  events = [EvResetFilters].

Definition idle_events (events : list Event) : Prop := Forall (fun e => idle_event e = true) events.

Section Offers.
Context (localeCompare : string -> string -> Z) (p : Surroundings) (v : Store).
Hypothesis pending : v PendingAction <> None.

(** What is enabled is idle, or the loophole, or nothing is pending. *)
Definition held (c : Control) : Prop :=
  disabled c = true \/ idle_events (calls c) \/ loophole p v (calls c).

Lemma held_busy name action events : held (mkControl name (busy v) action events).
Proof. left. by apply bool_decide_eq_true. Qed.

Lemma held_idle name b action events : idle_events events -> held (mkControl name b action events).
Proof. right. by left. Qed.

Ltac hold := repeat first
  [controls_step | apply held_busy | apply held_idle; repeat constructor; fail
  | left; cbn [disabled]; unfold busy; by rewrite (bool_decide_eq_true_2 _ pending)].

Lemma center_held_page : Forall held (ControlCenter p v).
Proof.
  unfold ControlCenter, UnlockServiceDialog, SSHSessionDialog, FactoryResetDialog.
  repeat (apply list.Forall_app; split); [|case_bool_decide; hold..].
  unfold renderControlCenterPanel. destruct (initialTab p) eqn:Ht; [constructor| |].
  - unfold ServicesPanel, service_controls. hold.
    left. simpl. unfold actionsDisabled. simpl. destruct (v PendingAction); done.
  - unfold AttacksPanel, tactical_presets, PagedFilterActions. hold.
    + destruct (currentTeamName p ≫= or_undefined); hold.
    + unfold empty_view_reset, if_shown. destruct (visibleRows p) eqn:Hr; [|constructor].
      destruct (filtersApplied (v AttackFiltersState)) eqn:Hf; hold. right. right. by split_and!.
Qed.

Lemma center_offers_when_busy events : offers localeCompare p v events -> idle_events events \/ loophole p v events.
Proof.
  intros [c Hc Hd|e He].
  - destruct (controls_in _ _ _ center_held_page Hc) as [E|E]; [congruence|exact E].
  - left. by destruct He; repeat constructor; destruct field.
Qed.
End Offers.

Lemma loophole_offered localeCompare p v events : loophole p v events -> offers localeCompare p v events.
Proof.
  intros (Ht & Hr & Hf & ->). apply (press _ _ _ (always "Reset view" [EvResetFilters])); [|done].
  unfold ControlCenter, renderControlCenterPanel, AttacksPanel, empty_view_reset, if_shown. rewrite Ht, Hr, Hf.
  rewrite !elem_of_app. left. right. right. by left.
Qed.

(** ** What the page lets through *)

Section Gates.
Context (localeCompare : string -> string -> Z) (p : Surroundings) (v : Store).

(** What a request needs to be offered. *)
Definition gate (event : Event) : Prop :=
  match event with
  | EvRequestRestart service | EvSelectReset service =>
      initialTab p = ServicesTab /\ service ∈ (v Rows : list ServiceRow) /\ sv_maintenance service = false /\ v PendingAction = None
  | EvSelectPrimary service =>
      initialTab p = ServicesTab /\ service ∈ (v Rows : list ServiceRow) /\ sv_maintenance service = false /\ v PendingAction = None
  | EvRequestUnlock => v UnlockTarget <> None /\ v PendingAction = None
  | EvRequestSSHSession => v SessionTarget <> None /\ v IssuedSession <> None /\ v PendingAction = None
  | EvRequestFactoryReset => v ResetTarget <> None /\ v PendingAction = None
  | EvApplyFilters | EvPageFeed _ => initialTab p = AttacksTab /\ v PendingAction = None
  | EvResetFilters => initialTab p = AttacksTab
  | e => background e = false
  end.

Definition gated (c : Control) : Prop := disabled c = false -> Forall gate (calls c).

Lemma not_busy : busy v = false -> v PendingAction = None.
Proof. unfold busy. intros H%bool_decide_eq_false. by apply dec_stable. Qed.

Lemma not_disabled (service : ServiceRow) :
  actionsDisabled (ServiceActionBar (v PendingAction) service) = false ->
  sv_maintenance service = false /\ v PendingAction = None.
Proof. unfold ServiceActionBar. simpl. by destruct (v PendingAction). Qed.

Ltac gates := repeat first
  [controls_step
  | intros _; repeat constructor; done
  | intros ?%not_busy; repeat constructor; done
  | intros [?%not_busy _]%orb_false_iff; repeat constructor; done].

Lemma gated_page : Forall gated (ControlCenter p v).
Proof.
  unfold ControlCenter, UnlockServiceDialog, SSHSessionDialog, FactoryResetDialog.
  repeat (apply list.Forall_app; split).
  - unfold renderControlCenterPanel. destruct (initialTab p) eqn:Ht; [constructor| |].
    + unfold ServicesPanel, service_controls. apply controls_bind. intros service Hs.
      repeat (apply List.Forall_cons; [intros [Hm Hp]%not_disabled; apply list.Forall_singleton; cbn [gate]; by split_and!|]). constructor.
    + unfold AttacksPanel, tactical_presets, PagedFilterActions. gates.
      * destruct (currentTeamName p ≫= or_undefined); gates.
      * unfold empty_view_reset. destruct (visibleRows p); gates.
  - case_bool_decide; gates.
  - case_bool_decide; [|constructor]. apply List.Forall_cons; [gates|]. apply list.Forall_app. split; [|gates].
    unfold if_shown. case_bool_decide; gates.
  - case_bool_decide; gates.
Qed.

(** C22: What the page asks of the server is gated: a restart, an unlock, a session and a
    reset are only offered for a service that is on the page and not under maintenance, or
    in a dialog that is open, while nothing is pending; only the second reset of the feed
    is offered at any time. *)
Theorem requests_gated events event :
  offers localeCompare p v events -> event ∈ events -> gate event.
Proof.
  intros [c Hc Hd|e He] Hin.
  - exact (proj1 (list.Forall_forall _ _) (controls_in _ _ _ gated_page Hc Hd) event Hin).
  - destruct He; apply list_elem_of_singleton in Hin as ->; done.
Qed.
End Gates.

(** While an action is pending, a page begins no other one, except that a participant
    whose filters leave no attack can reset them. *)
Theorem busy_center_offers localeCompare p (v : Store) events :
  v PendingAction <> None -> ~ idle_events events -> offers localeCompare p v events <-> loophole p v events.
Proof.
  intros Hp Hi. split; [|apply loophole_offered].
  intros Ho. by destruct (center_offers_when_busy localeCompare p v Hp events Ho).
Qed.

(** ** The mark is exact *)

Definition no_action (pending : option string) : Prop := pending = None.

Notation free_ := (free PendingAction).
Notation holds_ := (holds PendingAction no_action).
Notation takes_ := (takes PendingAction no_action).

Ltac freely_step :=
  lazymatch goal with
  | |- forall _, _ => intros
  | |- spec _ _ _ _ ?m => may_rule m
  end.
Ltac freely := unfold free; repeat freely_step; first [exact I | discriminate].

Lemma takes_center_action key fallback body : free_ body -> takes_ (action key fallback body).
Proof.
  intros H. apply takes_mark; [discriminate|]. apply holds_set; [discriminate|].
  apply holds_finally; [|by apply holds_clear]. eapply spec_catch; [exact H|]. intros e _. freely.
Qed.

Ltac take_step :=
  lazymatch goal with
  | |- takes _ _ ?m =>
      first [apply free_takes; freely; fail
            | lazymatch m with
              | action _ _ _ => apply takes_center_action; freely
              | set_to _ _ ;;! _ => apply takes_set; [discriminate|]
              | match ?x with _ => _ end => destruct x
              | if ?x then _ else _ => destruct x
              | ?f _ _ => unfold f
              | ?f _ => unfold f
              end]
  end.
Ltac take := repeat take_step.

Section Exact.
Context (number_text : num -> string) (localeCompare : string -> string -> Z) (options : ControlCenterOptions).

Lemma center_handle_takes v event : takes_ (handle number_text v event).
Proof. destruct event; cbn [ControlCenter.handle]; take. Qed.

Lemma center_idle_free v event : idle_event event = true -> free_ (handle number_text v event).
Proof. intros H. destruct event; try discriminate H; cbn [ControlCenter.handle]; freely. Qed.

(** The events of one press. *)
Definition handle_all (v : Store) (events : list Event) : Prog unit :=
  foldr (fun event rest => handle number_text v event ;;! rest) skip events.

Lemma idle_all v events : idle_events events -> free_ (handle_all v events).
Proof.
  induction 1 as [|event events H _ IH]; [exact I|]. apply free_bind; [by apply center_idle_free|]. intros _. exact IH.
Qed.

(** The streams, the timers and the refresh of the page. *)
Definition in_background (v : Store) (m : Prog unit) : Prop :=
  exists event, background event = true /\ m = handle number_text v event.

(** What the participant may press, but for the loophole, and the dialog that asks by
    itself. *)
Definition presses (v : Store) (m : Prog unit) : Prop :=
  (exists p events, offers localeCompare p v events /\ (v PendingAction <> None -> ~ loophole p v events) /\
     m = handle_all v events) \/
  (exists triggered, dialog_asks v triggered = true /\ m = handle number_text v EvRequestSSHSession).

Definition center_moves : Config -> Config -> Prop := moves in_background presses sync_refs.

(** Nothing begins two actions with one press. *)
Lemma one_request p v events : offers localeCompare p v events -> idle_events events \/ exists event, events = [event].
Proof.
  intros [c Hc _|e He]; [|destruct He; right; by eexists].
  assert (H : Forall (fun c => idle_events (calls c) \/ exists event, calls c = [event]) (ControlCenter p v));
    [|exact (controls_in _ _ _ H Hc)].
  unfold ControlCenter, UnlockServiceDialog, SSHSessionDialog, FactoryResetDialog, renderControlCenterPanel.
  repeat (apply list.Forall_app; split); [|case_bool_decide..].
  - destruct (initialTab p); [constructor| |].
    + unfold ServicesPanel, service_controls. repeat controls_step; right; by eexists.
    + unfold AttacksPanel, tactical_presets, PagedFilterActions, empty_view_reset. repeat controls_step.
      * destruct (currentTeamName p ≫= or_undefined); repeat controls_step; right; by eexists.
      * left. by repeat constructor.
      * right. by eexists.
      * right. by eexists.
      * right. by eexists.
      * right. by eexists.
      * destruct (visibleRows p); repeat controls_step. right. by eexists.
  - repeat controls_step; right; by eexists.
  - constructor.
  - repeat controls_step; right; by eexists.
  - constructor.
  - repeat controls_step; right; by eexists.
  - constructor.
Qed.

Lemma center_presses_take v m : presses v m -> free_ m \/ no_action (v PendingAction) /\ takes_ m.
Proof.
  intros [(p & events & Ho & Hl & ->)|(triggered & Ha & ->)].
  - destruct (one_request p v events Ho) as [Hi|(event & ->)]; [left; by apply idle_all|].
    destruct (decide (v PendingAction = None)) as [E|E].
    + right. split; [exact E|]. apply takes_bind; [apply center_handle_takes|]. intros _. exact I.
    + left. apply idle_all. destruct (center_offers_when_busy localeCompare p v E _ Ho); [done|]. by destruct (Hl E).
  - right. split; [|apply center_handle_takes].
    unfold dialog_asks, ssh_dialog_effects in Ha. simpl in Ha.
    apply andb_true_iff in Ha as [Ha _]. apply andb_true_iff in Ha as [_ Ha]. apply negb_true_iff in Ha. by apply not_busy.
Qed.

(** C21: But for the reset of an empty filtered feed, which is offered while an action is
    pending and is left out here, the mark tells exactly whether an action of the
    participant is on its way: it is absent as long as no handler in progress writes it,
    and when it is there exactly one handler in progress does, to clear it, and the page
    that is shown disables the rest.  The session that the dialog asks for is no exception. *)
Theorem center_mark_is_exact page :
  rtc center_moves (center_page options) page ->
  g_store page PendingAction = None /\ Forall free_ (g_pool page) \/
  g_store page PendingAction <> None /\ g_rendered page PendingAction <> None /\
  exists l1 m l2, g_pool page = l1 ++ m :: l2 /\ holds_ m /\ Forall free_ (l1 ++ l2).
Proof.
  intros Hsteps.
  refine (exclusive_moves PendingAction no_action in_background presses sync_refs
    _ center_presses_take _ _ page Hsteps _).
  - intros r m (event & Hb & ->). apply center_idle_free. by destruct event.
  - intros s. unfold sync_refs. by rewrite !upd_other by discriminate.
  - left. split; [reflexivity|constructor].
Qed.

(** A refresh of the page that arrives from the server. *)
Lemma refresh_moves s r options' :
  exists s', rtc center_moves (mkConfig s r [] []) (mkConfig s' s' [] []) /\ s' Rows = cc_services options' /\
    s' UnlockTarget = s UnlockTarget /\ s' PendingAction = s PendingAction.
Proof.
  eexists. split.
  - eapply rtc_l; [apply (move_quiet _ _ _ _ _ [] _ (handle number_text r (EvProps options'))); by exists (EvProps options')|].
    do 3 (eapply rtc_l; [apply (move_work _ _ _ _ _ [] _ [] _ _ _ _ _ (pstep_set _ _ _ _ _))|]).
    eapply rtc_l; [apply (move_end _ _ _ _ _ [] _ []); by exists (Done tt)|].
    apply rtc_once, move_render.
  - by split_and!.
Qed.

(** A dialog that is open when its service is locked (the maintenance begins, the match is
    paused) still offers the request. *)
Theorem dialog_outlives_lock p a options' :
  initialTab p = ServicesTab -> a ∈ cc_services options -> sv_maintenance a = false -> sv_unlocked a = false ->
  exists page, rtc center_moves (center_page options) page /\
    g_rendered page Rows = cc_services options' /\ g_rendered page UnlockTarget = Some a /\
    offers localeCompare p (g_rendered page) [EvRequestUnlock].
Proof.
  intros Ht Ha Hm Hu. set (s0 := initial_store options).
  set (s1 := sync_refs (upd (app := ControlCenterApp) UnlockTarget (fun _ => Some a) s0)).
  destruct (refresh_moves s1 s1 options') as (s2 & Hsteps & Hr & Hk & Hp).
  exists (mkConfig s2 s2 [] []). cbn [g_rendered]. split_and!; [|exact Hr|by rewrite Hk|].
  - eapply rtc_l; [|eapply rtc_l; [|exact Hsteps]].
    + apply (move_press _ _ _ s0 s0 [] [] (handle_all s0 [EvSelectPrimary a]) []
        (upd (app := ControlCenterApp) UnlockTarget (fun _ => Some a) s0) skip).
      * left. exists p, [EvSelectPrimary a]. split_and!; [|by intros []|reflexivity].
        apply (press _ _ _ (mkControl "Unlock Service" false None [EvSelectPrimary a])); [|done].
        unfold ControlCenter, renderControlCenterPanel, ServicesPanel. rewrite Ht, elem_of_app. left.
        apply list_elem_of_bind. exists a. split; [|exact Ha].
        unfold service_controls, ServiceActionBar. simpl. rewrite Hm, Hu. by left.
      * cbn [handle_all foldr ControlCenter.handle]. unfold selectPrimaryAction. rewrite Hu.
        apply sync_set. by apply sync_waits.
    + apply (move_end _ _ _ _ _ [] _ []). by exists (Done tt).
  - apply (press _ _ _ (mkControl "Unlock Service" (busy s2) None [EvRequestUnlock])).
    + unfold ControlCenter, UnlockServiceDialog. rewrite Hk. rewrite !elem_of_app. right. left. right. by left.
    + simpl. unfold busy. by rewrite Hp.
Qed.
End Exact.

(** ** Concrete checks *)

Definition services_page : Surroundings := mkSurroundings ServicesTab None [].

Lemma restart_offered :
  offers code_unit_compare services_page (initial_store sample_center) [EvRequestRestart (sample_service "svc-8" 8 true)].
Proof.
  apply (press _ _ _ (mkControl "Restart" false (Some ("restart:" ++ₛ "svc-8"))
           [EvRequestRestart (sample_service "svc-8" 8 true)])); [|done].
  right. right. right. right. by left.
Qed.

Lemma requests_gated_witness : sv_maintenance (sample_service "svc-8" 8 true) = false.
Proof.
  destruct (requests_gated code_unit_compare services_page (initial_store sample_center) _
    (EvRequestRestart (sample_service "svc-8" 8 true)) restart_offered)
    as (_ & _ & H & _); [by left|exact H].
Defined.

(** A filter without attacks, while a restart is pending. *)
Lemma busy_center_offers_witness :
  let v : Store := upd (app := ControlCenterApp) PendingAction (fun _ => Some "restart:svc-8")
    (upd (app := ControlCenterApp) AttackFiltersState (with_field FAttacker "alpha") (initial_store sample_center)) in
  offers code_unit_compare (mkSurroundings AttacksTab None []) v [EvResetFilters].
Proof.
  intros v. apply (busy_center_offers code_unit_compare (mkSurroundings AttacksTab None []) v [EvResetFilters]).
  - discriminate.
  - intros H. by inversion H.
  - by split_and!.
Defined.

(** The restart of a service, on its way. *)
Lemma center_mark_is_exact_witness :
  let s := initial_store sample_center in
  let m := handle_all no_text s [EvRequestRestart (sample_service "svc-8" 8 true)] in
  exists n l1 l2, [(settle s m).2] = l1 ++ n :: l2 /\ holds PendingAction no_action n.
Proof.
  intros s m.
  destruct (center_mark_is_exact no_text code_unit_compare sample_center
    (mkConfig (sync_refs (settle s m).1) (sync_refs (settle s m).1) [(settle s m).2] []))
    as [(E & _)|(_ & _ & l1 & n & l2 & E & Hn & _)].
  - apply rtc_once, (move_press _ _ _ s s [] [] m []).
    + left. exists services_page, [EvRequestRestart (sample_service "svc-8" 8 true)].
      split_and!; [|by intros []|reflexivity]. exact restart_offered.
    + do 2 apply sync_set. by apply sync_waits.
  - discriminate E.
  - exists n, l1, l2. split; [exact E|exact Hn].
Defined.
