(* ===== verification/Tier.v ===== *)
(** * The web tier between a page and the platform ([proxy.ts], [app/api])

    The composition of what the other files model one by one: a page performs a
    request of the browser; the edge proxy checks it; the route of its path calls
    the platform; the reply travels back and the page decodes it.  [tier_answer] is
    what the browser is answered; [seen] is what a page reads of the outcome of the
    call that a route made. *)

From S2P Require Import Prelude JsString JsNumber ApiUtils Io ApiHandler SessionToken Session ReactRuntime.

#[local] Open Scope string_scope.
#[local] Open Scope Z_scope.
#[local] Open Scope list_scope.
#[local] Open Scope js_scope.

(** ** The way back: a reply as the browser reads it *)

Section Received.
(** [JSON.parse] of a text, and the message of its error. *)
Variable parse_text : string -> option json.
Variable syntax_error : string.

(** A JSON body is written and read back; [decode] is the cast of the page. *)
Definition received {T} (decode : json -> T) (r : Reply) : Response T :=
  let value := match rp_body r with
               | JsonBody data => Some data
               | TextBody text => parse_text text
               | NoBody => None
               end in
  mkResponse (rp_status r) (rp_headers r)
    (match rp_body r with TextBody text => Some text | _ => None end)
    (match value with Some data => inr (decode data) | None => inl syntax_error end) value.

(** What a page sees of the outcome of a call made by a route. *)
Definition seen {T} (decode : json -> T) (fallback title : string) (answer : Result (option json))
    : Result T :=
  let failed e :=
    if is_error e && String.eqb (error_message e "") not_authenticated
    then Thrown (PlatformAPIError not_authenticated 403 None)
    else let d := upstreamErrorDetails e fallback in
         Thrown (new_PlatformAPIError (str_or (detail d) title) (err_status d) (retryAfter d)) in
  match answer with
  | Done (Some data) => Done (decode data)
  | Done None => failed (OtherError "Value is not JSON serializable")
  | Thrown e => failed e
  end.

(** An error that a failed call throws: its status is not one of success. *)
Definition failure (e : JsError) : Prop :=
  match e with PlatformAPIError _ st _ => ~ 200 <= st <= 299 | _ => True end.

Lemma failure_status e fallback :
  failure e -> let st := err_status (upstreamErrorDetails e fallback) in
  (200 <=? st) && (st <=? 299) = false.
Proof. destruct e as [m st r|m|]; simpl; [|done..]. intros H. lia. Qed.

Lemma json_read_back {T} (decode : json -> T) data path :
  processApiResponse (received decode (json_reply data)) path = Done (Some (decode data)).
Proof. done. Qed.

Lemma problem_read_back {T} (decode : json -> T) st title message headers path :
  (200 <=? st) && (st <=? 299) = false -> is_empty title = false ->
  (header_get "content-type" headers = Some "application/problem+json") ->
  processApiResponse
    (received decode (mkReply st headers (JsonBody (problem st title message)) None)) path =
  Thrown (new_PlatformAPIError (str_or message title) st (header_get "retry-after" headers)).
Proof.
  intros Hst Ht Hh. unfold processApiResponse, ok, received. cbn [status rp_status]. rewrite Hst.
  unfold parseApiError, content_type. cbn [resp_headers rp_headers negb]. rewrite Hh.
  cbn -[str_or new_PlatformAPIError header_get].
  unfold str_or, retry_after. cbn [resp_headers].
  by destruct (is_empty message); cbn [negb]; rewrite ?Ht.
Qed.

(** A failure crosses the tier: the page throws the message, the status and the
    delay of the call that the route made. *)
Lemma failure_read_back {T} (decode : json -> T) e fallback title path :
  failure e -> is_empty title = false ->
  processApiResponse (received decode (upstreamErrorResponse e fallback title)) path =
  result_bind (seen decode fallback title (Thrown e)) (fun data => Done (Some data)).
Proof.
  intros He Ht. unfold seen, upstreamErrorResponse.
  destruct (is_error e && String.eqb (error_message e "") not_authenticated) eqn:Ea.
  - apply andb_true_iff in Ea as [_ Ea]. apply String.eqb_eq in Ea. rewrite Ea.
    unfold problemResponse. rewrite problem_read_back by done. done.
  - pose proof (failure_status e fallback He) as Hst. cbn zeta in Hst.
    set (d := upstreamErrorDetails e fallback) in *.
    destruct (retryAfter d) as [v|] eqn:Er; [destruct (is_empty v) eqn:Ev|].
    + unfold problemResponse. rewrite problem_read_back by done.
      apply is_empty_spec in Ev as ->. done.
    + unfold reply_header, problemResponse. cbn [rp_status rp_headers rp_body rp_cookie].
      rewrite problem_read_back; [done|done|done|].
      by rewrite header_get_set_other.
    + unfold problemResponse. by rewrite problem_read_back.
Qed.
End Received.

(** What the platform's client throws is a failure. *)
Lemma processApiResponse_failure {T} (r : Response T) path e :
  processApiResponse r path = Thrown e -> failure e.
Proof.
  unfold processApiResponse. destruct (ok r) eqn:Hok; cbn [negb].
  - destruct (status r =? 204); [done|]. destruct (ok_json r); [by intros [= <-]|done].
  - destruct (parseApiError r path) as [m|e'] eqn:Ep; cbn [result_bind].
    + intros [= <-]. unfold new_PlatformAPIError. cbn [failure]. unfold ok in Hok. lia.
    + intros [= <-]. unfold parseApiError in Ep. revert Ep.
      destruct (negb _); [done|]. destruct (err_json r) as [p|]; [|done].
      destruct (truthy p); [|done]. unfold payload_message. by destruct p; intros [= <-].
Qed.

(** ** The way out: the edge and the routes *)

(** What a browser adds to the requests of its pages. *)
Record Browser := mkBrowser {
  b_host : string;
  b_protocol : string;
  b_headers : Headers
}.

Definition sent_by (b : Browser) (req : Request) : NextRequest :=
  mkNextRequest (r_method req) (r_url req) (b_host b) (b_protocol b)
    (b_headers b ++ r_headers req).

(** The paths that the proxy sees: [config.matcher]. *)
Definition matcher : list string :=
  ["/admin"; "/api/admin"; "/api/platform/services"; "/api/platform/session"].

Definition proxied (pathname : string) : bool :=
  existsb (fun p => String.eqb p pathname || starts_with (p ++ₛ "/") pathname) matcher.

(** A route that throws is answered by the framework. *)
Definition unhandled : Reply := mkReply 500 [] NoBody None.

Section Tier.
Variable hmac : list Z -> list Z -> list Z.
Variable json_parse : list Z -> option json.
Variable url_origin : string -> option string.
Variable parse_text : string -> option json.
Variable syntax_error : string.
Context (c : Ctx) (b : Browser).

(** The routes of the tier: a method, a path and a body. *)
Definition Routes : Type := string -> string -> json -> option (Io Reply).

(** The proxy first, then the route. *)
Definition through_proxy (request : NextRequest) (route : Io Reply) : Io Reply :=
  if proxied (n_pathname request) then
    let! answer := proxy hmac json_parse url_origin c request in
    match answer with
    | Next => route
    | Refused r => Ret r
    | RedirectTo path => Ret (mkReply 307 [("location", path)] NoBody None)
    end
  else route.

Definition serve (routes : Routes) (request : NextRequest) (body : json) : option (Io Reply) :=
  (fun route => try_catch (through_proxy request route) (fun _ => Ret unhandled)) <$>
  routes (n_method request) (n_pathname request) body.

(** What the browser is answered, and the calls that were made for it. *)
Definition tier_answer {T} (routes : Routes) (decode : json -> T) (up : Upstream)
    (calls : list Request) (req : Request) : list Request * Result (Response T) :=
  match serve routes (sent_by b req) (r_body req ?? JNull) with
  | None => (calls, Done (received parse_text syntax_error decode (mkReply 404 [] NoBody None)))
  | Some m =>
      match Io.run up calls m with
      | (calls', Done r) => (calls', Done (received parse_text syntax_error decode r))
      | (calls', Thrown e) => (calls', Thrown e)
      end
  end.

(** ** A session that holds *)

(** The cookie verifies, and the platform vouches for it, with a role that will do,
    whenever it is asked. *)
Definition signed_in (role_ok : string -> Prop) (up : Upstream) (token : string) : Prop :=
  trimmed (session_cookie c) = Some token /\
  is_empty (secret_of (env c)) = false /\
  (exists claims, verify hmac json_parse c token = Some claims /\ truthy claims = true) /\
  forall calls, exists v, vouches (up calls (Session.session_request (env c) token)) v /\
                        role_ok (v_role v).

Lemma run_vouched up calls token v :
  is_empty (trim token) = false -> vouches (up calls (Session.session_request (env c) token)) v ->
  exists v', Io.run up calls (validateParticipantSessionWithAPI (env c) token) =
    (calls ++ [Session.session_request (env c) token], Done (Validated v')) /\ v_role v' = v_role v.
Proof.
  intros Hne (r & fields & Hup & Hok & Hj & Hp & Ht & Hr).
  unfold validateParticipantSessionWithAPI. rewrite Hne.
  cbn [io_bind fetch try_catch Io.run app]. rewrite Hup. cbn [of_result io_bind try_catch].
  unfold read_session. rewrite Hok, Hj. cbn [negb of_result io_bind]. unfold prop_of.
  cbn [get_property io_bind]. rewrite Hp, Ht, Hr. eexists. split; reflexivity.
Qed.

Lemma run_organizerSession role_ok up calls token :
  signed_in role_ok up token ->
  exists v, Io.run up calls (organizerSession hmac json_parse c) =
    (calls ++ [Session.session_request (env c) token], Done (Some v)) /\ role_ok (v_role v).
Proof.
  intros (Hc & Hs & (claims & Hv & Ht) & Hup).
  destruct (Hup calls) as (v0 & Hv0 & Hrole). pose proof (trimmed_some _ _ Hc) as [Hne Htr].
  destruct (run_vouched up calls token v0) as (v & Hr & Hvr); [by rewrite Htr|done|].
  exists v. split; [|by rewrite Hvr]. unfold organizerSession. rewrite Hc, Hs, Hv, Ht.
  by rewrite run_let, Hr.
Qed.

Lemma run_session role_ok up calls token :
  signed_in role_ok up token -> trimmed (AD_PLATFORM_TEAM_JWT (env c)) = None ->
  exists v, Io.run up calls (getParticipantSession hmac json_parse c) =
    (calls ++ [Session.session_request (env c) token], Done (authenticatedSession token FromCookie v)).
Proof.
  intros (Hc & _ & (claims & Hv & Ht) & Hup) Hd.
  destruct (Hup calls) as (v0 & Hv0 & _). pose proof (trimmed_some _ _ Hc) as [Hne Htr].
  destruct (run_vouched up calls token v0) as (v & Hr & _); [by rewrite Htr|done|].
  exists v. unfold getParticipantSession. rewrite Hd, Hc, Hv, Ht. unfold validated_session.
  by rewrite run_let, Hr.
Qed.

(** The proxy asks, and lets through a request of the same origin: any outside of
    the organizers' paths, those of organizers under [/api/admin]. *)
Lemma run_proxy role_ok up calls token request :
  signed_in role_ok up token -> sameOriginBrowserMutation url_origin request = true ->
  starts_with "/admin" (n_pathname request) = false ->
  (starts_with "/api/admin/" (n_pathname request) = true -> forall role, role_ok role -> role = "organizer") ->
  Io.run up calls (proxy hmac json_parse url_origin c request) =
    (calls ++ [Session.session_request (env c) token], Done Next).
Proof.
  intros Hin Hsame Hp Ha.
  destruct (run_organizerSession role_ok up calls token Hin) as (v & Hr & Hrole).
  unfold proxy. rewrite Hsame. cbn [negb]. rewrite run_let, Hr. cbn [Io.run].
  destruct (starts_with "/api/admin/" _) eqn:E; [|by rewrite Hp].
  cbn [is_organizer]. by rewrite (Ha eq_refl _ Hrole).
Qed.
End Tier.

(** The platform is reached over a network whose failures are no answers. *)
Definition honest_network (up : Upstream) : Prop :=
  forall calls req e, up calls req = Thrown e -> failure e.

Lemma call_fails {T} (answer : Result (Response T)) path :
  (forall e, answer = Thrown e -> failure e) ->
  forall e, result_bind answer (fun r => processApiResponse r path) = Thrown e -> failure e.
Proof.
  intros H e. destruct answer as [r|e']; cbn [result_bind]; [apply processApiResponse_failure|].
  intros [= <-]. by apply H.
Qed.

(** ** Routes that answer with the value of one call *)

(** What such a route answers to what the call came to. *)
Definition call_reply (fallback title : string) (answer : Result (option json)) : Reply :=
  let failed e := upstreamErrorResponse e fallback title in
  match answer with
  | Done (Some data) => json_reply data
  | Done None => failed (OtherError "Value is not JSON serializable")
  | Thrown e => failed e
  end.

Lemma run_call_route up calls action fallback title calls' answer :
  Io.run up calls action = (calls', answer) ->
  Io.run up calls (guarded (let! data := action in next_json data) fallback title) =
  (calls', Done (call_reply fallback title answer)).
Proof.
  intros H. rewrite run_guarded, run_let, H. destruct answer as [[data|]|e]; done.
Qed.

(** The reply of the route, as the page reads it. *)
Lemma call_reply_seen {T} parse_text syntax_error (decode : json -> T) fallback title answer path :
  (forall e, answer = Thrown e -> failure e) -> is_empty title = false ->
  processApiResponse (received parse_text syntax_error decode (call_reply fallback title answer)) path =
  result_bind (seen decode fallback title answer) (fun data => Done (Some data)).
Proof.
  intros H Ht. destruct answer as [[data|]|e]; cbn [call_reply seen].
  - apply json_read_back.
  - by apply (failure_read_back _ _ decode (OtherError "Value is not JSON serializable")).
  - apply failure_read_back; [by apply H|done].
Qed.

(** The words that a page shows of a refused call. *)
Definition shown_error (fallback title : string) (e : JsError) : string :=
  str_or (error_message e fallback) title.

Lemma seen_error_message {T} (decode : json -> T) fallback title e label :
  exists e', seen decode fallback title (Thrown e) = Thrown e' /\
             error_message e' label = shown_error fallback title e.
Proof.
  unfold seen, shown_error.
  destruct (is_error e && String.eqb (error_message e "") not_authenticated) eqn:Ea.
  - apply andb_true_iff in Ea as [Hi Ea]. apply String.eqb_eq in Ea.
    eexists. split; [done|]. cbn [error_message]. by destruct e; cbn in *; subst.
  - eexists. split; [done|]. unfold new_PlatformAPIError. cbn [error_message].
    by destruct e.
Qed.
