(* ===== verification/ServiceTier.v ===== *)
(** * The service actions, from the click to the platform and back

    The routes under [app/api/platform/services], found by their path, behind the
    proxy; what the page reads when it asks for an unlock, an SSH session, a restart
    or a factory reset; and the unlock of a service from the dialog of the control
    centre ([components/dashboard/use-control-center.ts]) to the platform. *)

From S2P Require Import Prelude JsString JsNumber ApiUtils Io ApiHandler SessionToken Session PlatformApi PlatformRoutes ReactRuntime ReactRules DashboardTypes ControlCenter ControlCenterPage Tier.

#[local] Open Scope string_scope.
#[local] Open Scope Z_scope.
#[local] Open Scope list_scope.
#[local] Open Scope js_scope.

Section ServiceTier.
Variable hmac : list Z -> list Z -> list Z.
Variable json_parse : list Z -> option json.
Variable url_origin : string -> option string.
Variable parse_text : string -> option json.
Variable syntax_error : string.
Context (c : Ctx) (b : Browser).

Notation session := (getParticipantSession hmac json_parse c).

(** The route files under [app/api/platform/services/[challengeId]]: their place
    is their path, and each answers to POST only. *)
Definition service_route (pathname : string) (body : json) : option (Io Reply) :=
  match split_on "/" pathname with
  | root :: api :: platform :: services :: id :: operation =>
      if bool_decide ([root; api; platform; services] = [""; "api"; "platform"; "services"]) then
        if bool_decide (operation = ["unlock"]) then Some (unlock_POST c session id body)
        else if bool_decide (operation = ["ssh-session"]) then Some (ssh_session_POST c session (Some id))
        else if bool_decide (operation = ["reset"; "restart"])
        then Some (reset_restart_POST c session (Some id))
        else if bool_decide (operation = ["reset"; "factory"])
        then Some (reset_factory_POST c session (Some id))
        else None
      else None
  | _ => None
  end.

Definition service_routes : Routes := fun method pathname body =>
  if String.eqb method "POST" then service_route pathname body else None.

Notation service_answer := (tier_answer hmac json_parse url_origin parse_text syntax_error c b
  service_routes).

(** A participant of any role; no token of the environment shadows the cookie. *)
Definition participant_in (up : Upstream) (token : string) : Prop :=
  signed_in hmac json_parse c (fun _ => True) up token /\
  trimmed (AD_PLATFORM_TEAM_JWT (env c)) = None.

(** ** The four service actions *)

Inductive ServiceCall := Unlock (proof : string) | OpenSession | Restart | Reset.

Definition operation_of (call : ServiceCall) : string :=
  match call with
  | Unlock _ => "unlock"
  | OpenSession => "ssh-session"
  | Restart => "reset/restart"
  | Reset => "reset/factory"
  end.

(** The request of the page. *)
Definition page_request (number_text : num -> string) (target : ServiceRow) (call : ServiceCall)
    : Request :=
  let url := service_url number_text target (operation_of call) in
  match call with
  | Unlock proof => browser_send "POST" url (JObj [("proof", JStr proof)])
  | _ => browser_call "POST" url
  end.

(** The call that reaches the platform. *)
Definition platform_path (id : Z) (call : ServiceCall) : string :=
  "/api/v2/services/" ++ₛ num_to_string id ++ₛ "/" ++ₛ operation_of call.

Definition platform_request (token : string) (id : Z) (call : ServiceCall) : Request :=
  authenticatedFetch_request (apiBaseUrl (env c)) (platform_path id call) (Some token)
    (mkRequestInit "POST" (platformRequestHeaders c [])
       (match call with Unlock proof => Some (JObj [("proof", JStr (trim proof))]) | _ => None end)).

(** The words of the route when the call gives no better ones. *)
Definition fallback_of (call : ServiceCall) : string :=
  match call with
  | Unlock _ => "unlock request failed"
  | OpenSession => "ssh session creation failed"
  | Restart => "restart failed"
  | Reset => "factory reset failed"
  end.

Definition title_of (call : ServiceCall) : string :=
  match call with Unlock _ => "Unlock request failed" | _ => upstream_title end.

(** A proof of white space is refused by the route. *)
Definition sendable (call : ServiceCall) : bool :=
  match call with Unlock proof => negb (blank proof) | _ => true end.

Definition service_action (call : ServiceCall) (id : Z) : Io (option json) :=
  match call with
  | Unlock proof => unlockService c session id (trim proof)
  | OpenSession => createSSHSession c session id
  | Restart => restartService c session id
  | Reset => factoryResetService c session id
  end.

Lemma run_service_action up calls token call id :
  participant_in up token ->
  let asked := calls ++ [Session.session_request (env c) token] in
  let req := platform_request token id call in
  Io.run up calls (service_action call id) =
    (asked ++ [req],
     result_bind (up asked req) (fun r => processApiResponse r (platform_path id call))).
Proof.
  intros Hs asked req. destruct Hs as [Hs Hd].
  destruct (run_session _ _ _ _ up calls token Hs Hd) as [v Hr].
  destruct Hs as (Hc & _). apply trimmed_some in Hc as [Hne _].
  assert (H : forall init, i_headers init = [] -> forall path,
    Io.run up calls (participantFetch c session path init) =
    let req := authenticatedFetch_request (apiBaseUrl (env c)) path (Some token)
      (mkRequestInit (i_method init) (platformRequestHeaders c []) (i_body init)) in
    (asked ++ [req], result_bind (up asked req) (fun r => processApiResponse r path))).
  { intros init Hi path. unfold participantFetch, getParticipantToken.
    rewrite !run_let, Hr. cbn [authenticatedSession authenticated s_token]. rewrite Hne, Hi.
    cbn zeta. unfold authenticatedFetch, fetch. cbn [Io.run io_bind].
    fold asked. destruct (up asked _) as [r|e]; cbn [of_result Io.run io_bind result_bind]; [|done].
    by destruct (processApiResponse r path). }
  unfold service_action, unlockService, createSSHSession, restartService, factoryResetService.
  destruct call; by rewrite H.
Qed.

(** The path of a service action leads to its route. *)
Lemma service_route_found number_text target call id body :
  number_text (sv_challengeId target) = num_to_string id -> safe id -> 0 < id ->
  service_route (service_url number_text target (operation_of call)) body =
  Some (match call with
        | Unlock _ => unlock_POST c session (num_to_string id) body
        | OpenSession => ssh_session_POST c session (Some (num_to_string id))
        | Restart => reset_restart_POST c session (Some (num_to_string id))
        | Reset => reset_factory_POST c session (Some (num_to_string id))
        end).
Proof.
  intros Hn Hs Hp. unfold service_url. rewrite Hn. unfold service_route.
  assert (Hsplit : split_on "/" ("/api/platform/services/" ++ₛ num_to_string id ++ₛ "/" ++ₛ operation_of call)
    = ["" ; "api"; "platform"; "services"; num_to_string id] ++ split_on "/" (operation_of call)).
  { change ("/" ++ₛ operation_of call) with (String "/" (operation_of call)).
    assert (Hf : free_of "/" (num_to_string id)) by (apply num_to_string_free; [done|lia|done]).
    pose proof (split_on_app "/" (num_to_string id) (operation_of call) Hf) as Hx.
    change ("/api/platform/services/" ++ₛ num_to_string id ++ₛ String "/" (operation_of call))
      with ("" ++ₛ String "/" ("api" ++ₛ String "/" ("platform" ++ₛ String "/" ("services" ++ₛ
              String "/" (num_to_string id ++ₛ String "/" (operation_of call)))))).
    rewrite !split_on_app by done. done. }
  rewrite Hsplit. cbn [app]. by destruct call.
Qed.

Lemma run_service_route up calls token call id :
  participant_in up token -> safe id -> 0 < id -> sendable call = true ->
  let asked := calls ++ [Session.session_request (env c) token] in
  let req := platform_request token id call in
  let body := match call with Unlock proof => JObj [("proof", JStr proof)] | _ => JNull end in
  Io.run up calls
    (match call with
     | Unlock _ => unlock_POST c session (num_to_string id) body
     | OpenSession => ssh_session_POST c session (Some (num_to_string id))
     | Restart => reset_restart_POST c session (Some (num_to_string id))
     | Reset => reset_factory_POST c session (Some (num_to_string id))
     end) =
  (asked ++ [req],
   Done (call_reply (fallback_of call) (title_of call)
     (result_bind (up asked req) (fun r => processApiResponse r (platform_path id call))))).
Proof.
  intros Hs Hsafe Hpos Hsend asked req body.
  pose proof (run_service_action up calls token call id Hs) as Hr. cbn zeta in Hr.
  assert (Hid : forall idName actionName actionFn,
    handleParticipantIdRoute (Some (num_to_string id)) idName actionName actionFn =
    guarded (let! data := actionFn id in next_json data) (actionName ++ₛ " failed") upstream_title).
  { intros. unfold handleParticipantIdRoute. rewrite num_text_nonempty by (done || lia).
    by rewrite positive_id_num. }
  destruct call as [proof| | |]; cbn [sendable] in Hsend.
  - unfold unlock_POST. rewrite positive_id_num by done.
    subst body. cbn [opt_field field String.eqb Ascii.eqb Bool.eqb opt_trim io_bind mbind option_bind].
    unfold or_undefined. unfold blank in Hsend. apply negb_true_iff in Hsend. rewrite Hsend.
    by apply run_call_route.
  - unfold ssh_session_POST. rewrite Hid. by apply run_call_route.
  - unfold reset_restart_POST. rewrite Hid. by apply run_call_route.
  - unfold reset_factory_POST. rewrite Hid. by apply run_call_route.
Qed.

(** The conditions under which a service action reaches the platform. *)
Record reaches (up : Upstream) (token : string) (number_text : num -> string) (target : ServiceRow)
    (call : ServiceCall) (id : Z) : Prop := {
  rc_signed_in : participant_in up token;
  rc_network : honest_network up;
  rc_same_origin :
    sameOriginBrowserMutation url_origin (sent_by b (page_request number_text target call)) = true;
  rc_id : number_text (sv_challengeId target) = num_to_string id;
  rc_safe : safe id;
  rc_positive : 0 < id;
  rc_sendable : sendable call = true
}.

Definition checks (token : string) : list Request :=
  [Session.session_request (env c) token; Session.session_request (env c) token].

Lemma proxied_service rest : proxied ("/api/platform/services/" ++ₛ rest) = true.
Proof.
  unfold proxied, matcher. cbn [existsb].
  assert (H : starts_with ("/api/platform/services" ++ₛ "/") ("/api/platform/services/" ++ₛ rest) = true)
    by (apply starts_with_spec; by exists rest).
  rewrite H, !orb_true_r. reflexivity.
Qed.

Lemma service_answer_spec {T} (decode : json -> T) up calls token number_text target call id :
  reaches up token number_text target call id ->
  let asked := calls ++ checks token in
  let req := platform_request token id call in
  service_answer decode up calls (page_request number_text target call) =
  (asked ++ [req],
   Done (received parse_text syntax_error decode (call_reply (fallback_of call) (title_of call)
     (result_bind (up asked req) (fun r => processApiResponse r (platform_path id call)))))).
Proof.
  intros [Hs Hnet Hsame Hid Hsafe Hpos Hsend] asked req. unfold tier_answer, serve, service_routes.
  assert (Hm : String.eqb (n_method (sent_by b (page_request number_text target call))) "POST" = true)
    by by destruct call.
  assert (Hp : n_pathname (sent_by b (page_request number_text target call)) =
               service_url number_text target (operation_of call)) by by destruct call.
  rewrite Hm, Hp. erewrite service_route_found by eassumption. cbn [fmap option_fmap option_map].
  rewrite run_try_catch. unfold through_proxy. rewrite Hp.
  unfold service_url at 1. rewrite proxied_service.
  rewrite run_let, (run_proxy _ _ _ _ (fun _ => True) _ _ token)
    by (apply Hs || done || by rewrite Hp).
  assert (Hb : r_body (page_request number_text target call) ?? JNull =
    match call with Unlock proof => JObj [("proof", JStr proof)] | _ => JNull end) by by destruct call.
  rewrite Hb, (run_service_route up _ token call id) by done.
  unfold asked, checks. change (?a :: [?b]) with ([a] ++ [b]). by rewrite app_assoc.
Qed.

(** C12: The tier is transparent for the service actions of the control centre.  When
    the participant is signed in and the request is of the same origin, a click costs
    three calls of the platform, the last of which is the action itself with the
    participant's token; and the page reads exactly what the platform answered: its
    JSON, or the message, the status and the delay of its refusal. *)
Theorem tier_is_transparent {T} (decode : json -> T) up calls token number_text target call id path :
  reaches up token number_text target call id ->
  let asked := calls ++ checks token in
  let req := platform_request token id call in
  authorized c token req /\ r_method req = "POST" /\
  r_url req = apiBaseUrl (env c) ++ₛ platform_path id call /\
  exists r,
    service_answer decode up calls (page_request number_text target call) = (asked ++ [req], Done r) /\
    payload_of (Done r) path =
      seen decode (fallback_of call) (title_of call)
        (result_bind (up asked req) (fun answer => processApiResponse answer (platform_path id call))).
Proof.
  intros Hr asked req. split_and!; [|done|done|].
  - destruct Hr as [[(Hc & _) _] _ _ _ _ _ _]. apply trimmed_some in Hc as [Hne _].
    apply (authorized_fetch c token _
      (mkRequestInit "POST" [] (match call with Unlock p => Some (JObj [("proof", JStr (trim p))]) | _ => None end)));
      [done|done|]. unfold platform_path.
    apply (api_url _ ("services/" ++ₛ num_to_string id ++ₛ "/" ++ₛ operation_of call)).
  - eexists. split; [by apply service_answer_spec|]. unfold payload_of. cbn [result_bind].
    rewrite call_reply_seen; [by destruct (seen _ _ _ _)| |by destruct call]. apply call_fails.
    intros e. apply (rc_network _ _ _ _ _ _ Hr).
Qed.

(** ** From the click to the screen *)

(** C13: A click on Unlock, from the dialog to the platform and back.  If the platform
    accepts the proof, the row is unlocked on screen and the states are read again; if
    it refuses, the rows and the dialog stay as they were and the words of the
    platform are shown; an acceptance without a body is taken for a refusal. *)
Theorem unlock_click_end_to_end (oracle : Oracle (app := ControlCenterApp)) up calls token number_text
    t (s v : Store) target id :
  let call := Unlock (v Proof_) in
  let ask := unlock_request number_text target (v Proof_) in
  v UnlockTarget = Some target ->
  reaches up token number_text target call id ->
  oracle t ask = (service_answer (fun data => data) up calls (page_request number_text target call)).2 ->
  let answer := up (calls ++ checks token) (platform_request token id call) in
  let r := ReactRuntime.run oracle t s (requestUnlock number_text v) in
  let refused message :=
    o_trace r = t ++ [ask] /\ o_store r Rows = s Rows /\ o_store r UnlockTarget = s UnlockTarget /\
    o_store r ActionError = Some message in
  o_store r PendingAction = None /\
  match result_bind answer (fun a => processApiResponse a (platform_path id call)) with
  | Done (Some _) =>
      let marked := map_if (same_row target) mark_unlocked (s Rows) in
      o_trace r = t ++ [ask; states_read] /\
      (o_store r Rows = marked \/
       exists states, o_store r Rows = merge_states states (sv_challengeId target) marked)
  | Done None => refused "Value is not JSON serializable"
  | Thrown e => refused (shown_error (fallback_of call) (title_of call) e)
  end.
Proof.
  intros call ask Ht Hr Ho answer r refused.
  rewrite (service_answer_spec (fun data => data) up calls token number_text target call id Hr) in Ho.
  cbn [snd] in Ho. fold answer in Ho.
  set (came := result_bind answer _) in *.
  assert (Hf : forall e, came = Thrown e -> failure e)
    by (apply call_fails; intros e; apply (rc_network _ _ _ _ _ _ Hr)).
  pose proof (run_requestUnlock oracle number_text t s v target Ht) as Hrun.
  cbn zeta in Hrun. fold ask in Hrun. fold r in Hrun. destruct Hrun as [Hpend Hrun].
  split; [exact Hpend|]. rewrite Ho in Hrun. unfold void_of in Hrun. cbn [result_bind] in Hrun.
  rewrite (call_reply_seen _ _ (fun data => data) _ (title_of call) came _ Hf eq_refl) in Hrun.
  destruct came as [[data|]|e] eqn:Ec.
  - cbn [seen result_bind] in Hrun. destruct Hrun as [Htr Hrun]. split; [exact Htr|].
    destruct (payload_of _ _) as [states|e]; [right; exists states|left]; apply Hrun.
  - exact Hrun.
  - destruct (seen_error_message (fun data : json => data) (fallback_of call) (title_of call) e "unlock request failed")
      as (e' & He & Hm).
    rewrite He in Hrun. cbn [result_bind] in Hrun. rewrite Hm in Hrun. exact Hrun.
Qed.
End ServiceTier.

(** ** Witnesses *)

Section Checks.
Let arena : Env := mkEnv None None None None None None (Some "secret") None.
Definition tier_cookie : string := issue_token sample_hmac [1; 2; 3] [4; 5] "secret".
Definition tier_ctx : Ctx := mkCtx arena None (Some tier_cookie) 1700000000000.
Definition tier_browser : Browser := mkBrowser "arena.example" "https:" [("sec-fetch-site", "same-origin")].

(** A platform that knows the player and refuses the proof. *)
Definition refusing_platform : Upstream := fun _ req =>
  if String.eqb (r_url req) "http://127.0.0.1:8080/api/v2/session"
  then Done (mkResponse 200 [] None
         (inr (JObj [("player_id", JNum 7); ("team_id", JNum 1); ("role", JStr "member")])) None)
  else Done (mkResponse 422 [("content-type", "application/problem+json")] None (inl "none")
         (Some (JObj [("title", JStr "Unlock refused"); ("detail", JStr "proof does not match")]))).

Definition tier_number (x : num) : string :=
  match num_integer x with Some n => num_to_string n | None => "NaN" end.

Definition through_tier : Oracle (app := ControlCenterApp) := fun t o =>
  match o return Answer o with
  | OpFetch req p =>
      match p return Result (Response (CenterPayloadTy p)) with
      | PUnlock => (tier_answer sample_hmac sample_parse (fun _ => None) (fun _ => None) "no JSON"
                      tier_ctx tier_browser (service_routes sample_hmac sample_parse tier_ctx)
                      (fun data => data) refusing_platform [] req).2
      | _ => Thrown (OtherError "offline")
      end
  | o => offline t o
  end.

Lemma reaches_sample call :
  sendable call = true ->
  reaches sample_hmac sample_parse (fun _ => None) tier_ctx tier_browser refusing_platform tier_cookie
    tier_number (sample_service "svc-7" 7 false) call 7.
Proof.
  intros H. constructor; [| |by destruct call|reflexivity|reflexivity|lia|done].
  - split; [|reflexivity]. split_and!; [vm_compute; reflexivity|reflexivity| |].
    + eexists. split; vm_compute; reflexivity.
    + intros calls. exists (mkValidated 7 1 "" "" "" "" "member").
      split; [|done]. eexists _, _. repeat split; vm_compute; reflexivity.
  - intros calls req e. unfold refusing_platform. by destruct (String.eqb _ _).
Qed.
End Checks.

Lemma tier_is_transparent_witness :
  exists r, tier_answer sample_hmac sample_parse (fun _ => None) (fun _ => None) "no JSON" tier_ctx
      tier_browser (service_routes sample_hmac sample_parse tier_ctx) (fun data => data) refusing_platform []
      (page_request tier_number (sample_service "svc-7" 7 false) Restart) =
    (checks tier_ctx tier_cookie ++ [platform_request tier_ctx tier_cookie 7 Restart], Done r) /\
    payload_of (Done r) "restart request" =
      Thrown (PlatformAPIError "proof does not match" 422 None).
Proof.
  destruct (tier_is_transparent sample_hmac sample_parse (fun _ => None) (fun _ => None) "no JSON"
    tier_ctx tier_browser (fun data => data) refusing_platform [] tier_cookie tier_number
    (sample_service "svc-7" 7 false) Restart 7 "restart request" (reaches_sample Restart eq_refl))
    as (_ & _ & _ & r & Hr & Hp).
  exists r. split; [exact Hr|]. etrans; [exact Hp|]. vm_compute. reflexivity.
Defined.

Lemma unlock_click_end_to_end_witness :
  let r := ReactRuntime.run through_tier [] selecting (requestUnlock tier_number selecting) in
  o_store r Rows = selecting Rows /\ o_store r ActionError = Some "proof does not match".
Proof.
  intros r.
  destruct (unlock_click_end_to_end sample_hmac sample_parse (fun _ => None) (fun _ => None) "no JSON"
    tier_ctx tier_browser through_tier refusing_platform [] tier_cookie tier_number [] selecting
    selecting (sample_service "svc-7" 7 false) 7 eq_refl (reaches_sample (Unlock "unlock-proof-from-own-service") eq_refl) eq_refl)
    as [_ H].
  vm_compute in H. destruct H as (_ & Hrows & _ & Herror). split; [exact Hrows|exact Herror].
Defined.
