(* ===== verification/FlagTier.v ===== *)
(** * A batch of flags, from the text area to the platform and back

    The submission of [components/dashboard/flag-submit-panel.tsx] through the route of
    [app/api/platform/submit] to the platform's API: what is typed is what the
    platform receives, and what it answers is what the panel shows. *)

From S2P Require Import Prelude JsString JsNumber ApiUtils Io ApiHandler SessionToken Session PlatformApi PlatformRoutes ReactRuntime ReactRules Forms ParticipantForms Tier ServiceTier.

#[local] Open Scope string_scope.
#[local] Open Scope Z_scope.
#[local] Open Scope list_scope.
#[local] Open Scope js_scope.

Import FlagSubmit.

(** A page that throws [new Error(await parseApiError(...))] shows the words that
    [processApiResponse] throws. *)
Lemma value_matches {T} (r : Response T) path :
  match processApiResponse r path with
  | Done (Some v) => value_of (Done r) path = Done v
  | Done None => True
  | Thrown e => value_of (Done r) path = Thrown (OtherError (error_message e ""))
  end.
Proof.
  unfold processApiResponse, value_of, checked_of. cbn [result_bind].
  destruct (ok r) eqn:Hok; cbn [negb].
  - destruct (status r =? 204); [done|]. cbn [result_bind]. unfold json_of. by destruct (ok_json r).
  - unfold parseApiError. destruct (negb _); [done|]. destruct (err_json r) as [p|]; [|done].
    destruct (truthy p); [|done]. unfold payload_message. by destruct p.
Qed.

Lemma call_reply_value {T} parse_text syntax_error (decode : json -> T) fallback title answer path :
  (forall e, answer = Thrown e -> failure e) -> is_empty title = false ->
  value_of (Done (received parse_text syntax_error decode (call_reply fallback title answer))) path =
  match answer with
  | Done (Some data) => Done (decode data)
  | Done None => Thrown (OtherError "Value is not JSON serializable")
  | Thrown e => Thrown (OtherError (shown_error fallback title e))
  end.
Proof.
  intros H Ht.
  pose proof (value_matches (received parse_text syntax_error decode (call_reply fallback title answer)) path) as Hv.
  rewrite call_reply_seen in Hv by done.
  destruct answer as [[data|]|e]; [exact Hv|exact Hv|].
  destruct (seen_error_message decode fallback title e "") as (e' & He & Hm).
  rewrite He in Hv. cbn [result_bind] in Hv. by rewrite Hm in Hv.
Qed.

(** The flags of a request are those of the page: the route trims what is trimmed. *)
Lemma read_flags_clean flags :
  Forall clean flags -> read_flags (JObj [("flags", JArr (JStr <$> flags))]) = flags.
Proof.
  intros H. unfold read_flags. cbn [opt_field field String.eqb Ascii.eqb Bool.eqb].
  rewrite <- list_fmap_compose. exact (clean_non_blank flags H).
Qed.

Lemma separators_of_text text :
  exists first rest, text = lay_out first rest /\ separator_free first /\
    Forall separator_free rest.*2 /\ Forall (fun c => is_separator c = true) rest.*1.
Proof.
  induction text as [|c text (first & rest & -> & Hf & Hr & Hs)]; [by exists "", []|].
  destruct (is_separator c) eqn:Ec.
  - exists "", ((c, first) :: rest). csimpl. split_and!; try done; by constructor.
  - exists (String c first), rest. split_and!; try done; [by destruct rest as [|[]]|].
    unfold separator_free in *. simpl. by rewrite Ec.
Qed.

Lemma parseFlags_clean text : Forall clean (parseFlags text).
Proof.
  destruct (separators_of_text text) as (first & rest & -> & Hf & Hr & Hs).
  unfold parseFlags. fold (non_blank (split_runs false "" (lay_out first rest))).
  rewrite split_runs_lay_out by done. apply non_blank_clean. by constructor.
Qed.

Section FlagTier.
Variable hmac : list Z -> list Z -> list Z.
Variable json_parse : list Z -> option json.
Variable url_origin : string -> option string.
Variable parse_text : string -> option json.
Variable syntax_error : string.
Context (c : Ctx) (b : Browser).

Notation session := (getParticipantSession hmac json_parse c).
Notation participant_in := (participant_in hmac json_parse c).

Definition submit_routes : Routes := fun method pathname body =>
  if String.eqb method "POST" && String.eqb pathname "/api/platform/submit"
  then Some (submit_POST c session body) else None.

(** The call that reaches the platform. *)
Definition flags_request (token : string) (flags : list string) : Request :=
  authenticatedFetch_request (apiBaseUrl (env c)) "/api/v2/submit" (Some token)
    (mkRequestInit "POST" (platformRequestHeaders c [])
       (Some (JObj [("flags", JArr (JStr <$> flags))]))).

Lemma run_submitFlags up calls token flags :
  participant_in up token ->
  let asked := calls ++ [Session.session_request (env c) token] in
  let req := flags_request token flags in
  Io.run up calls (submitFlags c session flags) =
    (asked ++ [req],
     result_bind (up asked req) (fun r => processApiResponse r "/api/v2/submit")).
Proof.
  intros [Hs Hd] asked req.
  destruct (run_session _ _ _ _ up calls token Hs Hd) as [v Hr].
  destruct Hs as (Hc & _). apply trimmed_some in Hc as [Hne _].
  unfold submitFlags, participantFetch, getParticipantToken.
  rewrite !run_let, Hr. cbn [authenticatedSession authenticated s_token]. rewrite Hne.
  unfold authenticatedFetch, fetch. cbn [Io.run io_bind].
  fold asked. change (authenticatedFetch_request (apiBaseUrl (env c)) "/api/v2/submit" (Some token) _) with req.
  destruct (up asked req) as [r|e]; cbn [of_result Io.run io_bind result_bind]; [|done].
  by destruct (processApiResponse r "/api/v2/submit").
Qed.

Notation flag_answer := (tier_answer hmac json_parse url_origin parse_text syntax_error c b submit_routes).

Lemma flag_answer_spec {T} (decode : json -> T) up calls token flags :
  participant_in up token -> Forall clean flags -> flags <> [] ->
  let asked := calls ++ [Session.session_request (env c) token] in
  let req := flags_request token flags in
  flag_answer decode up calls (submit_request flags) =
  (asked ++ [req],
   Done (received parse_text syntax_error decode (call_reply "submit failed" "Submit unavailable"
     (result_bind (up asked req) (fun r => processApiResponse r "/api/v2/submit"))))).
Proof.
  intros Hs Hc Hne asked req. unfold tier_answer, serve, submit_routes.
  cbn [sent_by submit_request browser_send n_method n_pathname r_method r_url r_body from_option
       String.eqb Ascii.eqb Bool.eqb andb fmap option_fmap option_map].
  rewrite run_try_catch. unfold through_proxy.
  change (proxied _) with false. cbn iota.
  unfold submit_POST. cbn [id]. rewrite read_flags_clean by done.
  destruct flags as [|flag others]; [done|].
  by rewrite (run_call_route _ _ _ _ _ _ _ (run_submitFlags up calls token (flag :: others) Hs)).
Qed.

(** C14: A batch of flags, from the text area to the platform and back.  A signed-in
    participant's submission costs one check of the session and one call, with the
    participant's token and exactly the flags that the text holds; the platform's
    verdicts are shown as they are, and the text is cleared when it accepted a flag;
    a refusal, or a verdict without a body, keeps the text and shows the words of the
    platform. *)
Theorem flags_reach_the_platform (oracle : Oracle (app := FlagApp)) (decode : json -> Verdicts) up calls
    token t (s v : Store) :
  let flags := parseFlags (v RawFlags) in
  let ask := OpFetch (submit_request flags) tt in
  participant_in up token -> honest_network up -> flags <> [] ->
  oracle t ask = (flag_answer decode up calls (submit_request flags)).2 ->
  let asked := calls ++ [Session.session_request (env c) token] in
  let req := flags_request token flags in
  let r := ReactRuntime.run oracle t s (submitFlagBatch v) in
  let refused message :=
    o_store r FlagError = Some message /\ o_store r RawFlags = s RawFlags /\ o_store r FlagVerdicts = [] in
  (flag_answer decode up calls (submit_request flags)).1 = asked ++ [req] /\
  authorized c token req /\ r_url req = apiBaseUrl (env c) ++ₛ "/api/v2/submit" /\
  r_body req = Some (JObj [("flags", JArr (JStr <$> flags))]) /\
  o_trace r = t ++ [ask] /\ o_store r FlagPending = false /\
  match result_bind (up asked req) (fun a => processApiResponse a "/api/v2/submit") with
  | Done (Some data) =>
      let payload := decode data in
      o_store r FlagVerdicts = vs_results payload ?? [] /\ o_store r FlagNote = Some (flag_note payload) /\
      o_store r RawFlags = if (vs_accepted_count payload ?? 0) >? 0 then "" else s RawFlags
  | Done None => refused "Value is not JSON serializable"
  | Thrown e => refused (shown_error "submit failed" "Submit unavailable" e)
  end.
Proof.
  intros flags ask Hs Hnet Hne Ho asked req r refused.
  assert (Hc : Forall clean flags) by apply parseFlags_clean.
  pose proof (flag_answer_spec decode up calls token flags Hs Hc Hne) as Ha. cbn zeta in Ha.
  fold asked req in Ha. rewrite Ha in Ho |- *. cbn [fst snd] in Ho |- *.
  pose proof (FlagFacts.submitFlagBatch_spec oracle t s v) as Hp. cbn zeta in Hp. fold flags in Hp.
  fold ask in Hp. fold r in Hp. destruct Hp as [_ Hp].
  assert (Htok : is_empty token = false) by (destruct Hs as [(Hc' & _) _]; apply trimmed_some in Hc'; apply Hc').
  set (came := result_bind (up asked req) _) in *.
  assert (Hfail : forall e, came = Thrown e -> failure e) by (apply call_fails; intros e; apply Hnet).
  split; [done|]. split.
  { apply (authorized_fetch c token _ (mkRequestInit "POST" []
      (Some (JObj [("flags", JArr (JStr <$> flags))])))); [done|done|]. apply (api_url _ "submit"). }
  split; [done|]. split; [done|].
  destruct flags as [|flag others]; [done|]. destruct Hp as (Htr & Hpend & Hp).
  split; [exact Htr|]. split; [exact Hpend|].
  rewrite Ho, (call_reply_value _ _ decode _ "Submit unavailable" came _ Hfail eq_refl) in Hp.
  destruct came as [[data|]|e]; unfold refused.
  - destruct Hp as (? & ? & _ & ?). by split_and!.
  - destruct Hp as (? & _ & ? & ?). by split_and!.
  - destruct Hp as (? & _ & ? & ?). by split_and!.
Qed.
End FlagTier.

(** ** Witness *)

(** A platform that knows the player and accepts the first of two flags. *)
Definition scoring_platform : Upstream := fun _ req =>
  if String.eqb (r_url req) "http://127.0.0.1:8080/api/v2/session"
  then Done (mkResponse 200 [] None
         (inr (JObj [("player_id", JNum 7); ("team_id", JNum 1); ("role", JStr "member")])) None)
  else Done (mkResponse 200 [("content-type", "application/json")] None
         (inr (JObj [("accepted_count", JNum 1); ("rejected_count", JNum 1)])) None).

Definition read_verdicts (data : json) : Verdicts :=
  let count name := match data with
                    | JObj fields => match field name fields with Some (JNum n) => Some n | _ => None end
                    | _ => None
                    end in
  mkVerdicts None (count "accepted_count") (count "rejected_count").

Definition flag_browser : Oracle (app := FlagApp) := fun t o =>
  match o return Answer o with
  | OpFetch req _ =>
      (tier_answer sample_hmac sample_parse (fun _ => None) (fun _ => None) "no JSON" tier_ctx tier_browser
         (submit_routes sample_hmac sample_parse tier_ctx) read_verdicts scoring_platform [] req).2
  | o => offline t o
  end.

Definition typed : Store (app := FlagApp) := fun cell =>
  match cell return FlagCellTy cell with
  | RawFlags => "FLAG{a}, FLAG{b}"
  | FlagPending => false
  | FlagError | FlagNote => None
  | FlagVerdicts => []
  end.

Lemma flags_reach_the_platform_witness :
  let r := ReactRuntime.run flag_browser [] typed (submitFlagBatch typed) in
  o_store r FlagNote = Some "Accepted 1, rejected 1." /\ o_store r RawFlags = "".
Proof.
  intros r.
  destruct (flags_reach_the_platform sample_hmac sample_parse (fun _ => None) (fun _ => None) "no JSON"
    tier_ctx tier_browser flag_browser read_verdicts scoring_platform [] tier_cookie [] typed typed)
    as (_ & _ & _ & _ & _ & _ & H).
  - split; [|reflexivity]. split_and!; [vm_compute; reflexivity|reflexivity| |].
    + eexists. split; vm_compute; reflexivity.
    + intros calls. exists (mkValidated 7 1 "" "" "" "" "member").
      split; [|done]. eexists _, _. repeat split; vm_compute; reflexivity.
  - intros calls req e. unfold scoring_platform. by destruct (String.eqb _ _).
  - discriminate.
  - reflexivity.
  - vm_compute in H. destruct H as (_ & Hnote & Hraw). split; [exact Hnote|exact Hraw].
Defined.
