(* ===== verification/AdminTypes.v ===== *)
(** * The data of the organizer dashboard ([lib/admin-dashboard-types.ts])

    One record per type, with the fields of the source; [option] is an optional
    member or a member that may be null. Ids, counts, ticks and ports are integers
    ([Z]); scores and metric values, which are [float64] on the wire, are binary64
    numbers ([num]); the string unions are strings. *)

From S2P Require Import Prelude JsString JsNumber DashboardUtils.

Record AdminTeam := mkAdminTeam {
  tm_id : Z;
  tm_name : string;
  tm_contact_email : string;
  tm_join_key : string;
  tm_player_count : Z;
  tm_deployed_challenges : Z;
  tm_active : bool;
  tm_deactivated_at : option string;
  tm_play_from_tick : option Z
}.

Record AdminPlayer := mkAdminPlayer {
  pl_id : Z;
  pl_team_id : Z;
  pl_team_name : string;
  pl_display_name : string;
  pl_email : string;
  pl_role : string;
  pl_wireguard_peer : string;
  pl_wireguard_address : string;
  pl_wireguard_status : string;
  pl_wireguard_issued_at : string;
  pl_wireguard_revoked_at : option string;
  pl_created_at : string;
  pl_active : bool;
  pl_deactivated_at : option string
}.

Record AdminWireGuardPeer := mkAdminWireGuardPeer {
  wg_player_id : Z;
  wg_team_id : Z;
  wg_team_name : string;
  wg_display_name : string;
  wg_email : option string;
  wg_wireguard_peer : string;
  wg_address : string;
  wg_status : string;
  wg_server_endpoint : string;
  wg_server_public_key : string;
  wg_client_public_key : string;
  wg_allowed_ips : string;
  wg_dns : string;
  wg_config : string;
  wg_download_name : string;
  wg_issued_at : string;
  wg_revoked_at : option string
}.

Record AdminWireGuardGatewayStatus := mkAdminWireGuardGatewayStatus {
  gw_state : string;
  gw_mode : string;
  gw_interface : option string;
  gw_firewall_backend : option string;
  gw_config_path : option string;
  gw_peers_path : option string;
  gw_rules_path : option string;
  gw_status_path : option string;
  gw_peers_total : Z;
  gw_peers_active : Z;
  gw_peers_revoked : Z;
  gw_revision : option string;
  gw_applied_at : option string;
  gw_last_error : option string
}.

Record AdminControllerAccessStatus := mkAdminControllerAccessStatus {
  ac_state : string;
  ac_mode : string;
  ac_interface : option string;
  ac_firewall_backend : option string;
  ac_rules_path : option string;
  ac_status_path : option string;
  ac_policies_total : Z;
  ac_ssh_open_services : Z;
  ac_ssh_locked_services : Z;
  ac_allowed_peers_total : Z;
  ac_revision : option string;
  ac_applied_at : option string;
  ac_last_error : option string
}.

Record AdminChallengeValidationResult := mkAdminChallengeValidationResult {
  va_challenge_id : Z;
  va_name : string;
  va_baseline_image : string;
  va_checker_image : string;
  va_status : string;
  va_baseline_ssh_contract_ok : bool;
  va_checker_contract_ok : bool;
  va_service_state_contract_ok : bool;
  va_checked_at : string;
  va_message : option string
}.

Record AdminChallenge := mkAdminChallenge {
  ch_id : Z;
  ch_name : string;
  ch_baseline_image : string;
  ch_checker_image : string;
  ch_source_bundle_path : string;
  ch_service_port : Z;
  ch_service_subnet_octet : Z;
  ch_egress_enabled : bool;
  ch_published : bool;
  ch_maintenance : bool;
  ch_maintenance_at : option string;
  ch_play_from_tick : option Z;
  ch_unlock_proof_epoch : option Z;
  ch_deployed_teams : Z;
  ch_total_teams : Z;
  ch_runtime_status : string;
  ch_queued_teams : Z;
  ch_ready_teams : Z;
  ch_created_at : string;
  ch_last_validation : option AdminChallengeValidationResult
}.

Record AdminDeployment := mkAdminDeployment {
  dp_job_id : Z;
  dp_challenge_id : Z;
  dp_challenge_name : string;
  dp_status : string;
  dp_published : bool;
  dp_deployed_team_count : Z;
  dp_total_team_count : Z;
  dp_queued_team_count : Z;
  dp_ready_team_count : Z;
  dp_created_at : string;
  dp_completed_at : option string
}.

Record AdminDeploymentJob := mkAdminDeploymentJob {
  dj_id : Z;
  dj_challenge_id : Z;
  dj_challenge_name : string;
  dj_status : string;
  dj_target_team_count : Z;
  dj_queued_team_count : Z;
  dj_ready_team_count : Z;
  dj_failed_team_count : Z;
  dj_created_at : string;
  dj_completed_at : option string
}.

Record AdminReconcileResult := mkAdminReconcileResult {
  rc_processed_jobs : Z;
  rc_processed_instances : Z;
  rc_completed_jobs : Z
}.

Record AdminGameTickStatus := mkAdminGameTickStatus {
  tk_id : Z;
  tk_status : string;
  tk_total_checker_runs : Z;
  tk_successful_checker_runs : Z;
  tk_failed_checker_runs : Z;
  tk_skipped_checker_runs : Z;
  tk_started_at : string;
  tk_completed_at : option string;
  tk_message : option string
}.

Record AdminGameSchedulerStatus := mkAdminGameSchedulerStatus {
  sc_state : string;
  sc_interval_seconds : Z;
  sc_last_run_at : option string;
  sc_next_run_at : option string;
  sc_last_tick_id : option Z;
  sc_last_error : option string
}.

Record AdminGameMatchStatus := mkAdminGameMatchStatus {
  mt_state : string;
  mt_started_at : option string;
  mt_ended_at : option string;
  mt_scheduled_start_at : option string;
  mt_scheduled_end_at : option string;
  mt_accepting_submissions : bool
}.

Record AdminGameSchedulerEvent := mkAdminGameSchedulerEvent {
  se_id : Z;
  se_event_type : string;
  se_source : string;
  se_state : string;
  se_tick_id : option Z;
  se_message : option string;
  se_created_at : string
}.

Definition AdminSchedulerEventPage := Page AdminGameSchedulerEvent.

Record AdminGameStatus := mkAdminGameStatus {
  gs_current_tick : option AdminGameTickStatus;
  gs_match : option AdminGameMatchStatus;
  gs_scheduler : option AdminGameSchedulerStatus;
  gs_total_ticks : Z;
  gs_total_checker_runs : Z;
  gs_successful_checker_runs : Z;
  gs_failed_checker_runs : Z;
  gs_skipped_checker_runs : Z
}.

Record AdminCheckerRun := mkAdminCheckerRun {
  cr_id : Z;
  cr_tick_id : Z;
  cr_team_id : Z;
  cr_team_name : string;
  cr_challenge_id : Z;
  cr_challenge_name : string;
  cr_phase : string;
  cr_target : string;
  cr_checker_image : string;
  cr_status : string;
  cr_exit_code : Z;
  cr_message : option string;
  cr_output : option string;
  cr_service_state : option string;
  cr_state_phase : option string;
  cr_state_message : option string;
  cr_checked_at : string
}.

Definition AdminCheckerRunPage := Page AdminCheckerRun.

Record AdminGameScoreServiceRow := mkAdminGameScoreServiceRow {
  ss_challenge_id : Z;
  ss_service : string;
  ss_attack : num;
  ss_defense : num;
  ss_sla : num;
  ss_total : num
}.

Record AdminGameScoreRow := mkAdminGameScoreRow {
  sr_rank : Z;
  sr_team : string;
  sr_attack : num;
  sr_defense : num;
  sr_sla : num;
  sr_total : num;
  sr_delta : string;
  sr_services : option (list AdminGameScoreServiceRow)
}.

Record AdminScoringAuditMismatch := mkAdminScoringAuditMismatch {
  mm_team : string;
  mm_field : string;
  mm_stored : num;
  mm_replayed : num;
  mm_delta : num;
  mm_detail : option string
}.

Record AdminScoringAudit := mkAdminScoringAudit {
  au_status : string;
  au_stored_rows : Z;
  au_replayed_rows : Z;
  au_mismatch_count : Z;
  au_mismatches : list AdminScoringAuditMismatch
}.

Record AdminAttackEvent := mkAdminAttackEvent {
  ae_id : string;
  ae_attacker : string;
  ae_victim : string;
  ae_service : string;
  ae_tick : Z;
  ae_verdict : string
}.

Definition AdminAttackFeedPage := Page AdminAttackEvent.

Record AdminOperationsAlert := mkAdminOperationsAlert {
  al_id : string;
  al_severity : string;
  al_source : string;
  al_summary : string;
  al_detail : option string
}.

Record AdminOperationsStatus := mkAdminOperationsStatus {
  op_healthy : bool;
  op_generated_at : string;
  op_alerts : list AdminOperationsAlert
}.

(** ** Service metrics *)

Record GameCoreMetrics := mkGameCoreMetrics {
  gm_match_state : string;
  gm_total_ticks : option num;
  gm_checker_runs_total : option num;
  gm_checker_runs_failed : option num;
  gm_scheduler_running : option bool
}.

Record VerdictMetrics := mkVerdictMetrics {
  vm_correct : option num;
  vm_duplicate : option num;
  vm_invalid : option num;
  vm_unknown : option num
}.

Record SubmissionMetrics := mkSubmissionMetrics {
  sm_submit_requests_total : option num;
  sm_submit_failures_total : option num;
  sm_attack_feed_requests_total : option num;
  sm_verdicts : VerdictMetrics
}.

Record ControllerMetrics := mkControllerMetrics {
  cm_deployment_reconcile_requests : option num;
  cm_access_reconcile_requests : option num;
  cm_service_access_reconcile_requests : option num;
  cm_ssh_credential_requests : option num;
  cm_access_policies_total : option num;
  cm_access_last_apply_success : option bool
}.

Record RealtimeMetrics := mkRealtimeMetrics {
  rm_last_sync_success : option bool;
  rm_sync_errors_total : option num;
  rm_subscribers_total : option num;
  rm_snapshot_bytes_total : option num
}.

Record WireGuardMetrics := mkWireGuardMetrics {
  wm_reconcile_requests : option num;
  wm_peers_total : option num;
  wm_peers_active : option num;
  wm_peers_revoked : option num;
  wm_last_apply_success : option bool
}.

Record AdminServiceMetricSnapshot := mkAdminServiceMetricSnapshot {
  sn_generated_at : string;
  sn_game_core : GameCoreMetrics;
  sn_submission_service : SubmissionMetrics;
  sn_controller_service : ControllerMetrics;
  sn_realtime_gateway : RealtimeMetrics;
  sn_wireguard_gateway : WireGuardMetrics
}.

(** ** Runtime evidence *)

Record AdminRuntimeEvidenceFailure := mkAdminRuntimeEvidenceFailure {
  ef_section : string;
  ef_message : string
}.

Record AdminRuntimeEvidenceReport := mkAdminRuntimeEvidenceReport {
  rr_generated_at : string;
  rr_failures : list AdminRuntimeEvidenceFailure;
  rr_summary : string;
  rr_access_status : option AdminControllerAccessStatus;
  rr_deployments : option (list AdminDeploymentJob);
  rr_game_status : option AdminGameStatus;
  rr_operations_status : option AdminOperationsStatus;
  rr_service_metrics : option AdminServiceMetricSnapshot;
  rr_wireguard_status : option AdminWireGuardGatewayStatus
}.

Record AdminScoreboardFreeze := mkAdminScoreboardFreeze {
  sfz_frozen : bool;
  sfz_configured : bool;
  sfz_freeze_at : option string;
  sfz_unfreeze_at : option string;
  sfz_snapshot_taken_at : option string
}.

(** The card reads the limit as if it could be missing. *)
Record AdminPlatformSettings := mkAdminPlatformSettings {
  aps_flag_format_prefix : string;
  aps_flag_format_active : string;
  aps_max_team_members : option Z;
  aps_updated_at : string;
  aps_updated_by : string
}.

Record AdminMatchAnnouncement := mkAdminMatchAnnouncement {
  man_id : Z;
  man_body : string;
  man_created_by : option string;
  man_created_at : string
}.

Record AdminBulkImportResult := mkAdminBulkImportResult {
  bir_teams_created : Z;
  bir_players_created : Z;
  bir_errors : option (list string)
}.
