(* ===== verification/ScoringLeaders.v ===== *)
(** * Award candidates ([lib/scoring-leaders.ts])

    The leaders of the three scoring categories, and their equivalence with the
    rank that counting gives: one more than the number of teams ahead. *)

From Stdlib Require Import QArith Qpower.
From S2P Require Import Prelude JsString JsNumber Ranking AdminTypes.

#[local] Open Scope Z_scope.
#[local] Open Scope list_scope.
#[local] Open Scope js_scope.

(** ** Differences of numbers

    The sort only looks at the sign of [select(b) - select(a)].  Gradual underflow
    keeps the difference of two finite numbers from vanishing and an overflow keeps
    its sign; the difference is NaN when an operand is, or between two infinities
    of the same sign. *)

Definition neg_sign (neg : bool) : Z := if neg then -1 else 1.

(** [m * 2 ^ e] in units of [2 ^ g], for [g <= e]. *)
Definition at_exponent (g m e : Z) : Z := m * 2 ^ (e - g).

Definition sub_sign (x y : num) : option Z :=
  match x, y with
  | NaN, _ | _, NaN => None
  | Infinite a, Infinite b => if Bool.eqb a b then None else Some (neg_sign a)
  | Infinite a, Finite _ _ => Some (neg_sign a)
  | Finite _ _, Infinite b => Some (- neg_sign b)
  | Finite m e, Finite n f =>
      let g := Z.min e f in Some (Z.sgn (at_exponent g m e - at_exponent g n f))
  end.

Definition finite (x : num) : Prop := match x with Finite _ _ => True | _ => False end.

(** ** Leaders *)

Record CategoryLeader := mkCategoryLeader {
  cl_team : string;
  cl_score : num;
  cl_rank : Z
}.

Record CategoryLeadersSummary := mkCategoryLeadersSummary {
  attacker : list CategoryLeader;
  defender : list CategoryLeader;
  availability : list CategoryLeader
}.

Definition DEFAULT_TOP_N : Z := 3.

Section Leaders.
Variable localeCompare : string -> string -> Z.

(** A NaN difference is not zero, and the sort reads it as zero. *)
Definition compare_scores (select : AdminGameScoreRow -> num) (a b : AdminGameScoreRow) : Z :=
  match sub_sign (select b) (select a) with
  | None => 0
  | Some diff => if diff =? 0 then localeCompare (sr_team a) (sr_team b) else diff
  end.

Definition leader (select : AdminGameScoreRow -> num) (index : nat) (row : AdminGameScoreRow)
    : CategoryLeader :=
  mkCategoryLeader (sr_team row) (select row) (Z.of_nat index + 1).

Definition pick (limit : Z) (scoreRows : list AdminGameScoreRow) (select : AdminGameScoreRow -> num)
    : list CategoryLeader :=
  let sorted := js_sort (compare_scores select) scoreRows in
  imap (leader select) (take (Z.to_nat limit) sorted).

Definition computeCategoryLeaders (scoreRows : list AdminGameScoreRow) (topN : Z)
    : CategoryLeadersSummary :=
  let limit := Z.max 0 topN in
  mkCategoryLeadersSummary (pick limit scoreRows sr_attack) (pick limit scoreRows sr_defense)
    (pick limit scoreRows sr_sla).
End Leaders.

(** ** The order of the scores *)

Lemma at_exponent_down g h m e : h <= g -> g <= e -> at_exponent h m e = at_exponent g m e * 2 ^ (g - h).
Proof.
  intros H1 H2. unfold at_exponent. rewrite <- Z.mul_assoc, <- Z.pow_add_r by lia. do 2 f_equal. lia.
Qed.

(** The comparison does not depend on the common exponent. *)
Lemma sub_sign_at g m e n f :
  g <= e -> g <= f ->
  sub_sign (Finite m e) (Finite n f) = Some (Z.sgn (at_exponent g m e - at_exponent g n f)).
Proof.
  intros He Hf. unfold sub_sign. rewrite (at_exponent_down (Z.min e f) g m e) by lia.
  rewrite (at_exponent_down (Z.min e f) g n f) by lia.
  rewrite <- Z.mul_sub_distr_r, Z.sgn_mul, (Z.sgn_pos (2 ^ _)) by (apply Z.pow_pos_nonneg; lia).
  by rewrite Z.mul_1_r.
Qed.

(** Numbers that are not finite are put at zero, to have a comparator on all. *)
Definition finite_part (x : num) : num := match x with Finite m e => x | _ => Finite 0 0 end.
Definition mantissa (x : num) : Z := match x with Finite m _ => m | _ => 0 end.
Definition exponent (x : num) : Z := match x with Finite _ e => e | _ => 0 end.

Definition value_at (g : Z) (x : num) : Z := at_exponent g (mantissa x) (exponent x).

Lemma sub_sign_value g x y :
  g <= exponent x -> g <= exponent y ->
  sub_sign (finite_part x) (finite_part y) = Some (Z.sgn (value_at g x - value_at g y)).
Proof. intros Hx Hy. destruct x, y; by apply sub_sign_at. Qed.

Lemma finite_part_id x : finite x -> finite_part x = x.
Proof. by destruct x. Qed.

Section Order.
Context (localeCompare : string -> string -> Z) `{!Collation localeCompare}.
Context (select : AdminGameScoreRow -> num).

(** The comparison of the finite parts. *)
Definition compare_finite (a b : AdminGameScoreRow) : Z :=
  compare_scores localeCompare (fun row => finite_part (select row)) a b.

Lemma compare_finite_at g a b :
  g <= exponent (select a) -> g <= exponent (select b) ->
  compare_finite a b =
  let diff := Z.sgn (value_at g (select b) - value_at g (select a)) in
  if diff =? 0 then localeCompare (sr_team a) (sr_team b) else diff.
Proof.
  intros Ha Hb. unfold compare_finite, compare_scores.
  by rewrite (sub_sign_value g (select b) (select a)).
Qed.

#[export] Instance compare_finite_comparator : Comparator compare_finite.
Proof.
  split.
  - intros a b. set (g := Z.min (exponent (select a)) (exponent (select b))).
    rewrite (compare_finite_at g a b), (compare_finite_at g b a) by lia. cbn zeta.
    destruct (cmp_total localeCompare (sr_team a) (sr_team b));
      repeat case_bool; boolify; lia.
  - intros a b c.
    set (g := Z.min (exponent (select a)) (Z.min (exponent (select b)) (exponent (select c)))).
    rewrite (compare_finite_at g a b), (compare_finite_at g b c), (compare_finite_at g a c) by lia.
    cbn zeta. pose proof (cmp_trans localeCompare (sr_team a) (sr_team b) (sr_team c)).
    repeat case_bool; boolify; lia.
Qed.

Lemma compare_finite_anti a b : Z.sgn (compare_finite a b) = - Z.sgn (compare_finite b a).
Proof.
  set (g := Z.min (exponent (select a)) (exponent (select b))).
  rewrite (compare_finite_at g a b), (compare_finite_at g b a) by lia. cbn zeta.
  pose proof (collation_anti (sr_team a) (sr_team b)). repeat case_bool; boolify; lia.
Qed.
End Order.

(** ** Ranks by counting *)

(** The number that a score is, as a fraction. *)
Definition score_value (x : num) : Q :=
  match x with Finite m e => (inject_Z m * (2 # 1) ^ e)%Q | _ => 0%Q end.

Lemma score_value_at g m e :
  g <= e -> (score_value (Finite m e) == inject_Z (at_exponent g m e) * (2 # 1) ^ g)%Q.
Proof.
  intros He. unfold score_value, at_exponent. rewrite inject_Z_mult, Zpower_Qpower by lia.
  rewrite <-Qmult_assoc. change (inject_Z 2) with (2 # 1)%Q. rewrite <-Qpower_plus by discriminate.
  by replace (e - g + g) with e by lia.
Qed.

Lemma score_compare g m e n f :
  g <= e -> g <= f ->
  Qcompare (score_value (Finite m e)) (score_value (Finite n f)) =
  Z.compare (at_exponent g m e) (at_exponent g n f).
Proof.
  intros He Hf. rewrite (score_value_at g m e), (score_value_at g n f) by done.
  set (x := at_exponent g m e). set (y := at_exponent g n f).
  assert (Hpos : (0 < (2 # 1) ^ g)%Q) by by apply Qpower_0_lt.
  destruct (Z.compare_spec x y) as [->|H|H].
  - by apply Qeq_alt.
  - apply Qlt_alt. apply Qmult_lt_r; [done|]. by rewrite <-Zlt_Qlt.
  - apply Qgt_alt. apply Qmult_lt_r; [done|]. by rewrite <-Zlt_Qlt.
Qed.

Section Ranks.
Context (localeCompare : string -> string -> Z) `{!Collation localeCompare}.

(** Who is ahead of whom: the higher score, and of equal scores the name that the
    collation puts first. *)
Definition beats (select : AdminGameScoreRow -> num) (a b : AdminGameScoreRow) : bool :=
  match Qcompare (score_value (select a)) (score_value (select b)) with
  | Gt => true
  | Lt => false
  | Eq => localeCompare (sr_team a) (sr_team b) <? 0
  end.

(** The comparison of the sort says who is ahead. *)
Lemma compare_scores_beats select a b :
  finite (select a) -> finite (select b) ->
  (compare_scores localeCompare select a b <? 0) = beats select a b.
Proof.
  intros Ha Hb. unfold compare_scores, beats. destruct (select a) as [| |m e]; [done..|].
  destruct (select b) as [| |n f]; [done..|]. set (g := Z.min e f).
  rewrite (sub_sign_at g n f m e) by lia. rewrite (score_compare g) by lia.
  destruct (Z.compare_spec (at_exponent g m e) (at_exponent g n f)) as [->|H|H].
  - by rewrite Z.sub_diag.
  - rewrite Z.sgn_pos by lia. done.
  - rewrite Z.sgn_neg by lia. done.
Qed.

Lemma ahead_beats select rows row :
  (forall r, r ∈ rows -> finite (select r)) -> finite (select row) ->
  ahead (compare_scores localeCompare select) rows row =
  length (bfilter (fun other => beats select other row) rows).
Proof.
  intros Hf Hrow. unfold ahead. f_equal. apply bfilter_ext.
  intros r Hr. apply compare_scores_beats; auto.
Qed.

(** Who a category lists in which place: in place [i] the team that exactly [i] teams are
    ahead of, with its score and the rank [i + 1], as long as [i] is below the limit. *)
Definition ranked (select : AdminGameScoreRow -> num) (topN : Z) (rows : list AdminGameScoreRow)
    (leaders : list CategoryLeader) : Prop :=
  forall i l, leaders !! i = Some l <->
    exists row, row ∈ rows /\ length (bfilter (fun other => beats select other row) rows) = i /\
      Z.of_nat i < topN /\ l = mkCategoryLeader (sr_team row) (select row) (Z.of_nat i + 1).

Lemma pick_ranked select limit scoreRows i l :
  NoDup scoreRows ->
  (forall row, row ∈ scoreRows -> finite (select row)) ->
  (forall a b, a ∈ scoreRows -> b ∈ scoreRows -> a <> b ->
     localeCompare (sr_team a) (sr_team b) <> 0) ->
  pick localeCompare limit scoreRows select !! i = Some l <->
  exists row, row ∈ scoreRows /\ ahead (compare_scores localeCompare select) scoreRows row = i /\
              Z.of_nat i < limit /\ l = leader select i row.
Proof.
  intros Hn Hf Hnames. set (cmp := compare_scores localeCompare select).
  set (s := js_sort cmp scoreRows).
  assert (Hperm : s ≡ₚ scoreRows) by apply js_sort_perm.
  assert (Hagree : forall a b, a ∈ scoreRows -> b ∈ scoreRows ->
            cmp a b = compare_finite localeCompare select a b).
  { intros a b Ha Hb. unfold cmp, compare_finite, compare_scores.
    by rewrite !finite_part_id by auto. }
  assert (Hplace : forall j row, s !! j = Some row -> ahead cmp scoreRows row = j).
  { intros j row Hj.
    assert (Hs : s = js_sort (compare_finite localeCompare select) scoreRows) by by apply js_sort_ext.
    assert (Hrow : row ∈ scoreRows) by (rewrite <- Hperm; by eapply list_elem_of_lookup_2).
    transitivity (ahead (compare_finite localeCompare select) s row).
    - rewrite <- (ahead_perm cmp s scoreRows) by done. unfold ahead. f_equal.
      assert (Hin : forall y, y ∈ s -> y ∈ scoreRows) by (intros y; by rewrite Hperm).
      clearbody s. clear Hs Hperm Hj. induction s as [|y s' IH]; simpl; [done|].
      rewrite Hagree by set_solver. rewrite IH by (intros; apply Hin; set_solver). done.
    - apply sorted_place; [| |done].
      + rewrite Hs. apply strictly_sorted; [apply js_sort_sorted, _|by rewrite js_sort_perm|].
        intros a b. rewrite !js_sort_perm. intros Ha Hb Hne.
        set (g := Z.min (exponent (select a)) (exponent (select b))).
        rewrite (compare_finite_at _ _ g a b) by lia. cbn zeta.
        case_bool; boolify; [by apply Hnames|done].
      + intros a b. pose proof (compare_finite_anti localeCompare select a b). lia. }
  unfold pick. fold cmp s. rewrite list_lookup_imap.
  split.
  - intros Hl. destruct (take (Z.to_nat limit) s !! i) as [row|] eqn:E; simplify_eq/=.
    apply lookup_take_Some in E as [E Hi]. exists row. split_and!; [|by apply Hplace|lia|done].
    rewrite <- Hperm. by eapply list_elem_of_lookup_2.
  - intros (row & Hrow & <- & Hlt & ->). rewrite <- Hperm in Hrow.
    apply list_elem_of_lookup in Hrow as [j Hj]. rewrite (Hplace _ _ Hj) in Hlt |- *.
    by rewrite lookup_take_lt, Hj by lia.
Qed.

(** C34: The leaders of the three categories are the ones that counting gives.  For rows
    that differ, with names that the collation tells apart and finite scores, the
    attackers by their attack score, the defenders by their defense score and the most
    available teams by their SLA score: in place [i] of the list stands the team that
    exactly [i] teams are ahead of (a higher score, or the same score and an earlier
    name), with its score and the rank [i + 1], and there is one in every place below
    the limit as long as there are teams.  The order of the rows does not matter. *)
Theorem leaders_by_counting scoreRows topN :
  NoDup scoreRows ->
  (forall row, row ∈ scoreRows -> finite (sr_attack row) /\ finite (sr_defense row) /\ finite (sr_sla row)) ->
  (forall a b, a ∈ scoreRows -> b ∈ scoreRows -> a <> b ->
     localeCompare (sr_team a) (sr_team b) <> 0) ->
  let summary := computeCategoryLeaders localeCompare scoreRows topN in
  ranked sr_attack topN scoreRows (attacker summary) /\
  ranked sr_defense topN scoreRows (defender summary) /\
  ranked sr_sla topN scoreRows (availability summary).
Proof.
  intros Hn Hf Hnames summary.
  assert (H : forall select, (forall row, row ∈ scoreRows -> finite (select row)) ->
    ranked select topN scoreRows (pick localeCompare (Z.max 0 topN) scoreRows select)).
  { intros select Hs i l. rewrite pick_ranked by done.
    split; intros (row & Hrow & Ha & Hlt & ->); exists row; split_and!; try done; try lia.
    - by rewrite <-ahead_beats by auto.
    - by rewrite ahead_beats by auto. }
  split_and!; apply H; intros row Hrow; by apply Hf.
Qed.
End Ranks.

(** Three teams, two of them level in the attack. *)
Lemma leaders_by_counting_witness :
  let row name m e := mkAdminGameScoreRow 0 name (Finite m e) (Finite 0 0) (Finite 1 0) NaN "" None in
  let rows := [row "gamma" 3 0; row "beta" 1 2; row "alpha" 8 (-1)]%string in
  attacker (computeCategoryLeaders code_unit_compare rows 2) !! 1%nat =
    Some (mkCategoryLeader "beta" (Finite 1 2) 2).
Proof.
  intros row rows. destruct (leaders_by_counting code_unit_compare rows 2) as (H & _).
  - apply (NoDup_fmap_1 sr_team), (bool_decide_unpack _). vm_compute. exact I.
  - intros r Hr. repeat (apply elem_of_cons in Hr as [->|Hr]; [done|]). by apply elem_of_nil in Hr.
  - intros a b Ha Hb. repeat (apply elem_of_cons in Ha as [->|Ha]; [|]); try by apply elem_of_nil in Ha.
    all: repeat (apply elem_of_cons in Hb as [->|Hb]; [try done; discriminate|]);
      by apply elem_of_nil in Hb.
  - apply H. exists (row "beta" 1 2)%string. split_and!; try reflexivity. set_solver.
Defined.
