(* ===== verification/Appearance.v ===== *)
(** * Appearance ([lib/appearance.ts], [components/ui/appearance-controls.tsx], [app/layout.tsx])

    The colour scheme and the theme: the server paints them from the cookies, a script
    of the page corrects them before the first paint, and the controls of the header
    change and persist them, in the local storage (which may refuse) and in cookies. *)

From S2P Require Import Prelude JsString Ranking.

#[local] Open Scope string_scope.
#[local] Open Scope list_scope.
#[local] Open Scope js_scope.

Definition THEME_STORAGE_KEY : string := "ad-platform-theme".
Definition SCHEME_STORAGE_KEY : string := "ad-platform-scheme".

Inductive ThemePreference := Light | Dark | System.
Inductive ColorScheme := Graphite | Ink | Paper | Moss.

#[export] Instance ThemePreference_eq_dec : EqDecision ThemePreference.
Proof. solve_decision. Defined.
#[export] Instance ColorScheme_eq_dec : EqDecision ColorScheme.
Proof. solve_decision. Defined.

Definition theme_text (p : ThemePreference) : string :=
  match p with Light => "light" | Dark => "dark" | System => "system" end.

Definition scheme_text (s : ColorScheme) : string :=
  match s with Graphite => "graphite" | Ink => "ink" | Paper => "paper" | Moss => "moss" end.

Definition DEFAULT_SCHEME : ColorScheme := Graphite.
Definition DEFAULT_THEME_PREFERENCE : ThemePreference := System.

Definition THEME_CYCLE : list ThemePreference := [Light; Dark; System].

(** A text as the value that the type guard admits. *)
Definition isThemePreference (value : string) : option ThemePreference :=
  find_first (fun p => String.eqb value (theme_text p)) THEME_CYCLE.

Definition isColorScheme (value : string) : option ColorScheme :=
  find_first (fun s => String.eqb value (scheme_text s)) [Graphite; Ink; Paper; Moss].

(** [indexOf] finds every preference in the cycle. *)
Definition nextThemePreference (current : ThemePreference) : ThemePreference :=
  let index := match current with Light => 0 | Dark => 1 | System => 2 end%nat in
  THEME_CYCLE !! ((index + 1) mod length THEME_CYCLE)%nat ?? current.

(** ** The page and the browser *)

(** The attributes of the root element, the stores, and the preference of the system. *)
Record Page := mkPage {
  data_scheme : option string;
  data_theme : option string;
  data_themePreference : option string;
  local_storage : list (string * string);
  storage_reads : bool;
  storage_writes : bool;
  cookies : list (string * string);
  os_dark : bool
}.

Definition with_dataset (scheme theme preference : option string) (p : Page) : Page :=
  mkPage scheme theme preference (local_storage p) (storage_reads p) (storage_writes p) (cookies p) (os_dark p).

(** [window.localStorage] within [try]. *)
Definition storage_get (key : string) (p : Page) : option string :=
  if storage_reads p then map_get (local_storage p) key else None.

Definition storage_set (key value : string) (p : Page) : Page :=
  mkPage (data_scheme p) (data_theme p) (data_themePreference p)
    (if storage_writes p then map_set (local_storage p) key value else local_storage p)
    (storage_reads p) (storage_writes p) (cookies p) (os_dark p).

(** [document.cookie = "key=value; path=/; ..."], and [document.cookie]. *)
Definition cookie_set (key value : string) (p : Page) : Page :=
  mkPage (data_scheme p) (data_theme p) (data_themePreference p) (local_storage p)
    (storage_reads p) (storage_writes p) (map_set (cookies p) key value) (os_dark p).

Definition cookie_text (cookie : string * string) : string := cookie.1 ++ₛ "=" ++ₛ cookie.2.

Definition document_cookie (p : Page) : string := join "; " (cookie_text <$> cookies p).

(** [name=(a|b|...)] at the start of a text: the first alternative. *)
Definition match_here (name : string) (alternatives : list string) (text : string) : option string :=
  find_first (fun a => starts_with (name ++ₛ "=" ++ₛ a) text) alternatives.

(** [(?:^|; )name=(a|b|...)]: the leftmost match, from a position that is not the
    first. *)
Fixpoint match_after (name : string) (alternatives : list string) (text : string) : option string :=
  match text with
  | EmptyString => None
  | String c rest =>
      let here := if Ascii.eqb c ";" then
                    match rest with
                    | String " " rest' => match_here name alternatives rest'
                    | _ => None
                    end
                  else None in
      match here with Some a => Some a | None => match_after name alternatives rest end
  end.

Definition match_cookie (name : string) (alternatives : list string) (text : string) : option string :=
  match match_here name alternatives text with
  | Some a => Some a
  | None => match_after name alternatives text
  end.

(** ** [lib/appearance.ts] *)

(** ["dark"] or ["light"] of the system, or the preference itself. *)
Definition resolveTheme (os : bool) (preference : ThemePreference) : string :=
  match preference with System => if os then "dark" else "light" | _ => theme_text preference end.

Definition applyAppearance (scheme : ColorScheme) (preference : ThemePreference) (p : Page) : Page :=
  with_dataset (Some (scheme_text scheme)) (Some (resolveTheme (os_dark p) preference))
    (Some (theme_text preference)) p.

Definition persistScheme (scheme : ColorScheme) (p : Page) : Page :=
  cookie_set SCHEME_STORAGE_KEY (scheme_text scheme) (storage_set SCHEME_STORAGE_KEY (scheme_text scheme) p).

Definition persistThemePreference (preference : ThemePreference) (p : Page) : Page :=
  cookie_set THEME_STORAGE_KEY (theme_text preference) (storage_set THEME_STORAGE_KEY (theme_text preference) p).

Definition scheme_texts : list string := ["graphite"; "ink"; "paper"; "moss"].
Definition theme_texts : list string := ["light"; "dark"; "system"].

Definition readSchemeFromDom (p : Page) : ColorScheme :=
  match data_scheme p ≫= isColorScheme with
  | Some s => s
  | None =>
      match storage_get SCHEME_STORAGE_KEY p ≫= isColorScheme with
      | Some s => s
      | None => (match_cookie SCHEME_STORAGE_KEY scheme_texts (document_cookie p) ≫= isColorScheme)
                ?? DEFAULT_SCHEME
      end
  end.

Definition readThemePreferenceFromDom (p : Page) : ThemePreference :=
  match data_themePreference p ≫= isThemePreference with
  | Some t => t
  | None =>
      match storage_get THEME_STORAGE_KEY p ≫= isThemePreference with
      | Some t => t
      | None => (match_cookie THEME_STORAGE_KEY theme_texts (document_cookie p) ≫= isThemePreference)
                ?? DEFAULT_THEME_PREFERENCE
      end
  end.

(** ** The controls *)

Definition selectScheme (next : ColorScheme) (p : Page) : Page :=
  persistScheme next (applyAppearance next (readThemePreferenceFromDom p) p).

Definition selectMode (next : ThemePreference) (p : Page) : Page :=
  persistThemePreference next (applyAppearance (readSchemeFromDom p) next p).

(** The effect of the controls. *)
Definition mount_controls (p : Page) : Page :=
  applyAppearance (readSchemeFromDom p) (readThemePreferenceFromDom p) p.

(** The system changes its preference, and the listener of the controls runs. *)
Definition media_change (dark : bool) (p : Page) : Page :=
  let p := mkPage (data_scheme p) (data_theme p) (data_themePreference p) (local_storage p)
             (storage_reads p) (storage_writes p) (cookies p) dark in
  if bool_decide (readThemePreferenceFromDom p = System)
  then applyAppearance (readSchemeFromDom p) System p else p.

(** ** A page load *)

(** [RootLayout]: what the server paints from the cookies. *)
Definition RootLayout (p : Page) : Page :=
  let preference := (map_get (cookies p) THEME_STORAGE_KEY ≫= isThemePreference) ?? System in
  let scheme := (map_get (cookies p) SCHEME_STORAGE_KEY ≫= isColorScheme) ?? Graphite in
  let theme := match preference with System => None | _ => Some (theme_text preference) end in
  with_dataset (Some (scheme_text scheme)) theme (Some (theme_text preference)) p.

Definition script_texts : list string := scheme_texts ++ ["dark"; "light"; "system"].

(** The script of the head. *)
Definition head_script (p : Page) : Page :=
  let stored key := match match_cookie key script_texts (document_cookie p) with
                    | Some v => Some v
                    | None => storage_get key p
                    end in
  let themeStored := stored THEME_STORAGE_KEY ≫= isThemePreference in
  let schemeStored := stored SCHEME_STORAGE_KEY ≫= isColorScheme in
  let preference := themeStored ?? System in
  let scheme := schemeStored ?? Graphite in
  let q := with_dataset (Some (scheme_text scheme)) (Some (resolveTheme (os_dark p) preference))
             (Some (theme_text preference)) p in
  match schemeStored with
  | Some _ => q
  | None => cookie_set SCHEME_STORAGE_KEY (scheme_text scheme)
              (storage_set SCHEME_STORAGE_KEY (scheme_text scheme) q)
  end.

Definition load (p : Page) : Page := head_script (RootLayout p).

(** What happens to a page besides a choice. *)
Inductive passive : Page -> Page -> Prop :=
| PassiveMount p : passive p (mount_controls p)
| PassiveMedia dark p : passive p (media_change dark p)
| PassiveLoad p : passive p (load p).

#[local] Arguments starts_with : simpl never.

(** ** Cookies *)

Definition cookie_ok (cookie : string * string) : Prop :=
  free_of "=" cookie.1 /\ free_of ";" cookie.1 /\ free_of ";" cookie.2.

(** Cookies as a browser keeps them: a name holds neither [=] nor [;], a value no [;]. *)
Definition jar_ok (jar : list (string * string)) : Prop := NoDup (jar.*1) /\ Forall cookie_ok jar.

Lemma match_after_free name alternatives s t :
  free_of ";" s -> match_after name alternatives (s ++ₛ t) = match_after name alternatives t.
Proof.
  unfold free_of. induction s as [|c s IH]; simpl; [done|]. intros [Hc Hs]%orb_false_iff.
  rewrite Hc. by apply IH.
Qed.

Lemma free_app c s t : free_of c (s ++ₛ t) <-> free_of c s /\ free_of c t.
Proof. unfold free_of. rewrite has_char_app, orb_false_iff. done. Qed.

Lemma starts_with_app p s t : starts_with p s = true -> starts_with p (s ++ₛ t) = true.
Proof. rewrite !starts_with_spec. intros [r ->]. exists (r ++ₛ t). by rewrite app_assoc_s. Qed.

Lemma starts_with_cons c p d s : starts_with (String c p) (String d s) = Ascii.eqb c d && starts_with p s.
Proof.
  unfold starts_with. simpl. destruct (ascii_dec c d) as [->|H]; [by rewrite Ascii.eqb_refl|].
  by rewrite (proj2 (Ascii.eqb_neq c d)).
Qed.

(** A text without [c] that starts another does so before the first [c]. *)
Lemma starts_with_before c p s t :
  free_of c p -> starts_with p (s ++ₛ String c t) = starts_with p s.
Proof.
  revert p. induction s as [|d s IH]; intros p Hp; destruct p as [|e p].
  - done.
  - apply orb_false_iff in Hp as [He _]. simpl. rewrite starts_with_cons, He. done.
  - done.
  - apply orb_false_iff in Hp as [_ Hp]. simpl. rewrite !starts_with_cons. f_equal. by apply IH.
Qed.

Definition plain (name : string) (alternatives : list string) : Prop :=
  free_of ";" name /\ Forall (free_of ";") alternatives.

Lemma find_first_ext {A} (f g : A -> bool) l :
  (forall x, x ∈ l -> f x = g x) -> find_first f l = find_first g l.
Proof.
  induction l as [|x l IH]; intros H; simpl; [done|]. rewrite (H x) by left.
  rewrite IH; [done|]. intros y Hy. apply H. by right.
Qed.

Lemma match_here_before name alternatives s t :
  plain name alternatives ->
  match_here name alternatives (s ++ₛ String ";" t) = match_here name alternatives s.
Proof.
  intros [Hn Ha]. apply find_first_ext. intros a Hin. apply starts_with_before.
  rewrite !free_app. split_and!; [done|done|]. by apply (proj1 (list.Forall_forall _ _) Ha).
Qed.

Fixpoint first_match (name : string) (alternatives : list string) (segments : list string) : option string :=
  match segments with
  | [] => None
  | s :: rest => match match_here name alternatives s with
                 | Some a => Some a
                 | None => first_match name alternatives rest
                 end
  end.

Lemma match_join name alternatives segment segments :
  plain name alternatives -> Forall (free_of ";") (segment :: segments) ->
  match_cookie name alternatives (join "; " (segment :: segments)) =
  first_match name alternatives (segment :: segments).
Proof.
  intros Hp. revert segment. induction segments as [|s2 segments IH]; intros segment Hall;
    inversion Hall as [|? ? Hs Hrest]; subst.
  - simpl. unfold match_cookie. destruct (match_here name alternatives segment); [done|].
    rewrite <- (app_nil_s segment), match_after_free by done. done.
  - change (join "; " (segment :: s2 :: segments)) with
      (segment ++ₛ String ";" (String " " (join "; " (s2 :: segments)))).
    transitivity (match match_here name alternatives segment with
                  | Some a => Some a
                  | None => first_match name alternatives (s2 :: segments)
                  end); [|done].
    rewrite <- (IH s2 Hrest). unfold match_cookie.
    rewrite match_here_before by done. destruct (match_here name alternatives segment); [done|].
    rewrite match_after_free by done. cbn [match_after Ascii.eqb Bool.eqb].
    by destruct (match_here name alternatives (join "; " (s2 :: segments))).
Qed.

Lemma starts_with_cookie name a n v :
  free_of "=" name -> free_of "=" n ->
  starts_with (name ++ₛ "=" ++ₛ a) (n ++ₛ "=" ++ₛ v) = String.eqb name n && starts_with a v.
Proof.
  revert n. induction name as [|c name IH]; intros n Hname Hn; destruct n as [|d n]; simpl.
  - by rewrite starts_with_cons.
  - apply orb_false_iff in Hn as [Hd _]. rewrite starts_with_cons, Ascii.eqb_sym, Hd. done.
  - apply orb_false_iff in Hname as [Hc _]. by rewrite starts_with_cons, Hc.
  - apply orb_false_iff in Hname as [_ Hname]. apply orb_false_iff in Hn as [_ Hn].
    rewrite starts_with_cons, IH by done. by destruct (Ascii.eqb c d).
Qed.

Lemma match_cookie_jar name alternatives p :
  jar_ok (cookies p) -> plain name alternatives -> free_of "=" name -> name <> "" ->
  match_cookie name alternatives (document_cookie p) =
  map_get (cookies p) name ≫= (fun v => find_first (fun a => starts_with a v) alternatives).
Proof.
  intros [Hn Hok] Hp Hname Hne. unfold document_cookie.
  assert (Hsegs : Forall (free_of ";") (cookie_text <$> cookies p)).
  { apply list.Forall_forall. intros seg (k & -> & Hk)%list_elem_of_fmap.
    destruct (proj1 (list.Forall_forall _ _) Hok k Hk) as (_ & H1 & H2). unfold cookie_text.
    rewrite !free_app. by split_and!. }
  assert (Hfirst : first_match name alternatives (cookie_text <$> cookies p) =
    map_get (cookies p) name ≫= (fun v => find_first (fun a => starts_with a v) alternatives)).
  { clear Hsegs. revert Hn Hok. generalize (cookies p). induction l as [|[n v] jar IH]; [done|].
    csimpl. intros [Hnin Hnd]%list.NoDup_cons Hall. inversion Hall as [|? ? (H1 & _ & _) Hall']; subst.
    rewrite map_get_cons. cbn [fst snd].
    assert (Hhere : match_here name alternatives (cookie_text (n, v)) =
      if bool_decide (n = name) then find_first (fun a => starts_with a v) alternatives else None).
    { unfold match_here, cookie_text. cbn [fst snd]. case_bool_decide as E.
      - subst. apply find_first_ext. intros a _. by rewrite starts_with_cookie, String.eqb_refl.
      - apply find_first_None, list.Forall_forall. intros a _. rewrite starts_with_cookie by done.
        by rewrite (proj2 (String.eqb_neq name n)) by congruence. }
    rewrite Hhere, IH by done. case_bool_decide as E; [|done]. subst.
    rewrite (proj2 (map_get_None jar name)) by done. cbn. by destruct (find_first _ _). }
  rewrite <- Hfirst. destruct (cookies p) as [|k jar]; csimpl.
  - simpl. unfold match_cookie. simpl.
    assert (H0 : match_here name alternatives "" = None); [|by rewrite H0].
    apply find_first_None, list.Forall_forall. intros a _. by destruct name.
  - by apply match_join.
Qed.

(** ** A choice *)

(** The page shows a choice, and its cookies hold it. *)
Record shows (scheme : ColorScheme) (preference : ThemePreference) (p : Page) : Prop := {
  sh_scheme : data_scheme p = Some (scheme_text scheme);
  sh_theme : data_theme p = Some (resolveTheme (os_dark p) preference);
  sh_preference : data_themePreference p = Some (theme_text preference);
  sh_jar : jar_ok (cookies p);
  sh_scheme_cookie : map_get (cookies p) SCHEME_STORAGE_KEY = Some (scheme_text scheme);
  sh_theme_cookie : map_get (cookies p) THEME_STORAGE_KEY = Some (theme_text preference)
}.

Lemma read_theme_text t : isThemePreference (theme_text t) = Some t.
Proof. by destruct t. Qed.

Lemma read_scheme_text s : isColorScheme (scheme_text s) = Some s.
Proof. by destruct s. Qed.

Lemma shows_read scheme preference p :
  shows scheme preference p ->
  readSchemeFromDom p = scheme /\ readThemePreferenceFromDom p = preference.
Proof.
  intros [H1 _ H3 _ _ _]. unfold readSchemeFromDom, readThemePreferenceFromDom. rewrite H1, H3. cbn [mbind option_bind].
  by rewrite read_scheme_text, read_theme_text.
Qed.

Lemma jar_ok_set key value jar : jar_ok jar -> cookie_ok (key, value) -> jar_ok (map_set jar key value).
Proof.
  intros [Hn Hok] Hk. split; [rewrite keys_set; by apply oset_add_NoDup|].
  clear Hn. induction Hok as [|k jar Hk' Hok IH]; simpl; [constructor; [done|constructor]|].
  case_bool_decide; by constructor.
Qed.

Lemma scheme_cookie_ok s : cookie_ok (SCHEME_STORAGE_KEY, scheme_text s).
Proof. by destruct s. Qed.

Lemma theme_cookie_ok t : cookie_ok (THEME_STORAGE_KEY, theme_text t).
Proof. by destruct t. Qed.

Lemma matched_cookies scheme preference p :
  shows scheme preference p ->
  match_cookie SCHEME_STORAGE_KEY script_texts (document_cookie p) = Some (scheme_text scheme) /\
  match_cookie THEME_STORAGE_KEY script_texts (document_cookie p) = Some (theme_text preference).
Proof.
  intros [_ _ _ Hj Hs Ht].
  assert (Hp : forall key, free_of ";" key -> plain key script_texts) by (intros key Hk; split; [done|by repeat constructor]).
  rewrite !match_cookie_jar, Hs, Ht by (done || by apply Hp).
  split; [by destruct scheme|by destruct preference].
Qed.

Lemma applied_shows scheme preference p :
  jar_ok (cookies p) -> map_get (cookies p) SCHEME_STORAGE_KEY = Some (scheme_text scheme) ->
  map_get (cookies p) THEME_STORAGE_KEY = Some (theme_text preference) ->
  shows scheme preference (applyAppearance scheme preference p).
Proof. intros. by constructor. Qed.

Lemma load_shows scheme preference p : shows scheme preference p -> shows scheme preference (load p).
Proof.
  intros Hp. unfold load. set (q := RootLayout p).
  assert (Hq : cookies q = cookies p /\ os_dark q = os_dark p) by done. destruct Hq as [Hc Ho].
  destruct (matched_cookies _ _ _ Hp) as [H1 H2].
  assert (Hd : document_cookie q = document_cookie p) by (unfold document_cookie; by rewrite Hc).
  unfold head_script. rewrite Hd, H1, H2. cbn [mbind option_bind]. rewrite read_scheme_text, read_theme_text.
  destruct Hp as [_ _ _ Hj Hs Ht]. by constructor.
Qed.

Lemma passive_shows scheme preference p q :
  passive p q -> shows scheme preference p -> shows scheme preference q.
Proof.
  intros [p'|dark p'|p'] Hp; [| |by apply load_shows].
  - destruct (shows_read _ _ _ Hp) as [H1 H2]. unfold mount_controls. rewrite H1, H2.
    destruct Hp as [_ _ _ Hj Hs Ht]. by apply applied_shows.
  - unfold media_change. set (r := mkPage _ _ _ _ _ _ _ dark).
    assert (Hr : readSchemeFromDom r = scheme /\ readThemePreferenceFromDom r = preference).
    { destruct Hp as [H1 _ H3 _ _ _]. unfold readSchemeFromDom, readThemePreferenceFromDom, r. cbn [data_scheme data_themePreference].
      rewrite H1, H3. cbn [mbind option_bind]. by rewrite read_scheme_text, read_theme_text. }
    destruct Hr as [H1 H2]. rewrite H1, H2. clear H1 H2. destruct Hp as [Hd Hth Hpr Hj Hs Ht].
    case_bool_decide as E; [subst; by apply applied_shows|].
    constructor; try done. cbn. rewrite Hth. by destruct preference.
Qed.

(** A choice of a scheme and of a mode lasts.  Whatever the page showed before and
    whether or not the local storage works, after the two clicks the page shows the
    choice, and goes on showing it however the controls are mounted again, the system
    changes its preference and the page is loaded again, the system being followed
    exactly when it was chosen; and each load paints it at once: what the server
    paints is what the script shows, but for a system that the server cannot know. *)
Theorem choice_lasts scheme preference p q :
  jar_ok (cookies p) -> rtc passive (selectMode preference (selectScheme scheme p)) q ->
  shows scheme preference q /\
  data_scheme (RootLayout q) = data_scheme q /\
  data_themePreference (RootLayout q) = data_themePreference q /\
  (data_theme (RootLayout q) = data_theme q \/
   preference = System /\ data_theme (RootLayout q) = None).
Proof.
  intros Hj Hsteps.
  assert (Hq : shows scheme preference q).
  { assert (Hstart : shows scheme preference (selectMode preference (selectScheme scheme p))).
    { set (r := selectScheme scheme p).
      assert (Hr : readSchemeFromDom r = scheme)
        by by destruct scheme.
      unfold selectMode. rewrite Hr. unfold persistThemePreference.
      constructor; cbn [cookies cookie_set]; [done|done|done| | |].
      - apply jar_ok_set, theme_cookie_ok. by apply jar_ok_set, scheme_cookie_ok.
      - rewrite map_get_set, bool_decide_false by done.
        unfold r, selectScheme, persistScheme. cbn [cookies cookie_set storage_set applyAppearance with_dataset].
        by rewrite map_get_set, bool_decide_true.
      - by rewrite map_get_set, bool_decide_true. }
    induction Hsteps as [|x y z Hxy _ IH]; [done|].
    apply IH. by eapply passive_shows. }
  split; [done|]. destruct Hq as [H1 H2 H3 _ H5 H6]. unfold RootLayout. rewrite H5, H6. cbn [mbind option_bind].
  rewrite read_scheme_text, read_theme_text. cbn. rewrite H1, H2, H3. split_and!; [done..|].
  destruct preference; [by left|by left|by right].
Qed.

(** The preferences follow each other in a circle of three. *)
Theorem theme_cycle t :
  nextThemePreference (nextThemePreference (nextThemePreference t)) = t /\
  forall u, u ∈ [t; nextThemePreference t; nextThemePreference (nextThemePreference t)].
Proof.
  split; [by destruct t|]. intros u. apply (bool_decide_unpack _). destruct t, u; vm_compute; exact I.
Qed.

(** ** Witness *)

(** A first visit, with a storage that refuses, and someone else's cookie. *)
Definition first_visit : Page := mkPage None None None [] false false [("session", "ad-platform-theme=light")] true.

Lemma choice_lasts_witness :
  let q := load (media_change false (selectMode Dark (selectScheme Moss first_visit))) in
  data_scheme q = Some "moss" /\ data_theme q = Some "dark".
Proof.
  intros q. assert (H : shows Moss Dark q).
  { apply (choice_lasts Moss Dark first_visit q).
    - split; [apply NoDup_singleton|]. repeat constructor.
    - eapply rtc_l; [apply (PassiveMedia false)|]. eapply rtc_l; [apply PassiveLoad|]. constructor. }
  split; [exact (sh_scheme _ _ _ H)|exact (sh_theme _ _ _ H)].
Defined.
