(* ===== verification/Scoreboard.v ===== *)
(** * The scoreboard ([components/ui/scoreboard-table.tsx], [scoreboard-rank.tsx])

    The table that both dashboards show: a column for each service of a row, rows
    sorted by a chosen column, and the change of rank. *)

From S2P Require Import Prelude JsString JsNumber Ranking DashboardTypes AdminTypes ScoringLeaders.

#[local] Open Scope string_scope.
#[local] Open Scope Z_scope.
#[local] Open Scope list_scope.
#[local] Open Scope js_scope.

(** ** Columns *)

Record ServiceColumn := mkServiceColumn {
  col_key : string;
  col_challengeID : Z;
  col_service : string
}.

Definition serviceColumnKey (service : ScoreServiceRow) : string :=
  num_to_string (cs_challenge_id service) ++ₛ ":" ++ₛ cs_service service.

(** [row.services ?? []]. *)
Definition services_of (row : ScoreRow) : list ScoreServiceRow := so_services row ?? [].

(** The body of the loop over the services of all rows. *)
Definition collect_column (acc : list string * list ServiceColumn) (service : ScoreServiceRow)
    : list string * list ServiceColumn :=
  let '(seen, columns) := acc in
  let key := serviceColumnKey service in
  if bool_decide (key ∈ seen) then acc
  else (oset_add seen key,
        columns ++ [mkServiceColumn key (cs_challenge_id service) (cs_service service)]).

Section Board.
Variable localeCompare : string -> string -> Z.

Definition compare_columns (a b : ServiceColumn) : Z :=
  if negb (col_challengeID a =? col_challengeID b) then col_challengeID a - col_challengeID b
  else localeCompare (col_service a) (col_service b).

Definition collectServiceColumns (scoreRows : list ScoreRow) : list ServiceColumn :=
  js_sort compare_columns
    (fold_left (fun acc row => fold_left collect_column (services_of row) acc) scoreRows ([], [])).2.

(** [new Map(entries)]: the last entry of a key is kept. *)
Definition serviceLookup (row : ScoreRow) : list (string * ScoreServiceRow) :=
  fold_left (fun m service => map_set m (serviceColumnKey service) service) (services_of row) [].

(** What the cell of a row shows in a column. *)
Definition service_cell (row : ScoreRow) (column : ServiceColumn) : option ScoreServiceRow :=
  map_get (serviceLookup row) (col_key column).

(** ** Sorting *)

Inductive SortField := SortRank | SortTeam | SortAttack | SortDefense | SortSla | SortTotal.

#[export] Instance SortField_eq_dec : EqDecision SortField.
Proof. solve_decision. Defined.

Inductive SortDirection := Asc | Desc.

#[export] Instance SortDirection_eq_dec : EqDecision SortDirection.
Proof. solve_decision. Defined.

(** The sign of [x - y]; the sort reads a NaN as zero. *)
Definition compare_num (x y : num) : Z := sub_sign x y ?? 0.

(** The comparison of a field, before its direction. *)
Definition compare_field (field : SortField) (left right : ScoreRow) : Z :=
  match field with
  | SortTeam => localeCompare (so_team left) (so_team right)
  | SortAttack => compare_num (so_attack left) (so_attack right)
  | SortDefense => compare_num (so_defense left) (so_defense right)
  | SortSla => compare_num (so_sla left) (so_sla right)
  | SortTotal => compare_num (so_total left) (so_total right)
  | SortRank => so_rank left - so_rank right
  end.

Definition direction_of (d : SortDirection) : Z := match d with Asc => 1 | Desc => -1 end.

Definition sortedRows (scoreRows : list ScoreRow) (sortField : SortField) (sortDirection : SortDirection)
    : list ScoreRow :=
  js_sort (fun left right => compare_field sortField left right * direction_of sortDirection) scoreRows.

Record Sorting := mkSorting { sortField : SortField; sortDirection : SortDirection }.

Definition handleSort (field : SortField) (s : Sorting) : Sorting :=
  if bool_decide (sortField s = field)
  then mkSorting (sortField s) (if bool_decide (sortDirection s = Asc) then Desc else Asc)
  else mkSorting field Asc.

(** ** Cards of small screens *)

(** Whether a card is expanded, for the teams that were touched. *)
Definition toggleExpand (teamName : string) (prev : list (string * bool)) : list (string * bool) :=
  map_set prev teamName (negb (map_get prev teamName ?? false)).

Definition visibleServices (expandedTeams : list (string * bool)) (score : ScoreRow)
    : list ScoreServiceRow :=
  let allServices := services_of score in
  if map_get expandedTeams (so_team score) ?? false then allServices else take 3 allServices.

(** ** Tones and changes of rank *)

Definition scoreTone (value : num) (fallback : string) : string :=
  match num_compare_Z value 0 with
  | Some Gt => "text-positive"
  | Some Lt => "text-negative"
  | _ => fallback
  end.

(** [RankBadge]: a medal, or the rank with its sign. *)
Definition rank_badge (rank : Z) : string * option string :=
  if rank =? 1 then (num_to_string rank, Some "1st Place (Gold)")
  else if rank =? 2 then (num_to_string rank, Some "2nd Place (Silver)")
  else if rank =? 3 then (num_to_string rank, Some "3rd Place (Bronze)")
  else ("#" ++ₛ num_to_string rank, None).

Inductive DeltaMark := MarkUp (n : Z) | MarkDown (n : Z) | MarkStatic | MarkNew.

(** The marks that [ScoreboardRank] shows, in their order. *)
Definition delta_marks (delta : string) : list DeltaMark :=
  match parse_int delta with
  | Some n =>
      (if n >? 0 then [MarkUp (Z.abs n)] else []) ++
      (if n <? 0 then [MarkDown (Z.abs n)] else []) ++
      (if n =? 0 then [MarkStatic] else [])
  | None => []
  end ++ (if String.eqb delta "new" then [MarkNew] else []).

Definition describeDelta (delta : string) : string :=
  if String.eqb delta "new" then "new entry"
  else match parse_int delta with
  | None => "unchanged"
  | Some n =>
      if n =? 0 then "unchanged"
      else if n >? 0 then "up " ++ₛ num_to_string n
      else "down " ++ₛ num_to_string (Z.abs n)
  end.
End Board.

(** ** The columns are those of the services *)

Definition all_services (rows : list ScoreRow) : list ScoreServiceRow := rows ≫= services_of.

(** Challenges have identifiers that a number holds. *)
Definition safe_ids (rows : list ScoreRow) : Prop :=
  Forall (fun s => safe (cs_challenge_id s) /\ 0 <= cs_challenge_id s) (all_services rows).

Lemma key_inj a b :
  safe (cs_challenge_id a) -> 0 <= cs_challenge_id a -> safe (cs_challenge_id b) -> 0 <= cs_challenge_id b ->
  serviceColumnKey a = serviceColumnKey b ->
  cs_challenge_id a = cs_challenge_id b /\ cs_service a = cs_service b.
Proof.
  intros Ha Ha0 Hb Hb0 H. unfold serviceColumnKey in H.
  assert (Hcut : forall s t u v, free_of ":" s -> free_of ":" t ->
    s ++ₛ String ":" u = t ++ₛ String ":" v -> s = t /\ u = v).
  { intros s t u v Hs Ht Heq.
    assert (Hx : split_on ":" (s ++ₛ String ":" u) = split_on ":" (t ++ₛ String ":" v)) by by rewrite Heq.
    rewrite !split_on_app in Hx by done. injection Hx as -> _. split; [done|].
    revert Heq. clear. induction t as [|c t IH]; simpl; [by intros [= ->]|]. intros [= Heq]. auto. }
  apply Hcut in H as [H ->]; [|by apply num_to_string_free..]. split; [|done].
  by apply num_to_string_inj.
Qed.

Definition column_of (s : ScoreServiceRow) : ServiceColumn :=
  mkServiceColumn (serviceColumnKey s) (cs_challenge_id s) (cs_service s).

Lemma collect_columns services seen columns :
  seen = col_key <$> columns -> NoDup seen ->
  let r := fold_left collect_column services (seen, columns) in
  r.1 = col_key <$> r.2 /\ NoDup r.1 /\
  (forall k, k ∈ r.1 <-> k ∈ seen \/ k ∈ serviceColumnKey <$> services) /\
  forall c, c ∈ r.2 -> c ∈ columns \/ c ∈ column_of <$> services.
Proof.
  revert seen columns. induction services as [|s services IH]; intros seen columns Hs Hn; simpl.
  - split_and!; [done|done|set_solver|by left].
  - case_bool_decide as Hk.
    + destruct (IH seen columns Hs Hn) as (H1 & H2 & H3 & H4). split_and!; [done|done| |].
      * intros k. rewrite H3. csimpl. set_solver.
      * intros c Hc. csimpl. destruct (H4 c Hc); set_solver.
    + destruct (IH (oset_add seen (serviceColumnKey s)) (columns ++ [column_of s])) as (H1 & H2 & H3 & H4).
      * rewrite fmap_app, <- Hs. unfold oset_add. by rewrite decide_False.
      * by apply oset_add_NoDup.
      * split_and!; [done|done| |].
        -- intros k. rewrite H3, elem_of_oset_add. csimpl. set_solver.
        -- intros c Hc. csimpl. destruct (H4 c Hc) as [Hin|Hin]; [|set_solver].
           apply elem_of_app in Hin as [Hin|Hin]; set_solver.
Qed.

Lemma fold_bind {A B C} (f : C -> B -> C) (g : A -> list B) l acc :
  fold_left (fun acc x => fold_left f (g x) acc) l acc = fold_left f (l ≫= g) acc.
Proof.
  revert acc. induction l as [|x l IH]; intros acc; [done|]. csimpl. by rewrite fold_left_app, IH.
Qed.

(** The board has a column for each service and no other: the columns have
    distinct keys, and there is one with the challenge and the name of a service
    exactly when a row has that service; in the cell of a row whose services differ,
    it shows that service of the row, and nothing in the columns of the services that
    the row lacks. *)
Theorem columns_cover_services localeCompare rows :
  safe_ids rows ->
  let columns := collectServiceColumns localeCompare rows in
  NoDup (col_key <$> columns) /\
  (forall c, c ∈ columns <-> exists s, s ∈ all_services rows /\ c = column_of s) /\
  forall row, row ∈ rows -> NoDup (serviceColumnKey <$> services_of row) ->
    forall c s, c ∈ columns -> service_cell row c = Some s <-> s ∈ services_of row /\ c = column_of s.
Proof.
  intros Hsafe columns.
  destruct (collect_columns (all_services rows) [] [] eq_refl (NoDup_nil_2)) as (H1 & H2 & H3 & H4).
  set (r := fold_left collect_column (all_services rows) ([], [])) in *.
  assert (Hperm : columns ≡ₚ r.2).
  { unfold columns, collectServiceColumns. rewrite js_sort_perm, fold_bind. done. }
  assert (Hkey : forall s t, s ∈ all_services rows -> t ∈ all_services rows ->
    serviceColumnKey s = serviceColumnKey t -> column_of s = column_of t).
  { intros s t Hs Ht Hk. destruct (proj1 (list.Forall_forall _ _) Hsafe s Hs).
    destruct (proj1 (list.Forall_forall _ _) Hsafe t Ht).
    destruct (key_inj s t) as [Hid Hname]; [done..|]. unfold column_of. by rewrite Hk, Hid, Hname. }
  assert (Hcol : forall c, c ∈ columns <-> exists s, s ∈ all_services rows /\ c = column_of s).
  { intros c. rewrite Hperm. split.
    - intros Hc. destruct (H4 c Hc) as [Hn|Hc']; [by apply elem_of_nil in Hn|].
      apply list_elem_of_fmap in Hc' as (s & -> & Hs). by exists s.
    - intros (s & Hs & ->). assert (Hk : serviceColumnKey s ∈ r.1) by (apply H3; right; by apply list_elem_of_fmap_2).
      rewrite H1 in Hk. apply list_elem_of_fmap in Hk as (c & Hk & Hc).
      destruct (H4 c Hc) as [Hn|Hc']; [by apply elem_of_nil in Hn|].
      apply list_elem_of_fmap in Hc' as (t & -> & Ht). by rewrite (Hkey s t). }
  split_and!; [by rewrite Hperm, <- H1|done|].
  intros row Hrow Hn c s Hc. unfold service_cell, serviceLookup.
  assert (Hget : forall services m, NoDup (serviceColumnKey <$> services) ->
    map_get (fold_left (fun m service => map_set m (serviceColumnKey service) service) services m) (col_key c) = Some s <->
    (s ∈ services /\ serviceColumnKey s = col_key c) \/
    (col_key c ∉ serviceColumnKey <$> services /\ map_get m (col_key c) = Some s)).
  { induction services as [|t services IH]; intros m Hm; csimpl.
    - set_solver.
    - csimpl in Hm. apply list.NoDup_cons in Hm as [Ht Hm]. rewrite IH, map_get_set by done.
      case_bool_decide as E; [rewrite E in Ht|]; set_solver. }
  rewrite Hget by done. split.
  - intros [[Hs Hk]|[_ Hx]]; [|done]. split; [done|]. apply Hcol in Hc as (t & Ht & ->).
    apply Hkey; [done| |done]. apply list_elem_of_bind. by exists row.
  - intros [Hs ->]. by left.
Qed.

(** ** The order of the rows *)

Definition compare_finite_num (x y : num) : Z := compare_num (finite_part x) (finite_part y).

Lemma compare_finite_num_at g x y :
  g <= exponent x -> g <= exponent y -> compare_finite_num x y = Z.sgn (value_at g x - value_at g y).
Proof. intros Hx Hy. unfold compare_finite_num, compare_num. by rewrite (sub_sign_value g). Qed.

#[export] Instance compare_finite_num_comparator : Comparator compare_finite_num.
Proof.
  split.
  - intros x y. set (g := Z.min (exponent x) (exponent y)).
    rewrite (compare_finite_num_at g x y), (compare_finite_num_at g y x) by lia. lia.
  - intros x y z. set (g := Z.min (exponent x) (Z.min (exponent y) (exponent z))).
    rewrite (compare_finite_num_at g x y), (compare_finite_num_at g y z), (compare_finite_num_at g x z) by lia.
    lia.
Qed.

#[export] Instance compare_finite_num_anti : Antisymmetric compare_finite_num.
Proof.
  intros x y. set (g := Z.min (exponent x) (exponent y)).
  rewrite (compare_finite_num_at g x y), (compare_finite_num_at g y x) by lia. lia.
Qed.

#[global] Typeclasses Opaque compare_finite_num.

(** The figures of a row are numbers. *)
Definition finite_row (row : ScoreRow) : Prop :=
  finite (so_attack row) /\ finite (so_defense row) /\ finite (so_sla row) /\ finite (so_total row).

Definition compare_finite_field (localeCompare : string -> string -> Z) (field : SortField)
    : ScoreRow -> ScoreRow -> Z :=
  match field with
  | SortTeam => on so_team localeCompare
  | SortAttack => on so_attack compare_finite_num
  | SortDefense => on so_defense compare_finite_num
  | SortSla => on so_sla compare_finite_num
  | SortTotal => on so_total compare_finite_num
  | SortRank => on so_rank ascending
  end.

Lemma compare_finite_field_comparator localeCompare `{!Collation localeCompare} field :
  Comparator (compare_finite_field localeCompare field).
Proof. destruct field; simpl; apply _. Qed.

Lemma compare_finite_field_anti localeCompare `{!Collation localeCompare} field :
  Antisymmetric (compare_finite_field localeCompare field).
Proof. destruct field; simpl; apply _. Qed.

Lemma compare_field_finite localeCompare field a b :
  finite_row a -> finite_row b ->
  compare_field localeCompare field a b = compare_finite_field localeCompare field a b.
Proof.
  intros (H1 & H2 & H3 & H4) (H5 & H6 & H7 & H8).
  destruct field; simpl; unfold on, compare_finite_num; by rewrite ?finite_part_id.
Qed.

(** A click on a header sorts by its column, and a second click reverses the
    board: for rows whose figures are numbers and differ in the column, the rows are
    those given, strictly ordered by the column, and the other direction shows them in
    exactly the reverse order. *)
Theorem header_sorts_and_reverses localeCompare `{!Collation localeCompare} rows field s :
  NoDup rows -> Forall finite_row rows -> sortField s <> field ->
  (forall a b, a ∈ rows -> b ∈ rows -> a <> b -> compare_field localeCompare field a b <> 0) ->
  let shown s := sortedRows localeCompare rows (sortField s) (sortDirection s) in
  let once := handleSort field s in
  let twice := handleSort field once in
  shown once ≡ₚ rows /\
  StronglySorted (fun a b => compare_field localeCompare field a b < 0) (shown once) /\
  shown twice = reverse (shown once) /\ handleSort field twice = once.
Proof.
  intros Hn Hf Hne Hd shown once twice.
  pose proof (compare_finite_field_comparator localeCompare field) as Hc.
  pose proof (compare_finite_field_anti localeCompare field) as Ha.
  set (cmp := compare_finite_field localeCompare field) in *.
  assert (Hagree : forall a b, a ∈ rows -> b ∈ rows -> compare_field localeCompare field a b = cmp a b).
  { intros a b Hra Hrb. apply compare_field_finite; by apply (proj1 (list.Forall_forall _ _) Hf). }
  assert (Honce : once = mkSorting field Asc) by (unfold once, handleSort; by rewrite bool_decide_false).
  assert (Htwice : twice = mkSorting field Desc)
    by (unfold twice; rewrite Honce; unfold handleSort; cbn; by rewrite bool_decide_true).
  assert (H1 : shown once = js_sort cmp rows).
  { unfold shown. rewrite Honce. apply js_sort_ext. intros a b Hra Hrb. cbn. rewrite Hagree by done. lia. }
  assert (H2 : shown twice = js_sort (opposite cmp) rows).
  { unfold shown. rewrite Htwice. apply js_sort_ext. intros a b Hra Hrb. cbn. by rewrite Hagree. }
  assert (Hd' : forall a b, a ∈ rows -> b ∈ rows -> a <> b -> cmp a b <> 0)
    by (intros a b Hra Hrb; rewrite <- Hagree by done; by apply Hd).
  rewrite H2, H1. split_and!.
  - apply js_sort_perm.
  - assert (Hs : StronglySorted (fun a b => cmp a b < 0) (js_sort cmp rows)).
    { apply strictly_sorted; [apply js_sort_sorted, Hc|by rewrite js_sort_perm|].
      intros a b. rewrite !js_sort_perm. apply Hd'. }
    assert (Hin : forall x, x ∈ js_sort cmp rows -> x ∈ rows) by (intros x; by rewrite js_sort_perm).
    clear - Hs Hin Hagree. revert Hs Hin. generalize (js_sort cmp rows).
    induction 1 as [|x l Hl IH Hx]; intros Hin; [constructor|].
    constructor; [apply IH; intros y Hy; apply Hin; by right|].
    rewrite List.Forall_forall in Hx |- *. intros y Hy. rewrite Hagree; [by apply Hx|apply Hin; left|].
    apply Hin. right. by apply list_elem_of_In.
  - by apply sort_opposite.
  - rewrite Htwice, Honce. unfold handleSort. cbn. by rewrite bool_decide_true.
Qed.

(** ** Changes of rank *)

(** A change as the platform writes it: a new entry, or a signed number. *)
Definition written_delta (change : option Z) : string :=
  match change with
  | None => "new"
  | Some n => (if n >? 0 then "+" else "") ++ₛ num_to_string n
  end.

Lemma parse_plus s :
  all_digits s -> is_empty s = false -> parse_int (String "+" s) = round_double (digits_value 0 s).
Proof.
  intros Hd He. unfold parse_int.
  change (sign_split (drop_start is_ws (String "+" s))) with (false, s). cbn iota beta.
  rewrite span_digits_only by done. cbn [fst]. rewrite He. f_equal. lia.
Qed.

Lemma parse_signed n : safe n -> parse_int (written_delta (Some n)) = Some n.
Proof.
  intros Hs. unfold written_delta. case_bool; boolify; [|by apply parse_int_num_to_string].
  assert (Hd : all_digits (dec n)) by (apply dec_digits; lia).
  rewrite num_to_string_safe by (done || lia).
  change ("+" ++ₛ dec n) with (String "+" (dec n)). rewrite parse_plus, dec_value by (apply dec_nonempty || done || lia).
  by apply round_double_safe.
Qed.

(** The mark beside a rank and the words that a screen reader gets agree: each
    change of rank has exactly one mark, and a change that is written is read back. *)
Theorem delta_read_back change :
  match change with Some n => safe n | None => True end ->
  let delta := written_delta change in
  match change with
  | None => delta_marks delta = [MarkNew] /\ describeDelta delta = "new entry"
  | Some n =>
      if n =? 0 then delta_marks delta = [MarkStatic] /\ describeDelta delta = "unchanged"
      else if n >? 0 then delta_marks delta = [MarkUp n] /\ describeDelta delta = "up " ++ₛ num_to_string n
      else delta_marks delta = [MarkDown (- n)] /\ describeDelta delta = "down " ++ₛ num_to_string (- n)
  end.
Proof.
  destruct change as [n|]; [|done]. intros Hs delta.
  assert (Hp : parse_int delta = Some n) by by apply parse_signed.
  assert (Hnew : String.eqb delta "new" = false).
  { apply String.eqb_neq. intros H. rewrite H in Hp. discriminate Hp. }
  unfold delta_marks, describeDelta. rewrite Hp, Hnew, app_nil_r.
  destruct (Z.eqb_spec n 0) as [->|Hn]; [done|].
  destruct (Z.gtb_spec n 0).
  - rewrite (proj2 (Z.ltb_ge n 0)), Z.abs_eq by lia. done.
  - rewrite (proj2 (Z.ltb_lt n 0)), Z.abs_neq by lia. done.
Qed.

(** ** Witnesses *)

Definition sample_row (rank : Z) (team : string) (attack : num) (services : list ScoreServiceRow) : ScoreRow :=
  mkScoreRow rank team attack (Finite 0 0) (Finite 0 0) attack "0" (Some services).

Definition sample_service (id : Z) (name : string) : ScoreServiceRow :=
  mkScoreServiceRow id name (Finite 1 0) (Finite 0 0) (Finite 0 0) (Finite 1 0).

Definition sample_board : list ScoreRow :=
  [sample_row 1 "red" (Finite 5 0) [sample_service 2 "web"; sample_service 1 "notes"];
   sample_row 2 "blue" (Finite 3 1) [sample_service 2 "web"]].

Lemma columns_cover_services_witness :
  NoDup (col_key <$> collectServiceColumns code_unit_compare sample_board) /\
  service_cell (sample_row 2 "blue" (Finite 3 1) [sample_service 2 "web"]) (column_of (sample_service 2 "web")) =
    Some (sample_service 2 "web").
Proof.
  destruct (columns_cover_services code_unit_compare sample_board) as (H1 & H2 & H3).
  - repeat constructor; vm_compute; discriminate.
  - split; [exact H1|]. apply (H3 (sample_row 2 "blue" (Finite 3 1) [sample_service 2 "web"])).
    + right. left.
    + apply (bool_decide_unpack _). vm_compute. exact I.
    + apply H2. exists (sample_service 2 "web"). split; [|reflexivity].
      left.
    + split; [left|reflexivity].
Defined.

Lemma header_sorts_and_reverses_witness :
  let s := mkSorting SortRank Asc in
  let shown s := so_team <$> sortedRows code_unit_compare sample_board (sortField s) (sortDirection s) in
  shown (handleSort SortAttack s) = ["red"; "blue"] /\
  shown (handleSort SortAttack (handleSort SortAttack s)) = ["blue"; "red"].
Proof.
  intros s shown. split; [vm_compute; reflexivity|].
  destruct (header_sorts_and_reverses code_unit_compare sample_board SortAttack s) as (_ & _ & H & _).
  - apply (NoDup_fmap_1 so_team), (bool_decide_unpack _). vm_compute. exact I.
  - repeat constructor.
  - discriminate.
  - intros a b Ha Hb Hne. apply list_elem_of_In in Ha, Hb.
    destruct Ha as [<-|[<-|[]]], Hb as [<-|[<-|[]]]; try (by destruct Hne); vm_compute; discriminate.
  - unfold shown. rewrite H. vm_compute. reflexivity.
Defined.

Lemma delta_read_back_witness :
  delta_marks "+3" = [MarkUp 3] /\ describeDelta "+3" = "up 3".
Proof. exact (delta_read_back (Some 3) ltac:(reflexivity)). Defined.
