(* ===== verification/AttackSlice.v ===== *)
(** * Leaders of the attacks on screen ([components/ui/attack-slice-summary.tsx])

    Both dashboards show, above the attack map, who attacks most, who is attacked
    most and which service most, among the rows of the current page of the feed. *)

From S2P Require Import Prelude JsString Ranking.

Record AttackSliceRow := mkAttackSliceRow {
  sl_attacker : string;
  sl_victim : string;
  sl_service : string
}.

(** [field: 'attacker' | 'victim' | 'service'], and [row[field]]. *)
Inductive AttackField := FieldAttacker | FieldVictim | FieldService.

Definition slice_label (field : AttackField) (row : AttackSliceRow) : string :=
  match field with
  | FieldAttacker => sl_attacker row
  | FieldVictim => sl_victim row
  | FieldService => sl_service row
  end.

Record SliceLeaders := mkSliceLeaders {
  sl_attackers : list (string * Z);
  sl_services : list (string * Z);
  sl_victims : list (string * Z)
}.

Section Slice.
Variable localeCompare : string -> string -> Z.

(** The comparison of the sort. *)
Definition compare_slice (left right : string * Z) : Z :=
  if negb (right.2 =? left.2) then right.2 - left.2 else localeCompare left.1 right.1.

Definition summarizeAttackField (attackRows : list AttackSliceRow) (field : AttackField)
    : list (string * Z) :=
  let counts := fold_left (fun counts row => count_up counts (slice_label field row)) attackRows [] in
  take 3 (js_sort compare_slice counts).

Definition buildAttackSliceLeaders (attackRows : list AttackSliceRow) : SliceLeaders :=
  mkSliceLeaders (summarizeAttackField attackRows FieldAttacker)
    (summarizeAttackField attackRows FieldService)
    (summarizeAttackField attackRows FieldVictim).
End Slice.

(** ** The leaders by counting *)

Lemma compare_slice_by_count localeCompare a b :
  compare_slice localeCompare a b = by_count localeCompare a b.
Proof.
  unfold compare_slice, by_count, then_by, flipped, on, ascending.
  repeat case_bool; boolify; simpl in *; lia.
Qed.

Lemma summarizeAttackField_tally localeCompare rows field :
  summarizeAttackField localeCompare rows field =
  take 3 (js_sort (by_count localeCompare) (tally (slice_label field <$> rows))).
Proof.
  unfold summarizeAttackField, tally. f_equal.
  rewrite (js_sort_ext _ (by_count localeCompare)) by (intros; apply compare_slice_by_count).
  f_equal. generalize (@nil (string * Z)). induction rows as [|row rows IH]; intros m; [done|].
  apply IH.
Qed.

(** The leaders are what counting gives: a label is in place [i] with [m]
    attacks exactly when it occurs [m] times in the rows, at least once, and exactly
    [i] labels are ahead of it, a larger count first and then the label. *)
Theorem slice_leaders_by_counting localeCompare `{!Collation localeCompare} rows field i label m :
  (forall a b, a ∈ rows -> b ∈ rows -> slice_label field a <> slice_label field b ->
     localeCompare (slice_label field a) (slice_label field b) <> 0) ->
  let labels := slice_label field <$> rows in
  summarizeAttackField localeCompare rows field !! i = Some (label, m) <->
  label ∈ labels /\ m = occurrences label labels /\ (i < 3)%nat /\
  ahead (by_count localeCompare) (tally labels) (label, m) = i.
Proof.
  intros Hd labels. rewrite summarizeAttackField_tally. apply top_counts; [done|].
  intros a b (x & -> & Hx)%list_elem_of_fmap (y & -> & Hy)%list_elem_of_fmap. by apply Hd.
Qed.

Lemma slice_leaders_by_counting_witness :
  let row a v := mkAttackSliceRow a v "web"%string in
  summarizeAttackField code_unit_compare
    [row "red" "blue"; row "green" "red"; row "blue" "green"; row "green" "blue"]%string
    FieldAttacker !! 1%nat = Some ("blue"%string, 1).
Proof.
  apply (slice_leaders_by_counting code_unit_compare); [|].
  - intros a b Ha Hb. repeat (apply elem_of_cons in Ha as [->|Ha]; [|]); try by apply elem_of_nil in Ha.
    all: repeat (apply elem_of_cons in Hb as [->|Hb]; [try done; discriminate|]);
      by apply elem_of_nil in Hb.
  - split_and!; [set_solver|reflexivity|lia|reflexivity].
Defined.
