(* ===== verification/AttackMapPanel.v ===== *)
(** * The attack map panel ([components/ui/attack-map-panel.tsx])

    The panel shows the attacks of the page of the feed on a globe and lets its user
    review them tick by tick: a view, a selected tick, playback, a highlight of the
    attacks of one tick that fades, a team or an attack under inspection.

    A [World] is what the panel is given, what it keeps, and the timers of the
    browser that it started.  An event is handled in the render that precedes it; the
    effects of a render are a step of their own ([run_effects]), and the relation
    [reachable] interleaves them freely with the events, the timers and new rows. *)

From S2P Require Import Prelude JsString JsNumber Ranking.

#[local] Open Scope string_scope.
#[local] Open Scope Z_scope.

(** ** Data *)

Record GeoPoint := mkGeoPoint { lat : num; lon : num }.

Record AttackMapEvent := mkAttackMapEvent {
  am_id : string;
  am_attacker : string;
  am_attackerLocation : option GeoPoint;
  am_victim : string;
  am_victimLocation : option GeoPoint;
  am_service : string;
  am_tick : Z;
  am_verdict : string
}.

Inductive ViewMode := ViewAll | ViewRecent | ViewCurrent.

#[export] Instance ViewMode_eq_dec : EqDecision ViewMode.
Proof. solve_decision. Defined.

Inductive TickDirection := PrevTick | NextTick.

Definition RECENT_TICK_WINDOW : Z := 5.

Definition PLAYBACK_SPEEDS : list (string * Z) := [("Fast", 900); ("Normal", 1500); ("Slow", 2300)].

(** ** Ticks *)

Definition tickValues (attackRows : list AttackMapEvent) : list Z :=
  js_sort ascending (distinct (am_tick <$> attackRows)).

Definition latestTick (attackRows : list AttackMapEvent) : Z := list.last (tickValues attackRows) ?? 0.

(** [indexOf]. *)
Fixpoint index_of (x : Z) (l : list Z) : option nat :=
  match l with
  | [] => None
  | y :: rest => if y =? x then Some 0%nat else S <$> index_of x rest
  end.

Definition getAdjacentTick (ticks : list Z) (current : Z) (direction : TickDirection) : Z :=
  let n := Z.of_nat (length ticks) in
  match index_of current ticks with
  | None => list.last ticks ?? 0
  | Some currentIndex =>
      let i := Z.of_nat currentIndex in
      let next := match direction with
                  | PrevTick => Z.rem (i - 1 + n) n
                  | NextTick => Z.rem (i + 1) n
                  end in
      ticks !! Z.to_nat next ?? 0
  end.

Definition describeViewMode (mode : ViewMode) : string :=
  match mode with
  | ViewCurrent => "Current Tick"
  | ViewRecent => "Recent"
  | ViewAll => "All Feed"
  end.

Definition formatTickWindow (values : list Z) : string :=
  match values with
  | [] => "no ticks"
  | first :: _ =>
      let final := list.last values ?? first in
      if first =? final then "tick #" ++ₛ num_to_string first
      else "ticks #" ++ₛ num_to_string first ++ₛ "-#" ++ₛ num_to_string final
  end.

(** ** State *)

Record Panel := mkPanel {
  expanded : bool;
  teamQuery : string;
  replayAttackIDs : list string;
  viewMode : ViewMode;
  selectedTick : option Z;
  playbackRunning : bool;
  playbackSpeed : Z;
  selectedTeamId : option string;
  selectedAttackId : option string;
  featuredAttackId : option string;
  replayTimeoutRef : option nat;
  replayFrameRef : option nat
}.

Definition initial_panel : Panel :=
  mkPanel false "" [] ViewAll None false 1500 None None None None None.

(** What the browser still has to run: the frames that were asked for, each with
    the attacks it will highlight, and the timeouts.  Handles are never reused. *)
Record Timers := mkTimers {
  frames : list (nat * list string);
  timeouts : list nat;
  next_handle : nat
}.

Record World := mkWorld {
  attackRows : list AttackMapEvent;
  panel : Panel;
  timers : Timers
}.

(** *** Setters *)

Definition setExpanded b p := mkPanel b (teamQuery p) (replayAttackIDs p) (viewMode p) (selectedTick p) (playbackRunning p) (playbackSpeed p) (selectedTeamId p) (selectedAttackId p) (featuredAttackId p) (replayTimeoutRef p) (replayFrameRef p).
Definition setTeamQuery q p := mkPanel (expanded p) q (replayAttackIDs p) (viewMode p) (selectedTick p) (playbackRunning p) (playbackSpeed p) (selectedTeamId p) (selectedAttackId p) (featuredAttackId p) (replayTimeoutRef p) (replayFrameRef p).
Definition setReplayAttackIDs ids p := mkPanel (expanded p) (teamQuery p) ids (viewMode p) (selectedTick p) (playbackRunning p) (playbackSpeed p) (selectedTeamId p) (selectedAttackId p) (featuredAttackId p) (replayTimeoutRef p) (replayFrameRef p).
Definition setViewMode m p := mkPanel (expanded p) (teamQuery p) (replayAttackIDs p) m (selectedTick p) (playbackRunning p) (playbackSpeed p) (selectedTeamId p) (selectedAttackId p) (featuredAttackId p) (replayTimeoutRef p) (replayFrameRef p).
Definition setSelectedTick t p := mkPanel (expanded p) (teamQuery p) (replayAttackIDs p) (viewMode p) t (playbackRunning p) (playbackSpeed p) (selectedTeamId p) (selectedAttackId p) (featuredAttackId p) (replayTimeoutRef p) (replayFrameRef p).
Definition setPlaybackRunning b p := mkPanel (expanded p) (teamQuery p) (replayAttackIDs p) (viewMode p) (selectedTick p) b (playbackSpeed p) (selectedTeamId p) (selectedAttackId p) (featuredAttackId p) (replayTimeoutRef p) (replayFrameRef p).
Definition setPlaybackSpeed s p := mkPanel (expanded p) (teamQuery p) (replayAttackIDs p) (viewMode p) (selectedTick p) (playbackRunning p) s (selectedTeamId p) (selectedAttackId p) (featuredAttackId p) (replayTimeoutRef p) (replayFrameRef p).
Definition setSelectedTeamId i p := mkPanel (expanded p) (teamQuery p) (replayAttackIDs p) (viewMode p) (selectedTick p) (playbackRunning p) (playbackSpeed p) i (selectedAttackId p) (featuredAttackId p) (replayTimeoutRef p) (replayFrameRef p).
Definition setSelectedAttackId i p := mkPanel (expanded p) (teamQuery p) (replayAttackIDs p) (viewMode p) (selectedTick p) (playbackRunning p) (playbackSpeed p) (selectedTeamId p) i (featuredAttackId p) (replayTimeoutRef p) (replayFrameRef p).
Definition setFeaturedAttackId i p := mkPanel (expanded p) (teamQuery p) (replayAttackIDs p) (viewMode p) (selectedTick p) (playbackRunning p) (playbackSpeed p) (selectedTeamId p) (selectedAttackId p) i (replayTimeoutRef p) (replayFrameRef p).
Definition set_refs timeout frame p := mkPanel (expanded p) (teamQuery p) (replayAttackIDs p) (viewMode p) (selectedTick p) (playbackRunning p) (playbackSpeed p) (selectedTeamId p) (selectedAttackId p) (featuredAttackId p) timeout frame.

(** ** What is shown *)

Section Shown.
Context (rows : list AttackMapEvent) (p : Panel).

Definition selectedTickValue : Z := selectedTick p ?? latestTick rows.

Definition visibleRows : list AttackMapEvent :=
  if (Z.of_nat (length rows) =? 0) || (selectedTickValue =? 0) then rows
  else match viewMode p with
  | ViewCurrent => bfilter (fun row => am_tick row =? selectedTickValue) rows
  | ViewRecent =>
      let windowStart := Z.max 0 (selectedTickValue - (RECENT_TICK_WINDOW - 1)) in
      bfilter (fun row => (am_tick row >=? windowStart) && (am_tick row <=? selectedTickValue)) rows
  | ViewAll => rows
  end.

Definition visibleTeamCount : Z :=
  Z.of_nat (length (distinct ((am_attacker <$> visibleRows) ++ (am_victim <$> visibleRows)))).

Definition visibleServiceCount : Z := Z.of_nat (length (distinct (am_service <$> visibleRows))).

Definition visibleTicks : list Z := js_sort ascending (distinct (am_tick <$> visibleRows)).

Definition allTeams : list string :=
  js_sort code_unit_compare (distinct ((am_attacker <$> rows) ++ (am_victim <$> rows))).

Definition normalizedTeamQuery : string := to_lower (trim (teamQuery p)).

Definition searchedTeams : list string :=
  if String.eqb normalizedTeamQuery "" then []
  else bfilter (fun team => includes normalizedTeamQuery (to_lower team)) allTeams.

(** A truthy text. *)
Definition chosen (o : option string) : option string := o ≫= or_undefined.

Definition focusedTeams : list string :=
  match chosen (selectedTeamId p) with
  | Some team => oset_add (distinct searchedTeams) team
  | None => distinct searchedTeams
  end.

Definition currentTickAttackIDs : list string :=
  if selectedTickValue >? 0
  then am_id <$> bfilter (fun row => am_tick row =? selectedTickValue) rows
  else [].

Definition activeHighlightIDs (highlightedAttackIDs : list string) : list string :=
  distinct (highlightedAttackIDs ++ replayAttackIDs p ++
            match chosen (selectedAttackId p) with Some id => [id] | None => [] end).

(** The last place that the rows give to each team. *)
Definition teamLocations : list (string * GeoPoint) :=
  fold_left (fun locations row =>
    let locations := match am_attackerLocation row with
                     | Some place => map_set locations (am_attacker row) place
                     | None => locations
                     end in
    match am_victimLocation row with
    | Some place => map_set locations (am_victim row) place
    | None => locations
    end) rows [].

Definition find_attack (id : option string) : option AttackMapEvent :=
  find_first (fun row => bool_decide (Some (am_id row) = id)) rows.

Definition selectedAttack := find_attack (selectedAttackId p).
Definition featuredAttack := find_attack (featuredAttackId p).

Definition inspectedAttack : option AttackMapEvent :=
  match selectedAttack with Some a => Some a | None => featuredAttack end.
End Shown.

Record TeamSummary := mkTeamSummary {
  ts_attacks : Z;
  ts_inbound : Z;
  ts_outbound : Z;
  ts_latestTick : option Z;
  ts_opponents : list (string * Z);
  ts_services : list string;
  ts_team : string
}.

Section Summary.
Variable localeCompare : string -> string -> Z.

Definition compare_opponents (left right : string * Z) : Z :=
  if right.2 - left.2 =? 0 then localeCompare left.1 right.1 else right.2 - left.2.

Definition count_opponents (team : string) (involvedRows : list AttackMapEvent) : list (string * Z) :=
  fold_left (fun counts row =>
    let opponent := if String.eqb (am_attacker row) team then am_victim row else am_attacker row in
    count_up counts opponent) involvedRows [].

Definition selectedTeamSummary (rows : list AttackMapEvent) (p : Panel) : option TeamSummary :=
  match chosen (selectedTeamId p) with
  | None => None
  | Some team =>
      let involvedRows := bfilter (fun row => String.eqb (am_attacker row) team ||
                                              String.eqb (am_victim row) team) (visibleRows rows p) in
      match involvedRows with
      | [] => Some (mkTeamSummary 0 0 0 None [] [] team)
      | _ =>
          let outbound := bfilter (fun row => String.eqb (am_attacker row) team) involvedRows in
          let inbound := bfilter (fun row => String.eqb (am_victim row) team) involvedRows in
          Some (mkTeamSummary (Z.of_nat (length involvedRows)) (Z.of_nat (length inbound))
            (Z.of_nat (length outbound))
            (Some (fold_left (fun current row => Z.max current (am_tick row)) involvedRows 0))
            (take 6 (js_sort compare_opponents (count_opponents team involvedRows)))
            (js_sort code_unit_compare (distinct (am_service <$> involvedRows))) team)
      end
  end.
End Summary.

(** ** Effects *)

(** [useEffect] on the ticks and the selected tick. *)
Definition tick_effect (rows : list AttackMapEvent) (p r : Panel) : Panel :=
  if Z.of_nat (length (tickValues rows)) =? 0
  then setPlaybackRunning false (setSelectedTick None r)
  else if match selectedTick p with
          | None => true
          | Some t => negb (bool_decide (t ∈ tickValues rows))
          end
  then setSelectedTick (Some (latestTick rows)) r
  else r.

(** An identifier that is set and that no row has is dropped. *)
Definition is_lost (id : option string) (known : string -> bool) : bool :=
  match chosen id with Some i => negb (known i) | None => false end.

Definition attack_known (rows : list AttackMapEvent) (id : string) : bool :=
  existsb (fun row => String.eqb (am_id row) id) rows.

Definition attack_effect (rows : list AttackMapEvent) (p r : Panel) : Panel :=
  if is_lost (selectedAttackId p) (attack_known rows) then setSelectedAttackId None r else r.

Definition featured_effect (rows : list AttackMapEvent) (p r : Panel) : Panel :=
  if is_lost (featuredAttackId p) (attack_known rows) then setFeaturedAttackId None r else r.

Definition team_effect (rows : list AttackMapEvent) (p r : Panel) : Panel :=
  if is_lost (selectedTeamId p) (fun team => bool_decide (team ∈ allTeams rows))
  then setSelectedTeamId None r else r.

(** The effects of a render, in the order of the component; each reads the render
    [p] and writes the state [r]. *)
Definition run_effects (rows : list AttackMapEvent) (p : Panel) : Panel :=
  team_effect rows p (featured_effect rows p (attack_effect rows p (tick_effect rows p p))).

(** Whether the effect of the playback keeps an interval. *)
Definition interval_on (rows : list AttackMapEvent) (p : Panel) : bool :=
  negb (negb (playbackRunning p) || (Z.of_nat (length (tickValues rows)) <? 2) ||
        (selectedTickValue rows p =? 0)).

(** ** Handlers *)

Inductive Event :=
| EvView (mode : ViewMode)
| EvMove (direction : TickDirection)
| EvTogglePlayback
| EvSpeed (speed : Z)
| EvHighlight
| EvSearch (query : string)
| EvSelectAttack (attackId : option string)
| EvSelectTeam (teamId : option string)
| EvFeatured (attackId : option string)
| EvExpand (b : bool)
| EvInterval
| EvFrame (handle : nat)
| EvTimeout (handle : nat)
| EvRows (rows : list AttackMapEvent)
| EvEffects.

(** A button that is disabled, and a timer that is not there, give no event. *)
Definition enabled (w : World) (e : Event) : bool :=
  let rows := attackRows w in
  match e with
  | EvMove _ => negb (Z.of_nat (length (tickValues rows)) =? 0)
  | EvTogglePlayback => negb (Z.of_nat (length (tickValues rows)) <? 2)
  | EvSpeed s => bool_decide (s ∈ PLAYBACK_SPEEDS.*2)
  | EvHighlight => negb (Z.of_nat (length (currentTickAttackIDs rows (panel w))) =? 0)
  | EvInterval => interval_on rows (panel w)
  | EvFrame h => bool_decide (h ∈ (frames (timers w)).*1)
  | EvTimeout h => bool_decide (h ∈ timeouts (timers w))
  | _ => true
  end.

(** [window.clearTimeout] and [window.cancelAnimationFrame]. *)
Definition cancel_timeout (ref : option nat) (t : Timers) : Timers :=
  match ref with
  | None => t
  | Some h => mkTimers (frames t) (bfilter (fun x => negb (Nat.eqb x h)) (timeouts t)) (next_handle t)
  end.

Definition cancel_frame (ref : option nat) (t : Timers) : Timers :=
  match ref with
  | None => t
  | Some h => mkTimers (bfilter (fun f => negb (Nat.eqb f.1 h)) (frames t)) (timeouts t) (next_handle t)
  end.

Definition request_frame (ids : list string) (t : Timers) : nat * Timers :=
  (next_handle t, mkTimers (frames t ++ [(next_handle t, ids)]) (timeouts t) (S (next_handle t))).

Definition set_timeout (t : Timers) : nat * Timers :=
  (next_handle t, mkTimers (frames t) (timeouts t ++ [next_handle t]) (S (next_handle t))).

Definition replayTick (rows : list AttackMapEvent) (tick : Z) (p : Panel) (t : Timers)
    : Panel * Timers :=
  let tickAttackIDs := am_id <$> bfilter (fun row => am_tick row =? tick) rows in
  if Z.of_nat (length tickAttackIDs) =? 0 then (p, t)
  else
    let t := cancel_frame (replayFrameRef p) (cancel_timeout (replayTimeoutRef p) t) in
    let p := setReplayAttackIDs [] p in
    let '(h, t) := request_frame tickAttackIDs t in
    (set_refs (replayTimeoutRef p) (Some h) p, t).

(** Both move the view away from the whole feed. *)
Definition leave_all (p : Panel) : Panel :=
  if bool_decide (viewMode p = ViewAll) then setViewMode ViewCurrent p else p.

Definition replayCurrentTick (rows : list AttackMapEvent) (p : Panel) (t : Timers) : Panel * Timers :=
  if selectedTickValue rows p =? 0 then (p, t)
  else replayTick rows (selectedTickValue rows p) (leave_all p) t.

Definition moveTick (rows : list AttackMapEvent) (direction : TickDirection) (p : Panel) : Panel :=
  if selectedTickValue rows p =? 0 then p
  else
    let q := leave_all p in
    setSelectedTick (Some (getAdjacentTick (tickValues rows) (selectedTick q ?? latestTick rows)
                             direction)) q.

Definition togglePlayback (p : Panel) : Panel :=
  let next := negb (playbackRunning p) in
  setPlaybackRunning next
    (if next && bool_decide (viewMode p = ViewAll) then setViewMode ViewCurrent p else p).

(** The callback of the interval. *)
Definition playback_step (rows : list AttackMapEvent) (p : Panel) : Panel :=
  setSelectedTick (Some (match selectedTick p with
                         | None => latestTick rows
                         | Some current => getAdjacentTick (tickValues rows) current NextTick
                         end)) p.

Definition onSelectAttack (attackId : option string) (p : Panel) : Panel :=
  let q := setSelectedAttackId attackId p in
  match chosen attackId with Some _ => setSelectedTeamId None q | None => q end.

Definition onSelectTeam (teamId : option string) (p : Panel) : Panel :=
  let q := setSelectedTeamId teamId p in
  match chosen teamId with Some _ => setSelectedAttackId None q | None => q end.

(** The callback of the frame: the highlight, and the timeout that ends it. *)
Definition frame_fires (h : nat) (p : Panel) (t : Timers) : Panel * Timers :=
  let ids := map_get (frames t) h ?? [] in
  let t := cancel_frame (Some h) t in
  let '(k, t) := set_timeout t in
  (set_refs (Some k) (replayFrameRef p) (setReplayAttackIDs ids p), t).

Definition timeout_fires (h : nat) (p : Panel) (t : Timers) : Panel * Timers :=
  (set_refs None (replayFrameRef p) (setReplayAttackIDs [] p), cancel_timeout (Some h) t).

Definition handle (w : World) (e : Event) : World :=
  let rows := attackRows w in let p := panel w in let t := timers w in
  let only q := mkWorld rows q t in
  let both '(q, u) := mkWorld rows q u in
  match e with
  | EvView mode => only (setViewMode mode p)
  | EvMove direction => only (moveTick rows direction p)
  | EvTogglePlayback => only (togglePlayback p)
  | EvSpeed s => only (setPlaybackSpeed s p)
  | EvHighlight => both (replayCurrentTick rows p t)
  | EvSearch q => only (setTeamQuery q p)
  | EvSelectAttack id => only (onSelectAttack id p)
  | EvSelectTeam id => only (onSelectTeam id p)
  | EvFeatured id => only (setFeaturedAttackId id p)
  | EvExpand b => only (setExpanded b p)
  | EvInterval => only (playback_step rows p)
  | EvFrame h => both (frame_fires h p t)
  | EvTimeout h => both (timeout_fires h p t)
  | EvRows rows' => mkWorld rows' p t
  | EvEffects => only (run_effects rows p)
  end.

(** ** Reachable worlds *)

Inductive step (w : World) : World -> Prop :=
| Step e : enabled w e = true -> step w (handle w e).

Inductive reachable : World -> Prop :=
| reach_start rows : reachable (mkWorld rows initial_panel (mkTimers [] [] 0))
| reach_step w w' : reachable w -> step w w' -> reachable w'.

(** ** The ticks *)

Lemma tickValues_sorted rows : StronglySorted Z.lt (tickValues rows).
Proof.
  eapply StronglySorted_weaken; [|apply (sorted_distinct ascending)]; unfold ascending; intros; lia.
Qed.

Lemma elem_of_tickValues rows t : t ∈ tickValues rows <-> t ∈ am_tick <$> rows.
Proof. unfold tickValues. by rewrite js_sort_perm, elem_of_distinct. Qed.

Lemma tickValues_NoDup rows : NoDup (tickValues rows).
Proof. unfold tickValues. rewrite js_sort_perm. apply distinct_NoDup. Qed.

Lemma tickValues_nil rows : tickValues rows = [] <-> rows = [].
Proof.
  split; [|by intros ->]. intros H. destruct rows as [|row rows]; [done|].
  assert (Hin : am_tick row ∈ tickValues (row :: rows)) by (apply elem_of_tickValues; set_solver).
  rewrite H in Hin. by apply elem_of_nil in Hin.
Qed.

Lemma latestTick_elem rows : rows <> [] -> latestTick rows ∈ tickValues rows.
Proof.
  rewrite <- tickValues_nil. unfold latestTick. intros H.
  destruct (list.last (tickValues rows)) as [t|] eqn:E; [by apply last_Some_elem_of|].
  by apply last_None in E.
Qed.

Lemma index_of_spec x l i : index_of x l = Some i -> l !! i = Some x.
Proof.
  revert i. induction l as [|y l IH]; simpl; [done|]. intros i. case_bool; boolify; [by intros [= <-]; subst|].
  intros H. destruct (index_of x l) as [j|] eqn:Ej; [|done]. simplify_eq/=. by apply IH.
Qed.

Lemma index_of_elem x l : x ∈ l -> is_Some (index_of x l).
Proof.
  induction l as [|y l IH]; [by intros ?%elem_of_nil|]. simpl. case_bool; boolify; [done|].
  intros [->|H]%elem_of_cons; [done|]. by destruct (IH H) as [j ->].
Qed.

Lemma index_of_nth l i x : NoDup l -> l !! i = Some x -> index_of x l = Some i.
Proof.
  intros Hn Hi. destruct (index_of_elem x l) as [j Hj]; [by eapply list_elem_of_lookup_2|].
  rewrite Hj. f_equal. apply (NoDup_lookup l j i x Hn); [by apply index_of_spec|done].
Qed.

(** The tick after, or before, the one in place [i], around the end. *)
Lemma adjacent_at ticks i t direction :
  NoDup ticks -> ticks !! i = Some t ->
  let n := length ticks in
  let j := match direction with PrevTick => (i + (n - 1)) mod n | NextTick => (i + 1) mod n end%nat in
  ticks !! j = Some (getAdjacentTick ticks t direction).
Proof.
  intros Hn Hi n j. pose proof (lookup_lt_Some _ _ _ Hi) as Hlt. fold n in Hlt.
  unfold getAdjacentTick. rewrite (index_of_nth ticks i t Hn Hi). fold n.
  assert (Hj : (j < n)%nat) by (subst j; destruct direction; apply Nat.mod_upper_bound; lia).
  assert (Heq : j = Z.to_nat (match direction with
                  | PrevTick => Z.rem (Z.of_nat i - 1 + Z.of_nat n) (Z.of_nat n)
                  | NextTick => Z.rem (Z.of_nat i + 1) (Z.of_nat n)
                  end)).
  { subst j. destruct direction; rewrite Z.rem_mod_nonneg by lia; apply Nat2Z.inj;
      rewrite Z2Nat.id by (apply Z.mod_pos_bound; lia); rewrite Nat2Z.inj_mod; f_equal; lia. }
  rewrite <- Heq. destruct (lookup_lt_is_Some_2 ticks j) as [u Hu]; [done|]. by rewrite Hu.
Qed.

Lemma adjacent_elem ticks t direction :
  NoDup ticks -> t ∈ ticks -> getAdjacentTick ticks t direction ∈ ticks.
Proof.
  intros Hn [i Hi]%list_elem_of_lookup. eapply list_elem_of_lookup_2, adjacent_at; done.
Qed.

Lemma adjacent_back ticks t :
  NoDup ticks -> t ∈ ticks ->
  getAdjacentTick ticks (getAdjacentTick ticks t NextTick) PrevTick = t /\
  getAdjacentTick ticks (getAdjacentTick ticks t PrevTick) NextTick = t.
Proof.
  intros Hn [i Hi]%list_elem_of_lookup. pose proof (lookup_lt_Some _ _ _ Hi) as Hlt.
  set (n := length ticks) in *.
  pose proof (adjacent_at ticks i t NextTick Hn Hi) as H1.
  pose proof (adjacent_at ticks i t PrevTick Hn Hi) as H2. cbn zeta iota in *. fold n in H1, H2.
  pose proof (adjacent_at ticks _ _ PrevTick Hn H1) as H3.
  pose proof (adjacent_at ticks _ _ NextTick Hn H2) as H4. cbn zeta iota in *. fold n in H3, H4.
  rewrite Nat.Div0.add_mod_idemp_l in H3. rewrite Nat.Div0.add_mod_idemp_l in H4.
  replace (i + 1 + (n - 1))%nat with (i + 1 * n)%nat in H3 by lia.
  replace (i + (n - 1) + 1)%nat with (i + 1 * n)%nat in H4 by lia.
  rewrite Nat.Div0.mod_add, Nat.mod_small, Hi in H3, H4 by done. split; congruence.
Qed.

(** ** Settled panels *)

(** What the effects establish. *)
Record settled (rows : list AttackMapEvent) (p : Panel) : Prop := {
  st_tick : match selectedTick p with
            | Some t => t ∈ tickValues rows
            | None => rows = []
            end;
  st_playing : rows = [] -> playbackRunning p = false;
  st_attack : is_lost (selectedAttackId p) (attack_known rows) = false;
  st_featured : is_lost (featuredAttackId p) (attack_known rows) = false;
  st_team : is_lost (selectedTeamId p) (fun team => bool_decide (team ∈ allTeams rows)) = false
}.

Lemma no_ticks rows : (Z.of_nat (length (tickValues rows)) =? 0) = bool_decide (rows = []).
Proof.
  destruct (tickValues rows) as [|t l] eqn:E.
  - apply tickValues_nil in E. by rewrite bool_decide_true.
  - rewrite bool_decide_false by by (intros ->).
    apply Z.eqb_neq. simpl. lia.
Qed.

Lemma tick_effect_settles rows p r :
  selectedTick r = selectedTick p ->
  match selectedTick (tick_effect rows p r) with Some t => t ∈ tickValues rows | None => rows = [] end.
Proof.
  intros Hr. unfold tick_effect. rewrite no_ticks. case_bool_decide as Hnil; [done|].
  destruct (selectedTick p) as [t|] eqn:Et; [case_bool_decide|]; simpl; rewrite ?Hr; try done;
    by apply latestTick_elem.
Qed.

Lemma effects_off rows p : settled rows p -> (rows = [] -> selectedTick p = None) -> run_effects rows p = p.
Proof.
  intros [Ht Hp Ha Hf Hm] Hnone. unfold run_effects, team_effect, featured_effect, attack_effect, tick_effect.
  rewrite Ha, Hf, Hm, no_ticks. case_bool_decide as Hnil.
  - specialize (Hnone Hnil). specialize (Hp Hnil). destruct p; simpl in *; by subst.
  - destruct (selectedTick p) as [t|] eqn:Et; [by rewrite bool_decide_true|done].
Qed.

(** One pass of the effects settles the panel, whatever its state and the rows
    were: the selected tick is one of the rows, playback is off when there is none, the
    attack and the team under inspection exist; and a second pass changes nothing, so
    that the renders that effects cause end. *)
Theorem effects_settle rows p :
  settled rows (run_effects rows p) /\ run_effects rows (run_effects rows p) = run_effects rows p.
Proof.
  assert (Hset : settled rows (run_effects rows p)).
  { unfold run_effects, team_effect, featured_effect, attack_effect.
    pose proof (tick_effect_settles rows p p eq_refl) as Ht.
    assert (Hp : rows = [] -> playbackRunning (tick_effect rows p p) = false) by by intros ->.
    assert (Hsame : selectedAttackId (tick_effect rows p p) = selectedAttackId p /\
                    featuredAttackId (tick_effect rows p p) = featuredAttackId p /\
                    selectedTeamId (tick_effect rows p p) = selectedTeamId p)
      by (unfold tick_effect; repeat case_match; done).
    destruct Hsame as (Ha & Hf & Hm).
    destruct (is_lost (selectedAttackId p) _) eqn:E1, (is_lost (featuredAttackId p) _) eqn:E2,
      (is_lost (selectedTeamId p) _) eqn:E3; constructor; simpl; rewrite ?Ha, ?Hf, ?Hm; done. }
  split; [done|]. apply effects_off; [done|]. intros ->. unfold run_effects, team_effect, featured_effect, attack_effect.
  by repeat case_match.
Qed.

(** In a settled panel every view shows something. *)
Lemma settled_tick rows p :
  settled rows p -> rows <> [] -> selectedTickValue rows p ∈ tickValues rows.
Proof.
  intros [Ht _ _ _ _] Hr. unfold selectedTickValue. by destruct (selectedTick p).
Qed.

Definition positive_ticks (rows : list AttackMapEvent) : Prop := Forall (fun row => 0 < am_tick row) rows.

Lemma positive_elem rows t : positive_ticks rows -> t ∈ tickValues rows -> 0 < t.
Proof.
  rewrite elem_of_tickValues. intros H (row & -> & Hr)%list_elem_of_fmap.
  by apply (proj1 (list.Forall_forall _ _) H).
Qed.

(** The globe is never empty while there are rows: in a settled panel each view
    shows at least one row, the rows of the selected tick among them, and only rows of
    the page. *)
Theorem view_never_empty rows p :
  settled rows p -> positive_ticks rows -> rows <> [] ->
  visibleRows rows p `sublist_of` rows /\
  currentTickAttackIDs rows p <> [] /\
  forall row, row ∈ rows -> am_tick row = selectedTickValue rows p -> row ∈ visibleRows rows p.
Proof.
  intros Hs Hp Hr. pose proof (settled_tick rows p Hs Hr) as Hin.
  pose proof (positive_elem rows _ Hp Hin) as Hpos. split_and!.
  - unfold visibleRows. repeat case_match; try done; apply bfilter_sublist.
  - apply elem_of_tickValues, list_elem_of_fmap in Hin as (row & Heq & Hrow).
    unfold currentTickAttackIDs. rewrite (proj2 (Z.gtb_lt _ _)) by done.
    assert (Hb : row ∈ bfilter (fun row => am_tick row =? selectedTickValue rows p) rows)
      by (apply elem_of_bfilter; split; [lia|done]).
    destruct (bfilter _ rows); [by apply elem_of_nil in Hb|done].
  - intros row Hrow Heq. unfold visibleRows. rewrite (proj2 (Z.eqb_neq (selectedTickValue rows p) 0)), orb_false_r by lia.
    case_bool; [done|]. unfold RECENT_TICK_WINDOW.
    destruct (viewMode p); [done| |]; apply elem_of_bfilter; (split; [|done]); rewrite ?andb_true_iff; lia.
Qed.

(** ** Playback and moves *)

Definition playback (rows : list AttackMapEvent) (n : nat) (p : Panel) : Panel :=
  Nat.iter n (playback_step rows) p.

Lemma playback_at rows p i t n :
  tickValues rows !! i = Some t -> selectedTick p = Some t ->
  selectedTick (playback rows n p) = tickValues rows !! ((i + n) mod length (tickValues rows))%nat /\
  playbackRunning (playback rows n p) = playbackRunning p.
Proof.
  intros Hi Hp. pose proof (lookup_lt_Some _ _ _ Hi) as Hlt. set (m := length (tickValues rows)) in *.
  induction n as [|n [IH1 IH2]]; simpl.
  - by rewrite Nat.add_0_r, Nat.mod_small, Hi.
  - split; [|done]. rewrite IH1.
    destruct (lookup_lt_is_Some_2 (tickValues rows) ((i + n) mod m)%nat) as [u Hu];
      [apply Nat.mod_upper_bound; lia|].
    rewrite Hu, <- (adjacent_at _ _ _ NextTick (tickValues_NoDup rows) Hu). fold m. cbn iota.
    rewrite Nat.Div0.add_mod_idemp_l. do 2 f_equal. lia.
Qed.

(** Playback shows every tick, forever.  From a settled panel whose interval
    runs, with ticks that are positive as the platform numbers them, the interval
    goes on whatever the number of its calls, each call selects the next tick around
    the end, and each tick is selected after fewer calls than there are ticks. *)
Theorem playback_visits_every_tick rows p :
  settled rows p -> positive_ticks rows -> interval_on rows p = true ->
  (forall n, interval_on rows (playback rows n p) = true) /\
  (forall n t, selectedTick (playback rows n p) = Some t ->
     selectedTick (playback rows (S n) p) = Some (getAdjacentTick (tickValues rows) t NextTick)) /\
  forall t, t ∈ am_tick <$> rows ->
    exists n, (n < length (tickValues rows))%nat /\ selectedTick (playback rows n p) = Some t.
Proof.
  intros [Hsel Hplay _ _ _] Hpos Hon.
  assert (Hr : playbackRunning p = true /\ 2 <= Z.of_nat (length (tickValues rows))).
  { unfold interval_on in Hon. destruct (playbackRunning p); [|done]. split; [done|].
    destruct (Z.of_nat (length (tickValues rows)) <? 2) eqn:E; [done|lia]. }
  destruct Hr as [Hrun Hlen].
  destruct (selectedTick p) as [t0|] eqn:E0; [|subst; by specialize (Hplay eq_refl)].
  apply list_elem_of_lookup in Hsel as [i Hi].
  assert (Hat : forall n, exists u, u ∈ tickValues rows /\ selectedTick (playback rows n p) = Some u /\
    playbackRunning (playback rows n p) = true).
  { intros n. destruct (playback_at rows p i t0 n Hi E0) as [H1 H2].
    destruct (lookup_lt_is_Some_2 (tickValues rows) ((i + n) mod length (tickValues rows))%nat) as [u Hu];
      [apply Nat.mod_upper_bound; lia|].
    exists u. split_and!; [by eapply list_elem_of_lookup_2|congruence..]. }
  split_and!.
  - intros n. destruct (Hat n) as (u & Hu & Hs & Hp). pose proof (positive_elem rows u Hpos Hu).
    unfold interval_on, selectedTickValue. rewrite Hs, Hp. simpl.
    rewrite (proj2 (Z.ltb_ge _ _)), (proj2 (Z.eqb_neq u 0)) by lia. done.
  - intros n t Ht. simpl. by rewrite Ht.
  - intros t Ht. apply elem_of_tickValues, list_elem_of_lookup in Ht as [j Hj].
    pose proof (lookup_lt_Some _ _ _ Hj). pose proof (lookup_lt_Some _ _ _ Hi).
    set (m := length (tickValues rows)) in *. exists ((j + (m - i)) mod m)%nat.
    split; [apply Nat.mod_upper_bound; lia|].
    destruct (playback_at rows p i t0 ((j + (m - i)) mod m) Hi E0) as [-> _]. fold m.
    rewrite Nat.Div0.add_mod_idemp_r. replace (i + (j + (m - i)))%nat with (j + 1 * m)%nat by lia.
    by rewrite Nat.Div0.mod_add, Nat.mod_small.
Qed.

(** The two arrows undo each other: after a step to the next tick and one back,
    or the other way, the panel is as it was, but for a view of the whole feed, which
    became the view of the tick. *)
Theorem moves_undo_each_other rows p :
  settled rows p -> positive_ticks rows -> rows <> [] ->
  moveTick rows PrevTick (moveTick rows NextTick p) = leave_all p /\
  moveTick rows NextTick (moveTick rows PrevTick p) = leave_all p.
Proof.
  intros Hs Hpos Hr. pose proof (settled_tick rows p Hs Hr) as Hin.
  destruct Hs as [Hsel _ _ _ _]. unfold selectedTickValue in Hin.
  destruct (selectedTick p) as [t|] eqn:Et; [simpl in Hin|done].
  assert (Hmove : forall q u d, selectedTick q = Some u -> u ∈ tickValues rows ->
    moveTick rows d q = setSelectedTick (Some (getAdjacentTick (tickValues rows) u d)) (leave_all q)).
  { intros q u d Hq Hu. pose proof (positive_elem rows u Hpos Hu). unfold moveTick, selectedTickValue.
    rewrite Hq. simpl. rewrite (proj2 (Z.eqb_neq u 0)) by lia. unfold leave_all.
    by case_bool_decide; simpl; rewrite Hq. }
  pose proof (adjacent_back (tickValues rows) t (tickValues_NoDup rows) Hin) as [Hn Hp].
  assert (Hback : forall d d', getAdjacentTick (tickValues rows) (getAdjacentTick (tickValues rows) t d) d' = t ->
    moveTick rows d' (moveTick rows d p) = leave_all p).
  { intros d d' Hd. rewrite (Hmove p t d) by done.
    rewrite (Hmove _ (getAdjacentTick (tickValues rows) t d) d'), Hd by
      (done || by apply adjacent_elem, Hin; apply tickValues_NoDup).
    unfold leave_all. destruct p; simpl in *; subst. by repeat case_bool_decide. }
  split; by apply Hback.
Qed.

(** ** Highlights and selections in reachable worlds *)

(** The timers that there are are those that the references name: at most one frame,
    at most one timeout, and not both; a highlight on screen has its timeout. *)
Record timers_ok (p : Panel) (t : Timers) : Prop := {
  tm_frames : frames t = [] \/ exists h ids, frames t = [(h, ids)] /\ replayFrameRef p = Some h;
  tm_timeouts : timeouts t = [] \/ exists h, timeouts t = [h] /\ replayTimeoutRef p = Some h;
  tm_waiting : frames t <> [] -> timeouts t = [] /\ replayAttackIDs p = [];
  tm_shown : replayAttackIDs p <> [] -> timeouts t <> []
}.

Lemma cancel_all p t :
  timers_ok p t -> cancel_frame (replayFrameRef p) (cancel_timeout (replayTimeoutRef p) t) =
                   mkTimers [] [] (next_handle t).
Proof.
  intros [Hf Ht _ _].
  assert (H1 : timeouts (cancel_timeout (replayTimeoutRef p) t) = []).
  { destruct Ht as [Ht|(h & Ht & ->)]; [destruct (replayTimeoutRef p)|]; simpl; rewrite ?Ht; simpl; by rewrite ?Nat.eqb_refl. }
  assert (H2 : frames (cancel_timeout (replayTimeoutRef p) t) = frames t /\
               next_handle (cancel_timeout (replayTimeoutRef p) t) = next_handle t)
    by by destruct (replayTimeoutRef p).
  destruct (cancel_timeout (replayTimeoutRef p) t) as [fs ts n]; simpl in *. destruct H2 as [-> ->]. subst ts.
  destruct Hf as [Hf|(h & ids & Hf & ->)]; [destruct (replayFrameRef p)|]; simpl; rewrite Hf; simpl;
    by rewrite ?Nat.eqb_refl.
Qed.

Lemma timers_ok_panel p q t :
  replayTimeoutRef q = replayTimeoutRef p -> replayFrameRef q = replayFrameRef p ->
  replayAttackIDs q = replayAttackIDs p -> timers_ok p t -> timers_ok q t.
Proof. intros H1 H2 H3 [Hf Ht Hw Hs]. constructor; by rewrite ?H1, ?H2, ?H3. Qed.

(** What only the replay changes. *)
Definition same_replay (p q : Panel) : Prop :=
  replayTimeoutRef q = replayTimeoutRef p /\ replayFrameRef q = replayFrameRef p /\
  replayAttackIDs q = replayAttackIDs p.

Lemma run_effects_replay rows p : same_replay p (run_effects rows p).
Proof. unfold run_effects, team_effect, featured_effect, attack_effect, tick_effect. by repeat case_match. Qed.

Lemma leave_all_same p :
  same_replay p (leave_all p) /\ selectedTeamId (leave_all p) = selectedTeamId p /\
  selectedAttackId (leave_all p) = selectedAttackId p /\ playbackSpeed (leave_all p) = playbackSpeed p.
Proof. unfold leave_all. by case_bool_decide. Qed.

Lemma moveTick_same rows d p :
  same_replay p (moveTick rows d p) /\ selectedTeamId (moveTick rows d p) = selectedTeamId p /\
  selectedAttackId (moveTick rows d p) = selectedAttackId p /\
  playbackSpeed (moveTick rows d p) = playbackSpeed p.
Proof. unfold moveTick, leave_all. by repeat case_match. Qed.

Lemma replayTick_ok rows tick p t : timers_ok p t -> let '(q, u) := replayTick rows tick p t in timers_ok q u.
Proof.
  intros H. unfold replayTick. case_bool; [done|]. rewrite (cancel_all p t H). simpl.
  constructor; simpl; [right; by eexists _, _|by left|done|done].
Qed.

Lemma handle_timers w e :
  enabled w e = true -> timers_ok (panel w) (timers w) ->
  timers_ok (panel (handle w e)) (timers (handle w e)).
Proof.
  intros He H. assert (Hsame : forall q, same_replay (panel w) q -> timers_ok q (timers w)).
  { intros q (H1 & H2 & H3). by apply (timers_ok_panel (panel w)). }
  destruct e; simpl in *; try (by apply Hsame).
  - apply Hsame, moveTick_same.
  - apply Hsame. unfold togglePlayback. by repeat case_match.
  - unfold replayCurrentTick. case_bool; [done|].
    pose proof (replayTick_ok (attackRows w) (selectedTickValue (attackRows w) (panel w))
      (leave_all (panel w)) (timers w)) as Hr.
    destruct (replayTick _ _ _ _) as [q u]. simpl. apply Hr, Hsame, leave_all_same.
  - apply Hsame. unfold onSelectAttack. by case_match.
  - apply Hsame. unfold onSelectTeam. by case_match.
  - apply bool_decide_eq_true in He. destruct H as [Hf Ht Hw Hs].
    destruct Hf as [Hf|(h & ids & Hf & Hr)]; [by rewrite Hf in He; apply elem_of_nil in He|].
    destruct Hw as [Hw1 Hw2]; [by rewrite Hf|]. rewrite Hf in He. apply list_elem_of_singleton in He as ->.
    unfold frame_fires. simpl. rewrite Hf, Hw1. simpl. rewrite Nat.eqb_refl. simpl.
    constructor; simpl; [by left|right; by eexists|done|done].
  - apply bool_decide_eq_true in He. destruct H as [Hf Ht Hw Hs].
    destruct Ht as [Ht|(h & Ht & Hr)]; rewrite Ht in He; [by apply elem_of_nil in He|].
    apply list_elem_of_singleton in He as ->.
    assert (Hnf : frames (timers w) = []).
    { destruct (frames (timers w)) as [|f fs] eqn:E; [done|]. destruct Hw as [Hw _]; [done|]. congruence. }
    rewrite Hnf, Ht. simpl. rewrite Nat.eqb_refl. simpl. constructor; simpl; [by left|by left|done|done].
  - apply Hsame, run_effects_replay.
Qed.

(** An attack and a team are never under inspection together, and the speed is one
    of those offered. *)
Definition selection_ok (p : Panel) : Prop :=
  (chosen (selectedTeamId p) = None \/ chosen (selectedAttackId p) = None) /\
  playbackSpeed p ∈ PLAYBACK_SPEEDS.*2.

Lemma handle_selection w e :
  enabled w e = true -> selection_ok (panel w) -> selection_ok (panel (handle w e)).
Proof.
  intros He [Hs Hp]. unfold selection_ok.
  assert (Hsame : forall q, selectedTeamId q = selectedTeamId (panel w) ->
    selectedAttackId q = selectedAttackId (panel w) -> playbackSpeed q = playbackSpeed (panel w) ->
    (chosen (selectedTeamId q) = None \/ chosen (selectedAttackId q) = None) /\
    playbackSpeed q ∈ PLAYBACK_SPEEDS.*2) by (by intros q -> -> ->).
  destruct e; simpl in *; try (by apply Hsame).
  - by apply Hsame; apply moveTick_same.
  - apply Hsame; unfold togglePlayback; by repeat case_match.
  - split; [done|]. by apply bool_decide_eq_true in He.
  - unfold replayCurrentTick, replayTick. case_bool; [done|]. case_bool; apply Hsame; simpl; apply leave_all_same.
  - unfold onSelectAttack. split; [|by case_match]. destruct (chosen attackId) eqn:E; simpl; auto.
  - unfold onSelectTeam. split; [|by case_match]. destruct (chosen teamId) eqn:E; simpl; auto.
  - unfold run_effects, team_effect, featured_effect, attack_effect, tick_effect.
    split; [|by repeat case_match]. destruct Hs as [Hs|Hs]; [left|right]; repeat case_match; done.
Qed.

(** Whatever its user, its timers and new rows do, and however the effects are
    interleaved, the panel keeps at most one frame and one timeout, which are those
    that it can cancel; a highlight that is on screen has the timeout that will end
    it, so that none stays; a team and an attack are never inspected together; and
    the speed of playback is one of those offered. *)
Theorem highlights_end w :
  reachable w ->
  timers_ok (panel w) (timers w) /\ selection_ok (panel w) /\
  (replayAttackIDs (panel w) <> [] -> exists h, enabled w (EvTimeout h) = true /\
     replayTimeoutRef (panel w) = Some h /\ replayAttackIDs (panel (handle w (EvTimeout h))) = []).
Proof.
  intros H.
  assert (Hinv : timers_ok (panel w) (timers w) /\ selection_ok (panel w)).
  { induction H as [rows|w w' _ [IH1 IH2] Hstep].
    - split; [constructor; simpl; auto; done|]. split; [by left|]. apply (bool_decide_unpack _). exact I.
    - destruct Hstep as [e He]. split; [by apply handle_timers|by apply handle_selection]. }
  destruct Hinv as [Ht Hs]. split_and!; [done..|]. intros Hids.
  destruct Ht as [_ [Hto|(h & Hto & Hr)] _ Hshown]; [by apply Hshown in Hids|].
  exists h. simpl. split_and!; [|done|done]. apply bool_decide_eq_true. rewrite Hto. set_solver.
Qed.

(** ** The summary of a team *)

Definition count_rows (test : AttackMapEvent -> bool) (rows : list AttackMapEvent) : Z :=
  Z.of_nat (length (bfilter test rows)).

Lemma bfilter_bfilter {A} (f g : A -> bool) l :
  bfilter f (bfilter g l) = bfilter (fun x => g x && f x) l.
Proof. induction l as [|x l IH]; simpl; [done|]. destruct (g x); simpl; by rewrite ?IH. Qed.

Lemma count_union (f g : AttackMapEvent -> bool) rows :
  count_rows (fun row => f row || g row) rows + count_rows (fun row => f row && g row) rows =
  count_rows f rows + count_rows g rows.
Proof.
  unfold count_rows. induction rows as [|row rows IH]; simpl; [done|].
  destruct (f row), (g row); simpl; lia.
Qed.

Lemma fold_max (rows : list AttackMapEvent) a :
  let m := fold_left (fun current row => Z.max current (am_tick row)) rows a in
  a <= m /\ Forall (fun row => am_tick row <= m) rows /\ (m = a \/ m ∈ am_tick <$> rows).
Proof.
  revert a. induction rows as [|row rows IH]; intros a; simpl; [split_and!; [lia|constructor|by left]|].
  destruct (IH (Z.max a (am_tick row))) as (H1 & H2 & H3). split_and!; [lia|constructor; [lia|done]|].
  destruct H3 as [H3|H3]; [|right; csimpl; set_solver].
  destruct (Z.max_spec a (am_tick row)) as [[_ Hm]|[_ Hm]]; rewrite Hm in H3;
    [right; csimpl; rewrite Hm, H3; set_solver|left; by rewrite Hm].
Qed.

Lemma compare_opponents_by_count localeCompare a b :
  compare_opponents localeCompare a b = by_count localeCompare a b.
Proof. done. Qed.

Definition opponent_of (team : string) (row : AttackMapEvent) : string :=
  if String.eqb (am_attacker row) team then am_victim row else am_attacker row.

Lemma count_opponents_tally team rows : count_opponents team rows = tally (opponent_of team <$> rows).
Proof.
  unfold count_opponents, tally. generalize (@nil (string * Z)).
  induction rows as [|row rows IH]; intros m; [done|]. apply IH.
Qed.

(** The card of a team adds up, over the rows that the view shows: outbound and
    inbound count its attacks and the attacks on it, the total counts each row once,
    an attack on itself too; the latest tick is the last one of these rows; and its
    opponents are the six that counting puts first, each with the number of rows
    between the two. *)
Theorem team_summary_adds_up localeCompare `{!Collation localeCompare} rows p team s :
  chosen (selectedTeamId p) = Some team -> selectedTeamSummary localeCompare rows p = Some s ->
  positive_ticks rows ->
  (forall a b : string, a <> b -> localeCompare a b <> 0) ->
  let attacks row := String.eqb (am_attacker row) team in
  let suffers row := String.eqb (am_victim row) team in
  let shown := visibleRows rows p in
  let involved := bfilter (fun row => attacks row || suffers row) shown in
  let labels := opponent_of team <$> involved in
  ts_outbound s = count_rows attacks shown /\ ts_inbound s = count_rows suffers shown /\
  ts_attacks s = ts_outbound s + ts_inbound s - count_rows (fun row => attacks row && suffers row) shown /\
  match ts_latestTick s with
  | None => involved = []
  | Some m => m ∈ am_tick <$> involved /\ Forall (fun row => am_tick row <= m) involved
  end /\
  forall i name m, ts_opponents s !! i = Some (name, m) <->
    name ∈ labels /\ m = occurrences name labels /\ (i < 6)%nat /\
    ahead (by_count localeCompare) (tally labels) (name, m) = i.
Proof.
  intros Hteam Hs Hpos Hd attacks suffers shown involved labels.
  assert (Hout : count_rows attacks shown = Z.of_nat (length (bfilter attacks involved))).
  { unfold involved, count_rows. rewrite bfilter_bfilter. do 2 f_equal. apply bfilter_ext.
    intros row _. by destruct (attacks row), (suffers row). }
  assert (Hin : count_rows suffers shown = Z.of_nat (length (bfilter suffers involved))).
  { unfold involved, count_rows. rewrite bfilter_bfilter. do 2 f_equal. apply bfilter_ext.
    intros row _. by destruct (attacks row), (suffers row). }
  pose proof (count_union attacks suffers shown) as Htotal. rewrite Hout, Hin in Htotal |- *.
  unfold count_rows at 1 in Htotal. fold involved in Htotal.
  assert (Htick : Forall (fun row => 0 < am_tick row) involved).
  { apply list.Forall_forall. intros row [_ Hrow]%elem_of_bfilter. unfold shown, visibleRows in Hrow.
    apply (proj1 (list.Forall_forall _ _) Hpos).
    repeat case_match; rewrite ?elem_of_bfilter in Hrow; by try destruct Hrow as [_ Hrow]. }
  assert (Htop : forall i name m,
    take 6 (js_sort (compare_opponents localeCompare) (count_opponents team involved)) !! i = Some (name, m) <->
    name ∈ labels /\ m = occurrences name labels /\ (i < 6)%nat /\
    ahead (by_count localeCompare) (tally labels) (name, m) = i).
  { intros i name m. rewrite count_opponents_tally. change (compare_opponents localeCompare)
      with (by_count localeCompare). apply top_counts; [done|]. auto. }
  unfold selectedTeamSummary in Hs. rewrite Hteam in Hs. fold shown in Hs.
  change (bfilter _ shown) with involved in Hs.
  assert (Hall : s = mkTeamSummary (Z.of_nat (length involved)) (Z.of_nat (length (bfilter suffers involved)))
    (Z.of_nat (length (bfilter attacks involved)))
    (match involved with
     | [] => None
     | _ => Some (fold_left (fun current row => Z.max current (am_tick row)) involved 0)
     end)
    (take 6 (js_sort (compare_opponents localeCompare) (count_opponents team involved)))
    (js_sort code_unit_compare (distinct (am_service <$> involved))) team)
    by (clear - Hs; destruct involved; injection Hs as <-; reflexivity).
  rewrite Hall. cbn [ts_outbound ts_inbound ts_attacks ts_latestTick ts_opponents].
  split_and!; [done|done|lia| |exact Htop].
  destruct (fold_max involved 0) as (_ & H2 & H3). clear - Htick H2 H3.
  destruct involved as [|row rest]; [done|]. split; [|done]. destruct H3 as [H3|H3]; [|done].
  exfalso. rewrite H3 in H2. inversion H2. inversion Htick. lia.
Qed.

(** ** Witnesses *)

Definition sample_attack (id attacker victim : string) (tick : Z) : AttackMapEvent :=
  mkAttackMapEvent id attacker None victim None "web" tick "accepted".

Definition sample_attacks : list AttackMapEvent :=
  [sample_attack "a1" "red" "blue" 3; sample_attack "a2" "blue" "red" 7; sample_attack "a3" "red" "green" 5;
   sample_attack "a4" "red" "blue" 7].

(** A playing panel on the second tick. *)
Definition sample_panel : Panel :=
  mkPanel false "" [] ViewRecent (Some 5) true 900 (Some "red") None None None None.

Lemma sample_settled : settled sample_attacks sample_panel.
Proof.
  constructor; try reflexivity; [|done]. apply (bool_decide_unpack _). vm_compute. exact I.
Qed.

Lemma sample_positive : positive_ticks sample_attacks.
Proof. repeat constructor. Qed.

Lemma view_never_empty_witness :
  currentTickAttackIDs sample_attacks sample_panel <> [] /\
  sample_attack "a3" "red" "green" 5 ∈ visibleRows sample_attacks sample_panel.
Proof.
  destruct (view_never_empty sample_attacks sample_panel sample_settled sample_positive) as (_ & H1 & H2);
    [done|].
  split; [exact H1|]. apply H2; [set_solver|reflexivity].
Defined.

Lemma playback_visits_every_tick_witness :
  exists n, (n < 3)%nat /\ selectedTick (playback sample_attacks n sample_panel) = Some 3.
Proof.
  destruct (playback_visits_every_tick sample_attacks sample_panel sample_settled sample_positive)
    as (_ & _ & H); [vm_compute; reflexivity|].
  apply H. set_solver.
Defined.

Lemma moves_undo_each_other_witness :
  moveTick sample_attacks PrevTick (moveTick sample_attacks NextTick sample_panel) = sample_panel.
Proof.
  destruct (moves_undo_each_other sample_attacks sample_panel sample_settled sample_positive) as [H _];
    [done|]. rewrite H. reflexivity.
Defined.

(** A highlight, on screen after its frame. *)
Definition sample_world : World :=
  let w := mkWorld sample_attacks initial_panel (mkTimers [] [] 0) in
  handle (handle w EvHighlight) (EvFrame 0).

Lemma highlights_end_witness :
  replayAttackIDs (panel sample_world) = ["a2"; "a4"] /\
  exists h, enabled sample_world (EvTimeout h) = true.
Proof.
  split; [vm_compute; reflexivity|].
  destruct (highlights_end sample_world) as (_ & _ & H).
  - eapply reach_step; [eapply reach_step; [apply (reach_start sample_attacks)|apply (Step _ EvHighlight)]|
      apply (Step _ (EvFrame 0))]; vm_compute; reflexivity.
  - destruct H as (h & Hh & _); [done|]. by exists h.
Defined.

Lemma team_summary_adds_up_witness :
  exists s, selectedTeamSummary code_unit_compare sample_attacks sample_panel = Some s /\
    ts_outbound s = 2 /\ ts_inbound s = 0.
Proof.
  eexists. split; [reflexivity|].
  destruct (team_summary_adds_up code_unit_compare sample_attacks sample_panel "red" _ eq_refl eq_refl
    sample_positive) as (H1 & H2 & _).
  - intros a b Hne. unfold code_unit_compare. pose proof (String.compare_eq_iff a b).
    destruct (String.compare a b); naive_solver.
  - split; [etrans; [exact H1|]|etrans; [exact H2|]]; vm_compute; reflexivity.
Defined.
