(* ===== verification/AttackMap.v ===== *)
(** * The data of the attack map ([components/ui/cyber-attack-map.tsx])

    What the globe shows of a list of attacks: the teams and the services, the place
    of each team, the routes that bundle the attacks of a team on a service of
    another, and the order in which the showcase goes through them.  Its projection
    is not modelled; its timers are in [Showcase]. *)

From S2P Require Import Prelude JsString JsNumber Ranking DashboardTypes AdminTypes ScoringLeaders AttackMapPanel.

#[local] Open Scope string_scope.
#[local] Open Scope Z_scope.
#[local] Open Scope list_scope.
#[local] Open Scope js_scope.

(** ** 32-bit integers *)

(** [ToUint32] and [ToInt32]. *)
Definition to_uint32 (z : Z) : Z := z mod 2 ^ 32.
Definition to_int32 (z : Z) : Z := let u := to_uint32 z in if u <? 2 ^ 31 then u else u - 2 ^ 32.

(** [x << n], for [n] below 32. *)
Definition shift_left32 (x n : Z) : Z := to_int32 (Z.shiftl (to_int32 x) n).

(** [((hash << 5) + hash + value.charCodeAt(index)) >>> 0]. *)
Definition hash_step (hash code : Z) : Z := to_uint32 (shift_left32 hash 5 + hash + code).

Fixpoint hash_from (hash : Z) (value : string) : Z :=
  match value with
  | EmptyString => hash
  | String c rest => hash_from (hash_step hash (code c)) rest
  end.

Definition hashString (value : string) : Z := hash_from 5381 value.

Definition getAttackRegion (teamName : string) : Z := Z.rem (hashString teamName) 4.

(** ** Teams, services, places *)

Definition listAttackServices (attacks : list AttackMapEvent) : list string :=
  js_sort code_unit_compare (distinct (am_service <$> attacks)).

Definition listAttackTeams (attacks : list AttackMapEvent) : list string :=
  js_sort code_unit_compare (distinct ((am_attacker <$> attacks) ++ (am_victim <$> attacks))).

Definition listPlacementTeams (attackTeamNames : list string) (placementScopeTeams : option (list string))
    : list string :=
  match placementScopeTeams with
  | None | Some [] => attackTeamNames
  | Some scope => js_sort code_unit_compare (distinct (scope ++ attackTeamNames))
  end.

Record Landmark := mkLandmark { lm_code : string; lm_name : string; lm_lat : num; lm_lon : num }.

Definition landmark (c n latitude longitude : string) : Landmark :=
  mkLandmark c n (js_number latitude) (js_number longitude).

Definition LANDMARKS : list Landmark :=
  [landmark "usa-central" "United States" "39.6" "-98.5";
   landmark "uk-midlands" "United Kingdom" "52.6" "-1.5";
   landmark "java-central" "Indonesia" "-7.4" "110.0";
   landmark "usa-east" "US East" "39.4" "-77.8";
   landmark "malaysia-peninsula" "Malaysia" "4.2" "102.0";
   landmark "germany-central" "Germany" "51.0" "10.2";
   landmark "australia-inland" "Australia" "-25.3" "134.2";
   landmark "canada-ontario" "Canada" "50.5" "-86.0";
   landmark "arabia" "Arabian Peninsula" "23.7" "45.3";
   landmark "brazil-central" "Brazil" "-10.8" "-52.7";
   landmark "japan-honshu" "Japan" "37.0" "138.5";
   landmark "east-africa" "East Africa" "0.4" "37.8";
   landmark "usa-west" "US West" "39.2" "-115.0";
   landmark "india-central" "India" "22.5" "79.0";
   landmark "south-africa" "South Africa" "-29.0" "24.0";
   landmark "south-china" "South China" "25.0" "110.0";
   landmark "benelux" "Benelux" "51.5" "5.2";
   landmark "france-central" "France" "46.6" "2.4"].

(** The first landmark, which the map also falls back to. *)
Definition first_landmark : Landmark := landmark "usa-central" "United States" "39.6" "-98.5".

Definition getAttackProvidedLocations (attacks : list AttackMapEvent) : list (string * GeoPoint) :=
  fold_left (fun locations attack =>
    let locations := match am_attackerLocation attack with
                     | Some place => map_set locations (am_attacker attack) place
                     | None => locations
                     end in
    match am_victimLocation attack with
    | Some place => map_set locations (am_victim attack) place
    | None => locations
    end) attacks [].

Definition place_team (teamLocations attackLocations : list (string * GeoPoint)) (index : nat)
    (team : string) : string * Landmark :=
  (team,
   match (match map_get teamLocations team with
          | Some p => Some p
          | None => map_get attackLocations team
          end) with
   | Some provided =>
       mkLandmark ("provided-" ++ₛ num_to_string (hashString team)) "Configured location"
         (lat provided) (lon provided)
   | None => LANDMARKS !! (index mod length LANDMARKS)%nat ?? first_landmark
   end).

Definition getLandmarkPlacements (teamNames : list string) (attacks : list AttackMapEvent)
    (teamLocations : list (string * GeoPoint)) : list (string * Landmark) :=
  imap (place_team teamLocations (getAttackProvidedLocations attacks))
    (js_sort code_unit_compare teamNames).

(** The places that the map gives to the teams of its attacks. *)
Definition map_placements (attacks : list AttackMapEvent) (placementScopeTeams : option (list string))
    (teamLocations : list (string * GeoPoint)) : list (string * Landmark) :=
  getLandmarkPlacements (listPlacementTeams (listAttackTeams attacks) placementScopeTeams)
    attacks teamLocations.

(** *** Figures of the teams, colours of the services *)

Record TeamStats := mkTeamStats { incoming : Z; outgoing : Z }.

Definition count_stats (stats : list (string * TeamStats)) (attack : AttackMapEvent)
    : list (string * TeamStats) :=
  let stats := match map_get stats (am_attacker attack) with
               | Some s => map_set stats (am_attacker attack) (mkTeamStats (incoming s) (outgoing s + 1))
               | None => stats
               end in
  match map_get stats (am_victim attack) with
  | Some s => map_set stats (am_victim attack) (mkTeamStats (incoming s + 1) (outgoing s))
  | None => stats
  end.

Definition buildTeamStats (attacks : list AttackMapEvent) (attackTeamNames : list string)
    : list (string * TeamStats) :=
  fold_left count_stats attacks
    (fold_left (fun stats name => map_set stats name (mkTeamStats 0 0)) attackTeamNames []).

Definition attackPalette : list string :=
  (fun n => "var(--attack-map-route-" ++ₛ n ++ₛ ")") <$> ["1"; "2"; "3"; "4"; "5"; "6"; "7"; "8"].

Definition buildServiceColors (services : list string) : list (string * string) :=
  imap (fun index service => (service, attackPalette !! (index mod length attackPalette)%nat ?? ""))
    services.

(** ** Ticks and recency *)

Definition getAttackTickRange (attacks : list AttackMapEvent) : Z * Z :=
  match attacks with
  | [] => (0, 0)
  | first :: _ =>
      fold_left (fun range attack => (Z.max range.1 (am_tick attack), Z.min range.2 (am_tick attack)))
        attacks (am_tick first, am_tick first)
  end.

(** [Math.min(1, Math.max(0, value))]. *)
Definition clamp_unit (value : num) : num :=
  match num_compare_Z value 0, num_compare_Z value 1 with
  | Some Lt, _ => num_of_Z 0
  | _, Some Gt => num_of_Z 1
  | _, _ => value
  end.

(** A range is its maximum and its minimum. *)
Definition getAttackRecency (tick : Z) (range : Z * Z) : num :=
  if range.1 <=? range.2 then num_of_Z 1
  else clamp_unit (int_div (tick - range.2) (range.1 - range.2)).

(** ** Routes *)

Record AttackRoute := mkAttackRoute {
  ar_attack : AttackMapEvent;
  ar_attackIds : list string;
  ar_count : Z
}.

Definition nul : ascii := "000".

Definition route_key (attacker victim service : string) : string :=
  attacker ++ₛ String nul (victim ++ₛ String nul service).

Definition key_of (attack : AttackMapEvent) : string :=
  route_key (am_attacker attack) (am_victim attack) (am_service attack).

(** [existing.id = attack.id; existing.tick = attack.tick]. *)
Definition with_id_tick (id : string) (tick : Z) (a : AttackMapEvent) : AttackMapEvent :=
  mkAttackMapEvent id (am_attacker a) (am_attackerLocation a) (am_victim a) (am_victimLocation a)
    (am_service a) tick (am_verdict a).

Definition new_route (attack : AttackMapEvent) : AttackRoute := mkAttackRoute attack [am_id attack] 1.

Definition extend_route (existing : AttackRoute) (attack : AttackMapEvent) : AttackRoute :=
  mkAttackRoute
    (if am_tick attack >=? am_tick (ar_attack existing)
     then with_id_tick (am_id attack) (am_tick attack) (ar_attack existing)
     else ar_attack existing)
    (ar_attackIds existing ++ [am_id attack]) (ar_count existing + 1).

Definition bundle_step (routes : list (string * AttackRoute)) (attack : AttackMapEvent)
    : list (string * AttackRoute) :=
  map_set routes (key_of attack)
    (match map_get routes (key_of attack) with
     | None => new_route attack
     | Some existing => extend_route existing attack
     end).

Section Collated.
Variable localeCompare : string -> string -> Z.

(** [a || b] of differences. *)
Definition compare_routes : AttackRoute -> AttackRoute -> Z :=
  then_by (on (fun r => am_tick (ar_attack r)) ascending)
    (then_by (on (fun r => am_attacker (ar_attack r)) localeCompare)
      (then_by (on (fun r => am_victim (ar_attack r)) localeCompare)
        (on (fun r => am_service (ar_attack r)) localeCompare))).

Definition bundleAttackRoutes (attacks : list AttackMapEvent) : list AttackRoute :=
  js_sort compare_routes (snd <$> fold_left bundle_step attacks []).

(** ** The showcase's order *)

(** [Math.log2] of a positive integer. *)
Variable log2 : Z -> num.

Definition scoreFeaturedAttack (attack : AttackMapEvent) (tickRange : Z * Z)
    (serviceCounts teamCounts : list (string * Z)) : num :=
  let recency := getAttackRecency (am_tick attack) tickRange in
  let serviceRarity := int_div 1 (Z.max 1 (map_get serviceCounts (am_service attack) ?? 1)) in
  let teamActivity := (map_get teamCounts (am_attacker attack) ?? 0) +
                      (map_get teamCounts (am_victim attack) ?? 0) in
  let crossRegion := if getAttackRegion (am_attacker attack) =? getAttackRegion (am_victim attack)
                     then 0 else 1 in
  num_add (num_add (num_add (num_mul recency (num_of_Z 7))
                            (num_mul (num_of_Z crossRegion) (js_number "2.4")))
                   (num_mul serviceRarity (js_number "1.6")))
          (log2 (teamActivity + 1)).

(** A NaN is falsy, as zero is. *)
Definition compare_featured (score : AttackMapEvent -> num) (left right : AttackMapEvent) : Z :=
  match sub_sign (score right) (score left) with
  | None | Some 0 =>
      if am_tick right - am_tick left =? 0 then localeCompare (am_id left) (am_id right)
      else am_tick right - am_tick left
  | Some diff => diff
  end.

Definition buildFeaturedAttackQueue (attacks : list AttackMapEvent) : list AttackMapEvent :=
  let tickRange := getAttackTickRange attacks in
  let serviceCounts := fold_left (fun counts a => count_up counts (am_service a)) attacks [] in
  let teamCounts :=
    fold_left (fun counts a => count_up (count_up counts (am_attacker a)) (am_victim a)) attacks [] in
  js_sort (compare_featured (fun a => scoreFeaturedAttack a tickRange serviceCounts teamCounts)) attacks.
End Collated.

(** ** The hash *)

Lemma to_int32_mod z : to_int32 z mod 2 ^ 32 = z mod 2 ^ 32.
Proof.
  unfold to_int32, to_uint32. case_bool; [by rewrite Z.mod_mod by lia|].
  replace (z mod 2 ^ 32 - 2 ^ 32) with (z mod 2 ^ 32 + (-1) * 2 ^ 32) by lia.
  by rewrite Z.mod_add, Z.mod_mod by lia.
Qed.

Lemma to_int32_range z : - 2 ^ 31 <= to_int32 z < 2 ^ 31.
Proof.
  unfold to_int32, to_uint32. pose proof (Z.mod_pos_bound z (2 ^ 32)). case_bool; boolify; lia.
Qed.

Lemma shift_left32_mod x n : 0 <= n -> shift_left32 x n mod 2 ^ 32 = (x * 2 ^ n) mod 2 ^ 32.
Proof.
  intros Hn. unfold shift_left32. rewrite to_int32_mod, Z.shiftl_mul_pow2 by done.
  rewrite <- Z.mul_mod_idemp_l, to_int32_mod, Z.mul_mod_idemp_l by lia. done.
Qed.

Lemma hash_step_mod h c : hash_step h c = (33 * h + c) mod 2 ^ 32.
Proof.
  unfold hash_step, to_uint32. rewrite <- Z.add_assoc, <- Z.add_mod_idemp_l, shift_left32_mod by lia.
  rewrite Z.add_mod_idemp_l by lia. f_equal. lia.
Qed.

(** The polynomial that the hash is meant to be, without a width. *)
Fixpoint polynomial (h : Z) (value : string) : Z :=
  match value with
  | EmptyString => h
  | String c rest => polynomial (33 * h + code c) rest
  end.

Lemma polynomial_mod value h h' :
  h mod 2 ^ 32 = h' mod 2 ^ 32 -> polynomial h value mod 2 ^ 32 = polynomial h' value mod 2 ^ 32.
Proof.
  revert h h'. induction value as [|c rest IH]; intros h h' H; simpl; [done|]. apply IH.
  by rewrite <- Z.add_mod_idemp_l, <- Z.mul_mod_idemp_r, H, Z.mul_mod_idemp_r, Z.add_mod_idemp_l by lia.
Qed.

Lemma hash_from_polynomial value h : 0 <= h < 2 ^ 32 -> hash_from h value = polynomial h value mod 2 ^ 32.
Proof.
  revert h. induction value as [|c rest IH]; intros h Hh; simpl; [by rewrite Z.mod_small|].
  rewrite hash_step_mod, IH by (apply Z.mod_pos_bound; lia).
  apply polynomial_mod. by rewrite Z.mod_mod by lia.
Qed.

(** The hash of a name is the polynomial of base 33 over its characters, reduced
    to 32 bits at the end: no step of the shift, whose result is signed, and of the
    sum, which exceeds 32 bits, loses anything, and the sum stays far below the 53
    bits of a number.  So it is an unsigned integer of 32 bits, and the region of a
    team is one of four. *)
Theorem hash_is_polynomial value :
  hashString value = polynomial 5381 value mod 2 ^ 32 /\
  0 <= hashString value < 2 ^ 32 /\ 0 <= getAttackRegion value < 4 /\
  forall c, safe (shift_left32 (hashString value) 5 + hashString value + code c).
Proof.
  assert (Hh : hashString value = polynomial 5381 value mod 2 ^ 32) by by apply hash_from_polynomial.
  assert (Hr : 0 <= hashString value < 2 ^ 32) by (rewrite Hh; apply Z.mod_pos_bound; lia).
  split_and!; [done|lia|lia| | |].
  - unfold getAttackRegion. rewrite Z.rem_mod_nonneg by lia. apply Z.mod_pos_bound. lia.
  - unfold getAttackRegion. rewrite Z.rem_mod_nonneg by lia. apply Z.mod_pos_bound. lia.
  - intros c. pose proof (code_range c). unfold shift_left32, safe.
    pose proof (to_int32_range (Z.shiftl (to_int32 (hashString value)) 5)). lia.
Qed.

(** ** Places *)

Lemma code_unit_le_anti a b : code_unit_compare a b <= 0 -> code_unit_compare b a <= 0 -> a = b.
Proof.
  unfold code_unit_compare. rewrite (String.compare_antisym a b).
  pose proof (String.compare_eq_iff b a). destruct (String.compare b a); simpl; naive_solver lia.
Qed.

(** Sorted names do not depend on the order they came in. *)
Lemma sorted_names_perm l l' : l ≡ₚ l' -> js_sort code_unit_compare l = js_sort code_unit_compare l'.
Proof.
  intros H. apply (sorted_perm_unique code_unit_compare); [apply code_unit_le_anti| |apply js_sort_sorted, _..].
  by rewrite !js_sort_perm.
Qed.

Lemma distinct_ext {A} `{EqDecision A} (l l' : list A) :
  (forall x, x ∈ l <-> x ∈ l') -> distinct l ≡ₚ distinct l'.
Proof.
  intros H. apply NoDup_Permutation; [apply distinct_NoDup..|]. intros x.
  by rewrite !elem_of_distinct.
Qed.

Lemma elem_of_teams attacks t :
  t ∈ listAttackTeams attacks <-> t ∈ (am_attacker <$> attacks) ++ (am_victim <$> attacks).
Proof. unfold listAttackTeams. by rewrite js_sort_perm, elem_of_distinct. Qed.

Lemma imap_ext {A B} (f g : nat -> A -> B) l :
  (forall i x, x ∈ l -> f i x = g i x) -> imap f l = imap g l.
Proof.
  intros H. apply list_eq. intros i. rewrite !list_lookup_imap. destruct (l !! i) as [x|] eqn:E; [|done].
  simpl. f_equal. apply H. by eapply list_elem_of_lookup_2.
Qed.

Lemma map_set_some {K V} `{EqDecision K} (m : list (K * V)) k v k' :
  is_Some (map_get (map_set m k v) k') <-> k = k' \/ is_Some (map_get m k').
Proof.
  rewrite map_get_set. case_bool_decide; split; intros H'; [by left|done|by right|by destruct H'].
Qed.

Lemma exists_cons {A} (P : A -> Prop) x l :
  (exists y, y ∈ x :: l /\ P y) <-> P x \/ exists y, y ∈ l /\ P y.
Proof. setoid_rewrite elem_of_cons. naive_solver. Qed.

Lemma is_Some_None_iff {A} : is_Some (@None A) <-> False.
Proof. split; [by intros [? ?]|done]. Qed.

Lemma is_Some_Some_iff {A} (x : A) : is_Some (Some x) <-> True.
Proof. split; [done|by eexists]. Qed.

(** A fold of places keeps a place that it has, and takes those of its rows. *)
Lemma provided_mono attacks more t :
  (forall a, a ∈ more -> a ∈ attacks) ->
  is_Some (map_get (getAttackProvidedLocations more) t) ->
  is_Some (map_get (getAttackProvidedLocations attacks) t).
Proof.
  assert (Hspec : forall l m, is_Some (map_get (fold_left (fun locations attack =>
      let locations := match am_attackerLocation attack with
                       | Some place => map_set locations (am_attacker attack) place
                       | None => locations end in
      match am_victimLocation attack with
      | Some place => map_set locations (am_victim attack) place
      | None => locations end) l m) t) <->
    is_Some (map_get m t) \/ exists a, a ∈ l /\
      (is_Some (am_attackerLocation a) /\ am_attacker a = t \/
       is_Some (am_victimLocation a) /\ am_victim a = t)).
  { induction l as [|a l IH]; intros m; simpl.
    - split; [by left|]. intros [H|(a & H & _)]; [done|]. by apply elem_of_nil in H.
    - rewrite IH, exists_cons.
      destruct (am_attackerLocation a), (am_victimLocation a);
        rewrite ?map_set_some, ?is_Some_None_iff, ?is_Some_Some_iff; tauto. }
  unfold getAttackProvidedLocations. rewrite !Hspec. intros Hsub [H|(a & Ha & H)].
  - by destruct H.
  - right. exists a. split; [by apply Hsub|done].
Qed.

Lemma teamLocations_provided rows : teamLocations rows = getAttackProvidedLocations rows.
Proof. done. Qed.

Lemma visible_subset rows p a : a ∈ visibleRows rows p -> a ∈ rows.
Proof. unfold visibleRows. intros H. repeat case_match; try done; by apply elem_of_bfilter in H as [_ H]. Qed.

(** The teams that the panel hands to the map are all the teams of its rows, in
    every view. *)
Lemma panel_placement_teams rows p :
  listPlacementTeams (listAttackTeams (visibleRows rows p)) (Some (allTeams rows)) = allTeams rows.
Proof.
  assert (Hsub : forall t, t ∈ listAttackTeams (visibleRows rows p) -> t ∈ allTeams rows).
  { intros t. rewrite elem_of_teams. unfold allTeams. rewrite js_sort_perm, elem_of_distinct, !elem_of_app.
    rewrite !list_elem_of_fmap. intros [(a & -> & Ha)|(a & -> & Ha)]; apply visible_subset in Ha; naive_solver. }
  unfold listPlacementTeams. destruct (allTeams rows) as [|team rest] eqn:E.
  - destruct (listAttackTeams _) as [|t ts]; [done|]. exfalso.
    assert (H : t ∈ []) by (apply Hsub; set_solver). by apply elem_of_nil in H.
  - rewrite <- E in *. change (allTeams rows) with
      (js_sort code_unit_compare (distinct ((am_attacker <$> rows) ++ (am_victim <$> rows)))) at 2.
    apply sorted_names_perm, distinct_ext. intros t. rewrite elem_of_app.
    split; [intros [H|H]|]; [|apply Hsub in H|].
    + unfold allTeams in H. by rewrite js_sort_perm, elem_of_distinct in H.
    + unfold allTeams in H. by rewrite js_sort_perm, elem_of_distinct in H.
    + intros H. left. unfold allTeams. by rewrite js_sort_perm, elem_of_distinct.
Qed.

(** Teams stay where they are.  Whatever the view and the selected tick of the
    panel, the map gives every team of its rows the same place: the team's own when a
    row, shown or not, gives it one, and else the landmark of its rank among all the
    teams; so that replaying the ticks of a match never moves a team. *)
Theorem teams_stay_put rows p q :
  map_placements (visibleRows rows p) (Some (allTeams rows)) (teamLocations rows) =
  map_placements (visibleRows rows q) (Some (allTeams rows)) (teamLocations rows) /\
  forall team, team ∈ allTeams rows ->
    is_Some (map_get (map_placements (visibleRows rows p) (Some (allTeams rows)) (teamLocations rows)) team).
Proof.
  assert (Hplace : forall r, map_placements (visibleRows rows r) (Some (allTeams rows)) (teamLocations rows) =
    imap (place_team (teamLocations rows) []) (js_sort code_unit_compare (allTeams rows))).
  { intros r. unfold map_placements, getLandmarkPlacements. rewrite panel_placement_teams.
    apply imap_ext. intros i t _. unfold place_team. f_equal.
    destruct (map_get (teamLocations rows) t) eqn:E1; [done|].
    destruct (map_get (getAttackProvidedLocations (visibleRows rows r)) t) eqn:E2; [|done]. exfalso.
    destruct (provided_mono rows (visibleRows rows r) t) as [place Hplace]; [apply visible_subset|by rewrite E2|].
    rewrite <- teamLocations_provided in Hplace. congruence. }
  split; [by rewrite !Hplace|]. intros team Ht. rewrite Hplace.
  destruct (map_get _ team) eqn:E; [done|]. apply map_get_None in E. exfalso. apply E.
  rewrite <- (js_sort_perm code_unit_compare) in Ht. apply list_elem_of_lookup in Ht as [i Hi].
  apply list_elem_of_fmap. exists (place_team (teamLocations rows) [] i team). split; [done|].
  eapply list_elem_of_lookup_2. by rewrite list_lookup_imap, Hi.
Qed.

(** ** Routes *)

(** Names that no NUL cuts, so that a key has one reading. *)
Definition plain_names (attacks : list AttackMapEvent) : Prop :=
  Forall (fun a => free_of nul (am_attacker a) /\ free_of nul (am_victim a)) attacks.

Definition same_route (a b : AttackMapEvent) : bool :=
  String.eqb (am_attacker a) (am_attacker b) && String.eqb (am_victim a) (am_victim b) &&
  String.eqb (am_service a) (am_service b).

Lemma same_route_spec a b :
  same_route a b = true <->
  am_attacker a = am_attacker b /\ am_victim a = am_victim b /\ am_service a = am_service b.
Proof. unfold same_route. rewrite !andb_true_iff, !String.eqb_eq. tauto. Qed.

Lemma free_cut s t u v :
  free_of nul s -> free_of nul t -> s ++ₛ String nul u = t ++ₛ String nul v -> s = t /\ u = v.
Proof.
  intros Hs Ht H. assert (Hsplit : split_on nul (s ++ₛ String nul u) = split_on nul (t ++ₛ String nul v)) by by rewrite H.
  rewrite !split_on_app in Hsplit by done. injection Hsplit as -> _. split; [done|].
  revert H. clear. induction t as [|c t IH]; simpl; [by intros [= ->]|]. intros [= H]. auto.
Qed.

Lemma key_reading a b :
  free_of nul (am_attacker a) -> free_of nul (am_victim a) ->
  free_of nul (am_attacker b) -> free_of nul (am_victim b) ->
  key_of a = key_of b <-> same_route a b = true.
Proof.
  intros Ha1 Ha2 Hb1 Hb2. rewrite same_route_spec. unfold key_of, route_key. split.
  - intros H. apply free_cut in H as [-> H]; [|done..]. by apply free_cut in H as [-> ->].
  - by intros (-> & -> & ->).
Qed.

(** The route of a list of attacks between the same ends. *)
Definition add_to_route (route : option AttackRoute) (attack : AttackMapEvent) : option AttackRoute :=
  Some (match route with None => new_route attack | Some existing => extend_route existing attack end).

Definition route_of (attacks : list AttackMapEvent) : option AttackRoute := fold_left add_to_route attacks None.

Lemma route_of_snoc attacks a : route_of (attacks ++ [a]) = add_to_route (route_of attacks) a.
Proof. unfold route_of. by rewrite fold_left_app. Qed.

(** Its attacks in order, their number, and the last one of its latest tick. *)
Lemma route_of_spec attacks r :
  route_of attacks = Some r ->
  ar_attackIds r = am_id <$> attacks /\ ar_count r = Z.of_nat (length attacks) /\
  Forall (fun a => am_tick a <= am_tick (ar_attack r)) attacks /\
  exists l1 a l2, attacks = l1 ++ a :: l2 /\ am_id (ar_attack r) = am_id a /\
    am_tick (ar_attack r) = am_tick a /\ Forall (fun b => am_tick b < am_tick a) l2.
Proof.
  revert r. induction attacks as [|a attacks IH] using rev_ind; [done|]. intros r.
  rewrite route_of_snoc. unfold add_to_route. intros [= <-].
  destruct (route_of attacks) as [e|] eqn:E.
  - destruct (IH e eq_refl) as (H1 & H2 & H3 & l1 & b & l2 & -> & Hid & Htick & Hl2).
    unfold extend_route. cbn [ar_attackIds ar_count ar_attack]. case_bool; boolify; cbn [with_id_tick am_id am_tick].
    + split_and!.
      * rewrite H1. exact (eq_sym (fmap_app am_id _ [a])).
      * rewrite H2, (length_app _ [a]). simpl. lia.
      * apply list.Forall_app. split; [|by repeat constructor; lia].
        eapply List.Forall_impl; [|exact H3]. simpl. intros. lia.
      * exists (l1 ++ b :: l2), a, []. by split_and!.
    + split_and!.
      * rewrite H1. exact (eq_sym (fmap_app am_id _ [a])).
      * rewrite H2, (length_app _ [a]). simpl. lia.
      * apply list.Forall_app. split; [done|]. repeat constructor. lia.
      * exists l1, b, (l2 ++ [a]). split_and!; [by rewrite <- app_assoc|done|done|].
        apply list.Forall_app. split; [done|]. repeat constructor. lia.
  - destruct attacks as [|b attacks] using rev_ind; [|by rewrite route_of_snoc in E].
    simpl. split_and!; [done|done|by repeat constructor; lia|]. by exists [], a, [].
Qed.

Definition bundles (attacks : list AttackMapEvent) : list (string * AttackRoute) :=
  fold_left bundle_step attacks [].

Lemma bundles_NoDup attacks : NoDup ((bundles attacks).*1).
Proof.
  unfold bundles. assert (H : NoDup ((@nil (string * AttackRoute)).*1)) by constructor. revert H.
  generalize (@nil (string * AttackRoute)).
  induction attacks as [|a attacks IH]; intros m Hm; [done|]. apply IH. unfold bundle_step.
  rewrite keys_set. by apply oset_add_NoDup.
Qed.

Lemma route_of_ends attacks a r :
  Forall (fun b => same_route a b = true) attacks -> route_of attacks = Some r ->
  same_route a (ar_attack r) = true.
Proof.
  revert r. induction attacks as [|b attacks IH] using rev_ind; [done|]. intros r.
  rewrite list.Forall_app. intros [Hall Hb]. inversion Hb as [|? ? Hab _]; subst.
  rewrite route_of_snoc. unfold add_to_route. intros [= <-].
  destruct (route_of attacks) as [e|]; [|done]. specialize (IH e Hall eq_refl).
  unfold extend_route. cbn [ar_attack]. case_bool; [|done]. exact IH.
Qed.

Lemma bundles_get attacks a :
  plain_names attacks -> a ∈ attacks ->
  map_get (bundles attacks) (key_of a) = route_of (bfilter (same_route a) attacks).
Proof.
  intros Hp Ha. pose proof (proj1 (list.Forall_forall _ _) Hp a Ha) as [Ha1 Ha2]. clear Ha.
  induction attacks as [|b attacks IH] using rev_ind; [done|].
  apply list.Forall_app in Hp as [Hp Hb]. inversion Hb as [|? ? [Hb1 Hb2] _]; subst.
  unfold bundles. rewrite fold_left_app. fold (bundles attacks). cbn [fold_left].
  unfold bundle_step. rewrite map_get_set, bfilter_app. simpl.
  pose proof (key_reading a b Ha1 Ha2 Hb1 Hb2) as Hk.
  case_bool_decide as E.
  - rewrite E, IH by done. rewrite (proj1 Hk) by done. rewrite route_of_snoc. done.
  - destruct (same_route a b) eqn:Es; [by destruct E; rewrite (proj2 Hk)|]. by rewrite app_nil_r, IH.
Qed.

(** The routes partition the attacks.  Each attack is on the one route of its
    ends, and each route is that of an attack; a route lists its attacks in order and
    counts them, has their latest tick, and the identifier of the last attack of that
    tick. *)
Theorem routes_partition_attacks localeCompare attacks :
  plain_names attacks ->
  let routes := bundleAttackRoutes localeCompare attacks in
  (forall a, a ∈ attacks -> exists r, r ∈ routes /\ same_route a (ar_attack r) = true /\
     forall r', r' ∈ routes -> same_route a (ar_attack r') = true -> r' = r) /\
  forall r, r ∈ routes -> exists a, a ∈ attacks /\
    let mine := bfilter (same_route a) attacks in
    same_route a (ar_attack r) = true /\
    ar_attackIds r = am_id <$> mine /\ ar_count r = Z.of_nat (length mine) /\
    Forall (fun b => am_tick b <= am_tick (ar_attack r)) mine /\
    exists l1 b l2, mine = l1 ++ b :: l2 /\ am_id (ar_attack r) = am_id b /\
      am_tick (ar_attack r) = am_tick b /\ Forall (fun b' => am_tick b' < am_tick b) l2.
Proof.
  intros Hp routes.
  assert (Hin : forall r, r ∈ routes <-> exists a, a ∈ attacks /\ route_of (bfilter (same_route a) attacks) = Some r).
  { intros r. unfold routes, bundleAttackRoutes. rewrite js_sort_perm, list_elem_of_fmap.
    fold (bundles attacks). split.
    - intros ([k r'] & -> & Hkr). simpl.
      assert (Hk : exists a, a ∈ attacks /\ key_of a = k).
      { assert (Hk : k ∈ (bundles attacks).*1) by (apply list_elem_of_fmap; by exists (k, r')).
        unfold bundles in Hk. clear - Hk.
        induction attacks as [|b attacks IH] using rev_ind; [by apply elem_of_nil in Hk|].
        rewrite fold_left_app in Hk. cbn [fold_left] in Hk. unfold bundle_step at 1 in Hk.
        rewrite keys_set, elem_of_oset_add in Hk. destruct Hk as [Hk|Hk].
        - destruct (IH Hk) as (a & ? & ?). exists a. set_solver.
        - exists b. set_solver. }
      destruct Hk as (a & Ha & <-). exists a. split; [done|]. rewrite <- bundles_get by done.
      apply map_get_elem; [apply bundles_NoDup|done].
    - intros (a & Ha & Hr). exists (key_of a, r). split; [done|].
      apply map_get_elem; [apply bundles_NoDup|]. by rewrite bundles_get. }
  assert (Hmine : forall a, Forall (fun b => same_route a b = true) (bfilter (same_route a) attacks))
    by (intros a; apply list.Forall_forall; by intros b [? _]%elem_of_bfilter).
  split.
  - intros a Ha. assert (Hself : a ∈ bfilter (same_route a) attacks)
      by (apply elem_of_bfilter; split; [by apply same_route_spec|done]).
    destruct (route_of (bfilter (same_route a) attacks)) as [r|] eqn:E.
    + exists r. split_and!; [apply Hin; by exists a|by eapply route_of_ends|].
      intros r' Hr' Hs. apply Hin in Hr' as (b & Hb & Er).
      pose proof (route_of_ends _ b r' (Hmine b) Er) as Hb'.
      rewrite same_route_spec in Hs, Hb'.
      assert (Heq : bfilter (same_route a) attacks = bfilter (same_route b) attacks).
      { apply bfilter_ext. intros x _. unfold same_route.
        destruct Hs as (-> & -> & ->), Hb' as (-> & -> & ->). done. }
      rewrite Heq in E. congruence.
    + exfalso. destruct (bfilter (same_route a) attacks) as [|b l] using rev_ind;
        [by apply elem_of_nil in Hself|by rewrite route_of_snoc in E].
  - intros r Hr. apply Hin in Hr as (a & Ha & E). exists a. split; [done|].
    split; [by eapply route_of_ends|]. by apply route_of_spec.
Qed.

(** ** Figures of the teams *)

Lemma map_get_init (names : list string) (t : string) :
  map_get (fold_left (fun stats name => map_set stats name (mkTeamStats 0 0)) names []) t =
  if bool_decide (t ∈ names) then Some (mkTeamStats 0 0) else None.
Proof.
  induction names as [|n names IH] using rev_ind; [done|]. rewrite fold_left_app. simpl.
  rewrite map_get_set, IH. repeat case_bool_decide; set_solver.
Qed.

(** The figures of a team are what it attacks and what attacks it, an attack on
    itself in both. *)
Theorem team_stats_count attacks team :
  team ∈ listAttackTeams attacks ->
  map_get (buildTeamStats attacks (listAttackTeams attacks)) team =
  Some (mkTeamStats (occurrences team (am_victim <$> attacks)) (occurrences team (am_attacker <$> attacks))).
Proof.
  intros Ht. unfold buildTeamStats.
  set (start := fold_left (fun stats name => map_set stats name (mkTeamStats 0 0)) (listAttackTeams attacks) []).
  assert (Hstart : map_get start team = Some (mkTeamStats 0 0)) by (unfold start; by rewrite map_get_init, bool_decide_true).
  clearbody start. clear Ht.
  induction attacks as [|a attacks IH] using rev_ind; [exact Hstart|].
  rewrite fold_left_app, !fmap_app, !occurrences_app. cbn [fold_left fmap list_fmap].
  rewrite !occurrences_one. set (stats := fold_left count_stats attacks start) in *.
  unfold count_stats.
  destruct (decide (am_attacker a = team)) as [Ha|Ha].
  - rewrite Ha, IH. cbn [incoming outgoing]. rewrite map_get_set.
    case_decide as Hv; case_bool_decide; try congruence; cbn [incoming outgoing].
    + rewrite map_get_set, bool_decide_true by congruence. do 2 f_equal; lia.
    + rewrite Z.add_0_r. destruct (map_get stats (am_victim a));
        rewrite ?map_get_set, ?(bool_decide_false (am_victim a = team)), ?bool_decide_true by congruence; done.
  - assert (Hkeep : forall s, map_get (map_set stats (am_attacker a) s) team =
                              Some (mkTeamStats (occurrences team (am_victim <$> attacks))
                                     (occurrences team (am_attacker <$> attacks))))
      by (intros s; by rewrite map_get_set, bool_decide_false).
    set (mid := match map_get stats (am_attacker a) with Some _ => _ | None => _ end).
    assert (Hmid : map_get mid team = map_get stats team)
      by (unfold mid; destruct (map_get stats (am_attacker a)); rewrite ?Hkeep, ?IH; done).
    rewrite Z.add_0_r. case_decide as Hv.
    + rewrite Hv, Hmid, IH. rewrite map_get_set, bool_decide_true by done. done.
    + rewrite Z.add_0_r. destruct (map_get mid (am_victim a));
        rewrite ?map_get_set, ?bool_decide_false by done; by rewrite Hmid, IH.
Qed.

(** ** The showcase's queue *)

Lemma featured_queue_perm localeCompare log2 attacks :
  buildFeaturedAttackQueue localeCompare log2 attacks ≡ₚ attacks.
Proof. apply js_sort_perm. Qed.

(** ** Witnesses *)

Lemma routes_partition_attacks_witness :
  plain_names sample_attacks /\
  exists r, r ∈ bundleAttackRoutes code_unit_compare sample_attacks /\ ar_attackIds r = ["a1"; "a4"].
Proof.
  assert (Hp : plain_names sample_attacks) by (repeat constructor).
  split; [exact Hp|].
  destruct (routes_partition_attacks code_unit_compare sample_attacks Hp) as [H1 H2].
  destruct (H1 (sample_attack "a1" "red" "blue" 3)) as (r & Hr & Hs & _); [set_solver|].
  exists r. split; [exact Hr|]. destruct (H2 r Hr) as (a & Ha & Has & Hids & _). rewrite Hids.
  repeat (apply elem_of_cons in Ha as [->|Ha]; [vm_compute; try reflexivity|]); [..|by apply elem_of_nil in Ha].
  all: apply same_route_spec in Hs, Has; cbn in Hs, Has; exfalso; intuition congruence.
Defined.

Lemma team_stats_count_witness :
  map_get (buildTeamStats sample_attacks (listAttackTeams sample_attacks)) "red" = Some (mkTeamStats 1 3).
Proof.
  etrans; [apply (team_stats_count sample_attacks "red")|vm_compute; reflexivity].
  apply (bool_decide_unpack _). vm_compute. exact I.
Defined.
