(* ===== verification/Showcase.v ===== *)
(** * The showcase of the attack map ([components/ui/cyber-attack-map.tsx])

    When nobody touches the globe for ten seconds it goes through the attacks of the
    page one by one; a touch stops it, and other components may pause it or move it
    on.  Attacks that a new page brings are marked for a moment, and the latest of
    them should be shown.  A [Show] is the state and the references of the component,
    with the timers of the browser that it has running; the rotation of the globe and
    its frames are added by [GlobeMotion].

    Time is counted in milliseconds.  Handles are never reused, so that a handle
    designates a timer of the kind it was made with, and the running timers are kept
    by kind.  A timer fires when none is due before it. *)

From S2P Require Import Prelude JsString JsNumber Ranking AttackMapPanel AttackMap.

#[local] Open Scope string_scope.
#[local] Open Scope Z_scope.
#[local] Open Scope list_scope.
#[local] Open Scope js_scope.

Definition AUTO_ROTATE_IDLE_MS : Z := 10000.
Definition FEATURED_ATTACK_STEP_MS : Z := 6400.
Definition FRESH_ATTACK_FLY_MS : Z := 1500.
Definition FRESH_FRAME_DEBOUNCE_MS : Z := 350.

(** ** State *)

(** A running timer, with what its callback closes over. *)
Record Timer (P : Type) := mkTimer { t_handle : nat; t_due : Z; t_closure : P }.
Arguments mkTimer {P}.
Arguments t_handle {P}.
Arguments t_due {P}.
Arguments t_closure {P}.

Record Show := mkShow {
  attacks : list AttackMapEvent;
  featuredAttackId : option string;
  dragging : bool;
  freshAttackIds : list string;
  dragRef : option Z;
  featuredAttackIndexRef : nat;
  featuredAttackIntervalRef : option nat;
  featuredAttackIdRef : option string;
  featuredAttackPausedRef : bool;
  previousAttackIdsRef : option (list string);
  freshAttackTimersRef : list (string * nat);
  freshFrameTimeoutRef : option nat;
  idleTimeoutRef : option nat;
  lastActivityRef : Z;
  idles : list (Timer (list AttackMapEvent));
  steps : list (Timer (list AttackMapEvent));
  marks : list (Timer string);
  frame_timers : list (Timer (string * list AttackMapEvent));
  next_timer : nat;
  now : Z
}.

Definition with_attacks (x : list AttackMapEvent) (w : Show) : Show :=
  mkShow x (featuredAttackId w) (dragging w) (freshAttackIds w) (dragRef w) (featuredAttackIndexRef
  w) (featuredAttackIntervalRef w) (featuredAttackIdRef w) (featuredAttackPausedRef w)
  (previousAttackIdsRef w) (freshAttackTimersRef w) (freshFrameTimeoutRef w) (idleTimeoutRef w)
  (lastActivityRef w) (idles w) (steps w) (marks w) (frame_timers w) (next_timer w) (now w).
Definition with_featuredAttackId (x : option string) (w : Show) : Show :=
  mkShow (attacks w) x (dragging w) (freshAttackIds w) (dragRef w) (featuredAttackIndexRef w)
  (featuredAttackIntervalRef w) (featuredAttackIdRef w) (featuredAttackPausedRef w)
  (previousAttackIdsRef w) (freshAttackTimersRef w) (freshFrameTimeoutRef w) (idleTimeoutRef w)
  (lastActivityRef w) (idles w) (steps w) (marks w) (frame_timers w) (next_timer w) (now w).
Definition with_dragging (x : bool) (w : Show) : Show :=
  mkShow (attacks w) (featuredAttackId w) x (freshAttackIds w) (dragRef w) (featuredAttackIndexRef
  w) (featuredAttackIntervalRef w) (featuredAttackIdRef w) (featuredAttackPausedRef w)
  (previousAttackIdsRef w) (freshAttackTimersRef w) (freshFrameTimeoutRef w) (idleTimeoutRef w)
  (lastActivityRef w) (idles w) (steps w) (marks w) (frame_timers w) (next_timer w) (now w).
Definition with_freshAttackIds (x : list string) (w : Show) : Show :=
  mkShow (attacks w) (featuredAttackId w) (dragging w) x (dragRef w) (featuredAttackIndexRef w)
  (featuredAttackIntervalRef w) (featuredAttackIdRef w) (featuredAttackPausedRef w)
  (previousAttackIdsRef w) (freshAttackTimersRef w) (freshFrameTimeoutRef w) (idleTimeoutRef w)
  (lastActivityRef w) (idles w) (steps w) (marks w) (frame_timers w) (next_timer w) (now w).
Definition with_dragRef (x : option Z) (w : Show) : Show :=
  mkShow (attacks w) (featuredAttackId w) (dragging w) (freshAttackIds w) x (featuredAttackIndexRef
  w) (featuredAttackIntervalRef w) (featuredAttackIdRef w) (featuredAttackPausedRef w)
  (previousAttackIdsRef w) (freshAttackTimersRef w) (freshFrameTimeoutRef w) (idleTimeoutRef w)
  (lastActivityRef w) (idles w) (steps w) (marks w) (frame_timers w) (next_timer w) (now w).
Definition with_featuredAttackIndexRef (x : nat) (w : Show) : Show :=
  mkShow (attacks w) (featuredAttackId w) (dragging w) (freshAttackIds w) (dragRef w) x
  (featuredAttackIntervalRef w) (featuredAttackIdRef w) (featuredAttackPausedRef w)
  (previousAttackIdsRef w) (freshAttackTimersRef w) (freshFrameTimeoutRef w) (idleTimeoutRef w)
  (lastActivityRef w) (idles w) (steps w) (marks w) (frame_timers w) (next_timer w) (now w).
Definition with_featuredAttackIntervalRef (x : option nat) (w : Show) : Show :=
  mkShow (attacks w) (featuredAttackId w) (dragging w) (freshAttackIds w) (dragRef w)
  (featuredAttackIndexRef w) x (featuredAttackIdRef w) (featuredAttackPausedRef w)
  (previousAttackIdsRef w) (freshAttackTimersRef w) (freshFrameTimeoutRef w) (idleTimeoutRef w)
  (lastActivityRef w) (idles w) (steps w) (marks w) (frame_timers w) (next_timer w) (now w).
Definition with_featuredAttackIdRef (x : option string) (w : Show) : Show :=
  mkShow (attacks w) (featuredAttackId w) (dragging w) (freshAttackIds w) (dragRef w)
  (featuredAttackIndexRef w) (featuredAttackIntervalRef w) x (featuredAttackPausedRef w)
  (previousAttackIdsRef w) (freshAttackTimersRef w) (freshFrameTimeoutRef w) (idleTimeoutRef w)
  (lastActivityRef w) (idles w) (steps w) (marks w) (frame_timers w) (next_timer w) (now w).
Definition with_featuredAttackPausedRef (x : bool) (w : Show) : Show :=
  mkShow (attacks w) (featuredAttackId w) (dragging w) (freshAttackIds w) (dragRef w)
  (featuredAttackIndexRef w) (featuredAttackIntervalRef w) (featuredAttackIdRef w) x
  (previousAttackIdsRef w) (freshAttackTimersRef w) (freshFrameTimeoutRef w) (idleTimeoutRef w)
  (lastActivityRef w) (idles w) (steps w) (marks w) (frame_timers w) (next_timer w) (now w).
Definition with_previousAttackIdsRef (x : option (list string)) (w : Show) : Show :=
  mkShow (attacks w) (featuredAttackId w) (dragging w) (freshAttackIds w) (dragRef w)
  (featuredAttackIndexRef w) (featuredAttackIntervalRef w) (featuredAttackIdRef w)
  (featuredAttackPausedRef w) x (freshAttackTimersRef w) (freshFrameTimeoutRef w) (idleTimeoutRef w)
  (lastActivityRef w) (idles w) (steps w) (marks w) (frame_timers w) (next_timer w) (now w).
Definition with_freshAttackTimersRef (x : list (string * nat)) (w : Show) : Show :=
  mkShow (attacks w) (featuredAttackId w) (dragging w) (freshAttackIds w) (dragRef w)
  (featuredAttackIndexRef w) (featuredAttackIntervalRef w) (featuredAttackIdRef w)
  (featuredAttackPausedRef w) (previousAttackIdsRef w) x (freshFrameTimeoutRef w) (idleTimeoutRef w)
  (lastActivityRef w) (idles w) (steps w) (marks w) (frame_timers w) (next_timer w) (now w).
Definition with_freshFrameTimeoutRef (x : option nat) (w : Show) : Show :=
  mkShow (attacks w) (featuredAttackId w) (dragging w) (freshAttackIds w) (dragRef w)
  (featuredAttackIndexRef w) (featuredAttackIntervalRef w) (featuredAttackIdRef w)
  (featuredAttackPausedRef w) (previousAttackIdsRef w) (freshAttackTimersRef w) x (idleTimeoutRef w)
  (lastActivityRef w) (idles w) (steps w) (marks w) (frame_timers w) (next_timer w) (now w).
Definition with_idleTimeoutRef (x : option nat) (w : Show) : Show :=
  mkShow (attacks w) (featuredAttackId w) (dragging w) (freshAttackIds w) (dragRef w)
  (featuredAttackIndexRef w) (featuredAttackIntervalRef w) (featuredAttackIdRef w)
  (featuredAttackPausedRef w) (previousAttackIdsRef w) (freshAttackTimersRef w)
  (freshFrameTimeoutRef w) x (lastActivityRef w) (idles w) (steps w) (marks w) (frame_timers w)
  (next_timer w) (now w).
Definition with_lastActivityRef (x : Z) (w : Show) : Show :=
  mkShow (attacks w) (featuredAttackId w) (dragging w) (freshAttackIds w) (dragRef w)
  (featuredAttackIndexRef w) (featuredAttackIntervalRef w) (featuredAttackIdRef w)
  (featuredAttackPausedRef w) (previousAttackIdsRef w) (freshAttackTimersRef w)
  (freshFrameTimeoutRef w) (idleTimeoutRef w) x (idles w) (steps w) (marks w) (frame_timers w)
  (next_timer w) (now w).
Definition with_idles (x : list (Timer (list AttackMapEvent))) (w : Show) : Show :=
  mkShow (attacks w) (featuredAttackId w) (dragging w) (freshAttackIds w) (dragRef w)
  (featuredAttackIndexRef w) (featuredAttackIntervalRef w) (featuredAttackIdRef w)
  (featuredAttackPausedRef w) (previousAttackIdsRef w) (freshAttackTimersRef w)
  (freshFrameTimeoutRef w) (idleTimeoutRef w) (lastActivityRef w) x (steps w) (marks w)
  (frame_timers w) (next_timer w) (now w).
Definition with_steps (x : list (Timer (list AttackMapEvent))) (w : Show) : Show :=
  mkShow (attacks w) (featuredAttackId w) (dragging w) (freshAttackIds w) (dragRef w)
  (featuredAttackIndexRef w) (featuredAttackIntervalRef w) (featuredAttackIdRef w)
  (featuredAttackPausedRef w) (previousAttackIdsRef w) (freshAttackTimersRef w)
  (freshFrameTimeoutRef w) (idleTimeoutRef w) (lastActivityRef w) (idles w) x (marks w)
  (frame_timers w) (next_timer w) (now w).
Definition with_marks (x : list (Timer string)) (w : Show) : Show :=
  mkShow (attacks w) (featuredAttackId w) (dragging w) (freshAttackIds w) (dragRef w)
  (featuredAttackIndexRef w) (featuredAttackIntervalRef w) (featuredAttackIdRef w)
  (featuredAttackPausedRef w) (previousAttackIdsRef w) (freshAttackTimersRef w)
  (freshFrameTimeoutRef w) (idleTimeoutRef w) (lastActivityRef w) (idles w) (steps w) x
  (frame_timers w) (next_timer w) (now w).
Definition with_frame_timers (x : list (Timer (string * list AttackMapEvent))) (w : Show) : Show :=
  mkShow (attacks w) (featuredAttackId w) (dragging w) (freshAttackIds w) (dragRef w)
  (featuredAttackIndexRef w) (featuredAttackIntervalRef w) (featuredAttackIdRef w)
  (featuredAttackPausedRef w) (previousAttackIdsRef w) (freshAttackTimersRef w)
  (freshFrameTimeoutRef w) (idleTimeoutRef w) (lastActivityRef w) (idles w) (steps w) (marks w) x
  (next_timer w) (now w).
Definition with_next_timer (x : nat) (w : Show) : Show :=
  mkShow (attacks w) (featuredAttackId w) (dragging w) (freshAttackIds w) (dragRef w)
  (featuredAttackIndexRef w) (featuredAttackIntervalRef w) (featuredAttackIdRef w)
  (featuredAttackPausedRef w) (previousAttackIdsRef w) (freshAttackTimersRef w)
  (freshFrameTimeoutRef w) (idleTimeoutRef w) (lastActivityRef w) (idles w) (steps w) (marks w)
  (frame_timers w) x (now w).
Definition with_now (x : Z) (w : Show) : Show :=
  mkShow (attacks w) (featuredAttackId w) (dragging w) (freshAttackIds w) (dragRef w)
  (featuredAttackIndexRef w) (featuredAttackIntervalRef w) (featuredAttackIdRef w)
  (featuredAttackPausedRef w) (previousAttackIdsRef w) (freshAttackTimersRef w)
  (freshFrameTimeoutRef w) (idleTimeoutRef w) (lastActivityRef w) (idles w) (steps w) (marks w)
  (frame_timers w) (next_timer w) x.

(** ** Timers *)

(** [window.clearTimeout(ref.current)]. *)
Definition stop {P} (ref : option nat) (running : list (Timer P)) : list (Timer P) :=
  match ref with
  | None => running
  | Some h => bfilter (fun t => negb (Nat.eqb (t_handle t) h)) running
  end.

Definition find_timer {P} (h : nat) (running : list (Timer P)) : option (Timer P) :=
  find_first (fun t => Nat.eqb (t_handle t) h) running.

Definition idle_later (closure : list AttackMapEvent) (w : Show) : Show :=
  with_idleTimeoutRef (Some (next_timer w))
    (with_idles (idles w ++ [mkTimer (next_timer w) (now w + AUTO_ROTATE_IDLE_MS) closure])
      (with_next_timer (S (next_timer w)) w)).

Definition step_every (closure : list AttackMapEvent) (w : Show) : Show :=
  with_featuredAttackIntervalRef (Some (next_timer w))
    (with_steps (steps w ++ [mkTimer (next_timer w) (now w + FEATURED_ATTACK_STEP_MS) closure])
      (with_next_timer (S (next_timer w)) w)).

Section Showcase.
(** The order of the queue: [localeCompare] and [Math.log2]. *)
Variable localeCompare : string -> string -> Z.
Variable log2 : Z -> num.

(** ** The functions of the component *)

Definition clearAutoRotationTimers (clearFeatured : bool) (w : Show) : Show :=
  let w := with_idleTimeoutRef None (with_idles (stop (idleTimeoutRef w) (idles w)) w) in
  let w := with_featuredAttackIntervalRef None
             (with_steps (stop (featuredAttackIntervalRef w) (steps w)) w) in
  if clearFeatured && bool_decide (featuredAttackIdRef w <> None)
  then with_featuredAttackId None (with_featuredAttackIdRef None w)
  else w.

(** [startAutoRotationFromIdle] of the render whose attacks are [closure]. *)
Definition startAutoRotationFromIdle (closure : list AttackMapEvent) (w : Show) : Show :=
  let w := clearAutoRotationTimers false w in
  if bool_decide (closure = []) || featuredAttackPausedRef w then w else idle_later closure w.

(** But for the rotation. *)
Definition featureAttack (attack : AttackMapEvent) (w : Show) : Show :=
  with_featuredAttackId (Some (am_id attack)) w.

Definition queue_of (closure : list AttackMapEvent) : list AttackMapEvent :=
  let featuredQueue := buildFeaturedAttackQueue localeCompare log2 closure in
  match featuredQueue with [] => closure | _ => featuredQueue end.

Definition featureNextAttack (closure : list AttackMapEvent) (w : Show) : Show :=
  match closure with
  | [] => w
  | _ =>
      let queue := queue_of closure in
      match queue !! (featuredAttackIndexRef w mod length queue)%nat with
      | None => w
      | Some attack =>
          featureAttack attack (with_featuredAttackIndexRef (S (featuredAttackIndexRef w)) w)
      end
  end.

Definition markUserActivity (w : Show) : Show :=
  if bool_decide (featuredAttackIdRef w = None) && (now w - lastActivityRef w <? 250) then w
  else startAutoRotationFromIdle (attacks w)
         (clearAutoRotationTimers true
           (with_featuredAttackPausedRef false (with_lastActivityRef (now w) w))).

(** *** Pointers *)

Definition handlePointerDown (pointerId : Z) (w : Show) : Show :=
  with_dragRef (Some pointerId) (with_dragging true (markUserActivity w)).

Definition handlePointerMove (pointerId : Z) (w : Show) : Show :=
  if bool_decide (dragRef w = Some pointerId) then markUserActivity w else w.

Definition handlePointerLostCapture (pointerId : Z) (w : Show) : Show :=
  if bool_decide (dragRef w = Some pointerId) then with_dragging false (with_dragRef None w) else w.

Definition handlePointerUp (pointerId : Z) (w : Show) : Show :=
  handlePointerLostCapture pointerId (markUserActivity w).

(** *** Events of other components *)

Definition handleFeatureAttack (attackId : string) (w : Show) : Show :=
  if is_empty attackId then w
  else match find_first (fun item => String.eqb (am_id item) attackId) (attacks w) with
  | None => w
  | Some attack => featureAttack attack (clearAutoRotationTimers false w)
  end.

Definition handlePauseFeaturedAttacks (w : Show) : Show :=
  clearAutoRotationTimers false (with_featuredAttackPausedRef true w).

Definition handleResumeFeaturedAttacks (w : Show) : Show :=
  startAutoRotationFromIdle (attacks w) (with_featuredAttackPausedRef false w).

Definition handleFeatureNextAttack (w : Show) : Show :=
  step_every (attacks w)
    (featureNextAttack (attacks w)
      (clearAutoRotationTimers false (with_featuredAttackPausedRef false w))).

(** *** Fresh attacks *)

(** One turn of [freshIds.forEach]: the timer of a mark is started anew. *)
Definition start_mark (w : Show) (id : string) : Show :=
  let running := stop (map_get (freshAttackTimersRef w) id) (marks w) in
  with_freshAttackTimersRef (map_set (freshAttackTimersRef w) id (next_timer w))
    (with_marks (running ++ [mkTimer (next_timer w) (now w + FRESH_ATTACK_FLY_MS) id])
      (with_next_timer (S (next_timer w)) w)).

Definition start_frame (latestFreshId : string) (w : Show) : Show :=
  let running := stop (freshFrameTimeoutRef w) (frame_timers w) in
  with_freshFrameTimeoutRef (Some (next_timer w))
    (with_frame_timers
      (running ++ [mkTimer (next_timer w) (now w + FRESH_FRAME_DEBOUNCE_MS) (latestFreshId, attacks w)])
      (with_next_timer (S (next_timer w)) w)).

(** The effect on [attacks]. *)
Definition fresh_effect (w : Show) : Show :=
  let nextAttackIds := distinct (am_id <$> attacks w) in
  let previousAttackIds := previousAttackIdsRef w in
  let w := with_previousAttackIdsRef (Some nextAttackIds) w in
  match previousAttackIds with
  | None => w
  | Some previous =>
      let freshIds := bfilter (fun id => negb (bool_decide (id ∈ previous))) (am_id <$> attacks w) in
      match list.last freshIds with
      | None => w
      | Some latestFreshId =>
          let w := with_freshAttackIds (fold_left oset_add freshIds (freshAttackIds w)) w in
          start_frame latestFreshId (fold_left start_mark freshIds w)
      end
  end.

(** *** Renders *)

(** The effects of a render with new attacks: the cleanup of the showcase's effect,
    called without an argument, then the effects in their order. *)
Definition onAttacks (next : list AttackMapEvent) (w : Show) : Show :=
  let w := clearAutoRotationTimers true w in
  let w := with_attacks next w in
  fresh_effect (startAutoRotationFromIdle next w).

(** A render in which only the teams of the scope change. *)
Definition onScope (w : Show) : Show :=
  startAutoRotationFromIdle (attacks w) (clearAutoRotationTimers true w).

(** The effect on [featuredAttackId]. *)
Definition sync_featured (w : Show) : Show := with_featuredAttackIdRef (featuredAttackId w) w.

(** *** Callbacks of the timers *)

Definition at_time (t : Z) (w : Show) : Show := with_now (Z.max (now w) t) w.

Definition idle_fires (t : Timer (list AttackMapEvent)) (w : Show) : Show :=
  let w := at_time (t_due t) (with_idles (stop (Some (t_handle t)) (idles w)) w) in
  match dragRef w with
  | Some _ => startAutoRotationFromIdle (t_closure t) w
  | None => step_every (t_closure t) (featureNextAttack (t_closure t) w)
  end.

(** An interval goes on. *)
Definition step_fires (t : Timer (list AttackMapEvent)) (w : Show) : Show :=
  let w := at_time (t_due t) w in
  let again u := if Nat.eqb (t_handle u) (t_handle t)
                 then mkTimer (t_handle u) (now w + FEATURED_ATTACK_STEP_MS) (t_closure u) else u in
  featureNextAttack (t_closure t) (with_steps (again <$> steps w) w).

Definition mark_fires (t : Timer string) (w : Show) : Show :=
  let w := at_time (t_due t) (with_marks (stop (Some (t_handle t)) (marks w)) w) in
  let id := t_closure t in
  with_freshAttackIds (bfilter (fun x => negb (String.eqb x id)) (freshAttackIds w))
    (with_freshAttackTimersRef (bfilter (fun e => negb (String.eqb e.1 id)) (freshAttackTimersRef w)) w).

Definition frame_fires (t : Timer (string * list AttackMapEvent)) (w : Show) : Show :=
  let w := at_time (t_due t) (with_frame_timers (stop (Some (t_handle t)) (frame_timers w)) w) in
  let w := with_freshFrameTimeoutRef None w in
  let '(latestFreshId, closure) := t_closure t in
  if bool_decide (featuredAttackIntervalRef w = None) || bool_decide (dragRef w <> None) then w
  else match find_first (fun attack => String.eqb (am_id attack) latestFreshId) closure with
  | None => w
  | Some target =>
      let w := featureAttack target w in
      let w := with_steps (stop (featuredAttackIntervalRef w) (steps w)) w in
      step_every closure w
  end.

(** ** Steps *)

Inductive Event :=
| EvActivity
| EvPointerDown (pointerId : Z)
| EvPointerMove (pointerId : Z)
| EvPointerUp (pointerId : Z)
| EvLostCapture (pointerId : Z)
| EvFeature (attackId : string)
| EvPause
| EvResume
| EvNext
| EvAttacks (next : list AttackMapEvent)
| EvScope
| EvSync
| EvWait (delay : Z)
| EvIdle (h : nat)
| EvStep (h : nat)
| EvMark (h : nat)
| EvFrame (h : nat).

Definition dues (w : Show) : list Z :=
  (t_due <$> idles w) ++ (t_due <$> steps w) ++ (t_due <$> marks w) ++ (t_due <$> frame_timers w).

(** The callback of a timer runs when no timer is due before it. *)
Definition fires {P} (running : list (Timer P)) (h : nat) (callback : Timer P -> Show -> Show) (w : Show)
    : option Show :=
  t ← find_timer h running;
  if bool_decide (Forall (Z.le (t_due t)) (dues w)) then Some (callback t w) else None.

Definition handle (w : Show) (e : Event) : option Show :=
  match e with
  | EvActivity => Some (markUserActivity w)
  | EvPointerDown p => Some (handlePointerDown p w)
  | EvPointerMove p => Some (handlePointerMove p w)
  | EvPointerUp p => Some (handlePointerUp p w)
  | EvLostCapture p => Some (handlePointerLostCapture p w)
  | EvFeature id => Some (handleFeatureAttack id w)
  | EvPause => Some (handlePauseFeaturedAttacks w)
  | EvResume => Some (handleResumeFeaturedAttacks w)
  | EvNext => Some (handleFeatureNextAttack w)
  | EvAttacks next => Some (onAttacks next w)
  | EvScope => Some (onScope w)
  | EvSync => Some (sync_featured w)
  | EvWait d => if 0 <=? d then Some (with_now (now w + d) w) else None
  | EvIdle h => fires (idles w) h idle_fires w
  | EvStep h => fires (steps w) h step_fires w
  | EvMark h => fires (marks w) h mark_fires w
  | EvFrame h => fires (frame_timers w) h frame_fires w
  end.

(** The first render. *)
Definition mounted (next : list AttackMapEvent) : Show :=
  onAttacks next (mkShow [] None false [] None 0 None None false None [] None None 0 [] [] [] [] 0 0).

(** [reachable allowed]: by events that [allowed] allows. *)
Inductive reachable (allowed : Event -> Prop) : Show -> Prop :=
| reach_mount next : reachable allowed (mounted next)
| reach_event w e w' : reachable allowed w -> allowed e -> handle w e = Some w' -> reachable allowed w'.
End Showcase.

(** ** The driver: the idle timeout or the interval *)

Definition resting (w : Show) : Prop :=
  idles w = [] /\ steps w = [] /\ featuredAttackIntervalRef w = None.

(** At most one timer drives the showcase, and the references can stop it; none does
    while it is paused. *)
Inductive driver (w : Show) : Prop :=
| Resting : resting w -> driver w
| Waiting t :
    idles w = [t] -> idleTimeoutRef w = Some (t_handle t) -> steps w = [] ->
    featuredAttackIntervalRef w = None -> featuredAttackPausedRef w = false -> driver w
| Running t :
    idles w = [] -> steps w = [t] -> featuredAttackIntervalRef w = Some (t_handle t) ->
    featuredAttackPausedRef w = false -> driver w.

(** What the showcase does not look at. *)
Record same_driver (w v : Show) : Prop := {
  sd_attacks : attacks v = attacks w;
  sd_idles : idles v = idles w;
  sd_steps : steps v = steps w;
  sd_idle_ref : idleTimeoutRef v = idleTimeoutRef w;
  sd_interval : featuredAttackIntervalRef v = featuredAttackIntervalRef w;
  sd_paused : featuredAttackPausedRef v = featuredAttackPausedRef w
}.

Lemma driver_same w v : same_driver w v -> driver w -> driver v.
Proof.
  intros [H1 H2 H3 H4 H5 H6] [(Ha & Hb & Hc)|t Ha Hb Hc Hd He|t Ha Hb Hc Hd].
  - apply Resting. split_and!; congruence.
  - eapply (Waiting v t); congruence.
  - eapply (Running v t); congruence.
Qed.

Lemma resting_same w v : same_driver w v -> resting w -> resting v.
Proof. intros [H1 H2 H3 H4 H5 H6] (Ha & Hb & Hc). split_and!; congruence. Qed.

Lemma stop_one {P} (t : Timer P) : stop (Some (t_handle t)) [t] = [].
Proof. unfold stop. simpl. by rewrite Nat.eqb_refl. Qed.

Lemma stop_nil {P} ref : stop ref (@nil (Timer P)) = [].
Proof. by destruct ref. Qed.

Lemma clear_rests b w : driver w -> resting (clearAutoRotationTimers b w).
Proof.
  intros [(Ha & Hb & Hc)|t Ha Hb Hc Hd He|t Ha Hb Hc Hd]; unfold clearAutoRotationTimers;
    case_match; unfold resting; cbn; rewrite ?Ha, ?Hb, ?Hc, ?Hd, ?stop_one, ?stop_nil; done.
Qed.

Lemma clear_fields b w :
  let v := clearAutoRotationTimers b w in
  attacks v = attacks w /\ featuredAttackPausedRef v = featuredAttackPausedRef w /\
  now v = now w /\ frame_timers v = frame_timers w /\ marks v = marks w /\
  next_timer v = next_timer w /\ freshAttackIds v = freshAttackIds w /\
  freshAttackTimersRef v = freshAttackTimersRef w /\ dragRef v = dragRef w.
Proof. unfold clearAutoRotationTimers. cbn zeta. case_match; done. Qed.

Lemma start_drives closure w : driver w -> driver (startAutoRotationFromIdle closure w).
Proof.
  intros Hw. pose proof (clear_rests false w Hw) as Hr.
  unfold startAutoRotationFromIdle. set (u := clearAutoRotationTimers false w) in *.
  clearbody u. destruct (bool_decide (closure = [])); [by apply Resting|].
  destruct (featuredAttackPausedRef u) eqn:Hp; [by apply Resting|].
  destruct Hr as (H1 & H2 & H3). eapply Waiting; cbn; rewrite ?H1; done.
Qed.

Lemma step_drives closure w :
  resting w -> featuredAttackPausedRef w = false -> driver (step_every closure w).
Proof. intros (H1 & H2 & H3) Hp. eapply Running; cbn; rewrite ?H2; done. Qed.

Section Invariants.
Variable localeCompare : string -> string -> Z.
Variable log2 : Z -> num.

Notation featureNextAttack := (featureNextAttack localeCompare log2).
Notation handle := (handle localeCompare log2).
Notation reachable := (reachable localeCompare log2).

Lemma featureNext_same closure w : same_driver w (featureNextAttack closure w).
Proof. unfold Showcase.featureNextAttack. by repeat case_match. Qed.

Lemma featureNext_fields closure w :
  let v := featureNextAttack closure w in
  now v = now w /\ frame_timers v = frame_timers w /\ marks v = marks w /\ next_timer v = next_timer w /\
  freshAttackIds v = freshAttackIds w /\ freshAttackTimersRef v = freshAttackTimersRef w.
Proof. unfold Showcase.featureNextAttack. by repeat case_match. Qed.

Lemma activity_drives w : driver w -> driver (markUserActivity w).
Proof.
  intros Hw. unfold markUserActivity. case_match; [done|].
  assert (Hr : resting (clearAutoRotationTimers true
    (with_featuredAttackPausedRef false (with_lastActivityRef (now w) w)))).
  { unfold clearAutoRotationTimers. destruct Hw as [(Ha & Hb & Hc)|t Ha Hb Hc Hd He|t Ha Hb Hc Hd];
      case_match; unfold resting; cbn; rewrite ?Ha, ?Hb, ?Hc, ?Hd, ?stop_one, ?stop_nil; done. }
  by apply start_drives, Resting.
Qed.

Lemma start_mark_same w id : same_driver w (start_mark w id).
Proof. done. Qed.

Lemma same_driver_trans u v w : same_driver u v -> same_driver v w -> same_driver u w.
Proof. intros [] []. constructor; congruence. Qed.

Lemma start_marks_same ids w : same_driver w (fold_left start_mark ids w).
Proof.
  revert w. induction ids as [|id ids IH]; intros w; [done|]. simpl.
  eapply same_driver_trans; [apply (start_mark_same w id)|apply IH].
Qed.

Lemma fresh_effect_same w : same_driver w (fresh_effect w).
Proof.
  unfold fresh_effect. case_match; [|done]. case_match; [|done].
  set (v := with_freshAttackIds _ _). set (ids := bfilter _ _).
  apply (same_driver_trans w (fold_left start_mark ids v)); [|done].
  apply (same_driver_trans w v); [done|apply start_marks_same].
Qed.

Lemma attacks_rests next u : resting u -> resting (with_attacks next u).
Proof. done. Qed.

Lemma onAttacks_drives next w : driver w -> driver (onAttacks next w).
Proof.
  intros Hw. unfold onAttacks. eapply driver_same; [apply fresh_effect_same|].
  by apply start_drives, Resting, attacks_rests, clear_rests.
Qed.

Lemma find_timer_elem {P} h (l : list (Timer P)) t : find_timer h l = Some t -> t ∈ l /\ t_handle t = h.
Proof.
  unfold find_timer. intros H. apply find_first_Some in H as [Hi Ht].
  split; [done|]. by apply Nat.eqb_eq.
Qed.

Lemma fires_inv {P} (l : list (Timer P)) h callback w w' :
  fires l h callback w = Some w' ->
  exists t, t ∈ l /\ t_handle t = h /\ Forall (Z.le (t_due t)) (dues w) /\ w' = callback t w.
Proof.
  unfold fires. intros H. destruct (find_timer h l) as [t|] eqn:E; simplify_eq/=.
  case_bool_decide as Hd; [|done]. apply find_timer_elem in E as [? ?]. simplify_eq. by exists t.
Qed.

Lemma idle_fires_drives t w : t ∈ idles w -> driver w -> driver (idle_fires localeCompare log2 t w).
Proof.
  intros Ht Hw. destruct Hw as [(Ha & Hb & Hc)|t' Ha Hb Hc Hd He|t' Ha Hb Hc Hd];
    rewrite Ha in Ht; try by apply elem_of_nil in Ht.
  apply list_elem_of_singleton in Ht as ->. unfold idle_fires.
  set (u := at_time _ _). assert (Hu : resting u /\ featuredAttackPausedRef u = false)
    by (unfold u, resting; cbn; rewrite Ha; cbn; rewrite Nat.eqb_refl; by split_and!).
  clearbody u. destruct Hu as (Hr & Hp). destruct (dragRef u).
  - by apply start_drives, Resting.
  - pose proof (featureNext_same (t_closure t') u) as Hs.
    apply step_drives; [by eapply resting_same|]. by rewrite (sd_paused _ _ Hs).
Qed.

Lemma step_fires_drives t w : driver w -> driver (step_fires localeCompare log2 t w).
Proof.
  intros Hw. unfold step_fires. eapply driver_same; [apply featureNext_same|].
  destruct Hw as [(Ha & Hb & Hc)|t' Ha Hb Hc Hd He|t' Ha Hb Hc Hd].
  - apply Resting. unfold resting. cbn. rewrite Hb. done.
  - eapply Waiting; cbn; rewrite ?Hc; done.
  - eapply Running; cbn; rewrite ?Hb; [done|done| |done]. rewrite Hc. by case_match.
Qed.

Lemma frame_fires_drives t w : driver w -> driver (frame_fires t w).
Proof.
  intros Hw. unfold frame_fires. set (u := with_freshFrameTimeoutRef None _).
  assert (Hu : driver u) by by apply (driver_same w). clearbody u. destruct (t_closure t) as [id closure].
  case_match eqn:Hi; [done|]. case_match; [|done].
  apply orb_false_iff in Hi as [Hi _]. apply bool_decide_eq_false in Hi.
  destruct Hu as [(Ha & Hb & Hc)|t' Ha Hb Hc Hd He|t' Ha Hb Hc Hd]; try by destruct Hi.
  eapply Running; cbn; rewrite ?Hb, ?Hc, ?stop_one; done.
Qed.

Lemma handle_drives w e w' : driver w -> handle w e = Some w' -> driver w'.
Proof.
  intros Hw He. destruct e; simpl in He; try (injection He as <-).
  - by apply activity_drives.
  - eapply driver_same; [|by apply activity_drives]. done.
  - unfold handlePointerMove. case_match; [by apply activity_drives|done].
  - unfold handlePointerUp, handlePointerLostCapture. case_match; [|by apply activity_drives].
    eapply driver_same; [|by apply activity_drives]. done.
  - unfold handlePointerLostCapture. case_match; [|done]. by apply (driver_same w).
  - unfold handleFeatureAttack. repeat case_match; try done. by apply Resting, (clear_rests false w).
  - apply Resting. unfold handlePauseFeaturedAttacks.
    exact (clear_rests false w Hw).
  - unfold handleResumeFeaturedAttacks. apply start_drives.
    destruct Hw as [?|t ? ? ? ? ?|t ? ? ? ?]; [by apply Resting|by eapply Waiting|by eapply Running].
  - unfold handleFeatureNextAttack.
    pose proof (featureNext_same (attacks w)
      (clearAutoRotationTimers false (with_featuredAttackPausedRef false w))) as Hs.
    apply step_drives; [|by rewrite (sd_paused _ _ Hs); apply clear_fields].
    eapply resting_same; [exact Hs|]. apply clear_rests.
    destruct Hw as [?|t ? ? ? ? ?|t ? ? ? ?]; [by apply Resting|by eapply Waiting|by eapply Running].
  - by apply onAttacks_drives.
  - by apply start_drives, Resting, clear_rests.
  - by apply (driver_same w).
  - case_match; [|done]. injection He as <-. by apply (driver_same w).
  - apply fires_inv in He as (t & Ht & _ & _ & ->). by apply idle_fires_drives.
  - apply fires_inv in He as (t & Ht & _ & _ & ->). by apply step_fires_drives.
  - apply fires_inv in He as (t & Ht & _ & _ & ->). by apply (driver_same w).
  - apply fires_inv in He as (t & Ht & _ & _ & ->). by apply frame_fires_drives.
Qed.

Lemma reachable_driver allowed w : reachable allowed w -> driver w.
Proof.
  induction 1 as [next|w e w' _ IH _ He]; [|by eapply handle_drives].
  apply onAttacks_drives, Resting. done.
Qed.

(** At most one timer drives the showcase, whatever the events, the renders and
    the timers do: the idle timeout or the interval, never both and never two, and it
    is one that the component can stop; while the showcase is paused there is none, so
    that nothing moves until a resume, a touch or a move to the next attack. *)
Theorem showcase_single_driver allowed w :
  reachable allowed w ->
  (length (idles w) + length (steps w) <= 1)%nat /\
  (featuredAttackPausedRef w = true -> idles w = [] /\ steps w = []) /\
  idles (clearAutoRotationTimers true w) = [] /\ steps (clearAutoRotationTimers true w) = [].
Proof.
  intros H. apply reachable_driver in H. pose proof (clear_rests true w H) as (H1 & H2 & _).
  split_and!; [| |done|done].
  - destruct H as [(-> & -> & _)|t -> _ -> _ _|t -> -> _ _]; simpl; lia.
  - destruct H as [(-> & -> & _)|t _ _ _ _ ->|t _ _ _ ->]; done.
Qed.

(** ** Fresh attacks *)

(** The references of the marks name their timers. *)
Record marks_ok (w : Show) : Prop := {
  mk_keys : NoDup ((freshAttackTimersRef w).*1);
  mk_handles : NoDup (t_handle <$> marks w);
  mk_old : Forall (fun t => (t_handle t < next_timer w)%nat) (marks w);
  mk_named : forall id h, (id, h) ∈ freshAttackTimersRef w <->
    exists t, t ∈ marks w /\ t_closure t = id /\ t_handle t = h;
  mk_soon : Forall (fun t => t_due t <= now w + FRESH_ATTACK_FLY_MS) (marks w)
}.

Definition marked (w : Show) : Prop := forall id, id ∈ freshAttackIds w -> id ∈ (freshAttackTimersRef w).*1.

(** What the marks do not look at. *)
Record same_marks (w v : Show) : Prop := {
  sm_timers : freshAttackTimersRef v = freshAttackTimersRef w;
  sm_marks : marks v = marks w;
  sm_ids : freshAttackIds v = freshAttackIds w;
  sm_next : (next_timer w <= next_timer v)%nat;
  sm_now : now w <= now v
}.

Lemma marks_same w v : same_marks w v -> marks_ok w /\ marked w -> marks_ok v /\ marked v.
Proof.
  intros [H1 H2 H3 H4 H5] [[Hk Hh Ho Hn Hs] Hm]. split; [constructor|]; unfold marked; rewrite ?H1, ?H2, ?H3; try done.
  - eapply List.Forall_impl; [|exact Ho]. simpl. lia.
  - eapply List.Forall_impl; [|exact Hs]. simpl. lia.
Qed.

Lemma same_marks_refl w : same_marks w w.
Proof. done. Qed.

Lemma same_marks_trans u v w : same_marks u v -> same_marks v w -> same_marks u w.
Proof. intros [] []. constructor; congruence || lia. Qed.

Lemma clear_marks b w : same_marks w (clearAutoRotationTimers b w).
Proof. unfold clearAutoRotationTimers. by case_match. Qed.

Lemma start_marks closure w : same_marks w (startAutoRotationFromIdle closure w).
Proof.
  unfold startAutoRotationFromIdle. case_match; [apply clear_marks|].
  eapply same_marks_trans; [apply (clear_marks false w)|].
  constructor; simpl; try done; lia.
Qed.

Lemma attacks_marks next u : same_marks u (with_attacks next u).
Proof. done. Qed.

Lemma next_marks closure w : same_marks w (featureNextAttack closure w).
Proof. unfold Showcase.featureNextAttack. by repeat case_match. Qed.

Lemma step_every_marks closure w : same_marks w (step_every closure w).
Proof. constructor; simpl; try done; lia. Qed.

Lemma activity_marks w : same_marks w (markUserActivity w).
Proof.
  unfold markUserActivity. case_match; [done|].
  eapply same_marks_trans; [|apply start_marks]. eapply same_marks_trans; [|apply clear_marks]. done.
Qed.

Lemma stop_elem {P} ref (l : list (Timer P)) t :
  t ∈ stop ref l <-> t ∈ l /\ ref <> Some (t_handle t).
Proof.
  destruct ref as [h|]; simpl; [|naive_solver]. rewrite elem_of_bfilter, negb_true_iff, Nat.eqb_neq.
  naive_solver.
Qed.

Lemma stop_NoDup {P} ref (l : list (Timer P)) : NoDup (t_handle <$> l) -> NoDup (t_handle <$> stop ref l).
Proof. destruct ref; simpl; [apply NoDup_fmap_bfilter|done]. Qed.

Lemma same_timer {P} (l : list (Timer P)) t u :
  NoDup (t_handle <$> l) -> t ∈ l -> u ∈ l -> t_handle t = t_handle u -> t = u.
Proof.
  intros Hn [i Hi]%list_elem_of_lookup [j Hj]%list_elem_of_lookup Heq.
  assert (i = j); [|congruence]. apply (NoDup_lookup (t_handle <$> l) i j (t_handle t)); [done|..];
    rewrite list_lookup_fmap; [by rewrite Hi|by rewrite Hj, Heq].
Qed.

Lemma elem_of_map_set {K V} `{EqDecision K} (m : list (K * V)) k v k' v' :
  NoDup (m.*1) -> (k', v') ∈ map_set m k v <-> k = k' /\ v = v' \/ k <> k' /\ (k', v') ∈ m.
Proof.
  intros Hm. rewrite <- map_get_elem by (rewrite keys_set; by apply oset_add_NoDup).
  rewrite map_get_set, <- (map_get_elem m k' v' Hm). case_bool_decide; naive_solver.
Qed.

Lemma start_mark_ok w id :
  marks_ok w -> marks_ok (start_mark w id) /\
  forall x, x ∈ (freshAttackTimersRef (start_mark w id)).*1 <-> x ∈ (freshAttackTimersRef w).*1 \/ x = id.
Proof.
  intros [Hk Hh Ho Hn Hs]. set (ref := map_get (freshAttackTimersRef w) id).
  split; [|intros x; simpl; by rewrite keys_set, elem_of_oset_add].
  constructor; simpl; fold ref.
  - rewrite keys_set. by apply oset_add_NoDup.
  - rewrite fmap_app. apply list.NoDup_app. split_and!; [|intros h|apply NoDup_singleton].
    + by apply stop_NoDup.
    + intros (t & -> & Ht)%list_elem_of_fmap. apply stop_elem in Ht as [Ht _].
      pose proof (proj1 (list.Forall_forall _ _) Ho t Ht). simpl. rewrite list_elem_of_singleton. simpl in *. lia.
  - apply list.Forall_app. split; [|repeat constructor; simpl; lia].
    apply list.Forall_forall. intros t [Ht _]%stop_elem.
    pose proof (proj1 (list.Forall_forall _ _) Ho t Ht). simpl in *. lia.
  - intros x h. rewrite elem_of_map_set by done. split.
    + intros [[<- <-]|[Hne Hx]].
      * eexists. split_and!; [apply elem_of_app; right; by left|done|done].
      * apply Hn in Hx as (t & Ht & <- & <-). exists t. split_and!; [|done|done].
        apply elem_of_app. left. apply stop_elem. split; [done|]. unfold ref. intros Hr.
        apply map_get_elem in Hr; [|done]. apply Hn in Hr as (u & Hu & Hid & Hhu).
        apply Hne. rewrite <- Hid. f_equal. by apply (same_timer (marks w)).
    + intros (t & Ht & <- & <-). apply elem_of_app in Ht as [Ht|Ht].
      * apply stop_elem in Ht as [Ht Hr]. right.
        assert (Hin : (t_closure t, t_handle t) ∈ freshAttackTimersRef w) by (apply Hn; by exists t).
        split; [|done]. intros ->. apply Hr. unfold ref. by apply map_get_elem.
      * apply list_elem_of_singleton in Ht as ->. by left.
  - apply list.Forall_app. split; [|repeat constructor; simpl; lia].
    apply list.Forall_forall. intros t [Ht _]%stop_elem. by apply (proj1 (list.Forall_forall _ _) Hs).
Qed.

Lemma start_mark_loop ids w :
  marks_ok w -> marks_ok (fold_left start_mark ids w) /\
  (forall x, x ∈ (freshAttackTimersRef (fold_left start_mark ids w)).*1 <->
             x ∈ (freshAttackTimersRef w).*1 \/ x ∈ ids) /\
  freshAttackIds (fold_left start_mark ids w) = freshAttackIds w.
Proof.
  revert w. induction ids as [|id ids IH]; intros w Hw; simpl; [split_and!; [done|set_solver|done]|].
  destruct (start_mark_ok w id Hw) as [Hw' Hkeys]. destruct (IH _ Hw') as (H1 & H2 & H3).
  split_and!; [done| |by rewrite H3]. intros x. rewrite H2, Hkeys. set_solver.
Qed.

Lemma fresh_effect_marks w : marks_ok w /\ marked w -> marks_ok (fresh_effect w) /\ marked (fresh_effect w).
Proof.
  intros [Hw Hm]. unfold fresh_effect. case_match; [|by apply (marks_same w)]. case_match; [|by apply (marks_same w)].
  set (ids := bfilter _ _). set (v := with_freshAttackIds _ _).
  destruct (start_mark_loop ids v) as (H1 & H2 & H3); [by destruct Hw|].
  apply (marks_same (fold_left start_mark ids v)); [constructor; simpl; try done; lia|].
  split; [done|]. intros id Hid. rewrite H3 in Hid. apply H2.
  change (freshAttackIds v) with (fold_left oset_add ids (freshAttackIds w)) in Hid.
  assert (Hin : id ∈ freshAttackIds w \/ id ∈ ids).
  { clear - Hid. revert Hid. generalize (freshAttackIds w). induction ids as [|x ids IH]; simpl; [by left|].
    intros seen Hin. apply IH in Hin. rewrite elem_of_oset_add in Hin. set_solver. }
  destruct Hin as [Hin|Hin]; [left; by apply Hm|by right].
Qed.

Lemma mark_fires_marks t w :
  t ∈ marks w -> marks_ok w /\ marked w -> marks_ok (mark_fires t w) /\ marked (mark_fires t w).
Proof.
  intros Ht [[Hk Hh Ho Hn Hs] Hm].
  assert (Hkeys : forall e, e ∈ bfilter (fun e => negb (String.eqb e.1 (t_closure t))) (freshAttackTimersRef w) <->
                            e ∈ freshAttackTimersRef w /\ e.1 <> t_closure t).
  { intros e. rewrite elem_of_bfilter, negb_true_iff, String.eqb_neq. tauto. }
  split; [constructor|].
  - by apply NoDup_fmap_bfilter.
  - by apply (stop_NoDup (Some _)).
  - apply list.Forall_forall. intros u Hu. apply (stop_elem (Some _)) in Hu as [Hu _]. by apply (proj1 (list.Forall_forall _ _) Ho).
  - intros id h. etrans; [apply (Hkeys (id, h))|]. simpl. rewrite Hn. split.
    + intros [(u & Hu & <- & <-) Hne]. exists u. split_and!; [|done|done]. apply (stop_elem (Some _)).
      split; [done|]. intros [= Heq]. apply Hne. f_equal. by apply (same_timer (marks w)).
    + intros (u & Hu & <- & <-). apply (stop_elem (Some _)) in Hu as [Hu Hne]. split; [by exists u|].
      intros Hc. apply Hne. f_equal.
      assert (H1 : (t_closure t, t_handle t) ∈ freshAttackTimersRef w) by (apply Hn; by exists t).
      assert (H2 : (t_closure t, t_handle u) ∈ freshAttackTimersRef w) by (apply Hn; exists u; by split_and!).
      rewrite <- map_get_elem in H1, H2 by done. congruence.
  - apply list.Forall_forall. intros u Hu. apply (stop_elem (Some _)) in Hu as [Hu _].
    pose proof (proj1 (list.Forall_forall _ _) Hs u Hu). simpl in *. lia.
  - intros id Hid. simpl in *. apply elem_of_bfilter in Hid as [Hne Hid].
    apply negb_true_iff, String.eqb_neq in Hne. apply Hm in Hid.
    apply list_elem_of_fmap in Hid as (e & -> & He). apply list_elem_of_fmap. exists e. split; [done|]. by apply Hkeys.
Qed.

Lemma handle_marks w e w' : handle w e = Some w' -> marks_ok w /\ marked w -> marks_ok w' /\ marked w'.
Proof.
  intros He Hw. pose proof (activity_marks w) as Ha.
  destruct e; simpl in He; try (injection He as <-).
  - by apply (marks_same w).
  - apply (marks_same w); [|done]. by destruct Ha.
  - apply (marks_same w); [|done]. unfold handlePointerMove. by case_match.
  - apply (marks_same w); [|done]. unfold handlePointerUp, handlePointerLostCapture. case_match; by destruct Ha.
  - apply (marks_same w); [|done]. unfold handlePointerLostCapture. by case_match.
  - apply (marks_same w); [|done]. unfold handleFeatureAttack. repeat case_match; by try destruct (clear_marks false w).
  - apply (marks_same w); [|done]. unfold handlePauseFeaturedAttacks. by destruct (clear_marks false (with_featuredAttackPausedRef true w)).
  - apply (marks_same w); [|done]. unfold handleResumeFeaturedAttacks.
    by destruct (start_marks (attacks w) (with_featuredAttackPausedRef false w)).
  - apply (marks_same w); [|done]. unfold handleFeatureNextAttack.
    eapply same_marks_trans; [|apply step_every_marks]. eapply same_marks_trans; [|apply next_marks].
    by destruct (clear_marks false (with_featuredAttackPausedRef false w)).
  - unfold onAttacks. apply fresh_effect_marks.
    apply (marks_same w); [|done]. eapply same_marks_trans; [|apply start_marks].
    eapply same_marks_trans; [apply (clear_marks true w)|apply attacks_marks].
  - apply (marks_same w); [|done]. eapply same_marks_trans; [apply (clear_marks true w)|apply start_marks].
  - by apply (marks_same w).
  - case_match; [|done]. injection He as <-. apply (marks_same w); [|done]. constructor; simpl; try done; lia.
  - apply fires_inv in He as (t & Ht & _ & _ & ->). apply (marks_same w); [|done]. unfold idle_fires.
    set (u := at_time _ _). assert (Hu : same_marks w u) by (constructor; simpl; try done; lia).
    case_match; [eapply same_marks_trans; [exact Hu|apply start_marks]|].
    eapply same_marks_trans; [exact Hu|]. eapply same_marks_trans; [apply next_marks|apply step_every_marks].
  - apply fires_inv in He as (t & Ht & _ & _ & ->). apply (marks_same w); [|done]. unfold step_fires.
    eapply same_marks_trans; [|apply next_marks]. constructor; simpl; try done; lia.
  - apply fires_inv in He as (t & Ht & _ & _ & ->). by apply mark_fires_marks.
  - apply fires_inv in He as (t & Ht & _ & _ & ->). apply (marks_same w); [|done]. unfold frame_fires.
    destruct (t_closure t). repeat case_match; constructor; simpl; try done; lia.
Qed.

Lemma reachable_marks allowed w : reachable allowed w -> marks_ok w /\ marked w.
Proof.
  induction 1 as [next|w e w' _ IH _ He]; [|by eapply handle_marks].
  unfold mounted, onAttacks. apply fresh_effect_marks.
  set (w0 := mkShow _ _ _ _ _ _ _ _ _ _ _ _ _ _ _ _ _ _ _ _).
  apply (marks_same w0); [|split; [constructor; simpl; try done; try constructor|]].
  - eapply same_marks_trans; [|apply start_marks].
    eapply same_marks_trans; [apply (clear_marks true w0)|apply attacks_marks].
  - intros H. by apply elem_of_nil in H.
  - intros (t & H & _). by apply elem_of_nil in H.
  - intros id H. by apply elem_of_nil in H.
Qed.

(** The mark of a fresh attack ends: whatever happened, an attack that is marked
    has exactly one timer, which is due within a second and a half, and whose callback
    takes the mark away; a mark that is started anew does not leave the old timer
    behind. *)
Theorem fresh_marks_end allowed w id :
  reachable allowed w -> id ∈ freshAttackIds w ->
  exists t, t ∈ marks w /\ t_closure t = id /\ t_due t <= now w + FRESH_ATTACK_FLY_MS /\
    (forall u, u ∈ marks w -> t_closure u = id -> u = t) /\
    id ∉ freshAttackIds (mark_fires t w).
Proof.
  intros H Hid. apply reachable_marks in H as [[Hk Hh Ho Hn Hs] Hm].
  apply Hm, list_elem_of_fmap in Hid as ([i h] & -> & He). simpl in *.
  pose proof (proj1 (Hn i h) He) as (t & Ht & Hi & Hht). exists t. split_and!; [done|done| | |].
  - by apply (proj1 (list.Forall_forall _ _) Hs).
  - intros u Hu Hiu. apply (same_timer (marks w)); [done..|].
    assert (H2 : (i, t_handle u) ∈ freshAttackTimersRef w) by (apply Hn; by exists u).
    rewrite <- map_get_elem in He, H2 by done. congruence.
  - rewrite elem_of_bfilter, negb_true_iff, String.eqb_neq. intros [Hne _]. done.
Qed.

(** ** The frame of a fresh attack *)

(** As long as no other component moves the showcase on, a frame that waits for its
    turn finds no interval, and it is due before the idle timeout. *)
Record frames_wait (w : Show) : Prop := {
  fw_soon : Forall (fun t => t_due t <= now w + FRESH_FRAME_DEBOUNCE_MS) (frame_timers w);
  fw_still : frame_timers w <> [] -> featuredAttackIntervalRef w = None;
  fw_first : forall f t, f ∈ frame_timers w -> t ∈ idles w -> t_due f < t_due t
}.

Lemma clear_idles b w t : t ∈ idles (clearAutoRotationTimers b w) -> t ∈ idles w.
Proof.
  assert (H : idles (clearAutoRotationTimers b w) = stop (idleTimeoutRef w) (idles w))
    by (unfold clearAutoRotationTimers; by case_match).
  rewrite H. by intros [? _]%stop_elem.
Qed.

Lemma clear_interval b w : featuredAttackIntervalRef (clearAutoRotationTimers b w) = None.
Proof. unfold clearAutoRotationTimers. by case_match. Qed.

Lemma clear_waits b w : frames_wait w -> frames_wait (clearAutoRotationTimers b w).
Proof.
  intros [H1 H2 H3]. destruct (clear_fields b w) as (_ & _ & Hn & Hf & _). constructor; rewrite ?Hf, ?Hn; [done| |].
  - intros _. apply clear_interval.
  - intros f t Hfr Ht. apply H3; [done|]. by eapply clear_idles.
Qed.

Lemma start_waits closure w : frames_wait w -> frames_wait (startAutoRotationFromIdle closure w).
Proof.
  intros Hw. pose proof (clear_waits false w Hw) as [H1 H2 H3]. pose proof (clear_interval false w) as Hi.
  unfold startAutoRotationFromIdle. set (u := clearAutoRotationTimers false w) in *. clearbody u.
  case_match; [done|]. constructor; simpl; [done|done|].
  intros f t Hf [Ht|Ht]%elem_of_app; [by apply H3|]. apply list_elem_of_singleton in Ht as ->. simpl.
  pose proof (proj1 (list.Forall_forall _ _) H1 f Hf). unfold AUTO_ROTATE_IDLE_MS, FRESH_FRAME_DEBOUNCE_MS in *.
  simpl in *. lia.
Qed.

(** What the frames do not look at. *)
Lemma waits_same w v :
  frame_timers v = frame_timers w -> idles v = idles w -> now w <= now v ->
  featuredAttackIntervalRef v = featuredAttackIntervalRef w -> frames_wait w -> frames_wait v.
Proof.
  intros Hf Hi Hn Hr [H1 H2 H3]. constructor; rewrite ?Hf, ?Hi, ?Hr; try done.
  eapply List.Forall_impl; [|exact H1]. simpl. lia.
Qed.

Lemma activity_waits w : frames_wait w -> frames_wait (markUserActivity w).
Proof.
  intros Hw. unfold markUserActivity. case_match; [done|]. apply start_waits, clear_waits.
  by apply (waits_same w).
Qed.

Lemma start_marks_frames ids w :
  let v := fold_left start_mark ids w in
  frame_timers v = frame_timers w /\ idles v = idles w /\ now v = now w /\
  featuredAttackIntervalRef v = featuredAttackIntervalRef w.
Proof.
  revert w. induction ids as [|id ids IH]; intros w; [done|]. simpl.
  destruct (IH (start_mark w id)) as (-> & -> & -> & ->). done.
Qed.

Lemma fresh_effect_waits w :
  frames_wait w -> featuredAttackIntervalRef w = None ->
  (forall t, t ∈ idles w -> now w + FRESH_FRAME_DEBOUNCE_MS < t_due t) -> frames_wait (fresh_effect w).
Proof.
  intros Hw Hi Hidle. unfold fresh_effect. case_match; [|by apply (waits_same w)].
  case_match; [|by apply (waits_same w)]. set (ids := bfilter _ _). set (v := with_freshAttackIds _ _).
  destruct (start_marks_frames ids v) as (Hf & Hid & Hn & Hr). destruct Hw as [H1 H2 H3].
  set (u := fold_left start_mark ids v) in *. constructor.
  - change (Forall (fun t => t_due t <= now u + FRESH_FRAME_DEBOUNCE_MS)
      (stop (freshFrameTimeoutRef u) (frame_timers u) ++
       [mkTimer (next_timer u) (now u + FRESH_FRAME_DEBOUNCE_MS) (s, attacks u)])).
    apply list.Forall_app. split; [|repeat constructor; simpl; lia]. rewrite Hf, Hn.
    apply list.Forall_forall. intros t [Ht _]%stop_elem. by apply (proj1 (list.Forall_forall _ _) H1).
  - intros _. change (featuredAttackIntervalRef u = None). by rewrite Hr.
  - intros f t Hfr Ht. change (idles (start_frame s u)) with (idles u) in Ht. rewrite Hid in Ht.
    apply elem_of_app in Hfr as [Hfr|Hfr].
    + apply stop_elem in Hfr as [Hfr _]. rewrite Hf in Hfr. by apply H3.
    + apply list_elem_of_singleton in Hfr as ->. simpl. rewrite Hn. by apply Hidle.
Qed.

(** After a restart the idle timeout is ten seconds away. *)
Lemma start_idles closure w t :
  driver w -> t ∈ idles (startAutoRotationFromIdle closure w) -> t_due t = now w + AUTO_ROTATE_IDLE_MS.
Proof.
  intros Hw. destruct (clear_rests false w Hw) as (Hi & _ & _). destruct (clear_fields false w) as (_ & _ & Hn & _).
  unfold startAutoRotationFromIdle. set (u := clearAutoRotationTimers false w) in *. clearbody u.
  case_match; simpl; rewrite Hi; [by intros ?%elem_of_nil|]. intros Ht. apply list_elem_of_singleton in Ht as ->.
  simpl. by rewrite Hn.
Qed.

Lemma start_now closure w : now (startAutoRotationFromIdle closure w) = now w.
Proof. unfold startAutoRotationFromIdle. case_match; apply (clear_fields false w). Qed.

Lemma start_frames closure w : frame_timers (startAutoRotationFromIdle closure w) = frame_timers w.
Proof. unfold startAutoRotationFromIdle. case_match; apply (clear_fields false w). Qed.

Lemma start_interval closure w : featuredAttackIntervalRef (startAutoRotationFromIdle closure w) = None.
Proof. unfold startAutoRotationFromIdle. case_match; apply (clear_interval false w). Qed.

Lemma attacks_wait next u : frames_wait u -> frames_wait (with_attacks next u).
Proof. by apply waits_same. Qed.

Lemma onAttacks_waits next w : driver w -> frames_wait w -> frames_wait (onAttacks next w).
Proof.
  intros Hd Hw. unfold onAttacks. set (u := with_attacks next _).
  assert (Hu : frames_wait u) by by apply attacks_wait, clear_waits.
  assert (Hud : driver u) by by apply Resting, attacks_rests, clear_rests.
  apply fresh_effect_waits; [by apply start_waits|apply start_interval|].
  intros t Ht. apply start_idles in Ht; [|done]. rewrite start_now, Ht.
  unfold AUTO_ROTATE_IDLE_MS, FRESH_FRAME_DEBOUNCE_MS. lia.
Qed.

Lemma no_frames w : (frame_timers w = []) -> frames_wait w.
Proof. intros H. constructor; rewrite ?H; [constructor|done|]. by intros f t ?%elem_of_nil. Qed.

Lemma frame_finds_nothing t w :
  frames_wait w -> t ∈ frame_timers w ->
  frame_fires t w = with_freshFrameTimeoutRef None
    (at_time (t_due t) (with_frame_timers (stop (Some (t_handle t)) (frame_timers w)) w)).
Proof.
  intros [_ H _] Ht. unfold frame_fires. destruct (t_closure t) as [id closure].
  rewrite bool_decide_true; [done|]. apply H. intros Hnil. rewrite Hnil in Ht. by apply elem_of_nil in Ht.
Qed.

Lemma handle_waits w e w' :
  driver w -> frames_wait w -> e <> EvNext -> handle w e = Some w' -> frames_wait w'.
Proof.
  intros Hd Hw Hne He. pose proof (activity_waits w Hw) as Ha.
  destruct e; simpl in He; try (injection He as <-).
  - done.
  - by apply (waits_same (markUserActivity w)).
  - unfold handlePointerMove. by case_match.
  - unfold handlePointerUp, handlePointerLostCapture. case_match; [|done]. by apply (waits_same (markUserActivity w)).
  - unfold handlePointerLostCapture. case_match; [|done]. by apply (waits_same w).
  - unfold handleFeatureAttack. repeat case_match; try done.
    apply (waits_same (clearAutoRotationTimers false w)); try done. by apply clear_waits.
  - apply clear_waits. by apply (waits_same w).
  - apply start_waits. by apply (waits_same w).
  - done.
  - by apply onAttacks_waits.
  - by apply start_waits, clear_waits.
  - by apply (waits_same w).
  - case_match; [|done]. injection He as <-. apply (waits_same w); try done. simpl. lia.
  - apply fires_inv in He as (t & Ht & _ & Hall & ->).
    assert (Hnil : frame_timers w = []).
    { destruct (frame_timers w) as [|f fs] eqn:E; [done|]. exfalso.
      assert (Hf : f ∈ frame_timers w) by (rewrite E; left).
      pose proof (fw_first w Hw f t Hf Ht) as Hlt.
      assert (Hin : t_due f ∈ dues w) by (unfold dues; rewrite !elem_of_app; do 3 right; by apply list_elem_of_fmap_2).
      pose proof (proj1 (list.Forall_forall _ _) Hall _ Hin). simpl in *. lia. }
    apply no_frames. unfold idle_fires. case_match.
    + by rewrite start_frames.
    + set (u := at_time _ _). change (frame_timers (featureNextAttack (t_closure t) u) = []).
      by destruct (featureNext_fields (t_closure t) u) as (_ & -> & _).
  - apply fires_inv in He as (t & Ht & _ & _ & ->).
    destruct (frame_timers w) eqn:E.
    + apply no_frames. unfold step_fires.
      match goal with |- frame_timers (Showcase.featureNextAttack _ _ ?c ?u) = _ =>
        destruct (featureNext_fields c u) as (_ & -> & _) end. done.
    + destruct Hw as [_ H2 _]. rewrite E in H2. specialize (H2 (fun H => ltac:(discriminate H))).
      destruct Hd as [(_ & Hs & _)|u _ _ Hs _ _|u _ _ Hr _]; [rewrite Hs in Ht; by apply elem_of_nil in Ht..|congruence].
  - apply fires_inv in He as (t & Ht & _ & _ & ->). apply (waits_same w); try done. simpl. lia.
  - apply fires_inv in He as (t & Ht & _ & _ & ->). rewrite frame_finds_nothing by done.
    destruct Hw as [H1 H2 H3]. constructor; simpl.
    + apply list.Forall_forall. intros f Hf. apply (stop_elem (Some _)) in Hf as [Hf _].
      pose proof (proj1 (list.Forall_forall _ _) H1 f Hf). simpl in *. lia.
    + intros _. apply H2. intros Hnil. rewrite Hnil in Ht. by apply elem_of_nil in Ht.
    + intros f u Hf Hu. apply (stop_elem (Some _)) in Hf as [Hf _]. by apply H3.
Qed.

(** The latest fresh attack is never shown.  A frame is started to bring it on
    the globe, a third of a second after its page; but the render that starts it has
    just stopped the interval that the frame requires and put the showcase ten seconds
    away, so that, unless another component moves the showcase on in between, the
    frame finds nothing to do: no attack is featured and no interval starts. *)
Theorem fresh_attack_never_featured w h w' :
  reachable (fun e => e <> EvNext) w -> handle w (EvFrame h) = Some w' ->
  featuredAttackId w' = featuredAttackId w /\ steps w' = steps w /\
  featuredAttackIntervalRef w' = None /\ featuredAttackIndexRef w' = featuredAttackIndexRef w.
Proof.
  intros H He. assert (Hw : driver w /\ frames_wait w).
  { clear He. induction H as [next|w e w2 Hr [IH1 IH2] Hne He].
    - split; [by apply onAttacks_drives, Resting|]. by apply onAttacks_waits; [apply Resting|apply no_frames].
    - split; [by eapply handle_drives|by eapply handle_waits]. }
  destruct Hw as [_ Hw]. apply fires_inv in He as (t & Ht & _ & _ & ->).
  rewrite frame_finds_nothing by done. split_and!; try done.
  apply (fw_still w Hw). intros Hnil. rewrite Hnil in Ht. by apply elem_of_nil in Ht.
Qed.

(** ** A round of the showcase *)

(** What [n] turns of the interval feature. *)
Fixpoint turns (n : nat) (closure : list AttackMapEvent) (w : Show) : list (option string) :=
  match n with
  | O => []
  | S k => let v := featureNextAttack closure w in featuredAttackId v :: turns k closure v
  end.

Lemma queue_perm closure : queue_of localeCompare log2 closure ≡ₚ closure.
Proof.
  pose proof (featured_queue_perm localeCompare log2 closure) as H. unfold queue_of.
  by destruct (buildFeaturedAttackQueue localeCompare log2 closure).
Qed.

Lemma turn_features closure w :
  closure <> [] ->
  let queue := queue_of localeCompare log2 closure in
  let v := featureNextAttack closure w in
  featuredAttackId v = am_id <$> queue !! (featuredAttackIndexRef w mod length queue)%nat /\
  featuredAttackIndexRef v = S (featuredAttackIndexRef w).
Proof.
  intros Hne queue v. unfold v, Showcase.featureNextAttack. fold queue.
  assert (Hlen : length queue = length closure) by apply Permutation_length, queue_perm.
  assert (Hpos : (0 < length queue)%nat) by (rewrite Hlen; destruct closure; [done|simpl; lia]).
  destruct (lookup_lt_is_Some_2 queue (featuredAttackIndexRef w mod length queue)%nat) as [a Ha];
    [apply Nat.mod_upper_bound; lia|].
  destruct closure; [done|]. by rewrite Ha.
Qed.

Lemma turns_spec n closure w :
  closure <> [] ->
  let queue := queue_of localeCompare log2 closure in
  turns n closure w =
  (fun k => am_id <$> queue !! ((featuredAttackIndexRef w + k) mod length queue)%nat) <$> seq 0 n.
Proof.
  intros Hne queue. revert w. induction n as [|n IH]; intros w; [done|].
  destruct (turn_features closure w Hne) as [H1 H2]. fold queue in H1. simpl.
  rewrite Nat.add_0_r, <- H1. f_equal. rewrite IH, H2, <- fmap_S_seq, <- list_fmap_compose.
  apply list_fmap_ext. intros i k _. simpl. do 3 f_equal. lia.
Qed.

Lemma rotation_perm {A} (l : list A) i :
  (fun k => l !! ((i + k) mod length l)%nat) <$> seq 0 (length l) ≡ₚ Some <$> l.
Proof.
  destruct (decide (l = [])) as [->|Hne]; [done|].
  assert (Hpos : (0 < length l)%nat) by (destruct l; [done|simpl; lia]).
  set (m := length l) in *. set (j := (i mod m)%nat). assert (Hj : (j < m)%nat) by (apply Nat.mod_upper_bound; lia).
  assert (Heq : (fun k => l !! ((i + k) mod m)%nat) <$> seq 0 m = Some <$> (drop j l ++ take j l)).
  { apply list_eq. intros k. rewrite !list_lookup_fmap.
    destruct (decide (k < m)%nat) as [Hk|Hk].
    - rewrite lookup_seq_lt by done. simpl. rewrite <- Nat.Div0.add_mod_idemp_l. fold j.
      destruct (decide (j + k < m)%nat) as [Hlt|Hge].
      + rewrite Nat.mod_small, lookup_app_l, lookup_drop by (rewrite ?length_drop; fold m; lia).
        destruct (lookup_lt_is_Some_2 l (j + k)) as [x ->]; [fold m; lia|done].
      + replace (j + k)%nat with ((j + k - m) + 1 * m)%nat by lia.
        rewrite Nat.Div0.mod_add, Nat.mod_small, lookup_app_r by (rewrite ?length_drop; fold m; lia).
        rewrite length_drop. fold m. rewrite lookup_take_lt by lia.
        replace (k - (m - j))%nat with (j + k - m)%nat by lia.
        destruct (lookup_lt_is_Some_2 l (j + k - m)) as [x ->]; [fold m; lia|done].
    - rewrite lookup_seq_ge by lia. simpl. rewrite lookup_ge_None_2; [done|].
      rewrite length_app, length_drop, length_take. fold m. lia. }
  rewrite Heq, Permutation_app_comm, take_drop. done.
Qed.

(** The showcase shows everyone: from any state, as many turns of the interval as
    there are attacks feature each attack exactly once, wherever the round starts. *)
Theorem round_features_each_attack closure w :
  turns (length closure) closure w ≡ₚ (fun a => Some (am_id a)) <$> closure.
Proof.
  destruct (decide (closure = [])) as [->|Hne]; [done|]. rewrite turns_spec by done.
  set (queue := queue_of localeCompare log2 closure).
  assert (Hp : queue ≡ₚ closure) by apply queue_perm.
  rewrite <- (Permutation_length Hp).
  transitivity ((fun o : option AttackMapEvent => am_id <$> o) <$> (Some <$> queue)).
  - rewrite <- (rotation_perm queue (featuredAttackIndexRef w)), <- list_fmap_compose. done.
  - rewrite <- list_fmap_compose. by rewrite Hp.
Qed.
End Invariants.

(** ** Witnesses *)

Definition sample_log2 (n : Z) : num := Finite (Z.log2 n) 0.

Notation sample_handle := (handle code_unit_compare sample_log2).

(** A second page with one attack more. *)
Definition shown_page : Show := mounted sample_attacks.
Definition next_page : Show :=
  onAttacks (sample_attacks ++ [sample_attack "a5" "green" "red" 8]) shown_page.

Lemma reach_next_page allowed :
  allowed (EvAttacks (sample_attacks ++ [sample_attack "a5" "green" "red" 8])) ->
  reachable code_unit_compare sample_log2 allowed next_page.
Proof.
  intros H. unfold next_page.
  apply (reach_event _ _ _ shown_page _ _ (reach_mount _ _ _ _) H). cbn [handle]. exact eq_refl.
Qed.

Lemma showcase_single_driver_witness :
  length (idles next_page) = 1%nat /\ steps (clearAutoRotationTimers true next_page) = [] /\
  idles (clearAutoRotationTimers true next_page) = [].
Proof.
  split; [reflexivity|].
  destruct (showcase_single_driver code_unit_compare sample_log2 (fun _ => True) next_page
    (reach_next_page _ I)) as (_ & _ & H1 & H2). by split.
Defined.

Lemma fresh_marks_end_witness :
  exists t, t ∈ marks next_page /\ t_closure t = "a5" /\ t_due t <= 1500.
Proof.
  destruct (fresh_marks_end code_unit_compare sample_log2 (fun _ => True) next_page "a5"
    (reach_next_page _ I)) as (t & H1 & H2 & H3 & _).
  - apply (bool_decide_unpack _). vm_compute. exact I.
  - exists t. split_and!; [exact H1|exact H2|exact H3].
Defined.

Lemma fresh_attack_never_featured_witness :
  exists w', sample_handle next_page (EvFrame 3) = Some w' /\ featuredAttackId w' = None.
Proof.
  destruct (sample_handle next_page (EvFrame 3)) as [w'|] eqn:E; [|vm_compute in E; discriminate E].
  exists w'. split; [reflexivity|].
  destruct (fresh_attack_never_featured code_unit_compare sample_log2 next_page 3 w') as (H & _);
    [by apply reach_next_page|exact E|exact H].
Defined.
