(* ===== verification/GlobeView.v ===== *)
(** * The view of the globe ([components/ui/cyber-attack-map.tsx])

    What the attack map draws for a rotation: the outlines of the countries, the team
    nodes with their labels, and the arcs of the attacks; and where the globe turns to
    show an attack.

    Coordinates are exact rationals where the code has doubles: the rounding of their
    arithmetic is left out.  The functions of [Math] that are no arithmetic ([sin],
    [cos], [sqrt], [hypot]) are parameters. *)

From Stdlib Require Import QArith Lqa Qround.
From S2P Require Import Prelude JsString JsNumber Ranking AttackMapPanel AttackMap.

#[local] Open Scope string_scope.
#[local] Open Scope Z_scope.
#[local] Open Scope list_scope.
#[local] Open Scope js_scope.

(** ** Numbers *)

(** Numbers in lowest terms are equal when they are the same. *)
#[export] Instance Q_lowest_eq_dec : EqDecision Q.
Proof. solve_decision. Defined.

(** [a < b], [Math.max(a, b)], [Math.min(a, b)]. *)
Definition q_lt (a b : Q) : bool := negb (Qle_bool b a).
Definition q_max (a b : Q) : Q := if Qle_bool a b then b else a.
Definition q_min (a b : Q) : Q := if Qle_bool a b then a else b.

Definition clamp (value min max : Q) : Q := q_min max (q_max min value).

(** [a % b]: the sign of the dividend. *)
Definition q_trunc (a : Q) : Z := Z.quot (Qnum a) (Zpos (Qden a)).
Definition q_rem (a b : Q) : Q := (a - inject_Z (q_trunc (a / b)) * b)%Q.

(** [Math.round(a)]: halves go up. *)
Definition q_round (a : Q) : Z := Qfloor (a + (1 # 2))%Q.

Definition normalizeLongitude (value : Q) : Q :=
  (q_rem (q_rem (value + 180) 360 + 360) 360 - 180)%Q.

(** ** Constants *)

Definition MAP_WIDTH : Q := 1000.
Definition MAP_HEIGHT : Q := 560.
Definition CENTER_X : Q := (MAP_WIDTH / 2 - 22)%Q.
Definition CENTER_Y : Q := (MAP_HEIGHT / 2 + 2)%Q.
Definition GLOBE_RADIUS : Q := 256.
Definition MAX_ROTATION_LAT : Q := 62.
Definition LABEL_HEIGHT : Q := 40.
Definition LABEL_PADDING_X : Q := 6.
Definition LABEL_SAFE_INSET_X : Q := 24.
Definition LABEL_SAFE_INSET_Y : Q := 28.
Definition LABEL_VERTICAL_GAP : Q := 14.
Definition ZOOM_MIN : Q := 1.
Definition ZOOM_MAX : Q := (26 # 10)%Q.

(** ** Points *)

Record GeoPoint := mkGeoPoint { lat : Q; lon : Q }.

(** A point with where it is drawn. *)
Record ProjectedPoint := mkProjectedPoint { geo : GeoPoint; visible : bool; x : Q; y : Q; z : Q }.

(** Rotations are a latitude and a longitude too. *)
Definition GlobeRotation : Type := GeoPoint.

Section Projection.
Variables (sin cos : Q -> Q) (pi : Q).

Definition toRadians (value : Q) : Q := (value * pi / 180)%Q.

Definition projectGlobePoint (point : GeoPoint) (rotation : GlobeRotation) : ProjectedPoint :=
  let la := toRadians (lat point) in
  let lo := toRadians (normalizeLongitude (lon point - lon rotation)%Q) in
  let tilt := toRadians (lat rotation) in
  let cosLat := cos la in
  let px := (GLOBE_RADIUS * cosLat * sin lo)%Q in
  let rawY := (GLOBE_RADIUS * (sin la * cos tilt - cosLat * cos lo * sin tilt))%Q in
  let pz := (sin la * sin tilt + cosLat * cos lo * cos tilt)%Q in
  mkProjectedPoint point (q_lt (-4 # 100) pz) (CENTER_X + px)%Q (CENTER_Y - rawY)%Q pz.
End Projection.

Definition interpolateGeoPoint (start stop : GeoPoint) (progress : Q) : GeoPoint :=
  mkGeoPoint (lat start + (lat stop - lat start) * progress)%Q
    (normalizeLongitude (lon start + normalizeLongitude (lon stop - lon start) * progress)).

Definition getMidLongitude (left right : Q) : Q :=
  normalizeLongitude (left + normalizeLongitude (right - left) / 2)%Q.

(** ** Dragging and zooming *)

(** The rotation for a pointer that was moved by [dx] and [dy] since the drag began. *)
Definition drag_rotation (startLat startLon dx dy : Q) : GlobeRotation :=
  mkGeoPoint (clamp (startLat + dy * (34 # 100)) (- MAX_ROTATION_LAT) MAX_ROTATION_LAT)%Q
    (normalizeLongitude (startLon - dx * (42 # 100))%Q).

Definition zoomBy (delta current : Q) : Q :=
  (inject_Z (q_round (clamp (current + delta) ZOOM_MIN ZOOM_MAX * 100)) / 100)%Q.

(** ** The outlines of the countries *)

(** What a file of shapes holds: numbers, arrays, anything else. *)
Inductive Shape := SNum (q : Q) | SArray (l : list Shape) | SOther.

Definition parseLinearRing (ring : Shape) : list (Q * Q) :=
  match ring with
  | SArray coordinates =>
      omap (fun coordinate =>
              match coordinate with SArray (SNum a :: SNum b :: _) => Some (a, b) | _ => None end) coordinates
  | _ => []
  end.

Definition at_least (n : nat) {A} (l : list A) : bool := (n <=? length l)%nat.

Definition parsePolygonCoordinates (coordinates : Shape) : list (list (list (Q * Q))) :=
  match coordinates with
  | SArray rings =>
      bfilter (at_least 1) [bfilter (at_least 3) (parseLinearRing <$> rings)]
  | _ => []
  end.

Definition parseMultiPolygonCoordinates (coordinates : Shape) : list (list (list (Q * Q))) :=
  match coordinates with
  | SArray polygons => polygons ≫= parsePolygonCoordinates
  | _ => []
  end.

Inductive GeometryType := Polygon | MultiPolygon.

Record GlobeFeature := mkGlobeFeature { ft_coordinates : Shape; ft_type : GeometryType; ft_name : option string }.

Definition getFeaturePolygons (feature : GlobeFeature) : list (list (list (Q * Q))) :=
  match ft_type feature with
  | Polygon => parsePolygonCoordinates (ft_coordinates feature)
  | MultiPolygon => parseMultiPolygonCoordinates (ft_coordinates feature)
  end.

Record CountryRing := mkCountryRing { cr_id : string; cr_name : string; cr_points : list GeoPoint }.

Definition polygon_ring (name : string) (featureIndex polygonIndex : nat) (polygon : list (list (Q * Q)))
    : list CountryRing :=
  match polygon with
  | outerRing :: _ =>
      if at_least 3 outerRing
      then [mkCountryRing (num_to_string (Z.of_nat featureIndex) ++ₛ "-" ++ₛ num_to_string (Z.of_nat polygonIndex))
              name ((fun p => mkGeoPoint p.2 p.1) <$> outerRing)]
      else []
  | [] => []
  end.

Definition feature_rings (featureIndex : nat) (feature : GlobeFeature) : list CountryRing :=
  let name := ft_name feature ?? ("country-" ++ₛ num_to_string (Z.of_nat featureIndex)) in
  concat (imap (polygon_ring name featureIndex) (getFeaturePolygons feature)).

Definition parseCountryRings (features : list GlobeFeature) : list CountryRing :=
  concat (imap feature_rings features).

(** ** Team nodes and their labels *)

Inductive Anchor := AnchorStart | AnchorMiddle | AnchorEnd.

#[export] Instance Anchor_eq_dec : EqDecision Anchor.
Proof. solve_decision. Defined.

Record TeamNode := mkTeamNode {
  node_id : string;
  point : ProjectedPoint;
  node_landmark : Landmark;
  labelX : Q;
  labelY : Q;
  labelAnchor : Anchor;
  highlighted : bool;
  selected : bool;
  node_stats : TeamStats
}.

(** The identifier is the name. *)
Definition node_name (n : TeamNode) : string := node_id n.
Definition node_visible (n : TeamNode) : bool := visible (point n).

Definition with_label (nx ny : Q) (n : TeamNode) : TeamNode :=
  mkTeamNode (node_id n) (point n) (node_landmark n) nx ny (labelAnchor n) (highlighted n) (selected n)
    (node_stats n).

Definition with_highlighted (n : TeamNode) : TeamNode :=
  mkTeamNode (node_id n) (point n) (node_landmark n) (labelX n) (labelY n) (labelAnchor n) true (selected n)
    (node_stats n).

Definition text_width (text : string) : Q := inject_Z (js_length text).

Definition getTeamLabelWidth (node : TeamNode) : Q :=
  let titleWidth := (text_width (node_name node) * (65 # 10))%Q in
  let metaWidth := (text_width (num_to_string (outgoing (node_stats node)) ++ₛ " out") * (52 # 10))%Q in
  clamp (q_max titleWidth metaWidth + 22)%Q 82 178.

Definition getRawLabelWidth (value : string) : Q := clamp (text_width value * (62 # 10) + 22)%Q 82 178.

Record Box := mkBox { bottom : Q; left : Q; right : Q; top : Q }.

Definition label_left (width nx : Q) (anchor : Anchor) : Q :=
  match anchor with
  | AnchorEnd => nx + LABEL_PADDING_X - width
  | AnchorMiddle => nx - width / 2
  | AnchorStart => nx - LABEL_PADDING_X
  end%Q.

Definition getLabelBox (node : TeamNode) : Box :=
  let width := getTeamLabelWidth node in
  let l := label_left width (labelX node) (labelAnchor node) in
  mkBox (labelY node + LABEL_HEIGHT / 2)%Q l (l + width)%Q (labelY node - LABEL_HEIGHT / 2)%Q.

Definition boxes_overlap (a b : Box) : bool :=
  negb (q_lt (right a) (left b) || q_lt (right b) (left a) || q_lt (bottom a) (top b) || q_lt (bottom b) (top a)).

Definition labelsOverlap (a b : TeamNode) : bool := boxes_overlap (getLabelBox a) (getLabelBox b).

Definition clampLabelAnchorX (preferredX width : Q) (anchor : Anchor) : Q :=
  match anchor with
  | AnchorEnd =>
      clamp preferredX (LABEL_SAFE_INSET_X + width - LABEL_PADDING_X)%Q
        (MAP_WIDTH - LABEL_SAFE_INSET_X - LABEL_PADDING_X)%Q
  | AnchorMiddle =>
      clamp preferredX (LABEL_SAFE_INSET_X + width / 2)%Q (MAP_WIDTH - LABEL_SAFE_INSET_X - width / 2)%Q
  | AnchorStart =>
      clamp preferredX (LABEL_SAFE_INSET_X + LABEL_PADDING_X)%Q
        (MAP_WIDTH - LABEL_SAFE_INSET_X - width + LABEL_PADDING_X)%Q
  end.

Definition LABEL_MIN_Y : Q := (LABEL_SAFE_INSET_Y + LABEL_HEIGHT / 2)%Q.
Definition LABEL_MAX_Y : Q := (MAP_HEIGHT - LABEL_SAFE_INSET_Y - LABEL_HEIGHT / 2)%Q.

Section Labels.
Variable sqrt : Q -> Q.

Definition normalize (vx vy : Q) : Q * Q :=
  let length := sqrt (vx * vx + vy * vy)%Q in
  if Qeq_bool length 0 then (0, -1)%Q else (vx / length, vy / length)%Q.

(** The anchor and the place of a label before the collisions are resolved. *)
Definition getLabelPlacement (p : ProjectedPoint) : Anchor * Q * Q :=
  let vector := normalize (x p - CENTER_X)%Q (y p - CENTER_Y)%Q in
  let anchor := if q_lt vector.1 (-22 # 100) then AnchorEnd
                else if q_lt (22 # 100) vector.1 then AnchorStart else AnchorMiddle in
  let width := getRawLabelWidth "" in
  (anchor, clampLabelAnchorX (x p + vector.1 * 44)%Q width anchor,
   clamp (y p + vector.2 * 34)%Q LABEL_MIN_Y LABEL_MAX_Y).
End Labels.

(** *** Collisions *)

(** [a - b || c - d] as a comparator. *)
Definition q_sign (a b : Q) : Z := match Qcompare a b with Lt => -1 | Eq => 0 | Gt => 1 end.

(** A node with its index in the list: the code moves the nodes of the list itself. *)
Definition compare_labels (a b : nat * TeamNode) : Z :=
  let c := q_sign (labelY a.2) (labelY b.2) in
  if c =? 0 then q_sign (labelX a.2) (labelX b.2) else c.

(** One look at a placed label: below it when they overlap. *)
Definition bump (node : TeamNode) (nextY : Q) (placed : nat * TeamNode) : Q :=
  if labelsOverlap (with_label (labelX node) nextY node) placed.2
  then (labelY placed.2 + LABEL_HEIGHT + LABEL_VERTICAL_GAP)%Q else nextY.

Definition place_label (placedNodes : list (nat * TeamNode)) (entry : nat * TeamNode) : list (nat * TeamNode) :=
  let node := entry.2 in
  let nextY := fold_left (bump node) placedNodes (labelY node) in
  placedNodes ++
  [(entry.1, with_label (clampLabelAnchorX (labelX node) (getTeamLabelWidth node) (labelAnchor node))
               (clamp nextY LABEL_MIN_Y LABEL_MAX_Y) node)].

Definition visible_nodes (nodes : list TeamNode) : list (nat * TeamNode) :=
  js_sort compare_labels (bfilter (fun e => node_visible e.2) (imap pair nodes)).

Definition place_labels (nodes : list TeamNode) : list (nat * TeamNode) :=
  fold_left place_label (visible_nodes nodes) [].

(** How far the lowest label reaches below the safe area. *)
Definition label_overflow (placedNodes : list (nat * TeamNode)) : Q :=
  fold_left (fun most e => q_max most (labelY e.2 + LABEL_HEIGHT / 2 - (MAP_HEIGHT - LABEL_SAFE_INSET_Y))%Q)
    placedNodes 0%Q.

Definition move_up (overflow : Q) (e : nat * TeamNode) : nat * TeamNode :=
  (e.1, with_label (labelX e.2) (clamp (labelY e.2 - overflow) LABEL_MIN_Y LABEL_MAX_Y)%Q e.2).

(** The nodes in their order, the visible ones with the label that was placed. *)
Definition adjusted (nodes : list TeamNode) (placedNodes : list (nat * TeamNode)) : list TeamNode :=
  imap (fun i node => match find_first (fun e => (e.1 =? i)%nat) placedNodes with
                      | Some e => e.2
                      | None => node
                      end) nodes.

Definition resolveLabelCollisions (nodes : list TeamNode) : list TeamNode :=
  let placedNodes := place_labels nodes in
  let overflow := label_overflow placedNodes in
  adjusted nodes (if q_lt 0 overflow then move_up overflow <$> placedNodes else placedNodes).

(** *** What is shown and who is featured *)

Definition shouldShowTeamLabel (node : TeamNode) (hoveredTeamId : option string) (focusedTeams : list string)
    : bool :=
  highlighted node || selected node || bool_decide (hoveredTeamId = Some (node_id node)) ||
  bool_decide (node_id node ∈ focusedTeams).

Definition isFeaturedTeam (node : TeamNode) (featuredAttack : option AttackMapEvent) : bool :=
  match featuredAttack with
  | Some a => String.eqb (node_name node) (am_attacker a) || String.eqb (node_name node) (am_victim a)
  | None => false
  end.

(** Enter and the space bar activate a node or an arc. *)
Definition activates (key : string) : bool := String.eqb key "Enter" || String.eqb key " ".

(** ** Arcs *)

Record ArcPoint := mkArcPoint { arc_id : string; arc_at : ProjectedPoint }.

Definition node_arc_point (n : TeamNode) : ArcPoint := mkArcPoint (node_id n) (point n).

Section Arcs.
(** [String(n)] of a number that may not be an integer; [Math.hypot], [Math.sqrt]. *)
Variables (number_text : Q -> string) (hypot : Q -> Q -> Q) (sqrt : Q -> Q).
Variable project : GeoPoint -> GlobeRotation -> ProjectedPoint.

(** The bisection: the part of the way that is still in sight, the part that is not,
    and the last point in sight. *)
Record Horizon := mkHorizon { low : Q; high : Q; projected : ProjectedPoint }.

Definition horizon_step (visiblePoint hiddenPoint : GeoPoint) (rotation : GlobeRotation) (h : Horizon) : Horizon :=
  let middle := ((low h + high h) / 2)%Q in
  let candidateProjection := project (interpolateGeoPoint visiblePoint hiddenPoint middle) rotation in
  if q_lt (15 # 1000) (z candidateProjection)
  then mkHorizon middle (high h) candidateProjection
  else mkHorizon (low h) middle (projected h).

Definition horizon_after (n : nat) (visiblePoint hiddenPoint : GeoPoint) (rotation : GlobeRotation) : Horizon :=
  Nat.iter n (horizon_step visiblePoint hiddenPoint rotation) (mkHorizon 0 1 (project visiblePoint rotation)).

Definition horizon : GeoPoint -> GeoPoint -> GlobeRotation -> Horizon := horizon_after 24.

Definition findHorizonPoint (visiblePoint hiddenPoint : GeoPoint) (rotation : GlobeRotation) : ArcPoint :=
  let p := projected (horizon visiblePoint hiddenPoint rotation) in
  mkArcPoint (number_text (lat hiddenPoint) ++ₛ ":" ++ₛ number_text (lon hiddenPoint) ++ₛ ":horizon")
    (mkProjectedPoint (geo p) true (x p) (y p) (z p)).

(** Where an arc starts and ends: at the horizon when one of its teams is behind it. *)
Definition getArcEndpoints (start stop : TeamNode) (rotation : GlobeRotation) : ArcPoint * ArcPoint :=
  if Bool.eqb (node_visible start) (node_visible stop) then (node_arc_point start, node_arc_point stop)
  else if node_visible start
       then (node_arc_point start, findHorizonPoint (geo (point start)) (geo (point stop)) rotation)
       else (findHorizonPoint (geo (point stop)) (geo (point start)) rotation, node_arc_point stop).

Definition getArcVisibility (start stop : TeamNode) : Q :=
  let zs := z (point start) in let zt := z (point stop) in
  if negb (node_visible start) && negb (node_visible stop) then 0%Q
  else if negb (Bool.eqb (node_visible start) (node_visible stop))
       then clamp ((q_max zs zt + (4 # 100)) / (104 # 100))%Q 0 (1 # 2)
       else clamp ((q_min zs zt + (4 # 100)) / (104 # 100))%Q 0 1.

Definition at_text (px py : Q) : string := number_text px ++ₛ " " ++ₛ number_text py.

(** A loop for an attack on oneself, else a curve lifted away from the centre. *)
Definition buildAttackPath (start stop : ArcPoint) (attackId : string) : string :=
  let s := arc_at start in let e := arc_at stop in
  if String.eqb (arc_id start) (arc_id stop) then
    let radius := inject_Z (24 + hashString attackId mod 18) in
    "M " ++ₛ at_text (x s) (y s) ++ₛ " C " ++ₛ at_text (x s - radius)%Q (y s - radius * 2)%Q ++ₛ ", " ++ₛ
    at_text (x s + radius)%Q (y s - radius * 2)%Q ++ₛ ", " ++ₛ at_text (x s) (y s)
  else
    let midX := ((x s + x e) / 2)%Q in
    let midY := ((y s + y e) / 2)%Q in
    let centerVector := normalize sqrt (midX - CENTER_X)%Q (midY - CENTER_Y)%Q in
    let distance := hypot (x e - x s)%Q (y e - y s)%Q in
    let lift := (clamp (distance * (34 # 100)) 46 148 + inject_Z (hashString attackId mod 30))%Q in
    "M " ++ₛ at_text (x s) (y s) ++ₛ " Q " ++ₛ
    at_text (midX + centerVector.1 * lift)%Q (midY + centerVector.2 * lift - 18)%Q ++ₛ " " ++ₛ
    at_text (x e) (y e).

(** An outline is filled when all of it is in sight. *)
Definition buildProjectedCountryFillPath (points : list GeoPoint) (rotation : GlobeRotation) : string :=
  let ps := (fun p => project p rotation) <$> points in
  if negb (at_least 3 ps) || negb (forallb visible ps) then ""
  else join " " (imap (fun index p => (if (index =? 0)%nat then "M" else "L") ++ₛ " " ++ₛ at_text (x p) (y p)) ps)
       ++ₛ " Z".

(** The path so far, and whether the pen is down. *)
Definition line_step (acc : string * bool) (p : ProjectedPoint) : string * bool :=
  if visible p
  then (acc.1 ++ₛ (if acc.2 then " L" else " M") ++ₛ " " ++ₛ at_text (x p) (y p), true)
  else (acc.1, false).

Definition buildProjectedLinePath (points : list GeoPoint) (rotation : GlobeRotation) : string :=
  fst (fold_left line_step ((fun p => project p rotation) <$> points) ("", false)).

(** *** The arcs of the routes *)

(** What is selected, focused, featured or new. *)
Record Focus := mkFocus {
  focusedTeams : list string;
  highlightedAttackIDs : list string;
  selectedAttackId : option string;
  selectedTeamId : option string;
  featuredAttackId : option string;
  freshAttackIds : list string
}.

Record AttackArc := mkAttackArc {
  arc_route : AttackRoute;
  arc_highlighted : bool;
  arc_fresh : bool;
  arc_selected : bool;
  arc_featured : bool;
  arc_active : bool;
  arc_start : ArcPoint;
  arc_stop : ArcPoint;
  arc_path : string;
  arc_partial : bool;
  arc_visible : bool;
  arc_visibility : Q
}.

Definition has_id (id : option string) (route : AttackRoute) : bool :=
  match id with Some i => bool_decide (i ∈ ar_attackIds route) | None => false end.

Definition some_id (ids : list string) (route : AttackRoute) : bool :=
  existsb (fun id => bool_decide (id ∈ ids)) (ar_attackIds route).

Definition route_active (f : Focus) (route : AttackRoute) : bool :=
  let attacker := am_attacker (ar_attack route) in
  let victim := am_victim (ar_attack route) in
  some_id (highlightedAttackIDs f) route || has_id (selectedAttackId f) route ||
  has_id (featuredAttackId f) route ||
  bool_decide (attacker ∈ focusedTeams f) || bool_decide (victim ∈ focusedTeams f) ||
  bool_decide (selectedTeamId f = Some attacker) || bool_decide (selectedTeamId f = Some victim).

(** An active route marks both its nodes; the nodes are shared by all arcs. *)
Definition mark_endpoints (f : Focus) (nodes : list (string * TeamNode)) (route : AttackRoute)
    : list (string * TeamNode) :=
  if route_active f route
  then (fun e => if String.eqb e.1 (am_attacker (ar_attack route)) || String.eqb e.1 (am_victim (ar_attack route))
                 then (e.1, with_highlighted e.2) else e) <$> nodes
  else nodes.

Definition build_arc (f : Focus) (nodes : list (string * TeamNode)) (rotation : GlobeRotation)
    (route : AttackRoute) : option AttackArc :=
  start ← map_get nodes (am_attacker (ar_attack route));
  stop ← map_get nodes (am_victim (ar_attack route));
  let ends := getArcEndpoints start stop rotation in
  Some (mkAttackArc route (some_id (highlightedAttackIDs f) route) (some_id (freshAttackIds f) route)
    (has_id (selectedAttackId f) route) (has_id (featuredAttackId f) route) (route_active f route)
    ends.1 ends.2 (buildAttackPath ends.1 ends.2 (am_id (ar_attack route)))
    (negb (Bool.eqb (node_visible start) (node_visible stop)))
    (node_visible start || node_visible stop) (getArcVisibility start stop)).

(** The nodes of the teams, by name, before the arcs are built. *)
Definition build_node (f : Focus) (stats : list (string * TeamStats)) (placements : list (string * Landmark))
    (place : Landmark -> GeoPoint) (rotation : GlobeRotation) (name : string) : string * TeamNode :=
  let spot := map_get placements name ?? first_landmark in
  let p := project (place spot) rotation in
  let '(anchor, lx, ly) := getLabelPlacement sqrt p in
  (name, mkTeamNode name p spot lx ly anchor (bool_decide (name ∈ focusedTeams f))
    (bool_decide (selectedTeamId f = Some name)) (map_get stats name ?? mkTeamStats 0 0)).

(** [Number(left.active) - Number(right.active)]. *)
Definition active_last (a b : AttackArc) : Z := Z.b2z (arc_active a) - Z.b2z (arc_active b).

(** The arcs in the order of drawing and the nodes by depth.  An arc whose team has no
    node would throw: [None]. *)
Definition view (f : Focus) (nodes : list (string * TeamNode)) (rotation : GlobeRotation)
    (routes : list AttackRoute) : option (list AttackArc * list TeamNode) :=
  arcs ← mapM (build_arc f nodes rotation) routes;
  let marked := fold_left (mark_endpoints f) routes nodes in
  Some (js_sort active_last arcs,
        js_sort (fun a b => q_sign (z (point a)) (z (point b))) (resolveLabelCollisions (snd <$> marked))).
End Arcs.

(** ** Where the globe turns for an attack *)

Section Featured.
Variable hypot : Q -> Q -> Q.
Variable project : GeoPoint -> GlobeRotation -> ProjectedPoint.

Definition FEATURED_ROUTE_SAFE_RADIUS : Q := (GLOBE_RADIUS * (68 # 100))%Q.
Definition FEATURED_ROUTE_HARD_RIM_RADIUS : Q := (GLOBE_RADIUS * (84 # 100))%Q.

Definition getFeaturedEndpointPenalty (p : ProjectedPoint) : Q :=
  let distanceFromCenter := hypot (x p - CENTER_X)%Q (y p - CENTER_Y)%Q in
  let softPenalty := q_max 0 ((distanceFromCenter - FEATURED_ROUTE_SAFE_RADIUS) / 10)%Q in
  let hardPenalty := q_max 0 ((distanceFromCenter - FEATURED_ROUTE_HARD_RIM_RADIUS) / 3)%Q in
  (softPenalty + hardPenalty * hardPenalty)%Q.

Definition getLabelRoomScore (p : ProjectedPoint) : Q :=
  let horizontalRoom := q_min (x p - LABEL_SAFE_INSET_X)%Q (MAP_WIDTH - LABEL_SAFE_INSET_X - x p)%Q in
  let verticalRoom := q_min (y p - LABEL_SAFE_INSET_Y)%Q (MAP_HEIGHT - LABEL_SAFE_INSET_Y - y p)%Q in
  clamp (q_min (horizontalRoom / 140) (verticalRoom / 90))%Q (-1) 1.

Definition hidden_penalty (p : ProjectedPoint) : Q := if visible p then 0 else 32.

Definition q_abs (a : Q) : Q := q_max a (- a)%Q.

Definition scoreFeaturedRotation (rotation : GlobeRotation) (attacker victim : GeoPoint) : Q :=
  let start := project attacker rotation in
  let stop := project victim rotation in
  let weakestEndpoint := q_min (z start) (z stop) in
  let combinedDepth := (z start + z stop)%Q in
  let centerDistancePenalty := (getFeaturedEndpointPenalty start + getFeaturedEndpointPenalty stop)%Q in
  let horizontalImbalancePenalty := (q_abs ((x start + x stop) / 2 - CENTER_X) / 26)%Q in
  let verticalImbalancePenalty := (q_abs ((y start + y stop) / 2 - CENTER_Y) / 42)%Q in
  let hiddenPenalty := (hidden_penalty start + hidden_penalty stop)%Q in
  let labelRoomBonus := (getLabelRoomScore start + getLabelRoomScore stop)%Q in
  (weakestEndpoint * 9 + combinedDepth * (24 # 10) + labelRoomBonus * (22 # 10) - centerDistancePenalty -
   horizontalImbalancePenalty - verticalImbalancePenalty - hiddenPenalty)%Q.

(** [Math.round(a * 10) / 10], in lowest terms, so that equal numbers are equal. *)
Definition to_tenth (a : Q) : Q := Qred (inject_Z (q_round (a * 10)) / 10)%Q.

Definition clamp_lat (a : Q) : Q := clamp a (- MAX_ROTATION_LAT) MAX_ROTATION_LAT.

Definition midpoint (attacker victim : GeoPoint) : GeoPoint :=
  mkGeoPoint (clamp_lat ((lat attacker + lat victim) / 2)%Q) (getMidLongitude (lon attacker) (lon victim)).

Definition latCandidates (attacker victim : GeoPoint) : list Q :=
  let m := lat (midpoint attacker victim) in
  distinct (to_tenth <$> [clamp_lat m; clamp_lat (m * (72 # 100))%Q; clamp_lat (m - 12)%Q; clamp_lat (m + 12)%Q;
    clamp_lat (lat attacker * (58 # 100) + lat victim * (42 # 100))%Q;
    clamp_lat (lat attacker * (42 # 100) + lat victim * (58 # 100))%Q]).

Definition lon_offsets : list Q := [-42; -28; -16; 0; 16; 28; 42]%Q.

Definition lonCandidates (attacker victim : GeoPoint) : list Q :=
  let m := lon (midpoint attacker victim) in
  distinct ([m; getMidLongitude (lon attacker) m; getMidLongitude m (lon victim); lon victim; lon attacker]
              ≫= fun anchor => (fun offset => to_tenth (normalizeLongitude (anchor + offset)%Q)) <$> lon_offsets).

Definition candidates (attacker victim : GeoPoint) : list GlobeRotation :=
  latCandidates attacker victim ≫= fun la => (fun lo => mkGeoPoint la lo) <$> lonCandidates attacker victim.

(** [candidates.reduce((best, candidate) => better ? candidate : best)]; there is always
    a candidate. *)
Definition best_of (score : GlobeRotation -> Q) (cs : list GlobeRotation) : option GlobeRotation :=
  match cs with
  | [] => None
  | first :: rest =>
      Some (fold_left (fun best candidate => if q_lt (score best) (score candidate) then candidate else best)
              rest first)
  end.

Definition single_rotation (target : GeoPoint) : GlobeRotation :=
  mkGeoPoint (clamp_lat (lat target * (72 # 100))%Q) (lon target).

Definition getFeaturedAttackRotation (attacker victim : option GeoPoint) : option GlobeRotation :=
  match attacker, victim with
  | None, None => None
  | Some target, None | None, Some target => Some (single_rotation target)
  | Some a, Some v => best_of (fun r => scoreFeaturedRotation r a v) (candidates a v)
  end.
End Featured.

(** ** What holds *)

Ltac q_unfold :=
  unfold clamp in *; unfold q_lt, q_min, q_max in *.

(** Case analysis on every comparison, then linear arithmetic. *)
Ltac q_cases :=
  q_unfold;
  repeat match goal with
    | |- context [Qle_bool ?a ?b] =>
        let E := fresh "E" in
        destruct (Qle_bool a b) eqn:E;
        [apply Qle_bool_iff in E|
         apply not_true_iff_false in E; rewrite Qle_bool_iff in E; apply Qnot_le_lt in E]
    | H : context [Qle_bool ?a ?b] |- _ =>
        let E := fresh "E" in
        destruct (Qle_bool a b) eqn:E;
        [apply Qle_bool_iff in E|
         apply not_true_iff_false in E; rewrite Qle_bool_iff in E; apply Qnot_le_lt in E]
    end.

Lemma clamp_bounds v lo hi : (lo <= hi)%Q -> (lo <= clamp v lo hi <= hi)%Q.
Proof. intros H. q_cases; split; lra. Qed.

Lemma q_lt_iff a b : q_lt a b = true <-> (a < b)%Q.
Proof. unfold q_lt. rewrite negb_true_iff, <- not_true_iff_false, Qle_bool_iff.
  split; [apply Qnot_le_lt|apply Qlt_not_le]. Qed.

(** *** Longitudes *)

Lemma q_trunc_bounds a :
  ((0 <= a -> inject_Z (q_trunc a) <= a < inject_Z (q_trunc a) + 1) /\
   (a <= 0 -> inject_Z (q_trunc a) - 1 < a <= inject_Z (q_trunc a)))%Q.
Proof.
  destruct a as [n d]. unfold q_trunc, Qle, Qlt. cbn [Qnum Qden].
  unfold inject_Z, Qplus, Qminus, Qopp, Qle, Qlt. cbn [Qnum Qden Qplus].
  pose proof (Z.quot_rem' n (Zpos d)) as Hq.
  rewrite ?Z.mul_1_r, ?Z.mul_1_l, ?Pos.mul_1_l, ?Pos.mul_1_r.
  split; intros Hn.
  - pose proof (Z.rem_bound_pos n (Zpos d) ltac:(lia) ltac:(lia)). split; lia.
  - pose proof (Z.rem_nonpos n (Zpos d) ltac:(lia) ltac:(lia)).
    pose proof (Z.rem_bound_abs n (Zpos d) ltac:(lia)). split; lia.
Qed.

(** The remainder is congruent and has the sign of the dividend. *)
Lemma q_rem_spec a b :
  (0 < b -> exists k : Z, q_rem a b == a - inject_Z k * b /\
    (0 <= a -> 0 <= q_rem a b < b) /\ (a <= 0 -> - b < q_rem a b <= 0))%Q.
Proof.
  intros Hb. exists (q_trunc (a / b)). unfold q_rem. split; [reflexivity|].
  assert (Hab : (a == (a / b) * b)%Q) by (field; lra).
  destruct (q_trunc_bounds (a / b)) as [Hp Hn]. set (t := inject_Z (q_trunc (a / b))) in *. set (q := (a / b)%Q) in *.
  split; intros Ha.
  - assert (Hq : (0 <= q)%Q) by (apply Qle_shift_div_l; lra). specialize (Hp Hq). rewrite Hab. nra.
  - assert (Hq : (q <= 0)%Q) by (apply Qle_shift_div_r; lra). specialize (Hn Hq). rewrite Hab. nra.
Qed.

Lemma normalizeLongitude_range v :
  (-180 <= normalizeLongitude v < 180)%Q /\
  exists k : Z, (normalizeLongitude v == v + inject_Z k * 360)%Q.
Proof.
  unfold normalizeLongitude.
  destruct (q_rem_spec (v + 180) 360) as (k & Hk & Hp & Hn); [lra|].
  set (r := q_rem (v + 180) 360) in *.
  assert (Hr : (0 < r + 360)%Q) by (destruct (Qlt_le_dec (v + 180) 0); [specialize (Hn ltac:(lra))|specialize (Hp ltac:(lra))]; lra).
  destruct (q_rem_spec (r + 360) 360) as (k' & Hk' & Hp' & _); [lra|]. specialize (Hp' ltac:(lra)).
  split; [lra|]. exists (1 - k - k'). rewrite Hk', Hk.
  unfold Zminus. rewrite !inject_Z_plus, !inject_Z_opp. change (inject_Z 1) with 1%Q. ring.
Qed.

(** Dragging turns the globe: a longitude is brought between -180 (included) and 180
    (excluded), to the same place on the globe, and the latitude stays within 62
    degrees of the equator, wherever the drag started and however far it goes. *)
Theorem drag_stays_on_globe startLat startLon dx dy :
  let r := drag_rotation startLat startLon dx dy in
  (-62 <= lat r <= 62)%Q /\ (-180 <= lon r < 180)%Q /\
  exists k : Z, (lon r == startLon - dx * (42 # 100) + inject_Z k * 360)%Q.
Proof.
  intros r. destruct (normalizeLongitude_range (startLon - dx * (42 # 100))) as [H1 H2]. split_and!.
  1, 2: apply (clamp_bounds _ (- MAX_ROTATION_LAT) MAX_ROTATION_LAT); by apply Qle_bool_iff.
  - apply H1.
  - apply H1.
  - exact H2.
Qed.

(** *** Labels *)

Lemma getTeamLabelWidth_bounds node : (82 <= getTeamLabelWidth node <= 178)%Q.
Proof. apply clamp_bounds. lra. Qed.

Definition inside (b : Box) : Prop :=
  (LABEL_SAFE_INSET_X <= left b /\ right b <= MAP_WIDTH - LABEL_SAFE_INSET_X /\
   LABEL_SAFE_INSET_Y <= top b /\ bottom b <= MAP_HEIGHT - LABEL_SAFE_INSET_Y)%Q.

Ltac q_const :=
  unfold LABEL_MIN_Y, LABEL_MAX_Y, LABEL_SAFE_INSET_X, LABEL_SAFE_INSET_Y, LABEL_HEIGHT, LABEL_PADDING_X,
    LABEL_VERTICAL_GAP, MAP_WIDTH, MAP_HEIGHT in *.

Lemma clampLabelAnchorX_inside preferredX width anchor :
  (82 <= width <= 178)%Q ->
  let l := label_left width (clampLabelAnchorX preferredX width anchor) anchor in
  (LABEL_SAFE_INSET_X <= l /\ l + width <= MAP_WIDTH - LABEL_SAFE_INSET_X)%Q.
Proof.
  intros Hw. unfold label_left, clampLabelAnchorX. q_const.
  assert (Hd : (width / 2 == width * (1 # 2))%Q) by field.
  destruct anchor.
  - pose proof (clamp_bounds preferredX (24 + 6) (1000 - 24 - width + 6) ltac:(lra)). cbn zeta. lra.
  - pose proof (clamp_bounds preferredX (24 + width / 2) (1000 - 24 - width / 2) ltac:(lra)). cbn zeta. lra.
  - pose proof (clamp_bounds preferredX (24 + width - 6) (1000 - 24 - 6) ltac:(lra)). cbn zeta. lra.
Qed.

Lemma label_y_bounds v : (LABEL_MIN_Y <= clamp v LABEL_MIN_Y LABEL_MAX_Y <= LABEL_MAX_Y)%Q.
Proof. apply clamp_bounds. by apply Qle_bool_iff. Qed.

(** A label that was placed. *)
Definition well_placed (n : TeamNode) : Prop :=
  (exists px, labelX n = clampLabelAnchorX px (getTeamLabelWidth n) (labelAnchor n)) /\
  (LABEL_MIN_Y <= labelY n <= LABEL_MAX_Y)%Q.

Lemma well_placed_inside n : well_placed n -> inside (getLabelBox n).
Proof.
  intros [[px Hx] Hy]. unfold inside, getLabelBox. cbn [left right top bottom]. rewrite Hx.
  destruct (clampLabelAnchorX_inside px _ (labelAnchor n) (getTeamLabelWidth_bounds n)) as [H1 H2].
  assert (Hh : (LABEL_HEIGHT / 2 == 20)%Q) by reflexivity.
  assert (Hmin : (LABEL_MIN_Y == 48)%Q) by reflexivity. assert (Hmax : (LABEL_MAX_Y == 512)%Q) by reflexivity.
  unfold MAP_HEIGHT, LABEL_SAFE_INSET_Y. split_and!; [done|done|lra..].
Qed.

Lemma place_labels_well nodes : Forall (fun e => well_placed e.2) (place_labels nodes).
Proof.
  unfold place_labels.
  assert (H : forall es acc, Forall (fun e : nat * TeamNode => well_placed e.2) acc ->
            Forall (fun e => well_placed e.2) (fold_left place_label es acc)).
  { induction es as [|e es IH]; intros acc Hacc; [done|]. cbn [fold_left]. apply IH. unfold place_label.
    apply list.Forall_app. split; [done|]. repeat constructor; cbn [snd labelX labelY with_label].
    - by eexists.
    - apply label_y_bounds.
    - apply label_y_bounds. }
  by apply H.
Qed.

(** The same node, up to the place of its label. *)
Definition same_node (a b : TeamNode) : Prop := with_label 0 0 a = with_label 0 0 b.

Lemma same_with_label nx ny n : same_node n (with_label nx ny n).
Proof. done. Qed.

Lemma same_node_trans a b c : same_node a b -> same_node b c -> same_node a c.
Proof. unfold same_node. congruence. Qed.

(** What is placed are the visible nodes, each at its index. *)
Lemma placed_entries nodes :
  Forall2 (fun e e' => e.1 = e'.1 /\ same_node e.2 e'.2) (visible_nodes nodes) (place_labels nodes).
Proof.
  unfold place_labels.
  assert (H : forall es acc0 acc, Forall2 (fun e e' : nat * TeamNode => e.1 = e'.1 /\ same_node e.2 e'.2) acc0 acc ->
            Forall2 (fun e e' => e.1 = e'.1 /\ same_node e.2 e'.2) (acc0 ++ es) (fold_left place_label es acc)).
  { induction es as [|e es IH]; intros acc0 acc Hacc; [by rewrite app_nil_r|]. cbn [fold_left].
    replace (acc0 ++ e :: es) with ((acc0 ++ [e]) ++ es) by by rewrite <- app_assoc.
    apply IH. unfold place_label. apply Forall2_app; [done|]. repeat constructor. }
  by apply (H _ [] []).
Qed.

Lemma visible_nodes_elem nodes e : e ∈ visible_nodes nodes <-> nodes !! e.1 = Some e.2 /\ node_visible e.2 = true.
Proof.
  unfold visible_nodes. rewrite js_sort_perm. rewrite elem_of_bfilter.
  rewrite elem_of_lookup_imap. split.
  - intros [Hv (i & n & -> & Hi)]. by split.
  - intros [Hi Hv]. split; [done|]. exists e.1, e.2. split; [by destruct e|done].
Qed.

Lemma Forall2_elem {A B} (P : A -> B -> Prop) l k :
  Forall2 P l k -> (forall a, a ∈ l -> exists b, b ∈ k /\ P a b) /\ (forall b, b ∈ k -> exists a, a ∈ l /\ P a b).
Proof.
  intros H. split; intros y (i & Hi)%list_elem_of_lookup.
  - destruct (Forall2_lookup_l _ _ _ _ _ H Hi) as (b & Hb & Hp). exists b. split; [|done].
    by eapply list_elem_of_lookup_2.
  - destruct (Forall2_lookup_r _ _ _ _ _ H Hi) as (a & Ha & Hp). exists a. split; [|done].
    by eapply list_elem_of_lookup_2.
Qed.

Lemma placed_elem nodes e' :
  e' ∈ place_labels nodes -> exists n, nodes !! e'.1 = Some n /\ node_visible n = true /\ same_node n e'.2.
Proof.
  intros Hin. destruct (proj2 (Forall2_elem _ _ _ (placed_entries nodes)) _ Hin) as (e & Hin' & He & Hs).
  apply visible_nodes_elem in Hin' as [Hl Hv]. rewrite He in Hl. by exists e.2.
Qed.

Lemma placed_visible nodes i n :
  nodes !! i = Some n -> node_visible n = true -> exists e', e' ∈ place_labels nodes /\ e'.1 = i.
Proof.
  intros Hi Hv. assert (Hin : (i, n) ∈ visible_nodes nodes) by by apply visible_nodes_elem.
  destruct (proj1 (Forall2_elem _ _ _ (placed_entries nodes)) _ Hin) as (e' & Hin' & He & _). by exists e'.
Qed.

(** No label is placed below the safe area, so that nothing is ever moved up. *)
Lemma label_overflow_none nodes : q_lt 0 (label_overflow (place_labels nodes)) = false.
Proof.
  apply not_true_iff_false. rewrite q_lt_iff. apply Qle_not_lt. unfold label_overflow.
  pose proof (place_labels_well nodes) as Hw. revert Hw. generalize (place_labels nodes). intros placed Hw.
  assert (H0 : (0 <= 0)%Q) by lra. revert H0. generalize 0%Q at 1 3.
  induction Hw as [|e placed [_ He] _ IH]; intros acc Hacc; [done|]. cbn [fold_left]. apply IH.
  assert (Hmax : (LABEL_MAX_Y == 512)%Q) by reflexivity. assert (Hh : (LABEL_HEIGHT / 2 == 20)%Q) by reflexivity.
  unfold MAP_HEIGHT, LABEL_SAFE_INSET_Y. q_cases; lra.
Qed.

Lemma resolve_placed nodes : resolveLabelCollisions nodes = adjusted nodes (place_labels nodes).
Proof. unfold resolveLabelCollisions. cbn zeta. by rewrite label_overflow_none. Qed.

(** What becomes of the nodes, one by one. *)
Lemma resolved_nodes nodes :
  length (resolveLabelCollisions nodes) = length nodes /\
  forall i n, nodes !! i = Some n ->
    exists n', resolveLabelCollisions nodes !! i = Some n' /\ same_node n n' /\
      if node_visible n then inside (getLabelBox n') else n' = n.
Proof.
  rewrite resolve_placed. unfold adjusted. split; [by rewrite length_imap|].
  intros i n Hi. rewrite list_lookup_imap, Hi. cbn [fmap option_fmap option_map].
  eexists. split; [reflexivity|].
  destruct (find_first _ (place_labels nodes)) as [e'|] eqn:Ef.
  - apply find_first_Some in Ef as [Hin He]. apply Nat.eqb_eq in He.
    destruct (placed_elem nodes e' Hin) as (m & Hm & Hv & Hs). rewrite He, Hi in Hm. injection Hm as <-.
    split; [done|]. rewrite Hv. apply well_placed_inside.
    exact (proj1 (list.Forall_forall _ _) (place_labels_well nodes) e' Hin).
  - split; [done|]. destruct (node_visible n) eqn:Hv; [|done]. exfalso.
    destruct (placed_visible nodes i n Hi Hv) as (e' & Hin & He).
    pose proof (proj1 (list.Forall_forall _ _) (proj1 (find_first_None _ _) Ef) e' Hin) as Hf. cbn in Hf. rewrite He, Nat.eqb_refl in Hf. done.
Qed.

(** C28: The labels stay on the map: whatever the teams and the rotation, the label of every
    node in sight ends inside the safe area of the drawing, and nothing else of the
    nodes, nor their order, nor a node out of sight, is changed. *)
Theorem labels_stay_inside nodes :
  length (resolveLabelCollisions nodes) = length nodes /\
  forall i n, nodes !! i = Some n ->
    exists n', resolveLabelCollisions nodes !! i = Some n' /\ same_node n n' /\
      if node_visible n then inside (getLabelBox n') else n' = n.
Proof. exact (resolved_nodes nodes). Qed.

(** Nodes for the examples: in sight, with a short name. *)
Definition sample_node (name : string) (lx ly : Q) : TeamNode :=
  mkTeamNode name (mkProjectedPoint (mkGeoPoint 0 0) true lx ly 1) first_landmark lx ly AnchorStart false false
    (mkTeamStats 0 0).

Definition some_overlap (nodes : list TeamNode) : bool :=
  existsb (fun e => existsb (fun e' => negb (e.1 =? e'.1)%nat && labelsOverlap e.2 e'.2) (imap pair nodes))
    (imap pair nodes).

(** The collisions are not all resolved.  The step that moves the labels up when they
    do not fit below is never taken, because each label was already held back at the
    lower edge: two labels at the edge stay on each other.  And with room everywhere, a
    label that is moved below one label can land on another that was looked at before,
    and is left there. *)
Theorem labels_may_still_overlap :
  (forall nodes, resolveLabelCollisions nodes = adjusted nodes (place_labels nodes)) /\
  some_overlap (resolveLabelCollisions [sample_node "a" 400 500; sample_node "b" 400 512]) = true /\
  let crowd := [sample_node "a" 106 146; sample_node "b" 176 147; sample_node "c" 316 148; sample_node "d" 246 150] in
  some_overlap (resolveLabelCollisions crowd) = true /\
  forallb (fun n => q_lt 100 (labelY n) && q_lt (labelY n) 300) (resolveLabelCollisions crowd) = true.
Proof. split; [exact resolve_placed|]. vm_compute. done. Qed.

(** *** Arcs *)

Section ArcFacts.
Variables (number_text : Q -> string) (hypot : Q -> Q -> Q) (sqrt : Q -> Q).
Variable project : GeoPoint -> GlobeRotation -> ProjectedPoint.

(** What the bisection keeps: a point in sight below, one out of sight above. *)
Definition bracketed (v h : GeoPoint) (r : GlobeRotation) (b : Horizon) : Prop :=
  let at_progress t := project (interpolateGeoPoint v h t) r in
  ((low b == 0 /\ projected b = project v r) \/
   (15 # 1000 < z (projected b) /\ projected b = at_progress (low b)))%Q /\
  (high b == 1 \/ z (at_progress (high b)) <= 15 # 1000)%Q.

Lemma horizon_step_bracketed v h r b : bracketed v h r b -> bracketed v h r (horizon_step project v h r b).
Proof.
  intros [Hl Hh]. unfold horizon_step, bracketed.
  destruct (q_lt (15 # 1000) _) eqn:E; cbn [low high projected].
  - apply q_lt_iff in E. split; [right; by split|done].
  - apply not_true_iff_false in E. rewrite q_lt_iff in E. split; [done|right]. by apply Qnot_lt_le.
Qed.

(** The width that is left after [n] steps. *)
Fixpoint halved (n : nat) : Q := match n with O => 1 | S n => halved n * (1 # 2) end.

Lemma halved_24 : (halved 24 == 1 # (2 ^ 24))%Q.
Proof. reflexivity. Qed.

Lemma horizon_width v h r n :
  let b := horizon_after project n v h r in
  bracketed v h r b /\ (high b - low b == halved n)%Q /\ (0 <= low b /\ high b <= 1)%Q /\ (0 < halved n)%Q.
Proof.
  induction n as [|n IH].
  - cbn. split_and!; [split; [by left|by left]|by field|lra|lra|lra].
  - cbn zeta in *. unfold horizon_after. rewrite Nat.iter_succ. fold (horizon_after project n v h r).
    cbn [halved]. set (b := horizon_after project n v h r) in *.
    destruct IH as (Hb & Hw & (H0 & H1) & Hp). split; [by apply horizon_step_bracketed|].
    assert (Hm : ((low b + high b) / 2 == (low b + high b) * (1 # 2))%Q) by field.
    unfold horizon_step. destruct (q_lt (15 # 1000) _); cbn [low high]; split_and!; lra.
Qed.

(** An arc that goes behind the globe is cut at the horizon: after the 24 halvings the
    point where it is cut is the start itself or in sight, and within one part in
    2^24 of the way ahead lies a point beyond the horizon, or the end. *)
Theorem horizon_is_bracketed v h r :
  let b := horizon project v h r in
  let cut := arc_at (findHorizonPoint number_text project v h r) in
  bracketed v h r b /\ (high b - low b == 1 # (2 ^ 24))%Q /\ (0 <= low b)%Q /\ (high b <= 1)%Q /\
  visible cut = true /\ x cut = x (projected b) /\ y cut = y (projected b).
Proof.
  intros b cut. unfold cut, findHorizonPoint, b, horizon.
  destruct (horizon_width v h r 24) as (Hb & Hw & (H0 & H1) & _).
  revert Hb Hw H0 H1. generalize (horizon_after project 24 v h r). intros c Hb Hw H0 H1.
  rewrite halved_24 in Hw. repeat split; assumption || apply Hb.
Qed.

(** How much of an arc shows: nothing when both ends are behind the globe, at most
    half when one is, and never more than all. *)
Theorem arc_visibility_bounds start stop :
  (0 <= getArcVisibility start stop <= 1)%Q /\
  (node_visible start <> node_visible stop -> getArcVisibility start stop <= 1 # 2)%Q /\
  (node_visible start = false -> node_visible stop = false -> getArcVisibility start stop == 0)%Q.
Proof.
  unfold getArcVisibility.
  pose proof (clamp_bounds ((q_max (z (point start)) (z (point stop)) + (4 # 100)) / (104 # 100)) 0 (1 # 2) ltac:(lra)).
  pose proof (clamp_bounds ((q_min (z (point start)) (z (point stop)) + (4 # 100)) / (104 # 100)) 0 1 ltac:(lra)).
  destruct (node_visible start), (node_visible stop); cbn [negb andb Bool.eqb]; split_and!; try done; try lra.
Qed.

(** Each point in sight is drawn once, in order; the pen goes down again after a point
    that is out of sight. *)
Fixpoint drawn (before : bool) (ps : list ProjectedPoint) : string :=
  match ps with
  | [] => ""
  | p :: ps =>
      (if visible p then (if before then " L" else " M") ++ₛ " " ++ₛ at_text number_text (x p) (y p) else "")
        ++ₛ drawn (visible p) ps
  end.

Lemma line_drawn points r :
  buildProjectedLinePath number_text project points r = drawn false ((fun p => project p r) <$> points).
Proof.
  unfold buildProjectedLinePath. generalize ((fun p => project p r) <$> points). intros ps.
  assert (H : forall acc pen, fst (fold_left (line_step number_text) ps (acc, pen)) = acc ++ₛ drawn pen ps).
  { induction ps as [|p ps IH]; intros acc pen; cbn [fold_left drawn]; [by rewrite app_nil_s|].
    unfold line_step at 2. cbn [fst snd]. destruct (visible p); rewrite IH.
    - by rewrite !app_assoc_s.
    - done. }
  by rewrite H.
Qed.
End ArcFacts.

(** *** The nodes that are marked *)

#[export] Instance active_last_comparator : Comparator active_last.
Proof. split; unfold active_last; intros; lia. Qed.

Definition ends_at (name : string) (route : AttackRoute) : bool :=
  String.eqb name (am_attacker (ar_attack route)) || String.eqb name (am_victim (ar_attack route)).

Lemma marks_lookup f routes nodes i name n :
  nodes !! i = Some (name, n) ->
  exists n', fold_left (mark_endpoints f) routes nodes !! i = Some (name, n') /\
    node_id n' = node_id n /\ node_visible n' = node_visible n /\
    highlighted n' = highlighted n || existsb (fun route => route_active f route && ends_at name route) routes.
Proof.
  revert nodes n. induction routes as [|route routes IH]; intros nodes n Hi; cbn [fold_left existsb].
  - exists n. by rewrite orb_false_r.
  - assert (Hm : exists m, mark_endpoints f nodes route !! i = Some (name, m) /\ node_id m = node_id n /\
              node_visible m = node_visible n /\
              highlighted m = highlighted n || (route_active f route && ends_at name route)).
    { unfold mark_endpoints. destruct (route_active f route); [|exists n; by rewrite orb_false_r].
      rewrite list_lookup_fmap, Hi. cbn [fmap option_fmap option_map fst snd]. unfold ends_at.
      destruct (String.eqb name _ || String.eqb name _); eexists; (split; [reflexivity|]).
      - split_and!; [done|done|]. by rewrite orb_true_r.
      - by rewrite orb_false_r. }
    destruct Hm as (m & Hm & H1 & H2 & H3). destruct (IH _ m Hm) as (n' & Hn & G1 & G2 & G3).
    exists n'. rewrite G1, G2, G3, H1, H2, H3. split_and!; [done|done|done|]. by rewrite orb_assoc.
Qed.

Lemma same_node_fields a b : same_node a b ->
  node_id a = node_id b /\ highlighted a = highlighted b /\ point a = point b.
Proof. unfold same_node, with_label. intros H. by injection H. Qed.

(** What the view marks: every route has its arc, those that are active are drawn over
    the others, and a team is marked exactly when it was, or when an active route
    starts or ends at it. *)
Theorem view_marks_active_ends number_text hypot sqrt project f nodes rotation routes arcs shown :
  view number_text hypot sqrt project f nodes rotation routes = Some (arcs, shown) ->
  (exists built, mapM (build_arc number_text hypot sqrt project f nodes rotation) routes = Some built /\ arcs ≡ₚ built) /\
  StronglySorted (fun a b => arc_active a = true -> arc_active b = true) arcs /\
  length shown = length nodes /\
  forall i name n, nodes !! i = Some (name, n) ->
    exists n', n' ∈ shown /\ node_id n' = node_id n /\
      highlighted n' = highlighted n || existsb (fun route => route_active f route && ends_at name route) routes.
Proof.
  unfold view. intros H. destruct (mapM _ routes) as [built|] eqn:Eb; [|done]. injection H as <- <-.
  set (marked := fold_left (mark_endpoints f) routes nodes).
  destruct (resolved_nodes (snd <$> marked)) as [Hlen Hin].
  split_and!.
  - exists built. split; [done|apply js_sort_perm].
  - pose proof (js_sort_sorted active_last built) as Hs. revert Hs.
    generalize (js_sort active_last built). clear. intros l Hs.
    induction Hs as [|a l Hs IH Ha]; constructor; [done|].
    eapply List.Forall_impl; [|exact Ha]. intros b. unfold le_of, active_last.
    by destruct (arc_active a), (arc_active b).
  - rewrite js_sort_length, Hlen, length_fmap. unfold marked. clear.
    revert nodes. induction routes as [|route routes IH]; intros nodes; [done|]. cbn [fold_left]. rewrite IH.
    unfold mark_endpoints. destruct (route_active f route); [by rewrite length_fmap|done].
  - intros i name n Hi. destruct (marks_lookup f routes nodes i name n Hi) as (m & Hm & H1 & _ & H3).
    fold marked in Hm. destruct (Hin i m) as (n' & Hn' & Hs & _); [by rewrite list_lookup_fmap, Hm|].
    apply same_node_fields in Hs as (G1 & G2 & _). exists n'. split_and!.
    + rewrite js_sort_perm. by eapply list_elem_of_lookup_2.
    + congruence.
    + congruence.
Qed.

(** *** The outlines *)

(** A shape as a file of countries writes it. *)
Definition ring_shape (points : list GeoPoint) : Shape :=
  SArray ((fun p => SArray [SNum (lon p); SNum (lat p)]) <$> points).

Definition polygon_shape (rings : list (list GeoPoint)) : Shape := SArray (ring_shape <$> rings).

Definition ring_pairs (ring : list GeoPoint) : list (Q * Q) := (fun p => (lon p, lat p)) <$> ring.

Definition drawable (ring : list GeoPoint) : Prop := (3 <= length ring)%nat.

Lemma parse_ring_shape points : parseLinearRing (ring_shape points) = ring_pairs points.
Proof.
  unfold ring_shape, ring_pairs. cbn [parseLinearRing]. induction points as [|p points IH]; [done|].
  cbn [fmap list_fmap omap list_omap]. by rewrite <- IH.
Qed.

Lemma parse_polygon_shape outer holes :
  Forall drawable (outer :: holes) ->
  parsePolygonCoordinates (polygon_shape (outer :: holes)) = [ring_pairs <$> outer :: holes].
Proof.
  intros H. unfold polygon_shape. cbn [parsePolygonCoordinates].
  rewrite <- list_fmap_compose.
  rewrite (list_fmap_ext (parseLinearRing ∘ ring_shape) ring_pairs) by (intros i ring _; apply parse_ring_shape).
  rewrite (bfilter_id (at_least 3)); [done|].
  apply list.Forall_fmap. eapply list.Forall_impl; [exact H|]. intros ring Hr. unfold at_least, compose, ring_pairs.
  rewrite length_fmap. by apply Nat.leb_le.
Qed.

Lemma concat_imap_fmap {A B C} (f : nat -> A -> list B) (g : B -> C) (h : A -> list C) l :
  (forall i a, a ∈ l -> g <$> f i a = h a) -> g <$> concat (imap f l) = l ≫= h.
Proof.
  revert f. induction l as [|a l IH]; intros f H; [done|]. cbn [imap concat mbind list_bind].
  rewrite fmap_app, H by apply list_elem_of_here. f_equal. apply IH.
  intros i b Hb. apply H. by apply list_elem_of_further.
Qed.

(** A country: its name, and its polygons, each an outer ring and holes. *)
Definition Country : Type := string * list (list GeoPoint * list (list GeoPoint)).

Definition country_feature (c : Country) : GlobeFeature :=
  mkGlobeFeature (SArray ((fun p => polygon_shape (p.1 :: p.2)) <$> c.2)) MultiPolygon (Some c.1).

(** The outlines are read back: of a country that is written as polygons whose rings
    have three points at least, the map draws the outer ring of every polygon, point by
    point, under the name of the country. *)
Theorem outlines_read_back (countries : list Country) :
  Forall (fun c => Forall (fun p => Forall drawable (p.1 :: p.2)) c.2) countries ->
  (fun r => (cr_name r, cr_points r)) <$> parseCountryRings (country_feature <$> countries) =
  countries ≫= (fun c => (fun p => (c.1, p.1)) <$> c.2).
Proof.
  intros H. unfold parseCountryRings. rewrite imap_fmap. apply concat_imap_fmap.
  intros i [name polygons] Hin. pose proof (proj1 (list.Forall_forall _ _) H _ Hin) as Hc. cbn [fst snd] in *.
  unfold compose, country_feature, feature_rings, getFeaturePolygons.
  cbn [ft_type ft_coordinates ft_name parseMultiPolygonCoordinates fst snd].
  change (Some name ?? ("country-" ++ₛ num_to_string (Z.of_nat i))) with name.
  assert (Hp : ((fun p : list GeoPoint * list (list GeoPoint) => polygon_shape (p.1 :: p.2)) <$> polygons)
                 ≫= parsePolygonCoordinates = (fun p => ring_pairs <$> p.1 :: p.2) <$> polygons).
  { clear Hin H. induction Hc as [|p polygons Hp Hc IH]; [done|]. cbn [fmap list_fmap mbind list_bind].
    rewrite parse_polygon_shape by done. cbn [app]. f_equal. exact IH. }
  rewrite Hp, imap_fmap.
  rewrite (concat_imap_fmap _ (fun r => (cr_name r, cr_points r)) (fun p => [(name, p.1)])).
  - by induction polygons as [|p polygons IH]; [|cbn; f_equal; apply IH; inversion_clear Hc].
  - intros k p Hk. pose proof (proj1 (list.Forall_forall _ _) Hc _ Hk) as Hr. inversion_clear Hr as [|? ? Hd _].
    unfold compose, polygon_ring. cbn [fmap list_fmap]. unfold at_least, ring_pairs at 1. rewrite length_fmap.
    rewrite (proj2 (Nat.leb_le _ _) Hd). cbn [fmap list_fmap cr_name cr_points]. do 2 f_equal.
    unfold ring_pairs. rewrite <- list_fmap_compose. rewrite <- (list_fmap_id p.1) at 2.
    apply list_fmap_ext. by intros ? [].
Qed.

Lemma outlines_read_back_witness :
  let triangle := [mkGeoPoint 1 2; mkGeoPoint 3 4; mkGeoPoint 5 6] in
  let island := [mkGeoPoint 7 8; mkGeoPoint 9 8; mkGeoPoint 9 9; mkGeoPoint 7 9] in
  (fun r => (cr_name r, length (cr_points r))) <$>
    parseCountryRings [country_feature ("Twins", [(triangle, []); (island, [triangle])])] =
  [("Twins", 3%nat); ("Twins", 4%nat)].
Proof.
  intros triangle island.
  pose proof (outlines_read_back [("Twins", [(triangle, []); (island, [triangle])])]) as H.
  apply (f_equal (fmap (fun e => (e.1, length e.2)))) in H; [exact H|].
  repeat constructor.
Defined.

(** *** Where the globe turns *)

Lemma best_of_spec score cs r :
  best_of score cs = Some r -> r ∈ cs /\ Forall (fun c => score c <= score r)%Q cs.
Proof.
  unfold best_of. destruct cs as [|first rest]; [done|]. intros [= <-].
  assert (H : forall seen best, best ∈ seen -> Forall (fun c => score c <= score best)%Q seen ->
     let b := fold_left (fun best candidate => if q_lt (score best) (score candidate) then candidate else best) rest best in
     b ∈ seen ++ rest /\ Forall (fun c => score c <= score b)%Q (seen ++ rest)).
  { induction rest as [|c rest IH]; intros seen best Hin Hall; cbn [fold_left]; [by rewrite app_nil_r|].
    replace (seen ++ c :: rest) with ((seen ++ [c]) ++ rest) by by rewrite <- app_assoc.
    destruct (q_lt (score best) (score c)) eqn:E; apply IH.
    - apply elem_of_app. right. apply list_elem_of_here.
    - apply q_lt_iff in E. apply list.Forall_app. split; [|repeat constructor; apply Qle_refl].
      eapply list.Forall_impl; [exact Hall|]. cbn. intros d Hd. lra.
    - apply elem_of_app. by left.
    - apply not_true_iff_false in E. rewrite q_lt_iff in E. apply Qnot_lt_le in E.
      apply list.Forall_app. split; [done|by repeat constructor]. }
  apply (H [first] first); [apply list_elem_of_here|]. repeat constructor. apply Qle_refl.
Qed.

Lemma to_tenth_bounds k a : (- inject_Z k <= a <= inject_Z k -> - inject_Z k <= to_tenth a <= inject_Z k)%Q.
Proof.
  intros Ha. unfold to_tenth. rewrite Qred_correct. unfold q_round.
  pose proof (Qfloor_le (a * 10 + (1 # 2))) as H1. pose proof (Qlt_floor (a * 10 + (1 # 2))) as H2.
  set (n := Qfloor (a * 10 + (1 # 2))) in *. rewrite inject_Z_plus in H2. change (inject_Z 1) with 1%Q in H2.
  assert (Hup : (inject_Z n < inject_Z (10 * k + 1))%Q).
  { rewrite inject_Z_plus, inject_Z_mult. change (inject_Z 10) with 10%Q. change (inject_Z 1) with 1%Q. lra. }
  assert (Hlo : (inject_Z (- (10 * k) - 1) < inject_Z n)%Q).
  { unfold Zminus. rewrite inject_Z_plus, inject_Z_opp, inject_Z_mult. change (inject_Z 10) with 10%Q.
    change (inject_Z (- (1))) with (- (1))%Q. lra. }
  rewrite <- Zlt_Qlt in Hup, Hlo.
  assert (G1 : (inject_Z n <= inject_Z (10 * k))%Q) by (rewrite <- Zle_Qle; lia).
  assert (G2 : (inject_Z (- (10 * k)) <= inject_Z n)%Q) by (rewrite <- Zle_Qle; lia).
  rewrite inject_Z_mult in G1. rewrite inject_Z_opp, inject_Z_mult in G2. change (inject_Z 10) with 10%Q in *.
  assert (Hd : (inject_Z n / 10 == inject_Z n * (1 # 10))%Q) by field. lra.
Qed.

Definition in_range (r : GlobeRotation) : Prop :=
  (- inject_Z 62 <= lat r <= inject_Z 62 /\ - inject_Z 180 <= lon r <= inject_Z 180)%Q.

Lemma clamp_lat_bounds a : (- inject_Z 62 <= clamp_lat a <= inject_Z 62)%Q.
Proof. apply clamp_bounds. by apply Qle_bool_iff. Qed.

Lemma normalizeLongitude_bounds a : (- inject_Z 180 <= normalizeLongitude a <= inject_Z 180)%Q.
Proof. destruct (normalizeLongitude_range a). change (inject_Z 180) with 180%Q. lra. Qed.

Lemma distinct_tenths k (f : list Q) :
  Forall (fun q => - inject_Z k <= q <= inject_Z k)%Q f ->
  Forall (fun q => - inject_Z k <= q <= inject_Z k)%Q (distinct (to_tenth <$> f)).
Proof.
  intros H. apply list.Forall_forall. intros q Hq. apply elem_of_distinct, list_elem_of_fmap in Hq as (b & -> & Hb).
  apply to_tenth_bounds. exact (proj1 (list.Forall_forall _ _) H b Hb).
Qed.

Lemma latCandidates_bounds a v : Forall (fun q => - inject_Z 62 <= q <= inject_Z 62)%Q (latCandidates a v).
Proof. apply distinct_tenths. repeat (constructor; [apply clamp_lat_bounds|]); try constructor. Qed.

(** The anchors of the longitudes, each with its offsets. *)
Definition longitudes (a v : GeoPoint) : list Q :=
  let m := lon (midpoint a v) in
  [m; getMidLongitude (lon a) m; getMidLongitude m (lon v); lon v; lon a]
    ≫= fun anchor => (fun offset => normalizeLongitude (anchor + offset)%Q) <$> lon_offsets.

Lemma lonCandidates_longitudes a v : lonCandidates a v = distinct (to_tenth <$> longitudes a v).
Proof.
  unfold lonCandidates, longitudes. f_equal.
Qed.

Lemma lonCandidates_bounds a v : Forall (fun q => - inject_Z 180 <= q <= inject_Z 180)%Q (lonCandidates a v).
Proof.
  rewrite lonCandidates_longitudes. apply distinct_tenths. apply list.Forall_forall. intros q Hq.
  unfold longitudes in Hq. apply list_elem_of_bind in Hq as (anchor & Hq & _).
  apply list_elem_of_fmap in Hq as (off & -> & _). apply normalizeLongitude_bounds.
Qed.

Lemma grid_in_range (lats lons : list Q) :
  Forall (fun q => - inject_Z 62 <= q <= inject_Z 62)%Q lats ->
  Forall (fun q => - inject_Z 180 <= q <= inject_Z 180)%Q lons ->
  Forall in_range (lats ≫= fun la => (fun lo => mkGeoPoint la lo) <$> lons).
Proof.
  intros H1 H2. apply list.Forall_forall. intros r Hr.
  apply list_elem_of_bind in Hr as (la & Hr & Hla). apply list_elem_of_fmap in Hr as (lo & -> & Hlo). split.
  - exact (proj1 (list.Forall_forall _ _) H1 la Hla).
  - exact (proj1 (list.Forall_forall _ _) H2 lo Hlo).
Qed.

Lemma candidates_in_range a v : Forall in_range (candidates a v).
Proof. exact (grid_in_range _ _ (latCandidates_bounds a v) (lonCandidates_bounds a v)). Qed.

Lemma distinct_some (l : list Q) : l <> [] -> distinct l <> [].
Proof.
  destruct l as [|q l]; [done|]. intros _ E.
  assert (H : q ∈ distinct (q :: l)) by (apply elem_of_distinct, list_elem_of_here).
  rewrite E in H. inversion H.
Qed.

Lemma candidates_some a v : candidates a v <> [].
Proof.
  assert (H1 : latCandidates a v <> []) by (apply distinct_some; discriminate).
  assert (H2 : lonCandidates a v <> []) by (rewrite lonCandidates_longitudes; apply distinct_some; discriminate).
  unfold candidates. revert H1 H2. generalize (latCandidates a v) (lonCandidates a v).
  by intros [|la las] [|lo los].
Qed.

Lemma best_exists (score : GlobeRotation -> Q) cs :
  cs <> [] -> Forall in_range cs ->
  exists r, best_of score cs = Some r /\ in_range r /\ r ∈ cs /\ Forall (fun c => score c <= score r)%Q cs.
Proof.
  intros Hne Hr. pose proof (best_of_spec score cs) as Hs. destruct (best_of score cs) as [r|] eqn:E.
  - destruct (Hs r eq_refl) as [Hin Hall]. exists r.
    split_and!; [done|exact (proj1 (list.Forall_forall _ _) Hr r Hin)|done|done].
  - destruct cs; [by destruct Hne|discriminate E].
Qed.

Lemma rotation_of_pair hypot project a v :
  exists r, getFeaturedAttackRotation hypot project (Some a) (Some v) = Some r /\ in_range r /\ r ∈ candidates a v /\
    Forall (fun c => scoreFeaturedRotation hypot project c a v <= scoreFeaturedRotation hypot project r a v)%Q
      (candidates a v).
Proof.
  exact (best_exists (fun r => scoreFeaturedRotation hypot project r a v) (candidates a v)
           (candidates_some a v) (candidates_in_range a v)).
Qed.

Lemma rotation_of_one hypot project p r :
  getFeaturedAttackRotation hypot project (Some p) None = Some r \/
  getFeaturedAttackRotation hypot project None (Some p) = Some r ->
  (- inject_Z 62 <= lat r <= inject_Z 62)%Q.
Proof.
  intros H. assert (E : lat r = clamp_lat (lat p * (72 # 100))) by (destruct H as [H|H]; injection H as <-; reflexivity).
  rewrite E. apply clamp_lat_bounds.
Qed.

(** C29: For an attack between two places the globe turns to the best of its candidate
    rotations: there is one, it keeps the poles upright (at most 62 degrees) and no other
    candidate has a higher score; for a single known place it turns there, with the same
    bound. *)
Theorem featured_rotation_is_best hypot project attacker victim :
  (attacker = None /\ victim = None <-> getFeaturedAttackRotation hypot project attacker victim = None) /\
  (forall a v, attacker = Some a -> victim = Some v ->
     exists r, getFeaturedAttackRotation hypot project attacker victim = Some r /\ in_range r /\
       r ∈ candidates a v /\
       Forall (fun c => scoreFeaturedRotation hypot project c a v <= scoreFeaturedRotation hypot project r a v)%Q
         (candidates a v)) /\
  (forall r, getFeaturedAttackRotation hypot project attacker victim = Some r -> (- inject_Z 62 <= lat r <= inject_Z 62)%Q).
Proof.
  split_and!.
  - split; [intros [-> ->]; reflexivity|]. destruct attacker as [a|], victim as [v|]; intros H.
    + destruct (rotation_of_pair hypot project a v) as (r & Hr & _). congruence.
    + discriminate H.
    + discriminate H.
    + split; reflexivity.
  - intros a v -> ->. apply rotation_of_pair.
  - intros r Hr. destruct attacker as [a|], victim as [v|].
    + destruct (rotation_of_pair hypot project a v) as (r' & Hr' & [H _] & _). congruence.
    + exact (rotation_of_one _ _ _ _ (or_introl Hr)).
    + exact (rotation_of_one _ _ _ _ (or_intror Hr)).
    + discriminate Hr.
Qed.

(** A projection for the examples: everything in sight, at one place. *)
Definition flat (g : GeoPoint) (_ : GlobeRotation) : ProjectedPoint := mkProjectedPoint g true 400 100 1.

Lemma featured_rotation_is_best_witness :
  exists r, getFeaturedAttackRotation (fun a _ => a) flat (Some (mkGeoPoint 80 170)) (Some (mkGeoPoint 70 (-170))) = Some r /\
    in_range r.
Proof.
  destruct (featured_rotation_is_best (fun a _ => a) flat (Some (mkGeoPoint 80 170)) (Some (mkGeoPoint 70 (-170))))
    as (_ & H & _).
  destruct (H (mkGeoPoint 80 170) (mkGeoPoint 70 (-170)) eq_refl eq_refl) as (r & H1 & H2 & _).
  exists r. split; assumption.
Defined.

Lemma view_marks_active_ends_witness :
  let nodes := [("red", sample_node "red" 400 100); ("blue", sample_node "blue" 500 100)] in
  let routes := [new_route (mkAttackMapEvent "e1" "red" None "blue" None "web" 3 "accepted")] in
  let focus := mkFocus [] ["e1"] None None None [] in
  exists arcs shown, view (fun _ => "0") (fun a _ => a) (fun a => a) flat focus nodes (mkGeoPoint 0 0) routes = Some (arcs, shown) /\
    exists n, n ∈ shown /\ node_id n = "red" /\ highlighted n = true.
Proof.
  intros nodes routes focus. eexists _, _. split; [reflexivity|].
  destruct (view_marks_active_ends (fun _ => "0") (fun a _ => a) (fun a => a) flat focus nodes (mkGeoPoint 0 0) routes _ _
              eq_refl) as (_ & _ & _ & H).
  exact (H 0%nat "red" (sample_node "red" 400 100) eq_refl).
Defined.
