(* ===== verification/GlobeMotion.v ===== *)
(** * The rotation of the globe ([components/ui/cyber-attack-map.tsx])

    The globe turns in three ways: by a drag, at once, and in an animation of 2.8 seconds
    that the browser drives frame by frame.  A [Motion] is the showcase with the
    rotation, its reference, the drag and the frames that were asked for, and the
    operations are those of the component with nothing left out: every operation of the
    showcase with what it does to the rotation.

    React shows a new rotation some time after [setRotation]: [queued] is the latest
    one set, [rotation] the one on the screen, and the effect that copies it to the
    reference comes later still.  The timestamps of the frames are whatever the browser
    says.  The props that a callback closes over beside its attacks are kept by the
    handle of its timer. *)

From Stdlib Require Import QArith Lqa Qround.
From S2P Require Import Prelude JsString JsNumber Ranking AttackMapPanel AttackMap Showcase GlobeView.

#[local] Open Scope string_scope.
#[local] Open Scope Z_scope.
#[local] Open Scope list_scope.
#[local] Open Scope js_scope.

Notation Rotation := GlobeView.GlobeRotation.

(** ** State *)

(** The props that the places of the teams come from. *)
Record MapProps := mkMapProps {
  placementScopeTeams : option (list string);
  teamLocations : list (string * AttackMapPanel.GeoPoint)
}.

Record DragState := mkDragState {
  pointerId : Z;
  startLat : Q;
  startLon : Q;
  from_x : Q;
  from_y : Q
}.

(** What [tick] closes over. *)
Record Turn := mkTurn { start : Rotation; startTime : Q; deltaLat : Q; deltaLon : Q }.

Record Frame := mkFrame { f_handle : nat; f_turn : Turn }.

Record Motion := mkMotion {
  show : Show;
  props : MapProps;
  listener_props : MapProps;
  timer_props : list (nat * MapProps);
  queued : Rotation;
  rotation : Rotation;
  rotationRef : Rotation;
  drag : option DragState;
  animationFrameRef : option nat;
  frames : list Frame;
  next_frame : nat;
  zoom : Q;
  reduced_motion : bool
}.

Definition with_show (x : Show) (m : Motion) : Motion :=
  mkMotion x (props m) (listener_props m) (timer_props m) (queued m) (rotation m) (rotationRef m) (drag m)
    (animationFrameRef m) (frames m) (next_frame m) (zoom m) (reduced_motion m).
Definition with_props (x : MapProps) (m : Motion) : Motion :=
  mkMotion (show m) x (listener_props m) (timer_props m) (queued m) (rotation m) (rotationRef m) (drag m)
    (animationFrameRef m) (frames m) (next_frame m) (zoom m) (reduced_motion m).
Definition with_listener_props (x : MapProps) (m : Motion) : Motion :=
  mkMotion (show m) (props m) x (timer_props m) (queued m) (rotation m) (rotationRef m) (drag m)
    (animationFrameRef m) (frames m) (next_frame m) (zoom m) (reduced_motion m).
Definition with_timer_props (x : list (nat * MapProps)) (m : Motion) : Motion :=
  mkMotion (show m) (props m) (listener_props m) x (queued m) (rotation m) (rotationRef m) (drag m)
    (animationFrameRef m) (frames m) (next_frame m) (zoom m) (reduced_motion m).
(** [rotationRef.current = r; setRotation(r)]. *)
Definition setRotation (r : Rotation) (m : Motion) : Motion :=
  mkMotion (show m) (props m) (listener_props m) (timer_props m) r (rotation m) r (drag m)
    (animationFrameRef m) (frames m) (next_frame m) (zoom m) (reduced_motion m).
(** A render shows the latest rotation. *)
Definition commit (m : Motion) : Motion :=
  mkMotion (show m) (props m) (listener_props m) (timer_props m) (queued m) (queued m) (rotationRef m) (drag m)
    (animationFrameRef m) (frames m) (next_frame m) (zoom m) (reduced_motion m).
(** The effect on [rotation]. *)
Definition sync_rotation (m : Motion) : Motion :=
  mkMotion (show m) (props m) (listener_props m) (timer_props m) (queued m) (rotation m) (rotation m) (drag m)
    (animationFrameRef m) (frames m) (next_frame m) (zoom m) (reduced_motion m).
Definition with_drag (x : option DragState) (m : Motion) : Motion :=
  mkMotion (show m) (props m) (listener_props m) (timer_props m) (queued m) (rotation m) (rotationRef m) x
    (animationFrameRef m) (frames m) (next_frame m) (zoom m) (reduced_motion m).
Definition with_frames (ref : option nat) (x : list Frame) (m : Motion) : Motion :=
  mkMotion (show m) (props m) (listener_props m) (timer_props m) (queued m) (rotation m) (rotationRef m) (drag m)
    ref x (next_frame m) (zoom m) (reduced_motion m).
(** [animationFrameRef.current = window.requestAnimationFrame(tick)]. *)
Definition request_frame (t : Turn) (m : Motion) : Motion :=
  mkMotion (show m) (props m) (listener_props m) (timer_props m) (queued m) (rotation m) (rotationRef m) (drag m)
    (Some (next_frame m)) (frames m ++ [mkFrame (next_frame m) t]) (S (next_frame m)) (zoom m) (reduced_motion m).
Definition with_zoom (x : Q) (m : Motion) : Motion :=
  mkMotion (show m) (props m) (listener_props m) (timer_props m) (queued m) (rotation m) (rotationRef m) (drag m)
    (animationFrameRef m) (frames m) (next_frame m) x (reduced_motion m).
Definition with_reduced_motion (x : bool) (m : Motion) : Motion :=
  mkMotion (show m) (props m) (listener_props m) (timer_props m) (queued m) (rotation m) (rotationRef m) (drag m)
    (animationFrameRef m) (frames m) (next_frame m) (zoom m) x.

(** An operation that only concerns the showcase. *)
Definition lift (f : Show -> Show) (m : Motion) : Motion := with_show (f (show m)) m.

(** A timer with this handle closes over [ps], unless it is older. *)
Definition close_over (h : option nat) (ps : MapProps) (m : Motion) : Motion :=
  match h with
  | Some h => match map_get (timer_props m) h with
              | Some _ => m
              | None => with_timer_props (map_set (timer_props m) h ps) m
              end
  | None => m
  end.

Definition props_of (h : nat) (m : Motion) : MapProps := map_get (timer_props m) h ?? props m.

(** ** Animated turns *)

Definition duration : Q := 2800.

Definition cancelRotationAnimation (m : Motion) : Motion :=
  match animationFrameRef m with
  | Some h => with_frames None (bfilter (fun f => negb (Nat.eqb (f_handle f) h)) (frames m)) m
  | None => m
  end.

Definition progress_of (t : Turn) (timestamp : Q) : Q := clamp ((timestamp - startTime t) / duration)%Q 0 1.

(** [1 - Math.pow(1 - progress, 4)]. *)
Definition eased (progress : Q) : Q :=
  (1 - (1 - progress) * (1 - progress) * (1 - progress) * (1 - progress))%Q.

Definition rotation_at (t : Turn) (progress : Q) : Rotation :=
  mkGeoPoint (lat (start t) + deltaLat t * eased progress)%Q
    (normalizeLongitude (lon (start t) + deltaLon t * eased progress)%Q).

(** The browser runs a frame. *)
Definition tick (timestamp : Q) (f : Frame) (m : Motion) : Motion :=
  let m := with_frames (animationFrameRef m)
             (bfilter (fun g => negb (Nat.eqb (f_handle g) (f_handle f))) (frames m)) m in
  let progress := progress_of (f_turn f) timestamp in
  let m := setRotation (rotation_at (f_turn f) progress) m in
  if q_lt progress 1 then request_frame (f_turn f) m else with_frames None (frames m) m.

Definition turn_to (target from : Rotation) (time : Q) : Turn :=
  mkTurn from time (lat target - lat from)%Q (normalizeLongitude (lon target - lon from)%Q).

Definition animateRotationTo (target : Rotation) (m : Motion) : Motion :=
  let m := cancelRotationAnimation m in
  if reduced_motion m then setRotation target m
  else request_frame (turn_to target (rotationRef m) (inject_Z (now (show m)))) m.

(** ** The operations *)

Section Motion.
Variable localeCompare : string -> string -> Z.
Variable log2 : Z -> num.
Variable hypot : Q -> Q -> Q.
Variable project : GeoPoint -> GlobeRotation -> ProjectedPoint.
(** The coordinates of a landmark, as numbers. *)
Variable place : Landmark -> GeoPoint.

Definition clearAutoRotationTimers (clearFeatured : bool) (m : Motion) : Motion :=
  cancelRotationAnimation (lift (Showcase.clearAutoRotationTimers clearFeatured) m).

Definition startAutoRotationFromIdle (closure : list AttackMapEvent) (ps : MapProps) (m : Motion) : Motion :=
  let m := clearAutoRotationTimers false m in
  if bool_decide (closure = []) || featuredAttackPausedRef (show m) then m
  else let m := lift (idle_later closure) m in close_over (idleTimeoutRef (show m)) ps m.

(** The rotation that shows an attack. *)
Definition target_of (closure : list AttackMapEvent) (ps : MapProps) (attack : AttackMapEvent) : option Rotation :=
  let landmarksByTeam := map_placements closure (placementScopeTeams ps) (teamLocations ps) in
  getFeaturedAttackRotation hypot project (place <$> map_get landmarksByTeam (am_attacker attack))
    (place <$> map_get landmarksByTeam (am_victim attack)).

Definition featureAttack (closure : list AttackMapEvent) (ps : MapProps) (attack : AttackMapEvent)
    (animate rotate : bool) (m : Motion) : Motion :=
  let m := lift (Showcase.featureAttack attack) m in
  if negb rotate then m
  else match target_of closure ps attack with
  | None => m
  | Some target => if animate then animateRotationTo target m else setRotation target m
  end.

Definition featureNextAttack (closure : list AttackMapEvent) (ps : MapProps) (m : Motion) : Motion :=
  match closure with
  | [] => m
  | _ =>
      let queue := queue_of localeCompare log2 closure in
      match queue !! (featuredAttackIndexRef (show m) mod length queue)%nat with
      | None => m
      | Some attack =>
          featureAttack closure ps attack true true
            (lift (with_featuredAttackIndexRef (S (featuredAttackIndexRef (show m)))) m)
      end
  end.

(** [featuredAttackIntervalRef.current = window.setInterval(featureNextAttack, ...)]. *)
Definition step_every (closure : list AttackMapEvent) (ps : MapProps) (m : Motion) : Motion :=
  let m := lift (Showcase.step_every closure) m in
  close_over (featuredAttackIntervalRef (show m)) ps m.

Definition markUserActivity (m : Motion) : Motion :=
  if bool_decide (featuredAttackIdRef (show m) = None) && (now (show m) - lastActivityRef (show m) <? 250) then m
  else startAutoRotationFromIdle (attacks (show m)) (props m)
         (clearAutoRotationTimers true
           (lift (fun w => with_featuredAttackPausedRef false (with_lastActivityRef (now w) w)) m)).

(** *** Pointers *)

(** The press of a button of the pointer, on the globe or on something in it. *)
Definition handlePointerDown (button : Z) (interactive : bool) (id : Z) (clientX clientY : Q) (m : Motion) : Motion :=
  if negb (button =? 0) || interactive then m
  else
    let shown := rotation m in
    let m := markUserActivity m in
    let m := lift (with_dragging true) m in
    with_drag (Some (mkDragState id (lat shown) (lon shown) clientX clientY)) (lift (with_dragRef (Some id)) m).

Definition handlePointerMove (id : Z) (clientX clientY : Q) (m : Motion) : Motion :=
  match drag m with
  | Some d =>
      if negb (pointerId d =? id) then m
      else setRotation (drag_rotation (startLat d) (startLon d) (clientX - from_x d)%Q (clientY - from_y d)%Q)
             (markUserActivity m)
  | None => m
  end.

Definition handlePointerLostCapture (id : Z) (m : Motion) : Motion :=
  if bool_decide (pointerId <$> drag m = Some id)
  then lift (with_dragging false) (with_drag None (lift (with_dragRef None) m)) else m.

Definition handlePointerUp (id : Z) (m : Motion) : Motion := handlePointerLostCapture id (markUserActivity m).

(** *** Controls *)

Definition presets : list Rotation := [mkGeoPoint (-6) (-82); mkGeoPoint (-6) 34; mkGeoPoint (-6) 118]%Q.

Definition press_preset (value : Rotation) (m : Motion) : Motion := animateRotationTo value (markUserActivity m).

Definition ZOOM_STEP : Q := (35 # 100)%Q.

(** The buttons that may be pressed. *)
Definition zoom_in (m : Motion) : Motion :=
  if Qle_bool ZOOM_MAX (zoom m) then m else with_zoom (zoomBy ZOOM_STEP (zoom m)) m.
Definition zoom_out (m : Motion) : Motion :=
  if Qle_bool (zoom m) ZOOM_MIN then m else with_zoom (zoomBy (- ZOOM_STEP) (zoom m)) m.

(** *** Events of other components *)

(** [detail.animate] and [detail.rotation] may be left out. *)
Definition handleFeatureAttack (attackId : string) (animate : option bool) (asked : option Rotation) (m : Motion)
    : Motion :=
  if is_empty attackId then m
  else match find_first (fun item => String.eqb (am_id item) attackId) (attacks (show m)) with
  | None => m
  | Some attack =>
      let m := clearAutoRotationTimers false m in
      let m := match asked with
               | Some r => setRotation (mkGeoPoint (clamp (lat r) (- MAX_ROTATION_LAT) MAX_ROTATION_LAT)
                                          (normalizeLongitude (lon r))) m
               | None => m
               end in
      featureAttack (attacks (show m)) (listener_props m) attack
        (match asked with Some _ => false | None => negb (bool_decide (animate = Some false)) end)
        (match asked with Some _ => false | None => true end) m
  end.

Definition handlePauseFeaturedAttacks (m : Motion) : Motion :=
  clearAutoRotationTimers false (lift (with_featuredAttackPausedRef true) m).

Definition handleResumeFeaturedAttacks (m : Motion) : Motion :=
  startAutoRotationFromIdle (attacks (show m)) (listener_props m) (lift (with_featuredAttackPausedRef false) m).

Definition handleFeatureNextAttack (m : Motion) : Motion :=
  step_every (attacks (show m)) (listener_props m)
    (featureNextAttack (attacks (show m)) (listener_props m)
      (clearAutoRotationTimers false (lift (with_featuredAttackPausedRef false) m))).

(** *** Renders *)

Definition onAttacks (next : list AttackMapEvent) (ps : MapProps) (m : Motion) : Motion :=
  let m := clearAutoRotationTimers true m in
  let m := with_listener_props ps (with_props ps (lift (with_attacks next) m)) in
  let m := startAutoRotationFromIdle next ps m in
  let m := lift fresh_effect m in
  close_over (freshFrameTimeoutRef (show m)) ps m.

Definition onScope (ps : MapProps) (m : Motion) : Motion :=
  let m := clearAutoRotationTimers true m in
  let m := with_listener_props ps (with_props ps m) in
  startAutoRotationFromIdle (attacks (show m)) ps m.

(** *** Callbacks of the timers *)

Definition idle_fires (t : Timer (list AttackMapEvent)) (m : Motion) : Motion :=
  let ps := props_of (t_handle t) m in
  let m := lift (fun w => at_time (t_due t) (with_idles (stop (Some (t_handle t)) (idles w)) w)) m in
  match drag m with
  | Some _ => startAutoRotationFromIdle (t_closure t) ps m
  | None => step_every (t_closure t) ps (featureNextAttack (t_closure t) ps m)
  end.

Definition step_fires (t : Timer (list AttackMapEvent)) (m : Motion) : Motion :=
  let again w u := if Nat.eqb (t_handle u) (t_handle t)
                   then mkTimer (t_handle u) (now w + FEATURED_ATTACK_STEP_MS) (t_closure u) else u in
  let m := lift (fun w => let w := at_time (t_due t) w in with_steps (again w <$> steps w) w) m in
  featureNextAttack (t_closure t) (props_of (t_handle t) m) m.

Definition frame_fires (t : Timer (string * list AttackMapEvent)) (m : Motion) : Motion :=
  let ps := props_of (t_handle t) m in
  let m := lift (fun w => with_freshFrameTimeoutRef None
                   (at_time (t_due t) (with_frame_timers (stop (Some (t_handle t)) (frame_timers w)) w))) m in
  let '(latestFreshId, closure) := t_closure t in
  if bool_decide (featuredAttackIntervalRef (show m) = None) || bool_decide (drag m <> None) then m
  else match find_first (fun attack => String.eqb (am_id attack) latestFreshId) closure with
  | None => m
  | Some target =>
      let m := featureAttack closure ps target true true m in
      let m := lift (fun w => with_steps (stop (featuredAttackIntervalRef w) (steps w)) w) m in
      step_every closure ps m
  end.

(** ** Steps *)

Inductive Event :=
| MActivity
| MPointerDown (button : Z) (interactive : bool) (id : Z) (clientX clientY : Q)
| MPointerMove (id : Z) (clientX clientY : Q)
| MPointerUp (id : Z)
| MLostCapture (id : Z)
| MPreset (i : nat)
| MZoomIn
| MZoomOut
| MFeature (attackId : string) (animate : option bool) (asked : option Rotation)
| MPause
| MResume
| MNext
| MAttacks (next : list AttackMapEvent) (ps : MapProps)
| MScope (ps : MapProps)
| MLocations (places : list (string * AttackMapPanel.GeoPoint))
| MSync
| MCommit
| MRotationEffect
| MMedia (reduced : bool)
| MWait (delay : Z)
| MIdle (h : nat)
| MStep (h : nat)
| MMark (h : nat)
| MFrame (h : nat)
| MTick (h : nat) (timestamp : Q).

(** The callback of a timer runs when no timer is due before it. *)
Definition fires {P} (running : list (Timer P)) (h : nat) (callback : Timer P -> Motion -> Motion) (m : Motion)
    : option Motion :=
  t ← find_timer h running;
  if bool_decide (Forall (Z.le (t_due t)) (dues (show m))) then Some (callback t m) else None.

Definition handle (m : Motion) (e : Event) : option Motion :=
  let w := show m in
  match e with
  | MActivity => Some (markUserActivity m)
  | MPointerDown b i p cx cy => Some (handlePointerDown b i p cx cy m)
  | MPointerMove p cx cy => Some (handlePointerMove p cx cy m)
  | MPointerUp p => Some (handlePointerUp p m)
  | MLostCapture p => Some (handlePointerLostCapture p m)
  | MPreset i => value ← presets !! i; Some (press_preset value m)
  | MZoomIn => Some (zoom_in m)
  | MZoomOut => Some (zoom_out m)
  | MFeature id a r => Some (handleFeatureAttack id a r m)
  | MPause => Some (handlePauseFeaturedAttacks m)
  | MResume => Some (handleResumeFeaturedAttacks m)
  | MNext => Some (handleFeatureNextAttack m)
  | MAttacks next ps => Some (onAttacks next ps m)
  | MScope ps => Some (onScope ps m)
  | MLocations l => Some (with_props (mkMapProps (placementScopeTeams (props m)) l) m)
  | MSync => Some (lift sync_featured m)
  | MCommit => Some (commit m)
  | MRotationEffect => Some (sync_rotation m)
  | MMedia b => Some (with_reduced_motion b m)
  | MWait d => if 0 <=? d then Some (lift (fun w => with_now (now w + d) w) m) else None
  | MIdle h => fires (idles w) h idle_fires m
  | MStep h => fires (steps w) h step_fires m
  | MMark h => fires (marks w) h (fun t => lift (mark_fires t)) m
  | MFrame h => fires (frame_timers w) h frame_fires m
  | MTick h ts => f ← find_first (fun f => Nat.eqb (f_handle f) h) (frames m); Some (tick ts f m)
  end.

Definition initial : Rotation := mkGeoPoint (-6) 34.

(** The component before its first effects. *)
Definition unmounted (ps : MapProps) (reduced : bool) : Motion :=
  mkMotion (mkShow [] None false [] None 0 None None false None [] None None 0 [] [] [] [] 0 0)
    ps ps [] initial initial initial None None [] 0 1 reduced.

Definition mounted (next : list AttackMapEvent) (ps : MapProps) (reduced : bool) : Motion :=
  onAttacks next ps (unmounted ps reduced).

Inductive reachable : Motion -> Prop :=
| reach_mount next ps reduced : reachable (mounted next ps reduced)
| reach_event m e m' : reachable m -> handle m e = Some m' -> reachable m'.
End Motion.

(** ** Turns stay between their ends *)

Definition upright (q : Q) : Prop := (- inject_Z 62 <= q <= inject_Z 62)%Q.

Definition turn_ok (t : Turn) : Prop := upright (lat (start t)) /\ upright (lat (start t) + deltaLat t)%Q.

Lemma eased_bounds p : (0 <= p <= 1 -> 0 <= eased p <= 1)%Q.
Proof.
  intros Hp. unfold eased.
  assert (H1 : (0 <= (1 - p) <= 1)%Q) by lra.
  assert (H2 : (0 <= (1 - p) * (1 - p) <= 1)%Q) by nra.
  assert (H3 : (0 <= (1 - p) * (1 - p) * (1 - p) <= 1)%Q) by nra.
  assert (H4 : (0 <= (1 - p) * (1 - p) * (1 - p) * (1 - p) <= 1)%Q) by nra. lra.
Qed.

Lemma progress_bounds t ts : (0 <= progress_of t ts <= 1)%Q.
Proof. apply clamp_bounds. lra. Qed.

Lemma between a d k lo hi :
  (lo <= a <= hi -> lo <= a + d <= hi -> 0 <= k <= 1 -> lo <= a + d * k <= hi)%Q.
Proof. intros Ha Hd Hk. split; nra. Qed.

Lemma rotation_at_in_range t p : turn_ok t -> (0 <= p <= 1)%Q -> in_range (rotation_at t p).
Proof.
  intros [H1 H2] Hp. split; simpl; [|apply normalizeLongitude_bounds].
  apply between; [done|done|by apply eased_bounds].
Qed.

Lemma turn_to_ok target from time : in_range target -> in_range from -> turn_ok (turn_to target from time).
Proof.
  intros [Ht _] [Hf _]. split; [exact Hf|]. unfold upright, turn_to. cbn [deltaLat start].
  assert (E : (lat from + (lat target - lat from) == lat target)%Q) by ring. by rewrite E.
Qed.

(** A longitude is the only one of its place between -180 and 180. *)

(** What is left of a turn. *)
Definition left_over (progress : Q) : Q := ((1 - progress) * (1 - progress) * (1 - progress) * (1 - progress))%Q.

Lemma left_over_bounds p : (0 <= p <= 1 -> 0 <= left_over p <= 1)%Q.
Proof. intros Hp. pose proof (eased_bounds p Hp) as H. unfold eased in H. unfold left_over. lra. Qed.

Lemma left_over_antitone p q : (0 <= p -> p <= q -> q <= 1 -> left_over q <= left_over p)%Q.
Proof.
  intros H0 Hpq H1. unfold left_over.
  set (a := (1 - q)%Q). set (b := (1 - p)%Q). assert (Ha : (0 <= a /\ a <= b /\ b <= 1)%Q) by (unfold a, b; lra).
  assert (H2 : (0 <= a * a /\ a * a <= b * b)%Q) by nra.
  assert (E1 : (a * a * a * a == (a * a) * (a * a))%Q) by ring. assert (E2 : (b * b * b * b == (b * b) * (b * b))%Q) by ring.
  rewrite E1, E2. nra.
Qed.

Lemma progress_mono t s s' : (s <= s' -> progress_of t s <= progress_of t s')%Q.
Proof.
  intros H. unfold progress_of, duration.
  assert (Hd : ((s - startTime t) / 2800 <= (s' - startTime t) / 2800)%Q) by (apply Qle_shift_div_l; [lra|]; unfold Qdiv; field_simplify; lra).
  revert Hd. generalize ((s - startTime t) / 2800)%Q ((s' - startTime t) / 2800)%Q. intros u v Huv. q_cases; lra.
Qed.

Lemma progress_full t ts : (startTime t + duration <= ts)%Q -> progress_of t ts = 1%Q.
Proof.
  intros H. unfold progress_of. assert (Hd : (1 <= (ts - startTime t) / duration)%Q)
    by (apply Qle_shift_div_l; unfold duration in *; lra).
  revert Hd. generalize ((ts - startTime t) / duration)%Q. intros u Hu. q_unfold.
  destruct (Qle_bool 0 u) eqn:E0; [|apply not_true_iff_false in E0; rewrite Qle_bool_iff in E0; lra].
  apply Qle_bool_iff in Hu. by rewrite Hu.
Qed.

Lemma progress_partial t ts : (ts < startTime t + duration)%Q -> (progress_of t ts < 1)%Q.
Proof.
  intros H. unfold progress_of. assert (Hd : ((ts - startTime t) / duration < 1)%Q)
    by (apply Qlt_shift_div_r; unfold duration in *; lra).
  revert Hd. generalize ((ts - startTime t) / duration)%Q. intros u Hu. q_cases; lra.
Qed.

Lemma turn_lon target from time p :
  exists k : Z, (lon (rotation_at (turn_to target from time) p) ==
    lon target - deltaLon (turn_to target from time) * left_over p + inject_Z k * 360)%Q.
Proof.
  unfold rotation_at, turn_to. cbn [lon deltaLon start].
  destruct (normalizeLongitude_range (lon target - lon from)) as [_ (k & Ek)]. set (d := normalizeLongitude (lon target - lon from)) in *.
  destruct (normalizeLongitude_range (lon from + d * eased p)) as [_ (j & Ej)].
  exists (k + j). rewrite Ej, inject_Z_plus. unfold eased. fold (left_over p).
  assert (E : (lon from == lon target - d + inject_Z k * 360)%Q) by lra. rewrite E. unfold left_over. ring.
Qed.

(** ** Where an attack is shown *)

Lemma placed_team closure scope places team :
  team ∈ listAttackTeams closure -> is_Some (map_get (map_placements closure scope places) team).
Proof.
  intros Ht. destruct (map_get _ team) eqn:E; [done|]. apply map_get_None in E. exfalso. apply E. clear E.
  unfold map_placements, getLandmarkPlacements.
  assert (Hp : team ∈ js_sort code_unit_compare (listPlacementTeams (listAttackTeams closure) scope)).
  { rewrite js_sort_perm. unfold listPlacementTeams. repeat case_match; try done.
    rewrite js_sort_perm, elem_of_distinct, elem_of_app. by right. }
  apply list_elem_of_lookup in Hp as [i Hi]. apply list_elem_of_fmap.
  exists (place_team places (getAttackProvidedLocations closure) i team). split; [done|].
  eapply list_elem_of_lookup_2. by rewrite list_lookup_imap, Hi.
Qed.

Lemma attackers_are_teams attacks a : a ∈ attacks -> am_attacker a ∈ listAttackTeams attacks.
Proof. intros Ha. apply elem_of_teams, elem_of_app. left. by apply list_elem_of_fmap_2. Qed.

Lemma victims_are_teams attacks a : a ∈ attacks -> am_victim a ∈ listAttackTeams attacks.
Proof. intros Ha. apply elem_of_teams, elem_of_app. right. by apply list_elem_of_fmap_2. Qed.

Lemma target_in_range hypot project place closure ps attack r :
  attack ∈ closure -> target_of hypot project place closure ps attack = Some r -> in_range r.
Proof.
  intros Ha. unfold target_of.
  destruct (placed_team closure (placementScopeTeams ps) (teamLocations ps) (am_attacker attack)) as [a ->];
    [by apply attackers_are_teams|].
  destruct (placed_team closure (placementScopeTeams ps) (teamLocations ps) (am_victim attack)) as [v ->];
    [by apply victims_are_teams|].
  destruct (rotation_of_pair hypot project (place a) (place v)) as (r' & Hr' & Hin & _).
  intros Hr. assert (E : Some r' = Some r) by exact (eq_trans (eq_sym Hr') Hr). by injection E as <-.
Qed.

Lemma presets_in_range i r : presets !! i = Some r -> in_range r.
Proof.
  intros Hr. apply list_elem_of_lookup_2 in Hr. revert r Hr. apply list.Forall_forall.
  repeat constructor; by apply Qle_bool_iff.
Qed.

(** ** The showcase goes on as it does *)

Section Facts.
Variable localeCompare : string -> string -> Z.
Variable log2 : Z -> num.
Variable hypot : Q -> Q -> Q.
Variable project : GeoPoint -> GlobeRotation -> ProjectedPoint.
Variable place : Landmark -> GeoPoint.

Notation featureAttack := (featureAttack hypot project place).
Notation featureNextAttack := (featureNextAttack localeCompare log2 hypot project place).
Notation handleFeatureAttack := (handleFeatureAttack hypot project place).
Notation handle := (handle localeCompare log2 hypot project place).
Notation reachable := (reachable localeCompare log2 hypot project place).

Lemma show_cancel m : show (cancelRotationAnimation m) = show m.
Proof. unfold cancelRotationAnimation. by case_match. Qed.

Lemma show_close h ps m : show (close_over h ps m) = show m.
Proof. unfold close_over. by repeat case_match. Qed.

Lemma show_animate target m : show (animateRotationTo target m) = show m.
Proof. unfold animateRotationTo. case_match; apply show_cancel. Qed.

Lemma show_clear b m : show (clearAutoRotationTimers b m) = Showcase.clearAutoRotationTimers b (show m).
Proof. apply show_cancel. Qed.

Lemma show_start closure ps m :
  show (startAutoRotationFromIdle closure ps m) = Showcase.startAutoRotationFromIdle closure (show m).
Proof.
  unfold startAutoRotationFromIdle, Showcase.startAutoRotationFromIdle. rewrite show_clear.
  case_match; [apply show_clear|]. rewrite show_close. cbn [show lift with_show]. by rewrite show_clear.
Qed.

Lemma show_feature closure ps attack animate rotate m :
  show (featureAttack closure ps attack animate rotate m) = Showcase.featureAttack attack (show m).
Proof.
  unfold GlobeMotion.featureAttack. case_match; [done|]. case_match; [|done]. case_match; [apply show_animate|done].
Qed.

Lemma show_next closure ps m :
  show (featureNextAttack closure ps m) = Showcase.featureNextAttack localeCompare log2 closure (show m).
Proof.
  unfold GlobeMotion.featureNextAttack, Showcase.featureNextAttack. case_match; [done|].
  case_match; [apply show_feature|done].
Qed.

Lemma show_step_every closure ps m : show (step_every closure ps m) = Showcase.step_every closure (show m).
Proof. apply show_close. Qed.

Lemma show_activity m : show (markUserActivity m) = Showcase.markUserActivity (show m).
Proof. unfold markUserActivity, Showcase.markUserActivity. case_match; [done|]. by rewrite show_start, show_clear. Qed.

(** ** The invariant *)

(** The frame that was asked for, if any, is the one the reference can cancel. *)
Definition one_frame (m : Motion) : Prop :=
  match animationFrameRef m with
  | Some h => exists t, frames m = [mkFrame h t] /\ turn_ok t
  | None => frames m = []
  end.

Record motion_ok (m : Motion) : Prop := {
  mo_dragging : dragRef (show m) = pointerId <$> drag m;
  mo_queued : in_range (queued m);
  mo_rotation : in_range (rotation m);
  mo_ref : in_range (rotationRef m);
  mo_frames : one_frame m;
  mo_zoom : (ZOOM_MIN <= zoom m <= ZOOM_MAX)%Q
}.

(** The frame is gone. *)
Definition still (m : Motion) : Prop := frames m = [] /\ animationFrameRef m = None.

Record same_motion (m v : Motion) : Prop := {
  sm_drag : drag v = drag m;
  sm_dragRef : dragRef (show v) = dragRef (show m);
  sm_queued : queued v = queued m;
  sm_rotation : rotation v = rotation m;
  sm_ref : rotationRef v = rotationRef m;
  sm_frame_ref : animationFrameRef v = animationFrameRef m;
  sm_frames : frames v = frames m;
  sm_zoom : zoom v = zoom m
}.

Lemma ok_same m v : same_motion m v -> motion_ok m -> motion_ok v.
Proof.
  intros [H1 H2 H3 H4 H5 H6 H7 H8] [K1 K2 K3 K4 K5 K6].
  constructor; unfold one_frame in *; rewrite ?H1, ?H2, ?H3, ?H4, ?H5, ?H6, ?H7, ?H8; done.
Qed.

Lemma ok_lift f m : dragRef (f (show m)) = dragRef (show m) -> motion_ok m -> motion_ok (lift f m).
Proof. intros H. by apply ok_same. Qed.

Lemma ok_close h ps m : motion_ok m -> motion_ok (close_over h ps m).
Proof. apply ok_same. unfold close_over. by repeat case_match. Qed.

Lemma still_close h ps m : still m -> still (close_over h ps m).
Proof. unfold close_over. by repeat case_match. Qed.

Lemma cancel_still m : motion_ok m -> still (cancelRotationAnimation m).
Proof.
  intros [_ _ _ _ H _]. unfold cancelRotationAnimation, still, one_frame in *. destruct (animationFrameRef m) as [h|] eqn:E.
  - destruct H as (t & -> & _). cbn. by rewrite Nat.eqb_refl.
  - by rewrite E.
Qed.

Lemma still_ok m : still m -> one_frame m.
Proof. intros [H1 H2]. unfold one_frame. by rewrite H2. Qed.

Lemma ok_cancel m : motion_ok m -> motion_ok (cancelRotationAnimation m).
Proof.
  intros Hm. pose proof (still_ok _ (cancel_still m Hm)) as Hs. destruct Hm.
  unfold cancelRotationAnimation in *. by case_match.
Qed.

Lemma ok_set r m : in_range r -> motion_ok m -> motion_ok (setRotation r m).
Proof. by intros Hr []. Qed.

Lemma ok_request t m : turn_ok t -> still m -> motion_ok m -> motion_ok (request_frame t m).
Proof. intros Ht [Hf _] []. constructor; try done. unfold one_frame. cbn. rewrite Hf. by exists t. Qed.

Lemma ok_animate target m : in_range target -> motion_ok m -> motion_ok (animateRotationTo target m).
Proof.
  intros Ht Hm. pose proof (cancel_still m Hm) as Hs. pose proof (ok_cancel m Hm) as Hc.
  unfold animateRotationTo. case_match; [by apply ok_set|].
  apply ok_request; [|done..]. apply turn_to_ok; [done|]. by destruct Hc.
Qed.

Lemma clear_still b m : motion_ok m -> still (clearAutoRotationTimers b m).
Proof. intros Hm. apply cancel_still, ok_lift; [apply clear_fields|done]. Qed.

Lemma ok_clear b m : motion_ok m -> motion_ok (clearAutoRotationTimers b m).
Proof. intros Hm. apply ok_cancel, ok_lift; [apply clear_fields|done]. Qed.

Lemma start_still closure ps m : motion_ok m -> still (startAutoRotationFromIdle closure ps m).
Proof.
  intros Hm. pose proof (clear_still false m Hm) as Hs. unfold startAutoRotationFromIdle.
  case_match; [done|]. by apply still_close.
Qed.

Lemma ok_start closure ps m : motion_ok m -> motion_ok (startAutoRotationFromIdle closure ps m).
Proof.
  intros Hm. pose proof (ok_clear false m Hm) as Hc. unfold startAutoRotationFromIdle.
  case_match; [done|]. by apply ok_close, ok_lift.
Qed.

Lemma ok_feature closure ps attack animate rotate m :
  attack ∈ closure -> motion_ok m -> motion_ok (featureAttack closure ps attack animate rotate m).
Proof.
  intros Ha Hm. unfold GlobeMotion.featureAttack.
  assert (Hl : motion_ok (lift (Showcase.featureAttack attack) m)) by by apply ok_lift.
  case_match; [done|]. destruct (target_of _ _ _ _ _ _) as [target|] eqn:E; [|done].
  apply target_in_range in E; [|done]. case_match; [by apply ok_animate|by apply ok_set].
Qed.

Lemma ok_next closure ps m : motion_ok m -> motion_ok (featureNextAttack closure ps m).
Proof.
  intros Hm. unfold GlobeMotion.featureNextAttack. destruct closure as [|a rest]; [done|].
  destruct (_ !! _) as [attack|] eqn:E; [|done].
  apply ok_feature; [|by apply ok_lift].
  apply list_elem_of_lookup_2 in E. by rewrite queue_perm in E.
Qed.

Lemma ok_step_every closure ps m : motion_ok m -> motion_ok (step_every closure ps m).
Proof. intros Hm. by apply ok_close, ok_lift. Qed.

Lemma ok_activity m : motion_ok m -> motion_ok (markUserActivity m).
Proof. intros Hm. unfold markUserActivity. case_match; [done|]. by apply ok_start, ok_clear, ok_lift. Qed.

Lemma ok_lost p m : motion_ok m -> motion_ok (handlePointerLostCapture p m).
Proof. intros []. unfold handlePointerLostCapture. by case_match. Qed.

Lemma ok_down b i p cx cy m : motion_ok m -> motion_ok (handlePointerDown b i p cx cy m).
Proof. intros Hm. unfold handlePointerDown. case_match; [done|]. by destruct (ok_activity m Hm). Qed.

Lemma drag_in_range la lo dx dy : in_range (drag_rotation la lo dx dy).
Proof.
  split; [|apply normalizeLongitude_bounds].
  apply (clamp_bounds _ (- MAX_ROTATION_LAT) MAX_ROTATION_LAT). by apply Qle_bool_iff.
Qed.

Lemma ok_move p cx cy m : motion_ok m -> motion_ok (handlePointerMove p cx cy m).
Proof.
  intros Hm. unfold handlePointerMove. repeat case_match; try done.
  apply ok_set; [apply drag_in_range|by apply ok_activity].
Qed.

Lemma zoomBy_bounds d z : (ZOOM_MIN <= zoomBy d z <= ZOOM_MAX)%Q.
Proof.
  unfold zoomBy. pose proof (clamp_bounds (z + d) ZOOM_MIN ZOOM_MAX ltac:(by apply Qle_bool_iff)) as Hc.
  set (v := clamp _ _ _) in *. unfold q_round, ZOOM_MIN, ZOOM_MAX in *.
  pose proof (Qfloor_resp_le (inject_Z 100) (v * 100 + (1 # 2)) ltac:(change (inject_Z 100) with 100%Q; lra)) as H1.
  pose proof (Qfloor_resp_le (v * 100 + (1 # 2)) (inject_Z 260 + (1 # 2)) ltac:(change (inject_Z 260) with 260%Q; lra)) as H2.
  rewrite Qfloor_Z in H1. change (Qfloor (inject_Z 260 + (1 # 2))) with 260 in H2.
  rewrite Zle_Qle in H1, H2. change (inject_Z 100) with 100%Q in H1. change (inject_Z 260) with 260%Q in H2.
  split; [apply Qle_shift_div_l|apply Qle_shift_div_r]; lra.
Qed.

Lemma ok_zoom d m : motion_ok m -> motion_ok (with_zoom (zoomBy d (zoom m)) m).
Proof. intros []. constructor; try done. apply zoomBy_bounds. Qed.

Lemma ok_asked id a r m : motion_ok m -> motion_ok (handleFeatureAttack id a r m).
Proof.
  intros Hm. unfold GlobeMotion.handleFeatureAttack. case_match; [done|].
  destruct (find_first _ _) as [attack|] eqn:E; [|done]. apply find_first_Some in E as [Hin _].
  pose proof (ok_clear false m Hm) as Hc. set (c := clearAutoRotationTimers false m) in *.
  assert (Hat : attacks (show c) = attacks (show m)) by (unfold c; rewrite show_clear; apply clear_fields).
  clearbody c. rewrite <- Hat in Hin. destruct r as [r|]; apply ok_feature; try done.
  apply ok_set; [|done]. split; [apply clamp_lat_bounds|apply normalizeLongitude_bounds].
Qed.


Lemma ok_pointer_up p m : motion_ok m -> motion_ok (handlePointerUp p m).
Proof. intros Hm. by apply ok_lost, ok_activity. Qed.

Lemma fresh_effect_drag w : dragRef (fresh_effect w) = dragRef w.
Proof.
  assert (Hm : forall ids v, dragRef (fold_left start_mark ids v) = dragRef v).
  { intros ids. induction ids as [|id ids IH]; intros v; [done|]. simpl. by rewrite IH. }
  unfold fresh_effect. repeat case_match; try done. cbn. by rewrite Hm.
Qed.

Lemma ok_attacks next ps m : motion_ok m -> motion_ok (onAttacks next ps m).
Proof.
  intros Hm. unfold onAttacks. apply ok_close, ok_lift; [apply fresh_effect_drag|]. apply ok_start.
  apply (ok_same (lift (with_attacks next) (clearAutoRotationTimers true m))); [done|]. by apply ok_lift, ok_clear.
Qed.

Lemma ok_scope ps m : motion_ok m -> motion_ok (onScope ps m).
Proof.
  intros Hm. unfold onScope. apply ok_start. apply (ok_same (clearAutoRotationTimers true m)); [done|]. by apply ok_clear.
Qed.

Lemma ok_idle_fires t m : motion_ok m -> motion_ok (idle_fires localeCompare log2 hypot project place t m).
Proof.
  intros Hm. unfold idle_fires. case_match; [by apply ok_start, ok_lift|]. by apply ok_step_every, ok_next, ok_lift.
Qed.

Lemma ok_frame_fires t m : motion_ok m -> motion_ok (frame_fires hypot project place t m).
Proof.
  intros Hm. unfold frame_fires. set (u := lift _ m). assert (Hu : motion_ok u) by by apply ok_lift.
  clearbody u. case_match. case_match; [done|]. destruct (find_first _ _) eqn:E; [|done].
  apply find_first_Some in E as [Hin _]. apply ok_step_every, ok_lift; [done|]. by apply ok_feature.
Qed.

Lemma find_frame h m f :
  motion_ok m -> find_first (fun f => Nat.eqb (f_handle f) h) (frames m) = Some f ->
  animationFrameRef m = Some (f_handle f) /\ frames m = [f] /\ turn_ok (f_turn f).
Proof.
  intros Hm Hf. apply find_first_Some in Hf as [Hf _]. destruct Hm as [_ _ _ _ H _]. unfold one_frame in H.
  destruct (animationFrameRef m) as [k|]; [|rewrite H in Hf; by apply elem_of_nil in Hf].
  destruct H as (t & E & Ht). rewrite E in *. by apply list_elem_of_singleton in Hf as ->.
Qed.

Lemma tick_frames ts f m :
  frames m = [f] -> turn_ok (f_turn f) ->
  let v := tick ts f m in
  if q_lt (progress_of (f_turn f) ts) 1
  then frames v = [mkFrame (next_frame m) (f_turn f)] /\ animationFrameRef v = Some (next_frame m)
  else still v.
Proof.
  intros Hf Ht v. unfold v, tick, still. rewrite Hf. case_match; cbn; by rewrite Nat.eqb_refl.
Qed.

Lemma ok_tick ts f m : frames m = [f] -> turn_ok (f_turn f) -> motion_ok m -> motion_ok (tick ts f m).
Proof.
  intros Hf Ht Hm. pose proof (tick_frames ts f m Hf Ht) as Hv. cbn zeta in Hv.
  assert (Hr : in_range (rotation_at (f_turn f) (progress_of (f_turn f) ts)))
    by (apply rotation_at_in_range; [done|apply progress_bounds]).
  assert (Ho : one_frame (tick ts f m)).
  { destruct (q_lt _ _); [|by apply still_ok]. unfold one_frame. destruct Hv as [-> ->]. by exists (f_turn f). }
  destruct Hm. constructor; try done; unfold tick; by case_match.
Qed.

Lemma fires_inv' {P} (l : list (Timer P)) h callback m m' :
  fires l h callback m = Some m' ->
  exists t, find_timer h l = Some t /\ Forall (Z.le (t_due t)) (dues (show m)) /\ m' = callback t m.
Proof.
  unfold fires. intros H. destruct (find_timer h l) as [t|] eqn:E; simplify_eq/=.
  case_bool_decide; [|done]. simplify_eq. by exists t.
Qed.

Lemma handle_ok m e m' : motion_ok m -> handle m e = Some m' -> motion_ok m'.
Proof.
  intros Hm He. destruct e; simpl in He; try (injection He as <-).
  - by apply ok_activity.
  - by apply ok_down.
  - by apply ok_move.
  - by apply ok_pointer_up.
  - by apply ok_lost.
  - destruct (presets !! i) as [r|] eqn:E; [|done]. injection He as <-.
    apply ok_animate; [by eapply presets_in_range|by apply ok_activity].
  - unfold zoom_in. case_match; [done|by apply ok_zoom].
  - unfold zoom_out. case_match; [done|by apply ok_zoom].
  - by apply ok_asked.
  - by apply ok_clear, ok_lift.
  - by apply ok_start, ok_lift.
  - by apply ok_step_every, ok_next, ok_clear, ok_lift.
  - by apply ok_attacks.
  - by apply ok_scope.
  - by apply (ok_same m).
  - by apply ok_lift.
  - by destruct Hm.
  - by destruct Hm.
  - by apply (ok_same m).
  - case_match; [|done]. injection He as <-. by apply ok_lift.
  - apply fires_inv' in He as (t & _ & _ & ->). by apply ok_idle_fires.
  - apply fires_inv' in He as (t & _ & _ & ->). by apply ok_next, ok_lift.
  - apply fires_inv' in He as (t & _ & _ & ->). by apply ok_lift.
  - apply fires_inv' in He as (t & _ & _ & ->). by apply ok_frame_fires.
  - destruct (find_first _ _) as [f|] eqn:E; [|done]. injection He as <-.
    apply find_frame in E as (_ & Hf & Ht); [|done]. by apply ok_tick.
Qed.

Lemma initial_in_range : in_range initial.
Proof. split; split; by apply Qle_bool_iff. Qed.

Lemma mounted_ok next ps reduced : motion_ok (mounted next ps reduced).
Proof.
  apply ok_attacks. constructor; try apply initial_in_range; try done; split; by apply Qle_bool_iff.
Qed.

Lemma reachable_ok m : reachable m -> motion_ok m.
Proof. induction 1; [apply mounted_ok|by eapply handle_ok]. Qed.


(** C30: Whatever happens, and however late the browser renders: the globe keeps its poles
    upright (62 degrees at most) in what is on the screen, in what was set last and in
    what the component works with; at most one frame is asked for, and the component
    can cancel it, so that two turns never fight; the drag of the showcase is the one
    of the rotation; the zoom stays between 1 and 2.6.  The angles are exact rationals
    here, whose doubles may round over a bound by their last place. *)
Theorem globe_stays_upright m :
  reachable m ->
  in_range (rotation m) /\ in_range (queued m) /\ in_range (rotationRef m) /\
  (length (frames m) <= 1)%nat /\ still (cancelRotationAnimation m) /\
  (dragRef (show m) = None <-> drag m = None) /\ (1 <= zoom m <= 26 # 10)%Q.
Proof.
  intros H. apply reachable_ok in H. pose proof (cancel_still m H) as Hs. destruct H as [H1 H2 H3 H4 H5 H6].
  split_and!; try done; try apply H2; try apply H3; try apply H4; try apply H6.
  - unfold one_frame in H5. destruct (animationFrameRef m); [destruct H5 as (t & -> & _)|rewrite H5]; simpl; lia.
  - rewrite H1. by destruct (drag m).
Qed.

(** *** The showcase is the one of [Showcase] *)

(** What the showcase sees of an event. *)
Definition seen (e : Event) : option Showcase.Event :=
  match e with
  | MActivity | MPreset _ => Some EvActivity
  | MPointerDown b i p _ _ => if negb (b =? 0) || i then None else Some (EvPointerDown p)
  | MPointerMove p _ _ => Some (EvPointerMove p)
  | MPointerUp p => Some (EvPointerUp p)
  | MLostCapture p => Some (EvLostCapture p)
  | MFeature id _ _ => Some (EvFeature id)
  | MPause => Some EvPause
  | MResume => Some EvResume
  | MNext => Some EvNext
  | MAttacks next _ => Some (EvAttacks next)
  | MScope _ => Some EvScope
  | MSync => Some EvSync
  | MWait d => Some (EvWait d)
  | MIdle h => Some (EvIdle h)
  | MStep h => Some (EvStep h)
  | MMark h => Some (EvMark h)
  | MFrame h => Some (EvFrame h)
  | MZoomIn | MZoomOut | MLocations _ | MCommit | MRotationEffect | MMedia _ | MTick _ _ => None
  end.

Notation show_handle := (Showcase.handle localeCompare log2).

Definition simulated (m m' : Motion) (e : Event) : Prop :=
  match seen e with
  | None => show m' = show m
  | Some e' => show_handle (show m) e' = Some (show m')
  end.

Lemma show_lost p m :
  motion_ok m -> show (handlePointerLostCapture p m) = Showcase.handlePointerLostCapture p (show m).
Proof.
  intros [H _ _ _ _ _]. unfold handlePointerLostCapture, Showcase.handlePointerLostCapture. rewrite H. by case_match.
Qed.

Lemma show_move p cx cy m :
  motion_ok m -> show (handlePointerMove p cx cy m) = Showcase.handlePointerMove p (show m).
Proof.
  intros [H _ _ _ _ _]. unfold handlePointerMove, Showcase.handlePointerMove. rewrite H.
  destruct (drag m) as [d|]; simpl; [|done].
  destruct (Z.eqb_spec (pointerId d) p) as [->|Hne]; simpl.
  - rewrite bool_decide_true by done. apply show_activity.
  - rewrite bool_decide_false; [done|congruence].
Qed.

Lemma show_asked id a r m : show (handleFeatureAttack id a r m) = Showcase.handleFeatureAttack id (show m).
Proof.
  unfold GlobeMotion.handleFeatureAttack, Showcase.handleFeatureAttack. case_match; [done|].
  destruct (find_first _ _); [|done]. rewrite show_feature. by destruct r; cbn [show setRotation]; rewrite show_clear.
Qed.

Lemma show_idle_fires t m :
  motion_ok m -> show (idle_fires localeCompare log2 hypot project place t m) = Showcase.idle_fires localeCompare log2 t (show m).
Proof.
  intros [H _ _ _ _ _]. unfold idle_fires, Showcase.idle_fires. cbn [dragRef at_time with_now with_idles]. rewrite H.
  cbn [drag lift with_show]. destruct (drag m); cbn [fmap option_fmap option_map]; [by rewrite show_start|].
  by rewrite show_step_every, show_next.
Qed.

Lemma show_frame_fires t m :
  motion_ok m -> show (frame_fires hypot project place t m) = Showcase.frame_fires t (show m).
Proof.
  intros [H _ _ _ _ _]. unfold frame_fires, Showcase.frame_fires. destruct (t_closure t) as [id closure].
  cbn [show lift with_show drag dragRef featuredAttackIntervalRef with_freshFrameTimeoutRef at_time with_now with_frame_timers].
  rewrite H. assert (E : bool_decide (pointerId <$> drag m <> None) = bool_decide (drag m <> None))
    by (apply bool_decide_ext; by destruct (drag m)).
  rewrite E. case_match; [done|]. destruct (find_first _ _); [|done].
  rewrite show_step_every. cbn [show lift with_show]. by rewrite show_feature.
Qed.

Lemma fires_simulated {P} (l : list (Timer P)) h callback callback' m m' :
  (forall t, show (callback t m) = callback' t (show m)) ->
  fires l h callback m = Some m' -> Showcase.fires l h callback' (show m) = Some (show m').
Proof.
  intros Hc Hf. apply fires_inv' in Hf as (t & Ht & Hd & ->). unfold Showcase.fires. rewrite Ht. simpl.
  by rewrite bool_decide_true, Hc.
Qed.

Lemma handle_simulated m e m' : motion_ok m -> handle m e = Some m' -> simulated m m' e.
Proof.
  intros Hm He. unfold simulated.
  destruct e; cbn [GlobeMotion.handle seen Showcase.handle] in He |- *; try (injection He as <-); try done.
  - f_equal. symmetry. apply show_activity.
  - unfold handlePointerDown. destruct (negb (button =? 0) || interactive); [done|].
    cbn [Showcase.handle]. unfold Showcase.handlePointerDown. cbn [show with_drag lift with_show]. by rewrite show_activity.
  - f_equal. symmetry. by apply show_move.
  - f_equal. unfold handlePointerUp. rewrite show_lost by by apply ok_activity. by rewrite show_activity.
  - f_equal. symmetry. by apply show_lost.
  - destruct (presets !! i); [|done]. injection He as <-. unfold press_preset. by rewrite show_animate, show_activity.
  - unfold zoom_in. by case_match.
  - unfold zoom_out. by case_match.
  - f_equal. symmetry. apply show_asked.
  - unfold handlePauseFeaturedAttacks. by rewrite show_clear.
  - unfold handleResumeFeaturedAttacks. by rewrite show_start.
  - unfold handleFeatureNextAttack. by rewrite show_step_every, show_next, show_clear.
  - unfold onAttacks. rewrite show_close. cbn [show lift with_show]. rewrite show_start. cbn [show with_listener_props with_props lift with_show].
    by rewrite show_clear.
  - unfold onScope. rewrite show_start. cbn [show with_listener_props with_props]. by rewrite show_clear, (proj1 (clear_fields _ _)).
  - case_match; [|done]. by injection He as <-.
  - eapply fires_simulated; [|exact He]. intros t. by apply show_idle_fires.
  - eapply fires_simulated; [|exact He]. intros t. unfold step_fires. by rewrite show_next.
  - eapply fires_simulated; [|exact He]. done.
  - eapply fires_simulated; [|exact He]. intros t. by apply show_frame_fires.
  - destruct (find_first _ _); [|done]. injection He as <-. unfold tick. by case_match.
Qed.

(** C32: The showcase with the rotation is a refinement of the showcase without: every event
    does to it what the event that it sees does in [Showcase], or nothing, so that all
    that holds there holds here. *)
Theorem motion_refines_showcase :
  (forall m e m', reachable m -> handle m e = Some m' -> simulated m m' e) /\
  (forall m, reachable m -> Showcase.reachable localeCompare log2 (fun _ => True) (show m)).
Proof.
  assert (Hstep : forall m e m', reachable m -> handle m e = Some m' -> simulated m m' e)
    by (intros m e m' Hm; by apply handle_simulated, reachable_ok).
  split; [exact Hstep|]. intros m Hm. induction Hm as [next ps reduced|m e m' Hm IH He].
  - assert (E : show (mounted next ps reduced) = Showcase.mounted next); [|rewrite E; constructor].
    unfold mounted, onAttacks. rewrite show_close. cbn [show lift with_show]. rewrite show_start.
    cbn [show with_listener_props with_props lift with_show]. by rewrite show_clear.
  - pose proof (Hstep m e m' Hm He) as Hs. unfold simulated in Hs. destruct (seen e) as [e'|].
    + eapply Showcase.reach_event; [exact IH|exact I|exact Hs].
    + by rewrite Hs.
Qed.


(** *** Animated turns *)

(** The browser runs the pending frame at each of these times. *)
Definition run_frames (timestamps : list Q) (m : Motion) : Motion :=
  fold_left (fun m ts => match frames m with f :: _ => tick ts f m | [] => m end) timestamps m.

Lemma run_still timestamps m : still m -> run_frames timestamps m = m.
Proof. intros [Hf _]. induction timestamps as [|ts rest IH]; [done|]. simpl. by rewrite Hf. Qed.

(** A frame of a turn ends it or asks for the next one. *)
Lemma tick_turn ts h target from time m :
  let t := turn_to target from time in
  frames m = [mkFrame h t] -> turn_ok t ->
  let v := tick ts (mkFrame h t) m in
  if Qlt_le_dec ts (time + duration)
  then exists h', frames v = [mkFrame h' t]
  else still v /\ queued v = rotation_at t 1 /\ rotationRef v = queued v.
Proof.
  intros t Hf Ht v. pose proof (tick_frames ts (mkFrame h t) m Hf Ht) as H. cbn [f_turn] in H. fold v in H.
  destruct (Qlt_le_dec ts (time + duration)) as [Hlt|Hle].
  - assert (E : q_lt (progress_of t ts) 1 = true) by (apply q_lt_iff, progress_partial, Hlt).
    rewrite E in H. exists (next_frame m). apply H.
  - assert (E : progress_of t ts = 1%Q) by (apply progress_full, Hle).
    rewrite E in H. change (q_lt 1 1) with false in H. cbn iota in H.
    split; [done|]. unfold v, tick. cbn [f_turn]. rewrite E. by change (q_lt 1 1) with false.
Qed.

Lemma run_turn timestamps h target from time m :
  let t := turn_to target from time in
  frames m = [mkFrame h t] -> turn_ok t ->
  let v := run_frames timestamps m in
  (Exists (fun ts => time + duration <= ts)%Q timestamps ->
   still v /\ queued v = rotation_at t 1 /\ rotationRef v = queued v) /\
  (Forall (fun ts => ts < time + duration)%Q timestamps -> exists h', frames v = [mkFrame h' t]).
Proof.
  intros t Hf Ht. revert m h Hf. induction timestamps as [|ts rest IH]; intros m h Hf.
  - split; [intros H; inversion H|]. intros _. by exists h.
  - cbn [run_frames fold_left]. rewrite Hf. pose proof (tick_turn ts h target from time m Hf Ht) as Hv. fold t in Hv.
    destruct (Qlt_le_dec ts (time + duration)) as [Hlt|Hle].
    + destruct Hv as (h' & Hv). destruct (IH _ h' Hv) as [H1 H2]. split.
      * intros H. apply H1. inversion H as [? ? Hx|]; subst; [|done]. exact (match Qlt_not_le _ _ Hlt Hx with end).
      * intros H. inversion H; subst. by apply H2.
    + fold (run_frames rest (tick ts (mkFrame h t) m)). rewrite run_still by apply Hv. split; [done|].
      intros H. inversion H as [|? ? Hx]; subst. exact (match Qlt_not_le _ _ Hx Hle with end).
Qed.


(** An animated turn goes straight there: it takes the shorter way round (180 degrees
    at most), and what is left of it, the same part of both coordinates, never grows
    from one frame to the next. *)
Theorem turn_goes_straight target from time s s' :
  let t := turn_to target from time in
  let r := rotation_at t (progress_of t s) in
  exists part part' : Q,
    (-180 <= deltaLon t <= 180 /\ 0 <= part <= 1 /\
     lat target - lat r == deltaLat t * part /\
     (exists k : Z, lon target - lon r == deltaLon t * part + inject_Z k * 360) /\
     lat target - lat (rotation_at t (progress_of t s')) == deltaLat t * part' /\
     (s <= s' -> 0 <= part' <= part))%Q.
Proof.
  intros t r. exists (left_over (progress_of t s)), (left_over (progress_of t s')).
  assert (Hlat : forall p, (lat target - lat (rotation_at t p) == deltaLat t * left_over p)%Q)
    by (intros p; unfold rotation_at, t, turn_to, eased, left_over; cbn [lat start deltaLat]; ring).
  split_and!; try apply normalizeLongitude_bounds; try apply left_over_bounds, progress_bounds; try apply Hlat.
  - destruct (turn_lon target from time (progress_of t s)) as (k & Hk). exists (- k). unfold r, t in *.
    rewrite Hk, inject_Z_opp. ring.
  - intros Hs. split; [apply left_over_bounds, progress_bounds|].
    apply left_over_antitone; try apply progress_bounds. by apply progress_mono.
Qed.


(** *** A touch during a turn *)

Record same_activity (w v : Show) : Prop := {
  sa_last : lastActivityRef v = lastActivityRef w;
  sa_now : now w <= now v
}.

Lemma past_same w v : same_activity w v -> lastActivityRef w <= now w -> lastActivityRef v <= now v.
Proof. intros [-> H]. lia. Qed.

Lemma same_activity_trans u v w : same_activity u v -> same_activity v w -> same_activity u w.
Proof. intros [] []. constructor; congruence || lia. Qed.

Lemma clear_activity b w : same_activity w (Showcase.clearAutoRotationTimers b w).
Proof. unfold Showcase.clearAutoRotationTimers. by case_match. Qed.

Lemma start_activity closure w : same_activity w (Showcase.startAutoRotationFromIdle closure w).
Proof. unfold Showcase.startAutoRotationFromIdle, Showcase.clearAutoRotationTimers. by repeat case_match. Qed.

Lemma next_activity closure w : same_activity w (Showcase.featureNextAttack localeCompare log2 closure w).
Proof. unfold Showcase.featureNextAttack. by repeat case_match. Qed.

Lemma fresh_activity w : same_activity w (fresh_effect w).
Proof.
  assert (Hm : forall ids v, same_activity v (fold_left start_mark ids v)).
  { intros ids. induction ids as [|id ids IH]; intros v; [done|]. simpl.
    by eapply same_activity_trans; [|apply IH]. }
  unfold fresh_effect. case_match; [|done]. case_match; [|done].
  set (v := with_freshAttackIds _ _). set (ids := bfilter _ _).
  apply (same_activity_trans w (fold_left start_mark ids v)); [|done].
  apply (same_activity_trans w v); [done|apply Hm].
Qed.

Lemma touch_past w : lastActivityRef w <= now w -> lastActivityRef (Showcase.markUserActivity w) <= now (Showcase.markUserActivity w).
Proof.
  intros Hw. unfold Showcase.markUserActivity. case_match; [done|].
  eapply past_same; [apply start_activity|]. eapply past_same; [apply clear_activity|]. simpl. lia.
Qed.

Definition past (w : Show) : Prop := lastActivityRef w <= now w.

Lemma past_handle w e w' : show_handle w e = Some w' -> past w -> past w'.
Proof.
  unfold past. intros He Hw. pose proof (touch_past w Hw) as Ht.
  assert (Hat : forall t v, lastActivityRef v = lastActivityRef w -> now v = now w -> same_activity w (at_time t v))
    by (intros t v H1 H2; constructor; cbn; [done|lia]).
  destruct e; cbn [Showcase.handle] in He; try (injection He as <-).
  - done.
  - done.
  - unfold Showcase.handlePointerMove. by case_match.
  - unfold Showcase.handlePointerUp, Showcase.handlePointerLostCapture. by case_match.
  - unfold Showcase.handlePointerLostCapture. by case_match.
  - unfold Showcase.handleFeatureAttack. by repeat case_match.
  - by apply (past_same _ _ (clear_activity false (with_featuredAttackPausedRef true w))).
  - by apply (past_same _ _ (start_activity (attacks w) (with_featuredAttackPausedRef false w))).
  - unfold Showcase.handleFeatureNextAttack.
    set (c := Showcase.clearAutoRotationTimers false (with_featuredAttackPausedRef false w)).
    apply (past_same (Showcase.featureNextAttack localeCompare log2 (attacks w) c)); [done|].
    apply (past_same _ _ (next_activity (attacks w) c)).
    by apply (past_same _ _ (clear_activity false (with_featuredAttackPausedRef false w))).
  - unfold Showcase.onAttacks. apply (past_same _ _ (fresh_activity _)), (past_same _ _ (start_activity _ _)).
    by apply (past_same _ _ (clear_activity true w)).
  - unfold Showcase.onScope. apply (past_same _ _ (start_activity _ _)). by apply (past_same _ _ (clear_activity true w)).
  - done.
  - case_match; [|done]. injection He as <-. cbn. lia.
  - apply Showcase.fires_inv in He as (t & _ & _ & _ & ->). unfold Showcase.idle_fires.
    set (u := at_time _ _). assert (Hu : same_activity w u) by by apply Hat.
    destruct (dragRef u).
    + apply (past_same _ _ (start_activity _ _)). by apply (past_same _ _ Hu).
    + apply (past_same (Showcase.featureNextAttack localeCompare log2 (t_closure t) u)); [done|].
      apply (past_same _ _ (next_activity (t_closure t) u)). by apply (past_same _ _ Hu).
  - apply Showcase.fires_inv in He as (t & _ & _ & _ & ->). unfold Showcase.step_fires.
    apply (past_same _ _ (next_activity _ _)). apply (past_same (at_time (t_due t) w)); [done|].
    by apply (past_same w); [apply Hat|].
  - apply Showcase.fires_inv in He as (t & _ & _ & _ & ->). cbn. lia.
  - apply Showcase.fires_inv in He as (t & _ & _ & _ & ->). unfold Showcase.frame_fires.
    set (u := with_freshFrameTimeoutRef None _). assert (Hu : lastActivityRef u <= now u) by (cbn; lia).
    clearbody u. destruct (t_closure t). by repeat case_match.
Qed.

Lemma reachable_past m : reachable m -> past (show m).
Proof.
  intros Hm. apply motion_refines_showcase in Hm. induction Hm as [next|w e w' _ IH _ He].
  - unfold Showcase.mounted, Showcase.onAttacks, past.
    apply (past_same _ _ (fresh_activity _)), (past_same _ _ (start_activity _ _)). done.
  - by eapply past_handle.
Qed.

Lemma run_frames_show timestamps m : show (run_frames timestamps m) = show m.
Proof.
  revert m. induction timestamps as [|ts rest IH]; intros m; [done|].
  cbn [run_frames fold_left]. fold (run_frames rest). rewrite IH.
  destruct (frames m) as [|f fs]; [done|]. unfold tick. by case_match.
Qed.

Lemma run_frames_ok timestamps m : motion_ok m -> motion_ok (run_frames timestamps m).
Proof.
  revert m. induction timestamps as [|ts rest IH]; intros m Hm; [done|].
  cbn [run_frames fold_left]. apply IH. destruct (frames m) as [|f fs] eqn:E; [done|].
  pose proof Hm as [_ _ _ _ Ho _]. unfold one_frame in Ho.
  destruct (animationFrameRef m); [|congruence]. destruct Ho as (t & Ho & Ht).
  rewrite E in Ho. injection Ho as -> ->. by apply ok_tick.
Qed.

Lemma activity_queued m : queued (markUserActivity m) = queued m.
Proof.
  unfold markUserActivity, startAutoRotationFromIdle, clearAutoRotationTimers, close_over, cancelRotationAnimation.
  by repeat case_match.
Qed.

(** A press of a preset needs a quiet pointer: whatever the frames since, a movement of
    the mouse over the map (or any other touch) a quarter of a second later or more
    ends the turn where it is. *)
Theorem preset_turn_ends_at_touch m i m' timestamps delay :
  reachable m -> handle m (MPreset i) = Some m' -> 250 <= delay ->
  let u := lift (fun w => with_now (now w + delay) w) (run_frames timestamps m') in
  still (markUserActivity u) /\ queued (markUserActivity u) = queued u.
Proof.
  intros Hm He Hd u. split; [|apply activity_queued].
  assert (Hm' : motion_ok m') by (eapply handle_ok; [by apply reachable_ok|exact He]).
  assert (Hp : past (show m')) by by eapply reachable_past, reach_event.
  assert (Hu : motion_ok u) by by apply ok_lift, run_frames_ok.
  assert (Hs : show u = with_now (now (show m') + delay) (show m'))
    by (unfold u; cbn [show lift with_show]; by rewrite run_frames_show).
  assert (Hlate : 250 <= now (show u) - lastActivityRef (show u)) by (rewrite Hs; unfold past in Hp; cbn; lia).
  unfold markUserActivity. case_match eqn:E.
  - apply andb_true_iff in E as [_ E]. lia.
  - by apply start_still, ok_clear, ok_lift.
Qed.


(** The events one after the other. *)
Fixpoint run (es : list Event) (m : Motion) : option Motion :=
  match es with [] => Some m | e :: rest => m' ← handle m e; run rest m' end.

Lemma reach_run es m m' : reachable m -> run es m = Some m' -> reachable m'.
Proof.
  revert m. induction es as [|e es IH]; intros m Hm H; simpl in H; [by injection H as <-|].
  destruct (handle m e) as [v|] eqn:E; [|done]. eapply IH; [|exact H]. by eapply reach_event.
Qed.

(** A preset, and within a quarter of a second a drag. *)
Definition hasty_drag : list Event :=
  [MWait 300; MPreset 2; MWait 100; MPointerDown 0 false 1 200 200; MPointerMove 1 210 200].

(** A drag that begins within a quarter of a second of the press of a preset does not
    end the turn: a frame comes after the drag has set the rotation, and sets another. *)
Theorem turn_may_overrule_drag :
  exists m d m', reachable m /\ drag m = Some d /\ queued m = drag_rotation (startLat d) (startLon d) 10 0 /\
    handle m (MTick 0 500) = Some m' /\ drag m' = Some d /\ ~ (lon (queued m') == lon (queued m))%Q.
Proof.
  destruct (run hasty_drag (mounted [] (mkMapProps None []) false)) as [m|] eqn:E; [|vm_compute in E; discriminate E].
  pose proof (reach_run _ _ _ (reach_mount _ _ _ _ _ [] (mkMapProps None []) false) E) as Hm.
  destruct (handle m (MTick 0 500)) as [m'|] eqn:E'.
  - exists m, (mkDragState 1 (-6) 34 200 200), m'. split; [exact Hm|]. clear Hm.
    vm_compute in E. injection E as <-. vm_compute in E'. injection E' as <-.
    split_and!; try (vm_compute; reflexivity). vm_compute. discriminate.
  - exfalso. vm_compute in E. injection E as <-. vm_compute in E'. discriminate E'.
Qed.

End Facts.

(** ** Witnesses *)

Definition sample_place (l : Landmark) : GeoPoint := mkGeoPoint 0 0.

Notation sample_motion := (mounted sample_attacks (mkMapProps None []) false).
Notation sample_reachable :=
  (reachable code_unit_compare sample_log2 (fun a _ => a) flat sample_place).
Notation sample_handle := (handle code_unit_compare sample_log2 (fun a _ => a) flat sample_place).

Lemma sample_motion_reachable : sample_reachable sample_motion.
Proof. constructor. Qed.

Lemma globe_stays_upright_witness :
  length (frames sample_motion) = 0%nat /\ in_range (rotationRef sample_motion).
Proof.
  split; [reflexivity|].
  destruct (globe_stays_upright code_unit_compare sample_log2 (fun a _ => a) flat sample_place
    sample_motion sample_motion_reachable) as (_ & _ & H & _). exact H.
Defined.


(** The mouse moves 300 milliseconds after the press: the globe stops a third of the way
    to Asia. *)
Lemma preset_turn_ends_at_touch_witness :
  exists m', sample_handle sample_motion (MPreset 2) = Some m' /\
    still (markUserActivity (lift (fun w => with_now (now w + 300) w) (run_frames [100; 200; 290]%Q m'))).
Proof.
  destruct (sample_handle sample_motion (MPreset 2)) as [m'|] eqn:E; [|vm_compute in E; discriminate E].
  exists m'. split; [reflexivity|].
  destruct (preset_turn_ends_at_touch code_unit_compare sample_log2 (fun a _ => a) flat sample_place
    sample_motion 2 m' [100; 200; 290]%Q 300 sample_motion_reachable E) as (H & _); [lia|exact H].
Defined.

Lemma motion_refines_showcase_witness :
  Showcase.reachable code_unit_compare sample_log2 (fun _ => True) (show sample_motion).
Proof.
  destruct (motion_refines_showcase code_unit_compare sample_log2 (fun a _ => a) flat sample_place) as (_ & H).
  apply H. exact sample_motion_reachable.
Defined.
