(* ===== verification/GlobeKeyboard.v ===== *)
(** * The globe without a pointer ([components/ui/cyber-attack-map.tsx])

    The routes and the teams of the globe are buttons.  With few of them each is a stop
    of the Tab key; with more, two lists to jump from take their place, except in a
    presentation.  What a press, a key or a choice tells the page is a list of calls. *)

From Stdlib Require Import QArith.
From S2P Require Import Prelude JsString JsNumber Ranking AttackMapPanel AttackMap GlobeView.

#[local] Open Scope string_scope.
#[local] Open Scope Z_scope.
#[local] Open Scope list_scope.
#[local] Open Scope js_scope.

Definition DEFAULT_LABEL_LIMIT : nat := 10.
Definition DENSE_KEYBOARD_ITEM_LIMIT : nat := 28.
Definition PACKET_ANIMATION_ROUTE_LIMIT : nat := 80.

Definition hasFocus (f : Focus) : bool :=
  bool_decide (selectedAttackId f <> None) || bool_decide (selectedTeamId f <> None) ||
  bool_decide (featuredAttackId f <> None) || bool_decide (highlightedAttackIDs f <> []) ||
  bool_decide (focusedTeams f <> []).

Definition showDefaultLabels (f : Focus) (nodes : list TeamNode) : bool :=
  negb (hasFocus f) && (0 <? length nodes)%nat && (length nodes <=? DEFAULT_LABEL_LIMIT)%nat.

Definition denseKeyboardMode (arcs : list AttackArc) (nodes : list TeamNode) : bool :=
  (DENSE_KEYBOARD_ITEM_LIMIT <? length arcs + length nodes)%nat.

Definition motionEnabled (attacks : list AttackMapEvent) (arcs : list AttackArc) : bool :=
  (length attacks <=? 160)%nat && (length arcs <=? PACKET_ANIMATION_ROUTE_LIMIT)%nat.

(** Whether a node's name is drawn. *)
Definition label_shown (f : Focus) (nodes : list TeamNode) (hoveredTeamId : option string)
    (featuredAttack : option AttackMapEvent) (node : TeamNode) : bool :=
  showDefaultLabels f nodes || shouldShowTeamLabel node hoveredTeamId (focusedTeams f) || isFeaturedTeam node featuredAttack.

(** ** Calls of the page *)

Inductive Call := SelectAttack (id : option string) | SelectTeam (id : option string).

(** The press of a route; [arc.attackIds[0]]. *)
Definition press_route (arc : AttackArc) : list Call :=
  [SelectAttack (if arc_selected arc then None else list.head (ar_attackIds (arc_route arc)))].

Definition press_team (node : TeamNode) : list Call :=
  [SelectTeam (if selected node then None else Some (node_id node))].

(** [activateSvgButton]. *)
Definition activateSvgButton (key : string) (action : list Call) : list Call := if activates key then action else [].

(** The choice of an option. *)
Definition jump_to_team (value : string) : list Call :=
  SelectTeam (if is_empty value then None else Some value) :: (if is_empty value then [] else [SelectAttack None]).

Definition jump_to_route (value : string) : list Call :=
  SelectAttack (if is_empty value then None else Some value) :: (if is_empty value then [] else [SelectTeam None]).

(** ** What the keyboard reaches *)

(** The stops of the Tab key: routes and teams that are in sight. *)
Definition route_stops (arcs : list AttackArc) (nodes : list TeamNode) : list AttackArc :=
  if denseKeyboardMode arcs nodes then [] else bfilter arc_visible arcs.

Definition team_stops (arcs : list AttackArc) (nodes : list TeamNode) : list TeamNode :=
  if denseKeyboardMode arcs nodes then [] else bfilter node_visible nodes.

(** The options of the lists, the empty one first: the teams in the order of their names,
    and the first attacks of the routes. *)
Definition jump_lists (localeCompare : string -> string -> Z) (presentation : bool) (arcs : list AttackArc)
    (nodes : list TeamNode) : option (list string * list (option string)) :=
  if presentation || negb (denseKeyboardMode arcs nodes) then None
  else Some ("" :: (node_id <$> js_sort (fun a b => localeCompare (node_name a) (node_name b)) nodes),
             Some "" :: ((fun arc => list.head (ar_attackIds (arc_route arc))) <$> arcs)).

(** The calls that a user without a pointer can bring about. *)
Inductive keyboard (localeCompare : string -> string -> Z) (presentation : bool) (arcs : list AttackArc)
    (nodes : list TeamNode) : list Call -> Prop :=
| key_route arc : arc ∈ route_stops arcs nodes ->
    keyboard localeCompare presentation arcs nodes (activateSvgButton "Enter" (press_route arc))
| key_team node : node ∈ team_stops arcs nodes ->
    keyboard localeCompare presentation arcs nodes (activateSvgButton "Enter" (press_team node))
| key_jump_team teams routes value : jump_lists localeCompare presentation arcs nodes = Some (teams, routes) ->
    value ∈ teams -> keyboard localeCompare presentation arcs nodes (jump_to_team value)
| key_jump_route teams routes value : jump_lists localeCompare presentation arcs nodes = Some (teams, routes) ->
    Some value ∈ routes -> keyboard localeCompare presentation arcs nodes (jump_to_route value).

(** ** What holds *)

Section Reach.
Context (localeCompare : string -> string -> Z) (arcs : list AttackArc) (nodes : list TeamNode).

Lemma lists_when_dense :
  denseKeyboardMode arcs nodes = true ->
  exists teams routes, jump_lists localeCompare false arcs nodes = Some (teams, routes) /\
    (forall node, node ∈ nodes -> node_id node ∈ teams) /\ "" ∈ teams /\ Some "" ∈ routes /\
    (forall arc, arc ∈ arcs -> list.head (ar_attackIds (arc_route arc)) ∈ routes).
Proof.
  intros Hd. unfold jump_lists. rewrite Hd. do 2 eexists. split; [reflexivity|]. split_and!.
  - intros node Hn. apply list_elem_of_further, list_elem_of_fmap. exists node. by rewrite js_sort_perm.
  - apply list_elem_of_here.
  - apply list_elem_of_here.
  - intros arc Ha. apply list_elem_of_further, list_elem_of_fmap. by exists arc.
Qed.

Lemma press_key action : activateSvgButton "Enter" action = action /\ activateSvgButton " " action = action.
Proof. done. Qed.

Lemma jump_selects value :
  is_empty value = false ->
  SelectTeam (Some value) ∈ jump_to_team value /\ SelectAttack (Some value) ∈ jump_to_route value.
Proof. intros H. unfold jump_to_team, jump_to_route. rewrite H. split; apply list_elem_of_here. Qed.

(** Outside a presentation, everything in sight is within reach of the keyboard,
    however many routes and teams the globe shows: a team that is not selected can be
    selected, and so can a route, by a stop of the Tab key or from a list. *)
Theorem keyboard_reaches_what_is_seen :
  (forall node, node ∈ nodes -> node_visible node = true -> selected node = false -> is_empty (node_id node) = false ->
     exists calls, keyboard localeCompare false arcs nodes calls /\ SelectTeam (Some (node_id node)) ∈ calls) /\
  (forall arc id, arc ∈ arcs -> arc_visible arc = true -> arc_selected arc = false ->
     list.head (ar_attackIds (arc_route arc)) = Some id -> is_empty id = false ->
     exists calls, keyboard localeCompare false arcs nodes calls /\ SelectAttack (Some id) ∈ calls).
Proof.
  destruct (denseKeyboardMode arcs nodes) eqn:Hd.
  - destruct (lists_when_dense Hd) as (teams & routes & E & Ht & _ & _ & Hr). split.
    + intros node Hn _ _ Hid. exists (jump_to_team (node_id node)). split; [|by apply jump_selects].
      eapply key_jump_team; [exact E|by apply Ht].
    + intros arc id Ha _ _ Hid Hne. exists (jump_to_route id). split; [|by apply jump_selects].
      eapply key_jump_route; [exact E|]. rewrite <- Hid. by apply Hr.
  - split.
    + intros node Hn Hv Hs _. exists (press_team node). split; [|unfold press_team; rewrite Hs; apply list_elem_of_here].
      rewrite <- (proj1 (press_key (press_team node))). apply key_team. unfold team_stops. rewrite Hd. by apply elem_of_bfilter.
    + intros arc id Ha Hv Hs Hid _. exists (press_route arc).
      split; [|unfold press_route; rewrite Hs, Hid; apply list_elem_of_here].
      rewrite <- (proj1 (press_key (press_route arc))). apply key_route. unfold route_stops. rewrite Hd. by apply elem_of_bfilter.
Qed.

(** In a presentation with more than 28 routes and teams the keyboard reaches none of
    them, though the text of the globe for screen readers says that they can be focused. *)
Theorem crowded_presentation_has_no_keyboard calls :
  denseKeyboardMode arcs nodes = true -> ~ keyboard localeCompare true arcs nodes calls.
Proof.
  intros Hd Hk. destruct Hk as [arc H|node H|teams routes value H|teams routes value H]; [| |done|done].
  - unfold route_stops in H. rewrite Hd in H. by apply elem_of_nil in H.
  - unfold team_stops in H. rewrite Hd in H. by apply elem_of_nil in H.
Qed.
End Reach.
