(* ===== verification/AttackSfx.v ===== *)
(** * The sounds of attacks ([components/hooks/use-attack-sfx.ts])

    Whether and how loud attacks sound is kept in the local storage, which may refuse;
    three hooks of a page follow it: the controls ([useAttackSfxPreferences]), the test
    ([useAttackSfxPreview]) and the player ([useAttackSfx]), which is throttled.  What
    a blip sounds like is left to the browser: the arguments of [playAttackBlip] are
    the model's output.

    The clock of the page counts microseconds. *)

From S2P Require Import Prelude JsString JsNumber DashboardTypes Ranking AttackMap.

#[local] Open Scope string_scope.
#[local] Open Scope Z_scope.
#[local] Open Scope list_scope.
#[local] Open Scope js_scope.

Definition ATTACK_SFX_THROTTLE_MS : Z := 700.
Definition ATTACK_SFX_MAX_BLIPS : Z := 3.
Definition ATTACK_SFX_ENABLED_KEY : string := "ad-platform-attack-sfx-enabled".
Definition ATTACK_SFX_VOLUME_KEY : string := "ad-platform-attack-sfx-volume".
Definition ATTACK_SFX_DEFAULT_VOLUME : num := js_number "0.75".

Record AttackSfxPreferences := mkPreferences { enabled : bool; volume : num }.

Definition SERVER_DEFAULT_PREFERENCES : AttackSfxPreferences :=
  mkPreferences true ATTACK_SFX_DEFAULT_VOLUME.

(** The local storage, whether it can be read and written, and whether the system asks
    for reduced motion. *)
Record Browser := mkBrowser {
  local_storage : list (string * string);
  storage_reads : bool;
  storage_writes : bool;
  reduced_motion : bool
}.

(** ** Reading and writing *)

Definition readStoredValue (key : string) (b : Browser) : option string :=
  if storage_reads b then map_get (local_storage b) key else None.

Definition clampVolume (volume : num) : num := clamp_unit volume.

Definition is_finite (x : num) : bool := match x with Finite _ _ => true | _ => false end.

Definition readAttackSfxPreferences (b : Browser) : AttackSfxPreferences :=
  let volume := match readStoredValue ATTACK_SFX_VOLUME_KEY b with Some v => js_number v | None => NaN end in
  mkPreferences
    (match readStoredValue ATTACK_SFX_ENABLED_KEY b with
     | None => negb (reduced_motion b)
     | Some v => String.eqb v "on" || String.eqb v "true"
     end)
    (if is_finite volume then clampVolume volume else ATTACK_SFX_DEFAULT_VOLUME).

Section Preferences.
(** [String(n)] of a number that may not be an integer. *)
Variable number_text : num -> string.

Definition store (key value : string) (b : Browser) : Browser :=
  if storage_writes b
  then mkBrowser (map_set (local_storage b) key value) (storage_reads b) (storage_writes b) (reduced_motion b)
  else b.

(** The storage that is left; the event is dispatched in any case. *)
Definition writeAttackSfxPreferences (new_enabled : option bool) (new_volume : option num) (b : Browser)
    : Browser :=
  let b := match new_enabled with
           | Some on => store ATTACK_SFX_ENABLED_KEY (if on then "on" else "off") b
           | None => b
           end in
  match new_volume with
  | Some v => store ATTACK_SFX_VOLUME_KEY (number_text (clampVolume v)) b
  | None => b
  end.

(** ** The hooks of a page *)

Record Tab := mkTab {
  browser : Browser;
  preferences : AttackSfxPreferences;
  player_ref : AttackSfxPreferences;
  preview_ref : AttackSfxPreferences
}.

(** The first render, then the effects of the mount. *)
Definition rendered (b : Browser) : Tab :=
  mkTab b SERVER_DEFAULT_PREFERENCES (readAttackSfxPreferences b) (readAttackSfxPreferences b).

(** [syncPreferences] of the three hooks; the preview does not listen to the media
    query. *)
Definition sync_all (b : Browser) : Tab :=
  let p := readAttackSfxPreferences b in mkTab b p p p.

Definition sync_motion (b : Browser) (t : Tab) : Tab :=
  let p := readAttackSfxPreferences b in mkTab b p p (preview_ref t).

Inductive PreferenceEvent :=
| SetEnabled (on : bool)
| SetVolume (v : num)
| ToggleEnabled
| OtherTab (storage : list (string * string))
| MotionChange (reduced : bool).

Definition on_event (e : PreferenceEvent) (t : Tab) : Tab :=
  let b := browser t in
  match e with
  | SetEnabled on => sync_all (writeAttackSfxPreferences (Some on) None b)
  | SetVolume v => sync_all (writeAttackSfxPreferences None (Some v) b)
  | ToggleEnabled =>
      sync_all (writeAttackSfxPreferences (Some (negb (enabled (readAttackSfxPreferences b)))) None b)
  | OtherTab storage => sync_all (mkBrowser storage (storage_reads b) (storage_writes b) (reduced_motion b))
  | MotionChange reduced =>
      sync_motion (mkBrowser (local_storage b) (storage_reads b) (storage_writes b) reduced) t
  end.

Definition on_events (es : list PreferenceEvent) (t : Tab) : Tab := fold_left (fun t e => on_event e t) es t.
End Preferences.

(** ** The player *)

Inductive ContextState := Running | Suspended | Closed.

#[export] Instance ContextState_eq_dec : EqDecision ContextState.
Proof. solve_decision. Defined.

(** The references of [useAttackSfx]. *)
Record Player := mkPlayer {
  armed : bool;
  audio_context : option ContextState;
  last_played_at : Z
}.

Definition new_player : Player := mkPlayer false None 0.

(** What [new AudioContext()] gives: nothing when the browser has none or refuses. *)
Definition getOrCreateAudioContext (fresh : option ContextState) (current : option ContextState)
    : option ContextState :=
  match current with Some c => Some c | None => fresh end.

(** A pointer or a key: the context is made, and resumed when it is suspended. *)
Definition armAudio (fresh : option ContextState) (resumes : bool) (p : Player) : Player :=
  let context := getOrCreateAudioContext fresh (audio_context p) in
  mkPlayer true
    (if bool_decide (context = Some Suspended) && resumes then Some Running else context)
    (last_played_at p).

(** A call of [playAttackBlip]: its start, its index, its volume. *)
Record Blip := mkBlip { blip_start : num; blip_index : Z; blip_volume : num }.

Definition audible (p : AttackSfxPreferences) : bool := enabled p && negb (num_leb_Z (volume p) 0).

Definition blips (currentTime : num) (volume : num) (count : Z) : list Blip :=
  let startTime := num_add currentTime (js_number "0.015") in
  (fun index => mkBlip (num_add startTime (num_mul (num_of_Z index) (js_number "0.072"))) index volume)
    <$> seqZ 0 count.

(** The function the hook returns, at [now], with the preferences of the reference. *)
Definition playAttackSfx (fresh : option ContextState) (currentTime : num) (now : Z)
    (preferences : AttackSfxPreferences) (attackIds : list string) (p : Player) : Player * list Blip :=
  if bool_decide (attackIds = []) || negb (armed p) then (p, [])
  else if negb (audible preferences) then (p, [])
  else if now - last_played_at p <? ATTACK_SFX_THROTTLE_MS * 1000 then (p, [])
  else
    let context := getOrCreateAudioContext fresh (audio_context p) in
    let p' := mkPlayer (armed p) context now in
    match context with
    | None | Some Closed => (p', [])
    | Some _ =>
        (p', blips currentTime (volume preferences)
               (Z.min (Z.of_nat (length attackIds)) ATTACK_SFX_MAX_BLIPS))
    end.

(** The test: three blips, whatever was played before. *)
Definition preview (fresh current : option ContextState) (currentTime : num)
    (preferences : AttackSfxPreferences) : list Blip :=
  if negb (audible preferences) then []
  else match getOrCreateAudioContext fresh current with
       | None | Some Closed => []
       | Some _ =>
           let startTime := num_add currentTime (js_number "0.015") in
           let v := volume preferences in
           [mkBlip startTime 0 v;
            mkBlip (num_add startTime (js_number "0.09")) 1 (num_mul v (js_number "0.85"));
            mkBlip (num_add startTime (js_number "0.18")) 2 (num_mul v (js_number "0.7"))]
       end.

(** A history of the player: gestures and new attacks, with what the browser and the
    preferences were at each of them. *)
Inductive PlayerEvent :=
| Gesture (fresh : option ContextState) (resumes : bool)
| NewAttacks (fresh : option ContextState) (currentTime : num) (now : Z)
    (preferences : AttackSfxPreferences) (attackIds : list string).

(** The bursts that sounded: their time and their blips. *)
Fixpoint bursts (es : list PlayerEvent) (p : Player) : list (Z * list Blip) :=
  match es with
  | [] => []
  | Gesture fresh resumes :: es => bursts es (armAudio fresh resumes p)
  | NewAttacks fresh currentTime now preferences ids :: es =>
      let '(p', played) := playAttackSfx fresh currentTime now preferences ids p in
      (if bool_decide (length played = 0%nat) then [] else [(now, played)]) ++ bursts es p'
  end.

(** ** What holds *)

Section Facts.
Variable number_text : num -> string.

Notation after_event := (on_event number_text).
Notation after_events := (on_events number_text).

(** The controls and the player show what the storage holds; so does the test, up to
    what the system asks for. *)
Definition followed (t : Tab) : Prop :=
  preferences t = readAttackSfxPreferences (browser t) /\
  player_ref t = readAttackSfxPreferences (browser t) /\
  exists reduced, preview_ref t =
    readAttackSfxPreferences (mkBrowser (local_storage (browser t)) (storage_reads (browser t))
                                (storage_writes (browser t)) reduced).

Lemma sync_all_followed b : followed (sync_all b).
Proof. split_and!; [done|done|]. exists (reduced_motion b). by destruct b. Qed.

Lemma on_event_followed e t : followed t -> followed (after_event e t).
Proof.
  destruct e; try (intros _; apply sync_all_followed). intros (H1 & H2 & H3). by split_and!.
Qed.

Lemma on_events_app es es' t : after_events (es ++ es') t = after_events es' (after_events es t).
Proof. unfold on_events. by rewrite fold_left_app. Qed.

Lemma write_flags on v b :
  storage_reads (writeAttackSfxPreferences number_text on v b) = storage_reads b /\
  storage_writes (writeAttackSfxPreferences number_text on v b) = storage_writes b /\
  reduced_motion (writeAttackSfxPreferences number_text on v b) = reduced_motion b.
Proof.
  unfold writeAttackSfxPreferences, store.
  destruct on, v, b as [stored reads [] motion]; by split_and!.
Qed.

Lemma clampVolume_bounds v : num_leb_Z (clampVolume v) 1 = true \/ v = NaN.
Proof.
  destruct v as [|neg|m e]; [by right|left; by destruct neg|left]. unfold clampVolume, clamp_unit.
  destruct (num_compare_Z (Finite m e) 0) as [[| |]|] eqn:E0;
    destruct (num_compare_Z (Finite m e) 1) as [[| |]|] eqn:E1; try done;
    unfold num_leb_Z; by rewrite E1.
Qed.

(** The three hooks of a page follow one choice: after any changes, of this page, of
    others and of the system, the controls show and the player uses exactly what is
    stored, the volume is never above one, and the test differs at most by the system's
    wish for less motion. *)
Theorem sfx_hooks_follow_storage es b :
  let t := after_events es (sync_all b) in
  followed t /\ num_leb_Z (volume (preferences t)) 1 = true /\
  (Forall (fun e => match e with MotionChange _ => False | _ => True end) es ->
   preview_ref t = preferences t).
Proof.
  intros t.
  assert (Hf : followed t).
  { unfold t, on_events. generalize (sync_all_followed b). generalize (sync_all b).
    induction es as [|e es IH]; intros u Hu; [done|]. cbn [fold_left]. by apply IH, on_event_followed. }
  split_and!; [done| |].
  - destruct Hf as (-> & _). unfold readAttackSfxPreferences. cbn [volume].
    destruct (match readStoredValue _ _ with Some v => js_number v | None => NaN end) as [|neg|m e] eqn:E; [done|done|].
    cbn [is_finite]. by destruct (clampVolume_bounds (Finite m e)).
  - intros Hall. unfold t, on_events. clear t Hf.
    assert (Hb : preview_ref (sync_all b) = preferences (sync_all b)) by done. revert Hb.
    generalize (sync_all b). induction Hall as [|e es He _ IH]; intros u Hu; [done|].
    cbn [fold_left]. apply IH. by destruct e.
Qed.
Lemma clampVolume_idem v : clampVolume (clampVolume v) = clampVolume v.
Proof.
  unfold clampVolume, clamp_unit.
  destruct (num_compare_Z v 0) as [[| |]|] eqn:E0, (num_compare_Z v 1) as [[| |]|] eqn:E1;
    try done; by rewrite E0, E1.
Qed.

(** What a stored choice reads as. *)
Lemma read_choice on v b :
  storage_reads b = true ->
  map_get (local_storage b) ATTACK_SFX_ENABLED_KEY = Some (if on : bool then "on" else "off") ->
  map_get (local_storage b) ATTACK_SFX_VOLUME_KEY = Some (number_text (clampVolume v)) ->
  is_finite (clampVolume v) = true -> js_number (number_text (clampVolume v)) = clampVolume v ->
  readAttackSfxPreferences b = mkPreferences on (clampVolume v).
Proof.
  intros Hr He Hv Hf Hn. unfold readAttackSfxPreferences, readStoredValue.
  rewrite Hr, He, Hv, Hn, Hf, clampVolume_idem. by destruct on.
Qed.

(** A choice lasts: where the storage works, switching the sounds on or off and then
    setting their volume is what the three hooks of the page use, brought between zero
    and one, whatever the system then asks for, and what a page opened later starts
    with.  That a number is read back from its text is the language's. *)
Theorem sfx_choice_lasts on v motions b :
  storage_reads b = true -> storage_writes b = true ->
  is_finite (clampVolume v) = true -> js_number (number_text (clampVolume v)) = clampVolume v ->
  let t := after_events (SetEnabled on :: SetVolume v :: (MotionChange <$> motions)) (sync_all b) in
  let chosen := mkPreferences on (clampVolume v) in
  preferences t = chosen /\ player_ref t = chosen /\ preview_ref t = chosen /\
  player_ref (rendered (browser t)) = chosen.
Proof.
  intros Hr Hw Hf Hn t chosen.
  set (u := on_event number_text (SetVolume v) (on_event number_text (SetEnabled on) (sync_all b))).
  set (kept := fun b' => storage_reads b' = true /\
     map_get (local_storage b') ATTACK_SFX_ENABLED_KEY = Some (if on : bool then "on" else "off") /\
     map_get (local_storage b') ATTACK_SFX_VOLUME_KEY = Some (number_text (clampVolume v))).
  assert (Hread : forall b', kept b' -> readAttackSfxPreferences b' = chosen)
    by (intros b' (H1 & H2 & H3); by apply read_choice).
  assert (Hk : kept (browser u)).
  { unfold u, kept. cbn -[map_get map_set]. unfold store. rewrite Hw. cbn -[map_get map_set].
    rewrite !map_get_set. by split_and!. }
  assert (Ht : kept (browser t) /\ preferences t = chosen /\ player_ref t = chosen /\ preview_ref t = chosen).
  { change t with (after_events (MotionChange <$> motions) u).
    assert (Hu : kept (browser u) /\ preferences u = chosen /\ player_ref u = chosen /\ preview_ref u = chosen)
      by (split_and!; [done|by apply Hread..]).
    clear Hk. revert Hu. unfold on_events. clearbody u. clear t. revert u.
    induction motions as [|m motions IH]; intros u Hu; [done|]. cbn [fmap list_fmap fold_left]. apply IH.
    destruct Hu as (Hk & _ & _ & Hp). cbn. split_and!; [done|by apply Hread..|done]. }
  destruct Ht as (H1 & H2 & H3 & H4). split_and!; [done..|]. by apply Hread.
Qed.

(** Where the storage refuses to be written, the controls do nothing: no click on the
    mute button and no move of the slider changes what is shown or what sounds. *)
Theorem refused_storage_cannot_mute es b :
  storage_writes b = false ->
  Forall (fun e => match e with SetEnabled _ | SetVolume _ | ToggleEnabled => True | _ => False end) es ->
  after_events es (sync_all b) = sync_all b.
Proof.
  intros Hw Hall. unfold on_events. induction Hall as [|e es He _ IH]; [done|]. cbn [fold_left].
  assert (Hkeep : forall on v, writeAttackSfxPreferences number_text on v b = b)
    by (intros [on|] [v|]; unfold writeAttackSfxPreferences, store; by rewrite ?Hw).
  destruct e; try done; cbn [on_event]; change (browser (sync_all b)) with b; rewrite Hkeep; exact IH.
Qed.
End Facts.

(** A text for the positions of the slider that the examples use. *)
Definition sample_text (x : num) : string := if num_eqb x (num_of_Z 1) then "1" else "0".

Lemma sfx_choice_lasts_witness :
  let b := mkBrowser [] true true false in
  preferences (on_events sample_text [SetEnabled false; SetVolume (num_of_Z 3); MotionChange true] (sync_all b)) =
  mkPreferences false (num_of_Z 1).
Proof.
  intros b.
  exact (proj1 (sfx_choice_lasts sample_text false (num_of_Z 3) [true] b eq_refl eq_refl eq_refl eq_refl)).
Defined.

Lemma refused_storage_cannot_mute_witness :
  let b := mkBrowser [] true false false in
  enabled (player_ref (on_events sample_text [ToggleEnabled] (sync_all b))) = true.
Proof.
  intros b. rewrite (refused_storage_cannot_mute sample_text [ToggleEnabled] b eq_refl); [reflexivity|].
  repeat constructor.
Defined.

(** The test button does not hear of a change of the system's preference: on a page
    that was opened while the system asked for less motion, once it no longer does, the
    controls offer the test and new attacks sound, but the test is silent. *)
Theorem preview_misses_motion_change number_text stored writes currentTime :
  map_get stored ATTACK_SFX_ENABLED_KEY = None -> map_get stored ATTACK_SFX_VOLUME_KEY = None ->
  let t := on_events number_text [MotionChange false] (sync_all (mkBrowser stored true writes true)) in
  audible (preferences t) = true /\ audible (player_ref t) = true /\
  preview (Some Running) None currentTime (preview_ref t) = [].
Proof.
  intros He Hv t. unfold t, on_events. cbn [fold_left on_event sync_all sync_motion].
  cbn -[map_get]. unfold readAttackSfxPreferences, readStoredValue. cbn -[map_get].
  rewrite He, Hv. by split_and!.
Qed.

Lemma preview_misses_motion_change_witness :
  let t := on_events sample_text [MotionChange false] (sync_all (mkBrowser [] true true true)) in
  audible (preferences t) = true /\ preview (Some Running) None (num_of_Z 0) (preview_ref t) = [].
Proof.
  intros t.
  destruct (preview_misses_motion_change sample_text [] true (num_of_Z 0) eq_refl eq_refl) as (H1 & _ & H2).
  split; assumption.
Defined.

(** A burst starts when the throttle has run out, and starts it again. *)
Lemma play_spec fresh currentTime now preferences ids p :
  let r := playAttackSfx fresh currentTime now preferences ids p in
  last_played_at r.1 = last_played_at p /\ r.2 = [] \/
  last_played_at r.1 = now /\ last_played_at p + ATTACK_SFX_THROTTLE_MS * 1000 <= now /\
  (r.2 = [] \/
   r.2 = blips currentTime (volume preferences) (Z.min (Z.of_nat (length ids)) ATTACK_SFX_MAX_BLIPS) /\
   ids <> []).
Proof.
  unfold playAttackSfx. destruct (bool_decide_reflect (ids = [])) as [->|Hne]; [by left|].
  destruct (armed p); cbn [negb orb]; [|by left].
  destruct (audible preferences); cbn [negb]; [|by left].
  destruct (Z.ltb_spec (now - last_played_at p) (ATTACK_SFX_THROTTLE_MS * 1000)); [by left|right].
  destruct (getOrCreateAudioContext _ _) as [[| |]|]; cbn [fst snd last_played_at]; split_and!;
    try done; try lia; try (by left); right; by split.
Qed.

Lemma bursts_after es p :
  Forall (fun b => last_played_at p + ATTACK_SFX_THROTTLE_MS * 1000 <= b.1) (bursts es p).
Proof.
  revert p. induction es as [|[fresh resumes|fresh currentTime now preferences ids] es IH]; intros p;
    cbn [bursts]; [constructor|exact (IH (armAudio fresh resumes p))|].
  pose proof (play_spec fresh currentTime now preferences ids p) as Hp.
  destruct (playAttackSfx _ _ _ _ _ _) as [p' sound]. cbn [fst snd] in Hp. specialize (IH p').
  apply list.Forall_app. destruct Hp as [[Hl ->]|(Hl & Hn & _)].
  - rewrite Hl in IH. by split; [constructor|].
  - rewrite Hl in IH. split; [by case_match; repeat constructor|].
    eapply list.Forall_impl; [exact IH|]. cbn. unfold ATTACK_SFX_THROTTLE_MS in *. intros b Hb. lia.
Qed.

Lemma bursts_sorted es p :
  StronglySorted (fun a b => a.1 + ATTACK_SFX_THROTTLE_MS * 1000 <= b.1) (bursts es p).
Proof.
  revert p. induction es as [|[fresh resumes|fresh currentTime now preferences ids] es IH]; intros p;
    cbn [bursts]; [constructor|exact (IH (armAudio fresh resumes p))|].
  pose proof (play_spec fresh currentTime now preferences ids p) as Hp.
  destruct (playAttackSfx _ _ _ _ _ _) as [p' sound]. cbn [fst snd] in Hp.
  case_bool_decide as Hs; [apply IH|]. cbn [app]. constructor; [apply IH|].
  destruct Hp as [[_ ->]|(Hl & _)]; [done|]. rewrite <- Hl. apply bursts_after.
Qed.

Lemma blips_indices currentTime v n :
  blip_index <$> blips currentTime v n = seqZ 0 n /\ length (blips currentTime v n) = Z.to_nat n.
Proof.
  unfold blips. split; [|by rewrite length_fmap, length_seqZ].
  rewrite <- list_fmap_compose. exact (list_fmap_id (seqZ 0 n)).
Qed.

Lemma bursts_blips es p burst :
  burst ∈ bursts es p ->
  blip_index <$> burst.2 = seqZ 0 (Z.of_nat (length burst.2)) /\ (1 <= length burst.2 <= 3)%nat.
Proof.
  revert p. induction es as [|[fresh resumes|fresh currentTime now preferences ids] es IH]; intros p;
    cbn [bursts]; [intros H; inversion H|exact (IH (armAudio fresh resumes p))|].
  pose proof (play_spec fresh currentTime now preferences ids p) as Hp.
  destruct (playAttackSfx _ _ _ _ _ _) as [p' sound]. cbn [fst snd] in Hp.
  rewrite elem_of_app. intros [Hin|Hin]; [|by eapply IH].
  case_bool_decide as Hs; [inversion Hin|]. apply list_elem_of_singleton in Hin as ->. cbn [snd].
  destruct Hp as [[_ ->]|(_ & _ & [->|[-> Hids]])]; [done|done|].
  destruct (blips_indices currentTime (volume preferences)
              (Z.min (Z.of_nat (length ids)) ATTACK_SFX_MAX_BLIPS)) as [-> Hlen].
  rewrite Hlen. assert (0 < length ids)%nat by (destruct ids; [done|cbn; lia]).
  unfold ATTACK_SFX_MAX_BLIPS. split; [f_equal; lia|lia].
Qed.

(** Bursts are throttled: whatever the gestures, the attacks, the preferences and the
    clock, nothing sounds before the first gesture, a burst has from one to three
    blips, numbered from zero, and two bursts are at least 700 milliseconds apart. *)
Theorem bursts_apart es :
  let played := bursts es new_player in
  StronglySorted (fun a b => a.1 + ATTACK_SFX_THROTTLE_MS * 1000 <= b.1) played /\
  Forall (fun burst => blip_index <$> burst.2 = seqZ 0 (Z.of_nat (length burst.2)) /\
                       (1 <= length burst.2 <= 3)%nat) played /\
  (Forall (fun e => match e with Gesture _ _ => False | _ => True end) es -> played = []).
Proof.
  intros played. split_and!.
  - apply (bursts_sorted es new_player).
  - apply list.Forall_forall. intros burst Hin. by apply (bursts_blips es new_player).
  - intros Hall. unfold played. assert (Ha : armed new_player = false) by done. revert Ha.
    generalize new_player. induction Hall as [|e es He _ IH]; intros p Ha; [done|].
    destruct e as [|fresh currentTime now preferences ids]; [done|]. cbn [bursts].
    unfold playAttackSfx. rewrite Ha, orb_true_r. cbn. by apply IH.
Qed.
