(* ===== verification/OrganizerPanels.v ===== *)
(** * The panels of the organizers ([components/admin])

    Cards that keep a state of their own, outside of the organizer dashboard's hook:
    announcements ([announcements-panel.tsx]), import of teams
    ([bulk-import-panel.tsx]), trusted runtime state ([trusted-state-panel.tsx]),
    platform settings ([platform-settings-card.tsx]), exports
    ([export-data-panel.tsx]) and the freeze of the scoreboard
    ([ScoreboardFreezeControl] of [organizer-dashboard-sections.tsx]).  One module
    each; its cells are the [useState]s of the component. *)

From S2P Require Import Prelude JsString JsNumber TeamCsv ApiUtils ReactRuntime ReactRules Forms AdminTypes DashboardTypes.

#[local] Open Scope string_scope.
#[local] Open Scope Z_scope.
#[local] Open Scope list_scope.
#[local] Open Scope js_scope.

(** ** Announcements *)

Module Announcements.

Inductive AnnCell := Items | Body | AnnPending | AnnError | AnnNote.

#[export] Instance AnnCell_eq_dec : EqDecision AnnCell.
Proof. solve_decision. Defined.

Definition AnnCellTy (c : AnnCell) : Type :=
  match c with
  | Items => list AdminMatchAnnouncement
  | Body => string
  | AnnPending => bool
  | AnnError | AnnNote => option string
  end.

Inductive AnnPayload := PItems | PDone.

#[export] Instance AnnApp : App := {
  Cell := AnnCell;
  CellTy := AnnCellTy;
  Payload := AnnPayload;
  PayloadTy := fun p => match p with PItems => list AdminMatchAnnouncement | PDone => json end
}.

Definition announcements_path : string := "/api/admin/announcements".

Definition refresh_announcements : Prog unit :=
  items <-! fetch_read (browser_get announcements_path) PItems announcements_path ;;
  set_to Items items.

(** The effect. *)
Definition load_announcements : Prog unit :=
  catch refresh_announcements
    (fun error => set_to AnnError (Some (error_message error "failed to load announcements"))).

Definition announcement_form : string -> Prog unit -> Prog unit :=
  form (set_to AnnPending) (set_to AnnError).

Definition publish_request (v : Store) : Request :=
  browser_send "POST" announcements_path (JObj [("body", JStr (v Body))]).

Definition createAnnouncement (v : Store) : Prog unit :=
  set_to AnnPending true ;;!
  set_to AnnError None ;;!
  set_to AnnNote None ;;!
  announcement_form "create announcement failed"
    (fetch_checked (publish_request v) PDone announcements_path ;;!
     set_to Body "" ;;!
     set_to AnnNote (Some "Announcement published to participants.") ;;!
     refresh_announcements).

Definition removeAnnouncement (id : Z) : Prog unit :=
  let path := announcements_path ++ₛ "/" ++ₛ num_to_string id in
  set_to AnnPending true ;;!
  set_to AnnError None ;;!
  announcement_form "delete announcement failed"
    (fetch_checked (browser_call "DELETE" path) PDone path ;;!
     refresh_announcements).

(** Whether the text can be published. *)
Definition can_publish (v : Store) : bool := negb (v AnnPending || blank (v Body)).

End Announcements.

(** ** Import of teams *)

Module BulkImport.

Inductive ImportCell := CsvText | ImportPending | ImportError | ImportNote | Details.

#[export] Instance ImportCell_eq_dec : EqDecision ImportCell.
Proof. solve_decision. Defined.

Definition ImportCellTy (c : ImportCell) : Type :=
  match c with
  | CsvText => string
  | ImportPending => bool
  | ImportError | ImportNote => option string
  | Details => list string
  end.

#[export] Instance ImportApp : App := {
  Cell := ImportCell;
  CellTy := ImportCellTy;
  Payload := unit;
  PayloadTy := fun _ => AdminBulkImportResult
}.

Definition player_json (p : TeamCsvPlayer) : json :=
  JObj [("display_name", JStr (display_name p)); ("email", JStr (email p));
        ("password", JStr (password p)); ("role", JStr (role p))].

Definition team_json (t : TeamCsvRow) : json :=
  JObj [("name", JStr (name t)); ("contact_email", JStr (contact_email t));
        ("players", JArr (player_json <$> players t))].

Definition import_path : string := "/api/admin/import/teams".

Definition import_request (teams : list TeamCsvRow) : Request :=
  browser_send "POST" import_path (JObj [("teams", JArr (team_json <$> teams))]).

Section Import.
(** The message with which [response.json()] rejects a body that is no JSON. *)
Variable json_rejection : string.

(** [(await response.json()).errors ?? []] of a result with status 422. *)
Definition import_errors (payload : option json) : Result (list string) :=
  match payload with
  | None => Thrown (OtherError json_rejection)
  | Some JNull => Thrown (OtherError "Cannot read properties of null (reading 'errors')")
  | Some (JObj fields) =>
      match field "errors" fields with
      | None | Some JNull => Done []
      | Some (JArr l) => Done (json_to_string <$> l)
      | Some _ => Thrown (OtherError "(result.errors ?? []).join is not a function")
      end
  | Some _ => Done []
  end.

Definition importTeams (v : Store) : Prog unit :=
  set_to ImportPending true ;;!
  set_to ImportError None ;;!
  set_to ImportNote None ;;!
  set_to Details [] ;;!
  form (set_to ImportPending) (set_to ImportError) "import failed"
    (let teams := parseTeamCsv (v CsvText) in
     if Z.of_nat (length teams) =? 0 then Raise (OtherError "No valid team rows found in CSV.")
     else
       response <-! fetch_response (import_request teams) tt ;;
       if status response =? 422 then
         errors <-! of_outcome (import_errors (err_json response)) ;;
         set_to ImportError (Some (trim ("Import created no teams. " ++ₛ join " " errors))) ;;!
         set_to Details errors
       else if negb (ok response) then
         message <-! of_outcome (parseApiError response import_path) ;; Raise (OtherError message)
       else
         match processApiResponse response import_path with
         | Done (Some result) =>
             set_to ImportNote
               (Some ("Created " ++ₛ num_to_string (bir_teams_created result) ++ₛ " teams and " ++ₛ
                      num_to_string (bir_players_created result) ++ₛ " players.")) ;;!
             set_to Details (bir_errors result ?? [])
         | Done None => Raise (OtherError "Cannot read properties of undefined")
         | Thrown e => Raise e
         end).
End Import.

End BulkImport.

(** ** Trusted runtime state *)

Module TrustedState.

Inductive TrustTone := TrustOk | TrustWarn | TrustBad | TrustUnknown.

#[export] Instance TrustTone_eq_dec : EqDecision TrustTone.
Proof. solve_decision. Defined.

Definition toneForState (state : option string) : TrustTone :=
  let value := to_lower (state ?? "") in
  let equals := String.eqb value in
  if equals "applied" || equals "ready" || equals "ok" then TrustOk
  else if equals "loading" || equals "" || equals "unknown" then TrustUnknown
  else if includes "error" value || includes "fail" value || includes "unknown" value then TrustBad
  else TrustWarn.

Inductive TrustCell := Access | Wireguard | PendingDeployments | TrustError | TrustPending | TrustNote.

#[export] Instance TrustCell_eq_dec : EqDecision TrustCell.
Proof. solve_decision. Defined.

Definition TrustCellTy (c : TrustCell) : Type :=
  match c with
  | Access => option AdminControllerAccessStatus
  | Wireguard => option AdminWireGuardGatewayStatus
  | PendingDeployments => option Z
  | TrustError | TrustNote => option string
  | TrustPending => bool
  end.

(** Of a deployment job the panel reads [status] and [state]. *)
Record JobState := mkJobState { js_status : option string; js_state : option string }.

Inductive TrustPayload := PAccess | PWireguard | PJobs | PReconcile.

#[export] Instance TrustApp : App := {
  Cell := TrustCell;
  CellTy := TrustCellTy;
  Payload := TrustPayload;
  PayloadTy := fun p =>
    match p with
    | PAccess => AdminControllerAccessStatus
    | PWireguard => AdminWireGuardGatewayStatus
    | PJobs => list JobState
    | PReconcile => json
    end
}.

Definition access_path : string := "/api/admin/access/status".
Definition wireguard_path : string := "/api/admin/wireguard/status".
Definition deployments_path : string := "/api/admin/deployments".

Definition job_active (job : JobState) : bool :=
  let status := to_lower (match js_status job with Some s => s | None => js_state job ?? "" end) in
  includes "pending" status || includes "queued" status || includes "running" status.

(** The three reads are awaited together; of several that fail, the first in their
    order is reported. *)
Definition refresh_trusted : Prog unit :=
  set_to TrustError None ;;!
  catch
    (a <-! perform (OpFetch (browser_get access_path) PAccess) ;;
     w <-! perform (OpFetch (browser_get wireguard_path) PWireguard) ;;
     d <-! perform (OpFetch (browser_get deployments_path) PJobs) ;;
     accessRes <-! of_outcome a ;;
     wgRes <-! of_outcome w ;;
     deployRes <-! of_outcome d ;;
     when (ok accessRes)
       (status <-! of_outcome (processApiResponse accessRes access_path) ;; set_to Access status) ;;!
     when (ok wgRes)
       (status <-! of_outcome (processApiResponse wgRes wireguard_path) ;; set_to Wireguard status) ;;!
     when (ok deployRes)
       (jobs <-! of_outcome (processApiResponse deployRes deployments_path) ;;
        match jobs with
        | None => Raise (OtherError "Cannot read properties of undefined (reading 'filter')")
        | Some jobs => set_to PendingDeployments (Some (Z.of_nat (length (bfilter job_active jobs))))
        end))
    (fun error => set_to TrustError (Some (error_message error "trusted state refresh failed"))).

(** [response.json().then((payload) => payload.detail).catch(() => "...")], as the
    message of an [Error]: an undefined detail gives an empty one. *)
Definition reconcile_refusal (payload : option json) : string :=
  match payload with
  | None | Some JNull => "trusted reconcile failed"
  | Some (JObj fields) => match field "detail" fields with Some v => json_to_string v | None => "" end
  | Some _ => ""
  end.

Definition reconcile_request : Request := browser_call "POST" "/api/admin/deployments/reconcile".

Definition runTrustedReconcile : Prog unit :=
  set_to TrustPending true ;;!
  set_to TrustNote None ;;!
  set_to TrustError None ;;!
  form (set_to TrustPending) (set_to TrustError) "trusted reconcile failed"
    (response <-! fetch_response reconcile_request PReconcile ;;
     if negb (ok response) then Raise (OtherError (reconcile_refusal (err_json response)))
     else
       set_to TrustNote
         (Some "Reconcile finished: deployments, SSH access, and WireGuard should match host truth.") ;;!
       refresh_trusted ;;!
       perform (OpDispatch "ad-platform:deployments-reconciled") ;;! skip).

(** *** What is shown *)

Definition access_tone (v : Store) : TrustTone := toneForState (ac_state <$> v Access).
Definition wireguard_tone (v : Store) : TrustTone := toneForState (gw_state <$> v Wireguard).

Definition looks_healthy : string := "Trusted host truth looks healthy.".

Definition overall (v : Store) : string :=
  if bool_decide (access_tone v = TrustOk) && bool_decide (wireguard_tone v = TrustOk) &&
     ((v PendingDeployments ?? 0) =? 0)
  then looks_healthy
  else "Host truth is incomplete or degraded — do not assume SSH/access is correct until reconcile succeeds.".

(** The variant of the banner that shows it. *)
Definition overall_variant (v : Store) : string :=
  if bool_decide (access_tone v = TrustOk) && bool_decide (wireguard_tone v = TrustOk)
  then "success" else "warning".

Definition deployments_row (v : Store) : string :=
  match v PendingDeployments with
  | None => "unknown"
  | Some n => if n =? 0 then "ready" else num_to_string n ++ₛ " active"
  end.

(** A banner is shown for a text that is not empty. *)
Definition banner (text : option string) : option string := text ≫= or_undefined.

End TrustedState.

(** ** Platform settings *)

Module PlatformSettings.

Inductive SaveState := Idle | Saving | Reloading | Saved | Failed (message : string).

#[export] Instance SaveState_eq_dec : EqDecision SaveState.
Proof. solve_decision. Defined.

Inductive SettingsCell := Settings | Prefix | MaxTeamMembers | Save.

#[export] Instance SettingsCell_eq_dec : EqDecision SettingsCell.
Proof. solve_decision. Defined.

Definition SettingsCellTy (c : SettingsCell) : Type :=
  match c with
  | Settings => option AdminPlatformSettings
  | Prefix | MaxTeamMembers => string
  | Save => SaveState
  end.

#[export] Instance SettingsApp : App := {
  Cell := SettingsCell;
  CellTy := SettingsCellTy;
  Payload := unit;
  PayloadTy := fun _ => AdminPlatformSettings
}.

(** [/^[A-Za-z][A-Za-z0-9_-]{0,31}$/]. *)
Definition is_letter (c : ascii) : bool :=
  ((65 <=? code c) && (code c <=? 90)) || ((97 <=? code c) && (code c <=? 122)).

Definition is_word_char (c : ascii) : bool :=
  is_letter c || is_digit c || Ascii.eqb c "_" || Ascii.eqb c "-".

Definition flagFormatPattern (s : string) : bool :=
  match s with
  | EmptyString => false
  | String c rest =>
      is_letter c && negb (has_char (fun c => negb (is_word_char c)) rest) && (js_length rest <=? 31)
  end.

(** [payload?.key], unless it is nullish. *)
Definition problem_field (key : string) (payload : option json) : option string :=
  match payload with
  | Some (JObj fields) =>
      match field key fields with
      | None | Some JNull => None
      | Some v => Some (json_to_string v)
      end
  | _ => None
  end.

Definition settings_refusal {T} (response : Response T) : string :=
  let payload := err_json response in
  problem_field "detail" payload
    ?? (problem_field "message" payload
        ?? (problem_field "title" payload
            ?? ("platform settings request failed with status " ++ₛ num_to_string (status response)))).

Definition readPlatformSettingsResponse (response : Response AdminPlatformSettings)
    : Prog AdminPlatformSettings :=
  if ok response then response_json response
  else Raise (OtherError (settings_refusal response)).

Definition settings_path : string := "/api/admin/platform/settings".

Definition getPlatformSettings : Prog AdminPlatformSettings :=
  response <-! fetch_response (browser_get settings_path) tt ;; readPlatformSettingsResponse response.

Definition update_request (flag_format_prefix : string) (max_team_members : Z) : Request :=
  browser_send "PUT" settings_path
    (JObj [("flag_format_prefix", JStr flag_format_prefix); ("max_team_members", JNum max_team_members)]).

Definition updatePlatformSettings (flag_format_prefix : string) (max_team_members : Z)
    : Prog AdminPlatformSettings :=
  response <-! fetch_response (update_request flag_format_prefix max_team_members) tt ;;
  readPlatformSettingsResponse response.

Definition reload_request : Request := browser_call "POST" (settings_path ++ₛ "/reload").

Definition reloadPlatformFlagFormat : Prog AdminPlatformSettings :=
  response <-! fetch_response reload_request tt ;; readPlatformSettingsResponse response.

Definition report_save (fallback : string) (error : JsError) : Prog unit :=
  set_to Save (Failed (error_message error fallback)).

(** The effect. *)
Definition load_settings : Prog unit :=
  catch
    (data <-! getPlatformSettings ;;
     set_to Settings (Some data) ;;!
     set_to Prefix (aps_flag_format_prefix data) ;;!
     set_to MaxTeamMembers (num_to_string (aps_max_team_members data ?? 0)))
    (report_save "failed to load platform settings.").

(** *** What the render works out *)

Definition trimmed_prefix (v : Store) : string := trim (v Prefix).

Definition parsedMaxTeamMembers (v : Store) : num := js_number (trim (v MaxTeamMembers)).

(** A non-negative integer. *)
Definition members_limit (v : Store) : option Z :=
  match num_integer (parsedMaxTeamMembers v) with
  | Some n => if 0 <=? n then Some n else None
  | None => None
  end.

Definition settings_valid (v : Store) : bool := flagFormatPattern (trimmed_prefix v).

Definition inSync (v : Store) : bool :=
  match v Settings with
  | Some s => String.eqb (aps_flag_format_prefix s) (aps_flag_format_active s)
  | None => true
  end.

Definition dirty (v : Store) : bool :=
  match v Settings with
  | None => false
  | Some s =>
      negb (String.eqb (trimmed_prefix v) (aps_flag_format_prefix s)) ||
      match aps_max_team_members s with
      | Some n => negb (num_eqb (parsedMaxTeamMembers v) (num_of_Z n))
      | None => true
      end
  end.

Definition is_busy (v : Store) : bool :=
  bool_decide (v Save = Saving) || bool_decide (v Save = Reloading).

(** Whether the two save buttons are enabled. *)
Definition can_save (v : Store) : bool :=
  settings_valid v && bool_decide (members_limit v <> None) && dirty v && negb (is_busy v).

(** *** Handlers *)

Definition invalid_settings : string :=
  "flag_format_prefix must be valid and max_team_members must be a non-negative whole number.".

Definition onSave (v : Store) : Prog unit :=
  match members_limit v with
  | Some limit =>
      if settings_valid v then
        set_to Save Saving ;;!
        catch
          (updated <-! updatePlatformSettings (trimmed_prefix v) limit ;;
           set_to Settings (Some updated) ;;!
           set_to Save Saved)
          (report_save "failed to save platform settings.")
      else set_to Save (Failed invalid_settings)
  | None => set_to Save (Failed invalid_settings)
  end.

Definition onSaveAndReload (v : Store) : Prog unit :=
  match members_limit v with
  | Some limit =>
      if settings_valid v then
        set_to Save Saving ;;!
        catch
          (updated <-! updatePlatformSettings (trimmed_prefix v) limit ;;
           set_to Settings (Some updated) ;;!
           set_to Save Reloading ;;!
           reloaded <-! reloadPlatformFlagFormat ;;
           set_to Settings (Some reloaded) ;;!
           set_to Save Saved)
          (report_save "failed to save or reload flag format.")
      else set_to Save (Failed invalid_settings)
  | None => set_to Save (Failed invalid_settings)
  end.

Definition onReloadOnly : Prog unit :=
  set_to Save Reloading ;;!
  catch
    (reloaded <-! reloadPlatformFlagFormat ;;
     set_to Settings (Some reloaded) ;;!
     set_to Save Saved)
    (report_save "flag format reload failed.").

(** The team limit, and the texts under the card. *)
Definition team_limit (v : Store) : string :=
  match v Settings with
  | Some s => match aps_max_team_members s with
              | Some n => if n >? 0 then num_to_string n else "unlimited"
              | None => "unlimited"
              end
  | None => "unlimited"
  end.

Definition new_prefix_in_use : string :=
  "Platform settings saved. Flags issued by the checker now use the new prefix.".

Definition formats_differ : string := "The stored prefix and the active game-core format differ.".

Definition settings_texts (v : Store) : list string :=
  (match v Save with Failed message => [message] | _ => [] end) ++
  (if bool_decide (v Save = Saved) then [new_prefix_in_use] else []) ++
  (if inSync v then [] else [formats_differ]).

End PlatformSettings.

(** ** Exports *)

Module ExportData.

Record ExportScoreRow := mkExportScoreRow {
  xs_rank : Z;
  xs_team : string;
  xs_attack : num;
  xs_defense : num;
  xs_sla : num;
  xs_total : num;
  xs_delta : string
}.

Record ExportAttackRow := mkExportAttackRow {
  xa_id : string;
  xa_attacker : string;
  xa_victim : string;
  xa_service : string;
  xa_tick : Z;
  xa_verdict : string
}.

(** [String(n)] of a number that may not be an integer. *)
Definition scoreboard_csv (number_text : num -> string) (scoreboard : list ExportScoreRow) : string :=
  toCsv (["rank"; "team"; "attack"; "defense"; "sla"; "total"; "delta"] ::
         ((fun row => [num_to_string (xs_rank row); xs_team row; number_text (xs_attack row);
                       number_text (xs_defense row); number_text (xs_sla row); number_text (xs_total row);
                       xs_delta row]) <$> scoreboard)).

Definition attacks_csv (attacks : list ExportAttackRow) : string :=
  toCsv (["id"; "attacker"; "victim"; "service"; "tick"; "verdict"] ::
         ((fun row => [xa_id row; xa_attacker row; xa_victim row; xa_service row;
                       num_to_string (xa_tick row); xa_verdict row]) <$> attacks)).

End ExportData.

(** ** The freeze of the scoreboard *)

Module FreezeControl.

Inductive FreezeCell := FreezeStatus | FreezeAt | UnfreezeAt | Busy | FreezeError | FreezeNote.

#[export] Instance FreezeCell_eq_dec : EqDecision FreezeCell.
Proof. solve_decision. Defined.

Definition FreezeCellTy (c : FreezeCell) : Type :=
  match c with
  | FreezeStatus => option AdminScoreboardFreeze
  | FreezeAt | UnfreezeAt => string
  | Busy => bool
  | FreezeError | FreezeNote => option string
  end.

#[export] Instance FreezeApp : App := {
  Cell := FreezeCell;
  CellTy := FreezeCellTy;
  Payload := unit;
  PayloadTy := fun _ => AdminScoreboardFreeze
}.

Definition freezeStateLabel (status : option AdminScoreboardFreeze) : string * string :=
  match status with
  | None => ("Live", "tone-success")
  | Some s =>
      if negb (sfz_configured s) then ("Live", "tone-success")
      else if sfz_frozen s then ("Frozen", "tone-warning")
      else ("Scheduled", "tone-info")
  end.

Definition freeze_path : string := "/api/admin/game/scoreboard/freeze".

Definition load_freeze : Prog unit :=
  catch
    (res <-! fetch_response (browser_get freeze_path) tt ;;
     when (ok res) (status <-! response_json res ;; set_to FreezeStatus (Some status)))
    (fun _ => skip).

(** [problem?.detail ?? fallback]. *)
Definition freeze_refusal {T} (fallback : string) (response : Response T) : string :=
  PlatformSettings.problem_field "detail" (err_json response) ?? fallback.

Definition freeze_form (fallback : string) (body : Prog unit) : Prog unit :=
  form (set_to Busy) (set_to FreezeError) fallback body.

(** [if (!res.ok) throw ...; (await res.json())]. *)
Definition freeze_answer (fallback : string) (res : Response AdminScoreboardFreeze)
    : Prog AdminScoreboardFreeze :=
  if ok res then response_json res else Raise (OtherError (freeze_refusal fallback res)).

Section Freeze.
(** [new Date(local).toISOString()], in the time zone of the browser: [None] when it
    throws, for a text that is no date. *)
Variable to_iso : string -> option string.

Definition iso_date (local : string) : Prog string :=
  match to_iso local with Some iso => Return iso | None => Raise (OtherError "Invalid time value") end.

Definition freeze_body (freeze_at : string) (unfreeze_at : option string) : json :=
  JObj (("freeze_at", JStr freeze_at) ::
        match unfreeze_at with Some u => [("unfreeze_at", JStr u)] | None => [] end).

Definition applyFreeze (v : Store) : Prog unit :=
  if is_empty (v FreezeAt) then set_to FreezeError (Some "Pick a freeze start time.")
  else
    set_to Busy true ;;!
    set_to FreezeError None ;;!
    set_to FreezeNote None ;;!
    freeze_form "freeze update failed"
      (freeze_at <-! iso_date (v FreezeAt) ;;
       unfreeze_at <-! (if is_empty (v UnfreezeAt) then Return None
                        else u <-! iso_date (v UnfreezeAt) ;; Return (Some u)) ;;
       res <-! fetch_response (browser_send "POST" freeze_path (freeze_body freeze_at unfreeze_at)) tt ;;
       status <-! freeze_answer "freeze update failed" res ;;
       set_to FreezeStatus (Some status) ;;!
       set_to FreezeNote (Some "Freeze window saved.")).
End Freeze.

Definition clearFreeze : Prog unit :=
  set_to Busy true ;;!
  set_to FreezeError None ;;!
  set_to FreezeNote None ;;!
  freeze_form "freeze clear failed"
    (res <-! fetch_response (browser_call "POST" "/api/admin/game/scoreboard/unfreeze") tt ;;
     status <-! freeze_answer "freeze clear failed" res ;;
     set_to FreezeStatus (Some status) ;;!
     set_to FreezeAt "" ;;!
     set_to UnfreezeAt "" ;;!
     set_to FreezeNote (Some "Freeze cleared. Participant board is live.")).

(** Whether the window can be cleared. *)
Definition can_clear (v : Store) : bool :=
  negb (v Busy || negb (match v FreezeStatus with Some s => sfz_configured s | None => false end)).

End FreezeControl.

(** ** Concrete answers, for the examples below *)

Module Samples.

Definition answer {T} (status : Z) (body : T) (refusal : json) : Response T :=
  mkResponse status [("content-type", "application/json")] (Some "{}") (inr body) (Some refusal).

Definition no_detail : list (string * json) := [("error", JStr "reconcile_failed")].

Definition access : AdminControllerAccessStatus :=
  mkAdminControllerAccessStatus "applied" "host" None None None None 1 1 0 2 None None None.

Definition wireguard : AdminWireGuardGatewayStatus :=
  mkAdminWireGuardGatewayStatus "applied" "host" None None None None None None 2 2 0 None None None.

Definition trust_view : Store (app := TrustedState.TrustApp) := fun c =>
  match c return TrustedState.TrustCellTy c with
  | TrustedState.Access | TrustedState.Wireguard | TrustedState.PendingDeployments
  | TrustedState.TrustError | TrustedState.TrustNote => None
  | TrustedState.TrustPending => false
  end.

(** The policies are in force; the deployments cannot be read, nor reconciled. *)
Definition trust_platform : Oracle (app := TrustedState.TrustApp) := fun t o =>
  match o return Answer o with
  | OpFetch _ TrustedState.PAccess => Done (answer 200 access JNull)
  | OpFetch _ TrustedState.PWireguard => Done (answer 200 wireguard JNull)
  | OpFetch _ TrustedState.PJobs => Done (answer 503 [] (JObj []))
  | OpFetch _ TrustedState.PReconcile => Done (answer 409 JNull (JObj no_detail))
  | o => offline t o
  end.

(** A platform that stores a prefix and keeps issuing flags with the one before. *)
Definition settings_platform (prefix : string) : Oracle (app := PlatformSettings.SettingsApp) := fun t o =>
  match o return Answer o with
  | OpFetch _ _ => Done (answer 200 (mkAdminPlatformSettings prefix "FLAG" (Some 5) "now" "root") JNull)
  | o => offline t o
  end.

Definition settings_view (prefix limit : string) : Store (app := PlatformSettings.SettingsApp) := fun c =>
  match c return PlatformSettings.SettingsCellTy c with
  | PlatformSettings.Settings => Some (mkAdminPlatformSettings "FLAG" "FLAG" (Some 5) "now" "root")
  | PlatformSettings.Prefix => prefix
  | PlatformSettings.MaxTeamMembers => limit
  | PlatformSettings.Save => PlatformSettings.Idle
  end.

End Samples.

(** ** What the panels do *)

Module AnnouncementsFacts.
Import Announcements.

(** Publishing an announcement.  A refusal changes nothing but the message.  An
    acceptance empties the text and says so at once; the list is then read again, and
    when that fails the page shows the failure beside the note of success, with the
    old list.  The panel is never left pending. *)
Theorem createAnnouncement_spec oracle t (s v : Store) :
  let ask := OpFetch (publish_request v) PDone in
  let read := OpFetch (browser_get announcements_path) PItems in
  let r := run oracle t s (createAnnouncement v) in
  o_result r = Done tt /\ o_store r AnnPending = false /\
  match accepted_of (oracle (t : list (Op (app := AnnApp))) ask) announcements_path with
  | Thrown e =>
      o_trace r = t ++ [ask] /\ o_store r Items = s Items /\ o_store r Body = s Body /\
      o_store r AnnNote = None /\ o_store r AnnError = Some (error_message e "create announcement failed")
  | Done _ =>
      o_trace r = t ++ [ask; read] /\ o_store r Body = "" /\
      o_store r AnnNote = Some "Announcement published to participants." /\
      match read_of (oracle (t ++ [ask]) read) announcements_path with
      | Done items => o_store r Items = items /\ o_store r AnnError = None
      | Thrown e => o_store r Items = s Items /\
                    o_store r AnnError = Some (error_message e "create announcement failed")
      end
  end.
Proof.
  intros ask read r. unfold r, createAnnouncement. cbn [bind set_to run].
  unfold announcement_form. rewrite run_form by solve_setter.
  rewrite run_fetch_checked. fold ask.
  destruct (accepted_of _ _) as [u|e]; [|by split_and!].
  cbn [bind set_to run]. unfold refresh_announcements. rewrite run_fetch_read. fold read.
  destruct (read_of _ _) as [items|e]; cbn [run set_to bind form_end o_trace o_store o_result];
    rewrite <- app_assoc; by split_and!.
Qed.

(** The removal of an announcement leaves the note of the last publication. *)
Lemma removeAnnouncement_spec oracle t (s : Store) id :
  let path := announcements_path ++ₛ "/" ++ₛ num_to_string id in
  let ask := OpFetch (browser_call "DELETE" path) PDone in
  let r := run oracle t s (removeAnnouncement id) in
  o_result r = Done tt /\ o_store r AnnPending = false /\ o_store r AnnNote = s AnnNote /\
  match accepted_of (oracle (t : list (Op (app := AnnApp))) ask) path with
  | Thrown e => o_store r Items = s Items
  | Done _ => o_store r Items =
      match read_of (oracle (t ++ [ask]) (OpFetch (browser_get announcements_path) PItems)) announcements_path with
      | Done items => items
      | Thrown e => s Items
      end
  end.
Proof.
  intros path ask r. unfold r, removeAnnouncement. fold path. cbn [bind set_to run].
  unfold announcement_form. rewrite run_form by solve_setter.
  rewrite run_fetch_checked. fold ask.
  destruct (accepted_of _ _) as [u|e]; [|by split_and!].
  unfold refresh_announcements. rewrite run_fetch_read.
  destruct (read_of _ _) as [items|e]; cbn [run set_to bind form_end o_trace o_store o_result]; by split_and!.
Qed.
End AnnouncementsFacts.

Module ImportFacts.
Import BulkImport.

(** An import of teams, on every answer.  A text without a complete team makes no
    call; otherwise the teams of the text go out in one.  A result in which every team
    failed is told apart from a refusal by its status, and its errors are listed; a
    partial success lists them beside the figures.  Only an import that created
    something leaves a note. *)
Theorem importTeams_spec json_rejection oracle t (s v : Store) :
  let teams := parseTeamCsv (v CsvText) in
  let ask := OpFetch (import_request teams) tt in
  let r := run oracle t s (importTeams json_rejection v) in
  let failed message := o_store r ImportNote = None /\ o_store r ImportError = Some message in
  o_result r = Done tt /\ o_store r ImportPending = false /\ o_store r CsvText = s CsvText /\
  if Z.of_nat (length teams) =? 0
  then o_trace r = t /\ failed "No valid team rows found in CSV." /\ o_store r Details = []
  else o_trace r = t ++ [ask] /\
    match oracle (t : list (Op (app := ImportApp))) ask with
    | Thrown e => failed (error_message e "import failed") /\ o_store r Details = []
    | Done response =>
        if status response =? 422 then
          match import_errors json_rejection (err_json response) with
          | Done errors => failed (trim ("Import created no teams. " ++ₛ join " " errors)) /\
                           o_store r Details = errors
          | Thrown e => failed (error_message e "import failed") /\ o_store r Details = []
          end
        else
          match read_of (Done response) import_path with
          | Done result =>
              o_store r ImportNote =
                Some ("Created " ++ₛ num_to_string (bir_teams_created result) ++ₛ " teams and " ++ₛ
                      num_to_string (bir_players_created result) ++ₛ " players.") /\
              o_store r ImportError = None /\ o_store r Details = bir_errors result ?? []
          | Thrown e => failed (error_message e "import failed") /\ o_store r Details = []
          end
    end.
Proof.
  intros teams ask r failed. unfold failed, r, importTeams. fold teams. cbn [bind set_to run].
  rewrite run_form by solve_setter.
  destruct (Z.of_nat (length teams) =? 0) eqn:En; [by split_and!|].
  unfold fetch_response. cbn [bind run]. fold ask.
  destruct (oracle t ask) as [response|e] eqn:Eo; cbn [of_outcome bind run]; [|by split_and!].
  destruct (status response =? 422) eqn:E422.
  - destruct (import_errors _ _) as [errors|e]; cbn [of_outcome bind run]; by split_and!.
  - unfold read_of, checked_of. cbn [result_bind].
    destruct (ok response); cbn [negb result_bind].
    + destruct (processApiResponse response import_path) as [[result|]|e]; by split_and!.
    + destruct (parseApiError response import_path) as [m|e]; by split_and!.
Qed.
End ImportFacts.

Module TrustedFacts.
Import TrustedState.

Definition access_read : Op := OpFetch (browser_get access_path) PAccess.
Definition wireguard_read : Op := OpFetch (browser_get wireguard_path) PWireguard.
Definition jobs_read : Op := OpFetch (browser_get deployments_path) PJobs.
Definition trusted_reads : list Op := [access_read; wireguard_read; jobs_read].

(** The state that a read leaves: what an accepted answer holds, or what was there. *)
Definition after_read {T A} (old : A) (response : Response T) (value : Result A) : Result A :=
  if ok response then value else Done old.

(** Of a deployments answer the panel keeps the number of active jobs. *)
Definition jobs_value (response : Response (list JobState)) : Result (option Z) :=
  match processApiResponse response deployments_path with
  | Done (Some jobs) => Done (Some (Z.of_nat (length (bfilter job_active jobs))))
  | Done None => Thrown (OtherError "Cannot read properties of undefined (reading 'filter')")
  | Thrown e => Thrown e
  end.

(** A refresh whose three reads are answered: each section shows its own answer, and
    one that is refused keeps what it showed, in silence. *)
Lemma run_refresh_trusted (oracle : Oracle (app := TrustApp)) (t : list Op) (s : Store)
    (a : Response AdminControllerAccessStatus) (w : Response AdminWireGuardGatewayStatus)
    (d : Response (list JobState)) (access : option AdminControllerAccessStatus)
    (wg : option AdminWireGuardGatewayStatus) (jobs : option Z) :
  oracle t access_read = Done a ->
  oracle (t ++ [access_read]) wireguard_read = Done w ->
  oracle ((t ++ [access_read]) ++ [wireguard_read]) jobs_read = Done d ->
  after_read (s Access) a (processApiResponse a access_path) = Done access ->
  after_read (s Wireguard) w (processApiResponse w wireguard_path) = Done wg ->
  after_read (s PendingDeployments) d (jobs_value d) = Done jobs ->
  let r := run oracle t s refresh_trusted in
  o_result r = Done tt /\ o_trace r = t ++ trusted_reads /\
  o_store r Access = access /\ o_store r Wireguard = wg /\ o_store r PendingDeployments = jobs /\
  o_store r TrustError = None /\ o_store r TrustNote = s TrustNote /\ o_store r TrustPending = s TrustPending.
Proof.
  intros Ha Hw Hd Va Vw Vd r. unfold r, refresh_trusted. cbn [bind set_to run].
  rewrite run_catch. cbn [bind run perform].
  fold access_read wireguard_read jobs_read.
  rewrite Ha, Hw, Hd. cbn [of_outcome bind]. unfold after_read in *.
  assert (Hlist : ((t ++ [access_read]) ++ [wireguard_read]) ++ [jobs_read] = t ++ trusted_reads)
    by by rewrite <- !app_assoc.
  cbn [PayloadTy TrustApp].
  destruct (ok a); [rewrite Va|injection Va as <-]; cbn [when of_outcome bind set_to run skip];
  (destruct (ok w); [rewrite Vw|injection Vw as <-]; cbn [when of_outcome bind set_to run skip]);
  (destruct (ok d); [unfold jobs_value in Vd;
     destruct (processApiResponse d deployments_path) as [[l|]|e]; [|done|done];
     injection Vd as <-|injection Vd as <-]; cbn [when of_outcome bind set_to run skip o_result o_trace o_store];
   rewrite Hlist; by split_and!).
Qed.

(** The panel vouches for what it has not read.  When the access policy and the
    gateway are in order and the deployments cannot be read, a first refresh shows no
    error, the row of the deployments says unknown, and yet the banner says that the
    trusted host truth looks healthy. *)
Theorem healthy_without_deployments (oracle : Oracle (app := TrustApp)) (t : list Op) (s : Store)
    (a : Response AdminControllerAccessStatus) (w : Response AdminWireGuardGatewayStatus)
    (d : Response (list JobState)) (access : AdminControllerAccessStatus)
    (wg : AdminWireGuardGatewayStatus) :
  oracle t access_read = Done a ->
  oracle (t ++ [access_read]) wireguard_read = Done w ->
  oracle ((t ++ [access_read]) ++ [wireguard_read]) jobs_read = Done d ->
  ok a = true -> processApiResponse a access_path = Done (Some access) ->
  ok w = true -> processApiResponse w wireguard_path = Done (Some wg) ->
  toneForState (Some (ac_state access)) = TrustOk -> toneForState (Some (gw_state wg)) = TrustOk ->
  ok d = false -> s PendingDeployments = None ->
  let v := o_store (run oracle t s refresh_trusted) in
  overall v = looks_healthy /\ overall_variant v = "success" /\ deployments_row v = "unknown" /\
  banner (v TrustError) = None.
Proof.
  intros Ha Hw Hd Hoa Va How Vw Ta Tw Hod Hn v.
  destruct (run_refresh_trusted oracle t s a w d (Some access) (Some wg) None Ha Hw Hd)
    as (_ & _ & H1 & H2 & H3 & H4 & _); 
      [unfold after_read; rewrite ?Hoa, ?How, ?Hod, ?Hn; done..|].
  fold v in H1, H2, H3, H4. unfold overall, overall_variant, deployments_row, access_tone, wireguard_tone.
  rewrite H1, H2, H3, H4. cbn [fmap option_fmap option_map]. rewrite Ta, Tw. done.
Qed.

Lemma healthy_without_deployments_witness :
  let v := o_store (run Samples.trust_platform [] Samples.trust_view refresh_trusted) in
  overall v = looks_healthy /\ overall_variant v = "success" /\ deployments_row v = "unknown" /\
  banner (v TrustError) = None.
Proof.
  apply (healthy_without_deployments Samples.trust_platform [] Samples.trust_view
    (Samples.answer 200 Samples.access JNull) (Samples.answer 200 Samples.wireguard JNull)
    (Samples.answer 503 [] (JObj [])) Samples.access Samples.wireguard); reflexivity.
Defined.

(** A reconcile that is refused without saying why fails in silence: the platform's
    refusal carries no detail, so that the panel takes its mark back and shows neither
    an error nor a note, exactly as before the click. *)
Theorem refused_reconcile_is_silent (oracle : Oracle (app := TrustApp)) (t : list Op) (s : Store)
    (response : Response json) fields :
  oracle t (OpFetch reconcile_request PReconcile) = Done response ->
  ok response = false -> err_json response = Some (JObj fields) -> field "detail" fields = None ->
  let r := run oracle t s runTrustedReconcile in
  o_result r = Done tt /\ o_trace r = t ++ [OpFetch reconcile_request PReconcile] /\
  o_store r TrustPending = false /\
  banner (o_store r TrustError) = None /\ banner (o_store r TrustNote) = None /\
  o_store r Access = s Access /\ o_store r Wireguard = s Wireguard /\
  o_store r PendingDeployments = s PendingDeployments.
Proof.
  intros Ho Hok Hj Hf r. unfold r, runTrustedReconcile. cbn [bind set_to run].
  rewrite run_form by solve_setter. unfold fetch_response. cbn [bind run].
  rewrite Ho. cbn [of_outcome bind run PayloadTy TrustApp]. rewrite Hok. cbn [negb bind run].
  rewrite Hj. unfold reconcile_refusal. rewrite Hf. by split_and!.
Qed.

Lemma refused_reconcile_is_silent_witness :
  let r := run Samples.trust_platform [] Samples.trust_view runTrustedReconcile in
  o_trace r = [OpFetch (app := TrustApp) reconcile_request PReconcile] /\
  banner (o_store r TrustError) = None /\ banner (o_store r TrustNote) = None.
Proof.
  destruct (refused_reconcile_is_silent Samples.trust_platform [] Samples.trust_view
    (Samples.answer 409 JNull (JObj Samples.no_detail)) Samples.no_detail) as (_ & H1 & _ & H2 & H3 & _);
    [reflexivity..|]. repeat split; assumption.
Defined.
End TrustedFacts.

Module SettingsFacts.
Import PlatformSettings.

(** What an answer of the settings comes to. *)
Definition settings_of (answer : Result (Response AdminPlatformSettings)) : Result AdminPlatformSettings :=
  result_bind answer (fun response =>
    if ok response then json_of response else Thrown (OtherError (settings_refusal response))).

Lemma run_settings {B : Type} (oracle : Oracle (app := SettingsApp)) (t : list Op) (s : Store) req
    (k : AdminPlatformSettings -> Prog B) :
  run oracle t s (bind (response <-! fetch_response (app := SettingsApp) req tt ;; readPlatformSettingsResponse response) k) =
  match settings_of (oracle t (OpFetch (app := SettingsApp) req tt)) with
  | Done a => run oracle (t ++ [OpFetch (app := SettingsApp) req tt]) s (k a)
  | Thrown e => mkOutcome (t ++ [OpFetch (app := SettingsApp) req tt]) s (Thrown e)
  end.
Proof.
  unfold fetch_response, settings_of. cbn [bind run].
  destruct (oracle t (OpFetch (app := SettingsApp) req tt)) as [response|e]; cbn [of_outcome bind run result_bind]; [|done].
  unfold readPlatformSettingsResponse. cbn [PayloadTy SettingsApp].
  destruct (@ok AdminPlatformSettings response); cbn [bind run]; [|done].
  unfold response_json, json_of. by destruct (@ok_json AdminPlatformSettings response).
Qed.

(** Saving and reloading the settings: nothing is sent unless the prefix matches its
    pattern and the limit is a whole number; the reload follows only an accepted save;
    what is shown is the last answer that was accepted; and the card never stays busy,
    whatever the platform answers. *)
Theorem onSaveAndReload_spec (oracle : Oracle (app := SettingsApp)) (t : list Op) (s v : Store) :
  let r := run oracle t s (onSaveAndReload v) in
  let reload := OpFetch (app := SettingsApp) reload_request tt in
  let failed e := o_store r Save = Failed (error_message e "failed to save or reload flag format.") in
  o_result r = Done tt /\ is_busy (o_store r) = false /\
  match members_limit v with
  | Some limit =>
      if settings_valid v then
        let update := OpFetch (app := SettingsApp) (update_request (trimmed_prefix v) limit) tt in
        match settings_of (oracle t update) with
        | Thrown e => o_trace r = t ++ [update] /\ o_store r Settings = s Settings /\ failed e
        | Done updated =>
            o_trace r = t ++ [update; reload] /\
            match settings_of (oracle (t ++ [update]) reload) with
            | Thrown e => o_store r Settings = Some updated /\ failed e
            | Done reloaded => o_store r Settings = Some reloaded /\ o_store r Save = Saved
            end
        end
      else o_trace r = t /\ o_store r = upd (app := SettingsApp) Save (fun _ => Failed invalid_settings) s
  | None => o_trace r = t /\ o_store r = upd (app := SettingsApp) Save (fun _ => Failed invalid_settings) s
  end.
Proof.
  intros r reload failed. unfold failed, r, onSaveAndReload.
  destruct (members_limit v) as [limit|]; [|by split_and!].
  destruct (settings_valid v); [|by split_and!]. cbn zeta.
  cbn [bind set_to run]. rewrite run_catch. unfold updatePlatformSettings. rewrite run_settings.
  destruct (settings_of _) as [updated|e]; [|by split_and!].
  cbn [bind set_to run]. unfold reloadPlatformFlagFormat. rewrite run_settings. fold reload.
  destruct (settings_of _) as [reloaded|e]; cbn [bind set_to run o_trace o_store o_result];
    rewrite <- app_assoc; by split_and!.
Qed.

(** Saving without a reload claims too much: when the platform stores a new prefix
    and still issues flags with the old one, the card says that flags now use the new
    prefix, and, below it, that the stored prefix and the active format differ. *)
Theorem save_claims_prefix_in_use (oracle : Oracle (app := SettingsApp)) (t : list Op) (s v : Store) limit updated :
  members_limit v = Some limit -> settings_valid v = true ->
  settings_of (oracle t
    (OpFetch (app := SettingsApp) (update_request (trimmed_prefix v) limit) tt)) = Done updated ->
  aps_flag_format_prefix updated <> aps_flag_format_active updated ->
  let r := run oracle t s (onSave v) in
  o_trace r = t ++ [OpFetch (app := SettingsApp) (update_request (trimmed_prefix v) limit) tt] /\
  settings_texts (o_store r) = [new_prefix_in_use; formats_differ].
Proof.
  intros Hl Hv Ha Hne r. unfold r, onSave. rewrite Hl, Hv. cbn [bind set_to run].
  rewrite run_catch. unfold updatePlatformSettings. rewrite run_settings, Ha.
  cbn [bind set_to run o_result o_trace o_store]. split; [done|].
  unfold settings_texts, inSync.
  change ([] ++ [new_prefix_in_use] ++
          (if String.eqb (aps_flag_format_prefix updated) (aps_flag_format_active updated)
           then [] else [formats_differ]) = [new_prefix_in_use; formats_differ]).
  by rewrite (proj2 (String.eqb_neq _ _) Hne).
Qed.

Lemma save_claims_prefix_in_use_witness :
  let v := Samples.settings_view "CTF" "5" in
  settings_texts (o_store (run (Samples.settings_platform "CTF") [] v (onSave v))) =
  [new_prefix_in_use; formats_differ].
Proof.
  intros v.
  apply (save_claims_prefix_in_use (Samples.settings_platform "CTF") [] v v 5
    (mkAdminPlatformSettings "CTF" "FLAG" (Some 5) "now" "root")); [reflexivity..|discriminate].
Defined.

(** A limit that is left empty is saved as no limit: the field of a card whose
    settings have a limit is emptied, the save is enabled, and it sends a zero, which
    the card itself describes as unlimited. *)
Theorem emptied_limit_is_unlimited (oracle : Oracle (app := SettingsApp)) (t : list Op) (s v : Store) settings n :
  v Settings = Some settings -> aps_max_team_members settings = Some n -> 0 < n ->
  v MaxTeamMembers = "" -> settings_valid v = true -> v Save = Idle ->
  can_save v = true /\
  o_trace (run oracle t s (onSave v)) = t ++ [OpFetch (app := SettingsApp) (update_request (trimmed_prefix v) 0) tt].
Proof.
  intros Hs Hn Hpos He Hv Hi.
  assert (Hl : members_limit v = Some 0) by (unfold members_limit, parsedMaxTeamMembers; by rewrite He).
  split.
  - unfold can_save, is_busy, dirty, parsedMaxTeamMembers. rewrite Hv, Hl, Hs, Hn, He, Hi.
    change (js_number (trim "")) with (num_of_Z 0).
    assert (Hne : num_eqb (num_of_Z 0) (num_of_Z n) = false).
    { apply not_true_iff_false. intros H. rewrite num_eqb_Z in H. lia. }
    by rewrite Hne, orb_true_r.
  - unfold onSave. rewrite Hl, Hv. cbn [bind set_to run]. rewrite run_catch.
    unfold updatePlatformSettings. rewrite run_settings. by destruct (settings_of _).
Qed.

Lemma emptied_limit_is_unlimited_witness :
  let v := Samples.settings_view "FLAG" "" in
  can_save v = true /\
  o_trace (run (Samples.settings_platform "FLAG") [] v (onSave v)) =
  [OpFetch (app := SettingsApp) (update_request "FLAG" 0) tt].
Proof.
  intros v.
  apply (emptied_limit_is_unlimited (Samples.settings_platform "FLAG") [] v v
    (mkAdminPlatformSettings "FLAG" "FLAG" (Some 5) "now" "root") 5); reflexivity.
Defined.
End SettingsFacts.

Module FreezeFacts.
Import FreezeControl.

(** What an answer about the freeze comes to. *)
Definition freeze_of (fallback : string) (answer : Result (Response AdminScoreboardFreeze))
    : Result AdminScoreboardFreeze :=
  result_bind answer (fun response =>
    if ok response then json_of response else Thrown (OtherError (freeze_refusal fallback response))).

Lemma run_freeze {B : Type} (oracle : Oracle (app := FreezeApp)) (t : list Op) (s : Store) req fallback
    (k : AdminScoreboardFreeze -> Prog B) :
  run oracle t s (res <-! fetch_response (app := FreezeApp) req tt ;;
                  status <-! freeze_answer fallback res ;; k status) =
  match freeze_of fallback (oracle t (OpFetch (app := FreezeApp) req tt)) with
  | Done a => run oracle (t ++ [OpFetch (app := FreezeApp) req tt]) s (k a)
  | Thrown e => mkOutcome (t ++ [OpFetch (app := FreezeApp) req tt]) s (Thrown e)
  end.
Proof.
  unfold fetch_response, freeze_of. cbn [bind run].
  destruct (oracle t (OpFetch (app := FreezeApp) req tt)) as [response|e];
    cbn [of_outcome bind run result_bind]; [|done].
  unfold freeze_answer. cbn [PayloadTy FreezeApp].
  destruct (@ok AdminScoreboardFreeze response); cbn [bind run]; [|done].
  unfold response_json, json_of. by destruct (@ok_json AdminScoreboardFreeze response).
Qed.

(** Setting the freeze window: without a start nothing is sent; a date that cannot be
    read fails before anything is sent; the window the platform answers with replaces
    the one shown only when it was accepted, and the fields keep what was typed. *)
Theorem applyFreeze_spec to_iso (oracle : Oracle (app := FreezeApp)) (t : list Op) (s v : Store) :
  let r := run oracle t s (applyFreeze to_iso v) in
  let unchanged message :=
    o_trace r = t /\ o_store r FreezeStatus = s FreezeStatus /\ o_store r FreezeError = Some message in
  o_result r = Done tt /\ o_store r FreezeAt = s FreezeAt /\ o_store r UnfreezeAt = s UnfreezeAt /\
  if is_empty (v FreezeAt)
  then unchanged "Pick a freeze start time." /\ o_store r FreezeNote = s FreezeNote /\ o_store r Busy = s Busy
  else
    o_store r Busy = false /\
    match to_iso (v FreezeAt),
          (if is_empty (v UnfreezeAt) then Some None else Some <$> to_iso (v UnfreezeAt)) with
    | Some start, Some stop =>
        let ask := OpFetch (app := FreezeApp) (browser_send "POST" freeze_path (freeze_body start stop)) tt in
        o_trace r = t ++ [ask] /\
        match freeze_of "freeze update failed" (oracle t ask) with
        | Done status => o_store r FreezeStatus = Some status /\ o_store r FreezeError = None /\
                         o_store r FreezeNote = Some "Freeze window saved."
        | Thrown e => o_store r FreezeStatus = s FreezeStatus /\ o_store r FreezeNote = None /\
                      o_store r FreezeError = Some (error_message e "freeze update failed")
        end
    | _, _ => unchanged "Invalid time value" /\ o_store r FreezeNote = None
    end.
Proof.
  intros r unchanged. unfold unchanged, r, applyFreeze.
  destruct (is_empty (v FreezeAt)); [by split_and!|]. cbn [bind set_to run].
  unfold freeze_form. rewrite run_form by solve_setter. unfold iso_date.
  destruct (to_iso (v FreezeAt)) as [start|]; cbn [bind run]; [|by split_and!].
  destruct (is_empty (v UnfreezeAt)); cbn [bind run].
  - rewrite run_freeze. destruct (freeze_of _ _) as [status|e]; by split_and!.
  - destruct (to_iso (v UnfreezeAt)) as [stop|]; cbn [bind run fmap option_fmap option_map];
      [|by split_and!].
    rewrite run_freeze. destruct (freeze_of _ _) as [status|e]; by split_and!.
Qed.
End FreezeFacts.

Module ExportFacts.
Import ExportData.

Lemma free_of_double_quotes c s : c <> dquote -> free_of c s -> free_of c (double_quotes s).
Proof.
  intros Hc. unfold free_of. induction s as [|x s IH]; [done|]. cbn [has_char double_quotes].
  intros [Hx Hs]%orb_false_iff.
  assert (Hq : Ascii.eqb dquote c = false) by (apply Ascii.eqb_neq; congruence).
  destruct (Ascii.eqb x dquote); cbn [has_char]; rewrite ?Hq, ?Hx; by apply IH.
Qed.

(** A line of the file holds no end of line of its own. *)
Lemma csv_row_free row : Forall (free_of LF) row -> free_of LF (csv_row row).
Proof.
  intros H. unfold csv_row.
  assert (Hcell : forall c, free_of LF c -> free_of LF (csv_cell c)).
  { intros c Hc. unfold csv_cell.
    assert (Hn : free_of LF (neutralizeFormula c)).
    { unfold neutralizeFormula. destruct (plainNumber c); [done|].
      destruct (formulaTrigger c); [|done]. by apply (free_of_app _ "'"). }
    destruct (has_char needs_quotes _); [|done].
    apply (free_of_app _ dq); [done|]. apply free_of_app; [|done]. by apply free_of_double_quotes. }
  induction H as [|c row Hc Hrow IH]; [done|]. cbn [fmap list_fmap].
  destruct row as [|d row]; [by apply Hcell|].
  change (free_of LF (csv_cell c ++ₛ "," ++ₛ join "," (csv_cell <$> d :: row))).
  apply free_of_app; [by apply Hcell|]. by apply (free_of_app _ ",").
Qed.

Lemma toCsv_read_back rows :
  rows <> [] -> Forall (fun row => row <> [] /\ Forall (free_of LF) row) rows ->
  splitCsvLine <$> split_on LF (toCsv rows) =
  (fun row => (fun c => trim (neutralizeFormula c)) <$> row) <$> rows.
Proof.
  intros Hne H. unfold toCsv. rewrite split_join.
  - rewrite <- list_fmap_compose. apply list_fmap_ext. intros i row Hrow.
    apply list.list_elem_of_lookup_2 in Hrow.
    destruct (proj1 (list.Forall_forall _ _) H _ Hrow) as [Hr _].
    unfold compose, splitCsvLine. by rewrite split_loop_row.
  - by destruct rows.
  - apply list.Forall_fmap. eapply list.Forall_impl; [exact H|].
    intros row [_ Hrow]. by apply csv_row_free.
Qed.

Definition attack_cells (row : ExportAttackRow) : list string :=
  [xa_id row; xa_attacker row; xa_victim row; xa_service row; num_to_string (xa_tick row); xa_verdict row].

(** The export of the attacks can be read back: the reader of the console finds, under
    the header, one line for every attack in their order, whose cells are those of the
    attack, with the names of teams that would open a formula made harmless.  Names
    and verdicts hold no end of line. *)
Theorem attacks_export_read_back (attacks : list ExportAttackRow) :
  Forall (fun row => Forall (free_of LF) [xa_id row; xa_attacker row; xa_victim row; xa_service row; xa_verdict row] /\
                     safe (xa_tick row) /\ 0 <= xa_tick row) attacks ->
  splitCsvLine <$> split_on LF (attacks_csv attacks) =
  ["id"; "attacker"; "victim"; "service"; "tick"; "verdict"] ::
  ((fun row => (fun c => trim (neutralizeFormula c)) <$> attack_cells row) <$> attacks).
Proof.
  intros H. unfold attacks_csv. rewrite toCsv_read_back.
  - cbn [fmap list_fmap]. f_equal. by rewrite <- list_fmap_compose.
  - done.
  - constructor; [split; [done|repeat constructor]|].
    apply list.Forall_fmap. eapply list.Forall_impl; [exact H|].
    intros row (Hcells & Hs & Hn). unfold compose. split; [done|].
    inversion_clear Hcells as [|? ? H1 R1]. inversion_clear R1 as [|? ? H2 R2].
    inversion_clear R2 as [|? ? H3 R3]. inversion_clear R3 as [|? ? H4 R4]. inversion_clear R4 as [|? ? H5 R5].
    repeat constructor; try done. by apply num_to_string_free.
Qed.

Lemma attacks_export_read_back_witness :
  splitCsvLine <$> split_on LF (attacks_csv [mkExportAttackRow "e1" "=cmd()" "a, b" "vault" 7 "accepted"]) =
  [["id"; "attacker"; "victim"; "service"; "tick"; "verdict"];
   ["e1"; "'=cmd()"; "a, b"; "vault"; "7"; "accepted"]].
Proof.
  apply (attacks_export_read_back [mkExportAttackRow "e1" "=cmd()" "a, b" "vault" 7 "accepted"]).
  repeat constructor; unfold safe; simpl; lia.
Defined.
End ExportFacts.
