(* ===== verification/DashboardData.v ===== *)
(** * Loading the dashboards ([lib/dashboard-data.ts], [lib/admin-dashboard-data.ts], [lib/promise-utils.ts])

    The pages are rendered from calls that are made together and may fail one by
    one: [Promise.allSettled] keeps every outcome, and a fallback replaces what
    failed.  A settled promise is a [Result]. *)

From S2P Require Import Prelude JsString JsNumber DashboardUtils ApiUtils Session PlatformApi DashboardTypes AdminTypes.

Definition isFulfilled {T} (result : Result T) : bool :=
  match result with Done _ => true | Thrown _ => false end.

Definition fulfilledValue {T} (result : Result T) (fallback : T) : T :=
  match result with Done value => value | Thrown _ => fallback end.

(** A value where null is allowed too. *)
Definition result_map {A B} (f : A -> B) (result : Result A) : Result B :=
  match result with Done value => Done (f value) | Thrown e => Thrown e end.

Definition emptyAttackPage {T} (lim : Z) : Page T := mkPage [] lim 0 0 false false.

(** ** The participants' dashboard *)

Record DashboardResultSet := mkDashboardResultSet {
  challengesResult : Result (list Challenge);
  serviceMapResult : Result ServicesResponseData;
  serviceStatesResult : Result (list TeamServiceState);
  gameStatusResult : Result GameStatus;
  scoresResult : Result (list ScoreRow);
  attackPageResult : Result AttackFeedPage;
  freezeResult : Result PublicScoreboardFreeze
}.

Record DashboardLiveData := mkDashboardLiveData {
  dl_challenges : list Challenge;
  dl_serviceMap : ServicesResponseData;
  dl_serviceStates : list TeamServiceState;
  dl_gameStatus : option GameStatus;
  dl_scores : list ScoreRow;
  dl_attackPage : AttackFeedPage;
  dl_freeze : PublicScoreboardFreeze
}.

Record DashboardData := mkDashboardData {
  dd_scores : list ScoreRow;
  dd_attackPage : AttackFeedPage;
  dd_services : list ServiceRow;
  dd_platform : PlatformOverview
}.

(** [calls] is what each call would settle to: the calls about the own services are
    not made without a team. *)
Definition fetchDashboardResults (has_team : bool) (calls : DashboardResultSet) : DashboardResultSet :=
  mkDashboardResultSet (challengesResult calls)
    (if has_team then serviceMapResult calls else Done [])
    (if has_team then serviceStatesResult calls else Done [])
    (gameStatusResult calls) (scoresResult calls) (attackPageResult calls) (freezeResult calls).

Definition no_freeze : PublicScoreboardFreeze := mkPublicScoreboardFreeze false false None None None.

(** [query_limit] is [options.attackQuery?.limit]. *)
Definition readDashboardResults (results : DashboardResultSet) (query_limit : option Z)
    : DashboardLiveData :=
  mkDashboardLiveData
    (fulfilledValue (challengesResult results) [])
    (fulfilledValue (serviceMapResult results) [])
    (fulfilledValue (serviceStatesResult results) [])
    (fulfilledValue (result_map Some (gameStatusResult results)) None)
    (fulfilledValue (scoresResult results) [])
    (fulfilledValue (attackPageResult results) (emptyAttackPage (query_limit ?? 12)))
    (fulfilledValue (freezeResult results) no_freeze).

(** ** Service rows *)

(** [new Map(challenges.map(...))]: a later entry of the same key wins. *)
Definition challengeByID (challenges : list Challenge) : gmap string Challenge :=
  fold_left (fun entries challenge => <[num_to_string (cg_id challenge) := challenge]> entries)
    challenges ∅.

Definition last_part_number (endpoint : string) : num :=
  js_number (List.last (split_on ":"%char endpoint) EmptyString).

Definition in_maintenance (challenge : option Challenge) : bool :=
  match challenge with Some c => cg_maintenance c ?? false | None => false end.

Definition serviceStateToRow (state : TeamServiceState) (challenges : gmap string Challenge)
    : ServiceRow :=
  let key := num_to_string (ts_challenge_id state) in
  let challenge := challenges !! key in
  mkServiceRow ("svc-" ++ₛ key) (num_of_Z (ts_challenge_id state)) (num_of_Z (ts_team_id state))
    (match ts_name state with
     | Some name => name
     | None => match challenge with Some c => cg_name c | None => "challenge-" ++ₛ key end
     end)
    (ts_endpoint state) (last_part_number (ts_endpoint state))
    (ts_status state) (ts_checker state)
    (match challenge with Some c => cg_has_source_download c | None => false end)
    (ts_unlocked state) (ts_ssh_hint state) (ts_last_event state) (ts_reset_cooldown state)
    (ts_maintenance state ?? in_maintenance challenge)
    (match ts_lock_reason state with
     | Some reason => Some reason
     | None => if in_maintenance challenge then Some "maintenance"%string else None
     end)
    (ts_sla_status state ?? "unknown"%string) (ts_sla_phase state ?? EmptyString)
    (ts_sla_tick_id state) (ts_sla_message state ?? "awaiting first checker run"%string).

Definition unavailable : string := "service state endpoint unavailable".

Definition fallbackServiceRow (challengeID ownID : string) (challenge : option Challenge)
    (index : nat) (endpoint : string) : ServiceRow :=
  mkServiceRow ("svc-" ++ₛ challengeID ++ₛ "-" ++ₛ num_to_string (Z.of_nat index + 1))
    (js_number challengeID) (js_number ownID)
    (match challenge with Some c => cg_name c | None => "challenge-" ++ₛ challengeID end)
    endpoint (last_part_number endpoint) "warming" "warning"
    (match challenge with Some c => cg_has_source_download c | None => false end)
    false unavailable unavailable "unknown" (in_maintenance challenge)
    (if in_maintenance challenge then Some "maintenance"%string else None)
    "unknown" EmptyString None unavailable.

Definition fallbackServiceRows (challengeID : string) (endpoints : list string) (ownID : string)
    (challenges : gmap string Challenge) : list ServiceRow :=
  imap (fallbackServiceRow challengeID ownID (challenges !! challengeID)) endpoints.

(** [teams[ownID] ?? []]. *)
Definition own_endpoints (ownID : string) (teams : list (string * list string)) : list string :=
  match find_first (fun entry => String.eqb entry.1 ownID) teams with
  | Some entry => entry.2
  | None => []
  end.

Definition buildServiceRows (data : DashboardLiveData) (ownID : string) : list ServiceRow :=
  let challenges := challengeByID (dl_challenges data) in
  match dl_serviceStates data with
  | [] =>
      bfilter (fun service => negb (is_empty (sv_endpoint service)))
        (mjoin ((fun entry : string * list (string * list string) =>
                   fallbackServiceRows entry.1 (own_endpoints ownID entry.2) ownID challenges)
                <$> dl_serviceMap data))
  | states => (fun state => serviceStateToRow state challenges) <$> states
  end.

(** ** Overview *)

Inductive Source := Live | Degraded.

Definition source_text (source : Source) : string :=
  match source with Live => "live" | Degraded => "degraded" end.

Definition dashboardSource (r : DashboardResultSet) : Source :=
  if isFulfilled (challengesResult r) && isFulfilled (serviceMapResult r) &&
     isFulfilled (serviceStatesResult r) && isFulfilled (gameStatusResult r) &&
     isFulfilled (scoresResult r) && isFulfilled (attackPageResult r) && isFulfilled (freezeResult r)
  then Live else Degraded.

Definition enemy_endpoints (ownID : string) (teams : list (string * list string)) : nat :=
  fold_left (fun count (entry : string * list string) => count + length entry.2)%nat
    (bfilter (fun entry : string * list string => negb (String.eqb entry.1 ownID)) teams) 0%nat.

Definition countEnemyTargets (serviceMap : ServicesResponseData) (ownID : string) : nat :=
  if is_empty ownID then 0%nat
  else fold_left (fun total (entry : string * list (string * list string)) =>
                    total + enemy_endpoints ownID entry.2)%nat serviceMap 0%nat.

Definition session_team (session : ParticipantSession) : Z :=
  match s_claims session with Some claims => v_team_id claims | None => 0 end.

Definition is_organizer (session : ParticipantSession) : bool :=
  match s_claims session with Some claims => String.eqb (v_role claims) "organizer" | None => false end.

Definition dashboardMessage (session : ParticipantSession) (source : Source) : option string :=
  let first :=
    if deactivated session then
      ["Your account or team has been deactivated by the organizers. You are signed out and removed from play. Contact the organizers if you believe this is a mistake."%string]
    else if negb (authenticated session) then
      ["Participant login is required for owned services, unlock, SSH, and reset actions."%string]
    else if (session_team session <=? 0) && negb (is_organizer session) then
      ["Join a team before accessing owned services, unlock, SSH, reset actions, or VPN config."%string]
    else [] in
  let second :=
    match source with
    | Degraded =>
        ["Participant data is partially unavailable. Only live responses that succeeded are shown. No sample data is injected."%string]
    | Live => []
    end in
  match first ++ second with
  | [] => None
  | parts => Some (join " " parts)
  end.

Section Overview.
(** [participantApiBaseUrl()] and [participantRealtimeBaseUrl()]. *)
Variable api_url realtime_url : string.

Definition buildPlatformOverview (session : ParticipantSession) (data : DashboardLiveData)
    (services : list ServiceRow) (ownID : string) (source : Source) : PlatformOverview :=
  let claims := s_claims session in
  let game := dl_gameStatus data in
  let mtch := game ≫= gg_match in
  let scheduler := game ≫= gg_scheduler in
  mkPlatformOverview (source_text source) (dashboardMessage session source)
    (authenticated session) (v_team_id <$> claims) (v_player_id <$> claims) (v_team_name <$> claims)
    (v_team_contact_email <$> claims) (v_display_name <$> claims) (v_email <$> claims)
    (v_role <$> claims)
    (Z.of_nat (length (dl_challenges data))) (Z.of_nat (length services))
    (Z.of_nat (countEnemyTargets (dl_serviceMap data) ownID))
    (gm_state <$> mtch) (gc_state <$> scheduler) (gt_id <$> (game ≫= gg_current_tick))
    (gm_accepting_submissions <$> mtch) (scheduler ≫= gc_next_run_at)
    (gc_interval_seconds <$> scheduler) (scheduler ≫= gc_last_run_at)
    api_url realtime_url (fz_frozen (dl_freeze data)) (fz_freeze_at (dl_freeze data))
    (fz_unfreeze_at (dl_freeze data)).

Definition own_id (session : ParticipantSession) : string :=
  if session_team session =? 0 then EmptyString else num_to_string (session_team session).

Definition has_team (session : ParticipantSession) : bool :=
  authenticated session && (session_team session >? 0).

Definition loadDashboardData (session : ParticipantSession) (calls : DashboardResultSet)
    (query_limit : option Z) : DashboardData :=
  let results := fetchDashboardResults (has_team session) calls in
  let data := readDashboardResults results query_limit in
  let services := buildServiceRows data (own_id session) in
  mkDashboardData (dl_scores data) (dl_attackPage data) services
    (buildPlatformOverview session data services (own_id session) (dashboardSource results)).
End Overview.

(** ** The organizers' dashboard *)

Record AdminResultSet := mkAdminResultSet {
  teamsResult : Result (list AdminTeam);
  playersResult : Result (list AdminPlayer);
  adminChallengesResult : Result (list AdminChallenge);
  deploymentsResult : Result (list AdminDeploymentJob);
  operationsStatusResult : Result AdminOperationsStatus;
  serviceMetricsResult : Result AdminServiceMetricSnapshot;
  adminGameStatusResult : Result AdminGameStatus;
  schedulerEventPageResult : Result AdminSchedulerEventPage;
  checkerRunPageResult : Result AdminCheckerRunPage;
  adminAttackPageResult : Result AdminAttackFeedPage;
  scoreboardResult : Result (list AdminGameScoreRow)
}.

Record AdminLiveData := mkAdminLiveData {
  al_teams : list AdminTeam;
  al_players : list AdminPlayer;
  al_challenges : list AdminChallenge;
  al_deployments : list AdminDeploymentJob;
  al_operationsStatus : AdminOperationsStatus;
  al_serviceMetrics : option AdminServiceMetricSnapshot;
  al_gameStatus : AdminGameStatus;
  al_schedulerEventPage : AdminSchedulerEventPage;
  al_checkerRunPage : AdminCheckerRunPage;
  al_attackPage : AdminAttackFeedPage;
  al_scoreboard : list AdminGameScoreRow
}.

Record AdminOverview := mkAdminOverview {
  ao_source : string;
  ao_message : option string;
  ao_operationsStatus : AdminOperationsStatus;
  ao_operationsAlertCount : nat;
  ao_teamCount : nat;
  ao_playerCount : nat;
  ao_challengeCount : nat;
  ao_publishedChallengeCount : nat;
  ao_deploymentCount : nat;
  ao_pendingDeploymentCount : nat;
  ao_totalTicks : Z;
  ao_scoreboardRows : nat;
  ao_apiBaseUrl : string
}.

Definition emptyGameStatus : AdminGameStatus := mkAdminGameStatus None None None 0 0 0 0 0.
Definition emptyOperationsStatus : AdminOperationsStatus := mkAdminOperationsStatus true "" [].
Definition emptyServiceMetrics : option AdminServiceMetricSnapshot := None.

Definition readAdminDashboardResults (r : AdminResultSet) (query_limit : option Z) : AdminLiveData :=
  mkAdminLiveData
    (fulfilledValue (teamsResult r) []) (fulfilledValue (playersResult r) [])
    (fulfilledValue (adminChallengesResult r) []) (fulfilledValue (deploymentsResult r) [])
    (fulfilledValue (operationsStatusResult r) emptyOperationsStatus)
    (fulfilledValue (result_map Some (serviceMetricsResult r)) emptyServiceMetrics)
    (fulfilledValue (adminGameStatusResult r) emptyGameStatus)
    (fulfilledValue (schedulerEventPageResult r) (emptyAttackPage 12))
    (fulfilledValue (checkerRunPageResult r) (emptyAttackPage 18))
    (fulfilledValue (adminAttackPageResult r) (emptyAttackPage (query_limit ?? 12)))
    (fulfilledValue (scoreboardResult r) []).

Definition adminDashboardSource (r : AdminResultSet) : Source :=
  if isFulfilled (teamsResult r) && isFulfilled (playersResult r) &&
     isFulfilled (adminChallengesResult r) && isFulfilled (deploymentsResult r) &&
     isFulfilled (operationsStatusResult r) && isFulfilled (serviceMetricsResult r) &&
     isFulfilled (adminGameStatusResult r) && isFulfilled (schedulerEventPageResult r) &&
     isFulfilled (checkerRunPageResult r) && isFulfilled (adminAttackPageResult r) &&
     isFulfilled (scoreboardResult r)
  then Live else Degraded.

Section AdminDashboard.
(** [organizerApiBaseUrl()]. *)
Variable organizer_url : string.

Definition buildAdminOverview (data : AdminLiveData) (source : Source) : AdminOverview :=
  mkAdminOverview (source_text source)
    (match source with
     | Degraded => Some "Organizer data is partially unavailable. Only live responses that succeeded are shown. No sample data is injected."%string
     | Live => None
     end)
    (al_operationsStatus data) (length (op_alerts (al_operationsStatus data)))
    (length (al_teams data)) (length (al_players data)) (length (al_challenges data))
    (length (bfilter ch_published (al_challenges data)))
    (length (al_deployments data))
    (length (bfilter (fun job => negb (String.eqb (dj_status job) "completed")) (al_deployments data)))
    (gs_total_ticks (al_gameStatus data)) (length (al_scoreboard data)) organizer_url.

Definition loadAdminDashboardData (results : AdminResultSet) (query_limit : option Z)
    : AdminLiveData * AdminOverview :=
  let data := readAdminDashboardResults results query_limit in
  (data, buildAdminOverview data (adminDashboardSource results)).
End AdminDashboard.

(** ** Identifiers of the rows *)

Definition row_key (challengeID : string) (index : nat) : string :=
  "svc-" ++ₛ challengeID ++ₛ "-" ++ₛ num_to_string (Z.of_nat index + 1).

Lemma app_inv_head_s a b c : a ++ₛ b = a ++ₛ c -> b = c.
Proof. induction a as [|x a IH]; simpl; [done|]. intros [= H]. auto. Qed.

Lemma row_key_inj k1 k2 i1 i2 :
  free_of "-" k1 -> free_of "-" k2 -> safe (Z.of_nat i1 + 1) -> safe (Z.of_nat i2 + 1) ->
  row_key k1 i1 = row_key k2 i2 -> k1 = k2 /\ i1 = i2.
Proof.
  intros H1 H2 S1 S2 H. apply app_inv_head_s in H. simpl in H.
  pose proof (f_equal (split_on "-"%char) H) as Hs.
  rewrite !split_on_app in Hs by done. injection Hs as -> Ht. split; [done|].
  apply app_inv_head_s in H. injection H as H. apply num_to_string_inj in H; [lia|done|done].
Qed.

Lemma fallback_ids challengeID endpoints ownID challenges :
  sv_id <$> fallbackServiceRows challengeID endpoints ownID challenges =
  row_key challengeID <$> seq 0 (length endpoints).
Proof.
  unfold fallbackServiceRows. apply list_eq. intros i.
  rewrite !list_lookup_fmap, list_lookup_imap.
  destruct (endpoints !! i) as [e|] eqn:E; simpl.
  - apply lookup_lt_Some in E. by rewrite lookup_seq_lt.
  - apply lookup_ge_None in E. by rewrite lookup_seq_ge.
Qed.

Lemma fallback_ids_NoDup challengeID n :
  free_of "-" challengeID -> Z.of_nat n < 2 ^ 53 - 1 -> NoDup (row_key challengeID <$> seq 0 n).
Proof.
  intros Hk Hn. apply NoDup_fmap_2_strong; [|apply NoDup_seq].
  intros i j Hi Hj. rewrite !elem_of_seq in *. intros H.
  apply row_key_inj in H as [_ H]; [done|done|done| |]; unfold safe; lia.
Qed.

Definition small {A} (l : list A) : Prop := Z.of_nat (length l) < 2 ^ 53 - 1.

Lemma service_map_ids_NoDup ownID challenges (serviceMap : ServicesResponseData) :
  NoDup serviceMap.*1 -> Forall (fun entry => free_of "-" entry.1) serviceMap ->
  Forall (fun entry => small (own_endpoints ownID entry.2)) serviceMap ->
  NoDup (sv_id <$> mjoin ((fun entry : string * list (string * list string) =>
    fallbackServiceRows entry.1 (own_endpoints ownID entry.2) ownID challenges) <$> serviceMap)).
Proof.
  intros Hn Hfree Hsmall. induction serviceMap as [|[k teams] rest IH]; csimpl; [constructor|].
  apply list.Forall_cons in Hfree as [Hk Hfree], Hsmall as [Hs Hsmall].
  apply list.NoDup_cons in Hn as [Hkn Hn]. simpl in *.
  rewrite fmap_app. apply list.NoDup_app. split_and!.
  - rewrite fallback_ids. by apply fallback_ids_NoDup.
  - intros id Hid Hrest. rewrite fallback_ids in Hid.
    apply list_elem_of_fmap in Hid as (i & -> & Hi). apply elem_of_seq in Hi.
    apply list_elem_of_fmap in Hrest as (row & Hrow & Hin).
    apply list_elem_of_join in Hin as (rows & Hin & Hrows).
    apply list_elem_of_fmap in Hrows as ([k2 teams2] & -> & He). simpl in Hin.
    apply (list_elem_of_fmap_2 sv_id) in Hin. rewrite fallback_ids, <- Hrow in Hin.
    apply list_elem_of_fmap in Hin as (j & Hj & Hjin). apply elem_of_seq in Hjin.
    pose proof (proj1 (list.Forall_forall _ _) Hfree _ He) as Hk2.
    pose proof (proj1 (list.Forall_forall _ _) Hsmall _ He) as Hs2. simpl in Hk2, Hs2.
    unfold small in *. apply row_key_inj in Hj as [-> _]; [|done|done|unfold safe; lia|unfold safe; lia].
    apply Hkn. apply list_elem_of_fmap. by exists (k2, teams2).
  - by apply IH.
Qed.

(** What the payloads of the API look like: distinct challenges, keys that are
    written numbers, and a number of endpoints that can be counted. *)
Record payload_ok (ownID : string) (data : DashboardLiveData) : Prop := {
  states_distinct : NoDup (ts_challenge_id <$> dl_serviceStates data);
  states_safe : Forall (fun state => safe (ts_challenge_id state)) (dl_serviceStates data);
  keys_distinct : NoDup (dl_serviceMap data).*1;
  keys_free : Forall (fun entry => free_of "-" entry.1) (dl_serviceMap data);
  endpoints_small : Forall (fun entry => small (own_endpoints ownID entry.2)) (dl_serviceMap data)
}.

(** The rows of the services have distinct identifiers, whether they come from
    the states of the team's services or from the map of endpoints, so the page
    can use them as keys and the actions can find their row by them. *)
Theorem service_row_ids_distinct data ownID :
  payload_ok ownID data -> NoDup (sv_id <$> buildServiceRows data ownID).
Proof.
  intros [Hd Hs Hk Hf He]. unfold buildServiceRows.
  destruct (dl_serviceStates data) as [|state states] eqn:E.
  - apply NoDup_fmap_bfilter. by apply service_map_ids_NoDup.
  - rewrite <- E in *. clear E. rewrite <- list_fmap_compose.
    rewrite <- (list_fmap_ext (fun state => "svc-" ++ₛ num_to_string (ts_challenge_id state))) by done.
    induction (dl_serviceStates data) as [|st sts IH]; csimpl; [constructor|].
    apply list.Forall_cons in Hs as [Hst Hs]. csimpl in Hd.
    apply list.NoDup_cons in Hd as [Hin Hd]. constructor; [|by apply IH].
    intros H. apply Hin. apply list_elem_of_fmap in H as (st2 & Heq & H2).
    apply (app_inv_head_s "svc-") in Heq.
    apply num_to_string_inj in Heq; [|done|].
    + rewrite Heq. apply list_elem_of_fmap. eauto.
    + by eapply (proj1 (list.Forall_forall _ _) Hs).
Qed.

(** ** What a failed call costs *)

Definition all_made_calls_fulfilled (session : ParticipantSession) (calls : DashboardResultSet) : Prop :=
  is_Some (match challengesResult calls with Done v => Some v | _ => None end) /\
  (has_team session = true ->
     is_Some (match serviceMapResult calls with Done v => Some v | _ => None end) /\
     is_Some (match serviceStatesResult calls with Done v => Some v | _ => None end)) /\
  is_Some (match gameStatusResult calls with Done v => Some v | _ => None end) /\
  is_Some (match scoresResult calls with Done v => Some v | _ => None end) /\
  is_Some (match attackPageResult calls with Done v => Some v | _ => None end) /\
  is_Some (match freezeResult calls with Done v => Some v | _ => None end).

Lemma fulfilled_some {T} (r : Result T) :
  isFulfilled r = true <-> is_Some (match r with Done v => Some v | _ => None end).
Proof. destruct r; simpl; split; intros H; eauto; [done|by destruct H]. Qed.

Lemma source_live r :
  dashboardSource r = Live <->
  isFulfilled (challengesResult r) && isFulfilled (serviceMapResult r) &&
     isFulfilled (serviceStatesResult r) && isFulfilled (gameStatusResult r) &&
     isFulfilled (scoresResult r) && isFulfilled (attackPageResult r) &&
     isFulfilled (freezeResult r) = true.
Proof. unfold dashboardSource. by destruct (_ && _). Qed.

(** The participants' dashboard degrades call by call.  It is announced as live
    exactly when every call that was made succeeded; what a successful call
    answered is shown whatever the others did; and without a team no service and no
    target is shown, whatever the team calls would have answered. *)
Theorem dashboard_degrades_by_call api rt session calls lim :
  let data := loadDashboardData api rt session calls lim in
  (po_source (dd_platform data) = "live"%string <-> all_made_calls_fulfilled session calls) /\
  (forall scores, scoresResult calls = Done scores -> dd_scores data = scores) /\
  (forall page, attackPageResult calls = Done page -> dd_attackPage data = page) /\
  (forall freeze, freezeResult calls = Done freeze ->
     po_scoreboardFrozen (dd_platform data) = fz_frozen freeze) /\
  (forall states, has_team session = true -> serviceStatesResult calls = Done states ->
     states <> [] ->
     ((fun row => (sv_status row, sv_unlocked row, sv_endpoint row)) <$> dd_services data) =
     ((fun state => (ts_status state, ts_unlocked state, ts_endpoint state)) <$> states)) /\
  (has_team session = false ->
     dd_services data = [] /\ po_ownServiceCount (dd_platform data) = 0 /\
     po_enemyTargetCount (dd_platform data) = 0).
Proof.
  intros data. unfold data, loadDashboardData.
  cbn [dd_platform dd_scores dd_attackPage dd_services buildPlatformOverview po_source
       po_scoreboardFrozen po_ownServiceCount po_enemyTargetCount].
  split_and!.
  - unfold all_made_calls_fulfilled. rewrite <- !fulfilled_some.
    transitivity (dashboardSource (fetchDashboardResults (has_team session) calls) = Live).
    { by destruct (dashboardSource _). }
    rewrite source_live. unfold fetchDashboardResults.
    cbn [challengesResult serviceMapResult serviceStatesResult gameStatusResult scoresResult
         attackPageResult freezeResult]. rewrite !andb_true_iff.
    destruct (has_team session); simpl; naive_solver.
  - intros scores E. simpl. by rewrite E.
  - intros page E. simpl. by rewrite E.
  - intros freeze E. simpl. by rewrite E.
  - intros states Ht E Hne. unfold buildServiceRows.
    cbn [readDashboardResults dl_serviceStates fetchDashboardResults serviceStatesResult].
    rewrite Ht, E. cbn [fulfilledValue]. set (challenges := challengeByID _). clearbody challenges.
    transitivity ((fun row => (sv_status row, sv_unlocked row, sv_endpoint row)) <$>
                  ((fun state => serviceStateToRow state challenges) <$> states)).
    { by destruct states. }
    by rewrite <- list_fmap_compose.
  - intros Ht. unfold buildServiceRows, countEnemyTargets. simpl. rewrite Ht. simpl.
    split_and!; [done|done|]. by destruct (is_empty _).
Qed.

Lemma fold_left_sum {A} (f : A -> nat) l n :
  fold_left (fun total x => total + f x)%nat l n = (n + sum_list (f <$> l))%nat.
Proof. revert n. induction l as [|x l IH]; intros n; csimpl; [lia|]. rewrite IH. lia. Qed.

Lemma enemy_endpoints_sum ownID teams :
  NoDup teams.*1 ->
  (length (own_endpoints ownID teams) + enemy_endpoints ownID teams)%nat =
  sum_list ((fun entry : string * list string => length entry.2) <$> teams).
Proof.
  unfold enemy_endpoints. rewrite fold_left_sum. simpl.
  induction teams as [|[team endpoints] teams IH]; csimpl; [done|].
  intros [Hin Hn]%list.NoDup_cons. specialize (IH Hn). unfold own_endpoints in *. simpl in *.
  destruct (String.eqb_spec team ownID) as [->|Hne]; csimpl; [|lia].
  assert (Hnone : find_first (fun entry : string * list string => String.eqb entry.1 ownID) teams = None).
  { apply find_first_None, list.Forall_forall. intros [k e] He. simpl. apply String.eqb_neq.
    intros ->. apply Hin, list_elem_of_fmap. by exists (ownID, e). }
  rewrite Hnone in IH. simpl in IH. lia.
Qed.

(** Every published endpoint is either one of the own team's or a target: the
    endpoints of the own team and the enemy targets add up to all endpoints. *)
Theorem targets_and_own_endpoints_add_up serviceMap ownID :
  is_empty ownID = false ->
  Forall (fun entry : string * list (string * list string) => NoDup entry.2.*1) serviceMap ->
  (sum_list ((fun entry : string * list (string * list string) =>
                length (own_endpoints ownID entry.2)) <$> serviceMap) +
   countEnemyTargets serviceMap ownID)%nat =
  sum_list ((fun entry : string * list (string * list string) =>
               sum_list ((fun e : string * list string => length e.2) <$> entry.2)) <$> serviceMap).
Proof.
  intros Hne Hn. unfold countEnemyTargets. rewrite Hne, fold_left_sum. simpl.
  induction serviceMap as [|[challenge teams] rest IH]; csimpl; [done|].
  apply list.Forall_cons in Hn as [Ht Hn]. simpl in Ht.
  specialize (IH Hn). pose proof (enemy_endpoints_sum ownID teams Ht). simpl in *. lia.
Qed.

(** An operations status that cannot be read is shown as healthy and without
    alerts; only the note that the data is partial tells it from a healthy one. *)
Theorem unread_operations_status_shown_healthy url results lim e :
  operationsStatusResult results = Thrown e ->
  let overview := snd (loadAdminDashboardData url results lim) in
  op_healthy (ao_operationsStatus overview) = true /\
  ao_operationsAlertCount overview = 0%nat /\ ao_source overview = "degraded"%string /\
  is_Some (ao_message overview).
Proof.
  intros E. unfold loadAdminDashboardData, buildAdminOverview, readAdminDashboardResults, adminDashboardSource.
  cbn [snd al_operationsStatus ao_operationsStatus ao_operationsAlertCount ao_source ao_message].
  rewrite E. simpl. rewrite !andb_false_r. by eauto.
Qed.

(** ** Concrete checks *)

Section Checks.
Open Scope string_scope.

Definition team_state (challenge : Z) : TeamServiceState :=
  mkTeamServiceState challenge 3 None "10.0.0.3:8080" "stable" "passing" true "hint" "unlocked" ""
    None None None None None None.

Definition two_challenges : ServicesResponseData :=
  [("7", [("3", ["10.0.0.3:80"; "10.0.0.3:81"]); ("4", ["10.0.0.4:80"])]);
   ("71", [("3", ["10.0.1.3:80"])])].
Definition down {T : Type} : Result T := Thrown (OtherError "down").
End Checks.

Lemma service_row_ids_distinct_witness :
  let data := mkDashboardLiveData [] two_challenges [] None [] (mkPage [] 12 0 0 false false) no_freeze in
  sv_id <$> buildServiceRows data "3" = ["svc-7-1"; "svc-7-2"; "svc-71-1"]%string /\
  NoDup (sv_id <$> buildServiceRows data "3").
Proof.
  intros data. split; [reflexivity|]. apply service_row_ids_distinct.
  split; [constructor|constructor| | |].
  - apply (bool_decide_unpack _). vm_compute. exact I.
  - repeat constructor.
  - repeat constructor.
Defined.

Lemma targets_and_own_endpoints_add_up_witness :
  countEnemyTargets two_challenges "3" = 1%nat /\ (3 + countEnemyTargets two_challenges "3" = 4)%nat.
Proof.
  split; [reflexivity|]. apply (targets_and_own_endpoints_add_up two_challenges "3"); [reflexivity|].
  repeat constructor; set_solver.
Defined.

Lemma unread_operations_status_shown_healthy_witness :
  let overview := snd (loadAdminDashboardData "http://api" (mkAdminResultSet down down down down down
    down down down down down down) None) in
  op_healthy (ao_operationsStatus overview) = true.
Proof.
  intros overview.
  exact (proj1 (unread_operations_status_shown_healthy "http://api" (mkAdminResultSet down down down
    down down down down down down down down) None (OtherError "down") eq_refl)).
Defined.
