(* ===== verification/AuditPage.v ===== *)
(** * The audit log of the organizers ([app/admin/audit/page.tsx])

    A page rendered on the server: its filters and its place in the log are read from
    the query of the address, sent to the platform, and written back into the links to
    the pages before and after. *)

From S2P Require Import Prelude JsString JsNumber UrlParams ApiUtils AdminApi DashboardTypes AdminTypes DashboardData.

#[local] Open Scope string_scope.
#[local] Open Scope Z_scope.
#[local] Open Scope list_scope.
#[local] Open Scope js_scope.

(** ** The parameters of the address *)

Inductive ParamValue := One (value : string) | Many (values : list string).

Definition SearchParams : Type := list (string * ParamValue).

Definition param (name : string) (params : SearchParams) : option ParamValue :=
  snd <$> find_first (fun e => String.eqb e.1 name) params.

Definition firstValue (value : option ParamValue) : string :=
  match value with
  | Some (Many values) => head values ?? ""
  | Some (One value) => value
  | None => ""
  end.

Definition parsePositive (value : string) (fallback : Z) : Z :=
  match parse_int value with
  | Some parsed => if parsed <=? 0 then fallback else parsed
  | None => fallback
  end.

(** [Math.max(0, Number.parseInt(value, 10) || 0)]: [None] is [Infinity]. *)
Definition parse_offset (raw : string) : option Z :=
  let '(neg, body) := sign_split (drop_start is_ws raw) in
  let ds := fst (span_digits body) in
  if is_empty ds then Some 0
  else if neg then Some 0
  else round_double (digits_value 0 ds).

Record AuditFilters := mkAuditFilters {
  actorType : string;
  action : string;
  targetType : string;
  au_status : string;
  limit : Z;
  offset : option Z
}.

Definition text_filter (name : string) (params : SearchParams) : string :=
  to_lower (trim (firstValue (param name params))).

Definition read_filters (params : SearchParams) : AuditFilters :=
  mkAuditFilters (text_filter "actor_type" params) (text_filter "action" params)
    (text_filter "target_type" params) (text_filter "status" params)
    (parsePositive (firstValue (param "limit" params)) 25)
    (parse_offset (firstValue (param "offset" params))).

(** ** The call *)

(** [value || undefined]. *)
Definition query_filter (value : string) : QueryValue :=
  match or_undefined value with Some s => QString s | None => QUndefined end.

Definition query_offset (o : option Z) : QueryValue :=
  match o with Some n => QNumber n | None => QString "Infinity" end.

Definition audit_query (f : AuditFilters) : list (string * QueryValue) :=
  [("actor_type", query_filter (actorType f)); ("action", query_filter (action f));
   ("target_type", query_filter (targetType f)); ("status", query_filter (au_status f));
   ("limit", QNumber (limit f)); ("offset", query_offset (offset f))].

(** ** The page *)

Record AdminAuditLog := mkAdminAuditLog {
  log_id : Z;
  log_actor_type : string;
  log_actor : string;
  log_action : string;
  log_target_type : string;
  log_target : string;
  log_status : string;
  log_message : string;
  log_metadata : string;
  log_created_at : string
}.

Record AdminAuditLogPage := mkAdminAuditLogPage {
  ap_items : list AdminAuditLog;
  ap_limit : Z;
  ap_offset : Z;
  ap_total_count : Z;
  ap_has_prev : bool;
  ap_has_next : bool
}.

Definition toneForStatus (status : string) : string :=
  let norm := to_lower (trim status) in
  if String.eqb norm "success" then "tone-success"
  else if String.eqb norm "fail" || String.eqb norm "failed" || String.eqb norm "error" then "tone-danger"
  else "tone-neutral".

Definition set_filter (name value : string) (params : list (string * string)) : list (string * string) :=
  if is_empty value then params else params_set name value params.

(** [sum_to_string None] is the text of [Infinity]. *)
Definition page_params (f : AuditFilters) : list (string * string) :=
  let params := set_filter "actor_type" (actorType f) [] in
  let params := set_filter "action" (action f) params in
  let params := set_filter "target_type" (targetType f) params in
  let params := set_filter "status" (au_status f) params in
  let params := params_set "limit" (num_to_string (limit f)) params in
  params_set "offset" (sum_to_string (Z.max 0 <$> offset f)) params.

Definition buildPageHref (f : AuditFilters) : string := "/admin/audit?" ++ₛ params_to_string (page_params f).

Definition at_offset (o : option Z) (f : AuditFilters) : AuditFilters :=
  mkAuditFilters (actorType f) (action f) (targetType f) (au_status f) (limit f) o.

(** [offset + n], where [Infinity] stays. *)
Definition offset_plus (o : option Z) (n : Z) : option Z := o' ← o; js_add o' n.

Definition previous_offset (f : AuditFilters) : option Z :=
  o ← offset f; Z.max 0 <$> js_sub o (limit f).

Definition next_offset (f : AuditFilters) : option Z := offset_plus (offset f) (limit f).

Record AuditView := mkAuditView {
  overview : AdminOverview;
  shown_from : option Z;
  shown_to : option Z;
  shown_total : Z;
  rows : list AdminAuditLog;
  previous_href : option string;
  next_href : option string
}.

(** The two loads are awaited together: the dashboard's degrades, the log's fails the
    page. *)
Definition AdminAuditPage (dashboard : AdminOverview) (logs : Result AdminAuditLogPage)
    (params : SearchParams) : Result AuditView :=
  let f := read_filters params in
  match logs with
  | Thrown e => Thrown e
  | Done page =>
      let n := Z.of_nat (length (ap_items page)) in
      Done (mkAuditView dashboard
        (if n >? 0 then offset_plus (offset f) 1 else Some 0) (offset_plus (offset f) n)
        (ap_total_count page) (ap_items page)
        (if ap_has_prev page then Some (buildPageHref (at_offset (previous_offset f) f)) else None)
        (if ap_has_next page then Some (buildPageHref (at_offset (next_offset f) f)) else None))
  end.

(** ** What holds *)

(** The parameters that the query of a link gives the page. *)
Definition search_params (ps : list (string * string)) : SearchParams := (fun e => (e.1, One e.2)) <$> ps.

(** A filter as the page keeps it: nothing to trim, in lower case. *)
Definition normal (s : string) : Prop := to_lower (trim s) = s.

Lemma to_lower_drop_start s : drop_start is_ws (to_lower s) = to_lower (drop_start is_ws s).
Proof. induction s as [|c s IH]; [done|]. simpl. rewrite is_ws_lower. by destruct (is_ws c). Qed.

Lemma to_lower_drop_end s : drop_end is_ws (to_lower s) = to_lower (drop_end is_ws s).
Proof.
  induction s as [|c s IH]; [done|]. simpl. rewrite IH, is_ws_lower.
  destruct (drop_end is_ws s) as [|d r]; simpl; [by destruct (is_ws c)|done].
Qed.

Lemma normal_filter s : normal (to_lower (trim s)).
Proof.
  unfold normal.
  assert (H : trim (to_lower (trim s)) = to_lower (trim s)).
  { transitivity (to_lower (trim (trim s))); [|by rewrite trim_idem].
    unfold trim at 1. unfold trim at 2. by rewrite to_lower_drop_start, to_lower_drop_end. }
  by rewrite H, to_lower_idem.
Qed.

(** The parameters of a link, in their order. *)
Lemma page_params_sent f :
  page_params f =
  omap (fun e => if is_empty e.2 then None else Some e)
    [("actor_type", actorType f); ("action", action f); ("target_type", targetType f); ("status", au_status f)] ++
  [("limit", num_to_string (limit f)); ("offset", sum_to_string (Z.max 0 <$> offset f))].
Proof.
  unfold page_params, set_filter. cbn [omap list_omap snd].
  by destruct (is_empty (actorType f)), (is_empty (action f)), (is_empty (targetType f)),
    (is_empty (au_status f)).
Qed.

Lemma param_sent f :
  let p := search_params (page_params f) in
  firstValue (param "actor_type" p) = actorType f /\ firstValue (param "action" p) = action f /\
  firstValue (param "target_type" p) = targetType f /\ firstValue (param "status" p) = au_status f /\
  firstValue (param "limit" p) = num_to_string (limit f) /\
  firstValue (param "offset" p) = sum_to_string (Z.max 0 <$> offset f).
Proof.
  intros p. unfold p. rewrite page_params_sent. cbn [omap list_omap snd].
  destruct (actorType f), (action f), (targetType f), (au_status f); by split_and!.
Qed.

Lemma parse_offset_back n : safe n -> 0 <= n -> parse_offset (num_to_string n) = Some n.
Proof.
  intros Hs Hn. pose proof (parse_int_num_to_string n Hs) as H. unfold parse_int in H. unfold parse_offset.
  rewrite num_to_string_safe in * by done.
  rewrite drop_ws_digits, sign_split_digits in * by (by apply dec_digits).
  destruct (is_empty _); [done|]. by rewrite Z.mul_1_l in H.
Qed.

Lemma parsePositive_back n d : safe n -> 0 < n -> parsePositive (num_to_string n) d = n.
Proof.
  intros Hs Hn. unfold parsePositive. rewrite parse_int_num_to_string by done.
  by rewrite (proj2 (Z.leb_gt n 0) Hn).
Qed.

Lemma parsePositive_pos v d : 0 < d -> 0 < parsePositive v d.
Proof.
  intros Hd. unfold parsePositive. destruct (parse_int v) as [n|]; [|done].
  destruct (Z.leb_spec n 0); lia.
Qed.

(** The links of the audit log keep the filters: whatever the address the page was
    opened with, a link to another place of the log leads to the page with the same
    filters and page size, at that place; and what the platform is asked for is those
    filters. *)
Theorem audit_links_keep_filters params o :
  let f := read_filters params in
  let g := at_offset (Some o) f in
  safe (limit f) -> safe o -> 0 <= o ->
  exists encoded ps,
    buildPageHref g = "/admin/audit?" ++ₛ encoded /\ parse_params encoded = Some ps /\
    read_filters (search_params ps) = g /\
    exists asked, buildQueryString (audit_query g) = "?" ++ₛ asked /\
      parse_params asked = Some (page_params g).
Proof.
  intros f g Hl Ho Hn.
  assert (Hpos : 0 < limit f) by by apply parsePositive_pos.
  exists (params_to_string (page_params g)), (page_params g).
  split_and!; [done|apply parse_params_to_string| |].
  - destruct (param_sent g) as (H1 & H2 & H3 & H4 & H5 & H6).
    unfold read_filters, text_filter. rewrite H1, H2, H3, H4, H5, H6.
    unfold g at 1 2 3 4 5 6, at_offset. cbn [actorType action targetType au_status limit offset fmap option_fmap option_map].
    rewrite Z.max_r by done. cbn [sum_to_string].
    rewrite parsePositive_back, parse_offset_back by done.
    unfold f, read_filters. cbn [actorType action targetType au_status limit].
    unfold text_filter. by rewrite !normal_filter.
  - exists (params_to_string (page_params g)). split; [|apply parse_params_to_string].
    unfold buildQueryString. rewrite (fold_query_entries _ []) by (apply (bool_decide_unpack _); vm_compute; exact I).
    rewrite app_nil_l.
    assert (Hs : sent_entries (audit_query g) = page_params g).
    { rewrite page_params_sent. unfold g, at_offset, audit_query, query_filter, or_undefined.
      cbn [actorType action targetType au_status limit offset fmap option_fmap option_map query_offset].
      rewrite Z.max_r by done. cbn [sum_to_string].
      destruct (actorType f), (action f), (targetType f), (au_status f); reflexivity. }
    rewrite Hs. destruct (is_empty _) eqn:E; [|done].
    apply params_to_string_empty in E. rewrite page_params_sent in E. by destruct (omap _ _).
Qed.

Lemma audit_links_keep_filters_witness :
  let params := [("actor_type", One " Team "); ("action", Many ["service.unlock & more"; "x"]); ("limit", One "50")] in
  let g := at_offset (Some 100) (read_filters params) in
  g = mkAuditFilters "team" "service.unlock & more" "" "" 50 (Some 100) /\
  exists encoded ps, buildPageHref g = "/admin/audit?" ++ₛ encoded /\ parse_params encoded = Some ps /\
    read_filters (search_params ps) = g.
Proof.
  intros params g. split; [reflexivity|].
  destruct (audit_links_keep_filters params 100) as (encoded & ps & H1 & H2 & H3 & _);
    [reflexivity|reflexivity|discriminate|].
  exists encoded, ps. repeat split; assumption.
Defined.

(** ** The page and the platform together

    The gateway reads the query of the call ([internal/services/apigateway/server_admin.go])
    and takes the page out of the entries that match its filters, newest first
    ([store_postgres.go]); which entries match is the database's matter. *)

(** [strconv.Atoi]. *)
Definition atoi (s : string) : option Z :=
  let '(neg, body) := sign_split s in
  let n := (if neg then -1 else 1) * digits_value 0 body in
  if is_empty body || has_char (fun c => negb (is_digit c)) body then None
  else if (- 2 ^ 63 <=? n) && (n <? 2 ^ 63) then Some n else None.

(** [strings.TrimSpace(r.URL.Query().Get(key))]. *)
Definition query_get (key : string) (ps : list (string * string)) : string :=
  trim (firstValue (param key (search_params ps))).

Definition parseAdminPositiveQueryInt (ps : list (string * string)) (key : string) (fallback max : Z) : Z :=
  match atoi (query_get key ps) with
  | Some parsed =>
      if parsed <=? 0 then fallback
      else if (max >? 0) && (parsed >? max) then max else parsed
  | None => fallback
  end.

Definition parseAdminNonNegativeQueryInt (ps : list (string * string)) (key : string) : Z :=
  match atoi (query_get key ps) with
  | Some parsed => if parsed <? 0 then 0 else parsed
  | None => 0
  end.

(** The filters of the database: actor type, action, target type and status. *)
Definition LogFilters : Type := string * string * string * string.

Record adminAuditLogQuery := mkAdminAuditLogQuery {
  q_Limit : Z;
  q_Offset : Z;
  q_filters : LogFilters
}.

Definition parseAdminAuditLogQuery (ps : list (string * string)) : adminAuditLogQuery :=
  mkAdminAuditLogQuery (parseAdminPositiveQueryInt ps "limit" 25 200)
    (parseAdminNonNegativeQueryInt ps "offset")
    (to_lower (query_get "actor_type" ps), to_lower (query_get "action" ps),
     to_lower (query_get "target_type" ps), to_lower (query_get "status" ps)).

Section Platform.
(** The entries that match, newest first, and the overview of the frame. *)
Variable matching : LogFilters -> list AdminAuditLog.
Variable dashboard : AdminOverview.

Definition ListAdminAuditLogs (query : adminAuditLogQuery) : AdminAuditLogPage :=
  let limit := if q_Limit query <=? 0 then 25 else q_Limit query in
  let offset := if q_Offset query <? 0 then 0 else q_Offset query in
  let entries := matching (q_filters query) in
  let totalCount := Z.of_nat (length entries) in
  mkAdminAuditLogPage (take (Z.to_nat limit) (drop (Z.to_nat offset) entries)) limit offset totalCount
    (offset >? 0) (offset + limit <? totalCount).

(** The parameters of an address: what follows its question mark. *)
Fixpoint after_mark (url : string) : option string :=
  match url with
  | EmptyString => None
  | String c rest => if Ascii.eqb c "?" then Some rest else after_mark rest
  end.

Definition address (url : string) : list (string * string) :=
  match after_mark url with Some encoded => parse_params encoded ?? [] | None => [] end.

(** What the platform answers to the page's call. *)
Definition answered (params : SearchParams) : AdminAuditLogPage :=
  ListAdminAuditLogs (parseAdminAuditLogQuery
    (address ("/api/v2/admin/audit-logs" ++ₛ buildQueryString (audit_query (read_filters params))))).

(** The page at an address, and at the address of a link. *)
Definition audit_page (params : SearchParams) : Result AuditView :=
  AdminAuditPage dashboard (Done (answered params)) params.

Definition followed (href : string) : SearchParams := search_params (address href).

(** The rows that are shown when the links to the next page are followed to the end, in at
    most so many pages. *)
Fixpoint browse (fuel : nat) (params : SearchParams) : list AdminAuditLog :=
  match fuel, audit_page params with
  | S fuel, Done view =>
      rows view ++ match next_href view with Some href => browse fuel (followed href) | None => [] end
  | _, _ => []
  end.

Definition log_filters (f : AuditFilters) : LogFilters := (actorType f, action f, targetType f, au_status f).

(** *** What the gateway reads *)

Lemma atoi_back n : safe n -> 0 <= n -> atoi (num_to_string n) = Some n.
Proof.
  intros Hs Hn. rewrite num_to_string_safe by done. unfold atoi.
  pose proof (dec_digits n Hn) as Hd.
  rewrite sign_split_digits, dec_nonempty by done. unfold all_digits in Hd. rewrite Hd. cbn [orb].
  rewrite dec_value, Z.mul_1_l by done. unfold safe in Hs.
  rewrite (proj2 (Z.leb_le _ _)), (proj2 (Z.ltb_lt _ _)) by lia. done.
Qed.

Lemma trim_number n : safe n -> 0 <= n -> trim (num_to_string n) = num_to_string n.
Proof.
  intros Hs Hn. rewrite num_to_string_safe by done. by apply trim_no_ws, all_digits_no_ws, dec_digits.
Qed.

Lemma sent_query g :
  (forall c, c ∈ [actorType g; action g; targetType g; au_status g] -> normal c) ->
  0 < limit g -> safe (limit g) -> forall o, offset g = Some o -> safe o -> 0 <= o ->
  parseAdminAuditLogQuery (page_params g) = mkAdminAuditLogQuery (Z.min 200 (limit g)) o (log_filters g).
Proof.
  intros Hn Hl Hls o Ho Hs Hpos. destruct (param_sent g) as (H1 & H2 & H3 & H4 & H5 & H6).
  unfold parseAdminAuditLogQuery, parseAdminPositiveQueryInt, parseAdminNonNegativeQueryInt, query_get.
  rewrite H1, H2, H3, H4, H5, H6, Ho. cbn [fmap option_fmap option_map sum_to_string].
  rewrite Z.max_r, !trim_number, !atoi_back by (done || lia).
  rewrite (proj2 (Z.leb_gt _ _)), (proj2 (Z.ltb_ge o 0)) by lia. change (200 >? 0) with true. cbn [andb].
  unfold log_filters. unfold normal in Hn. rewrite !Hn by set_solver. f_equal.
  rewrite Z.gtb_ltb. destruct (Z.ltb_spec 200 (limit g)); lia.
Qed.
Lemma filters_normal params c :
  let f := read_filters params in c ∈ [actorType f; action f; targetType f; au_status f] -> normal c.
Proof.
  intros f. unfold f, read_filters. cbn [actorType action targetType au_status]. unfold text_filter.
  intros H. repeat (apply elem_of_cons in H as [->|H]; [apply normal_filter|]). inversion H.
Qed.

(** The platform is asked for what the page's filters say, 200 rows at most. *)
Lemma answered_with params o :
  let f := read_filters params in
  safe (limit f) -> offset f = Some o -> safe o -> 0 <= o ->
  answered params =
  ListAdminAuditLogs (mkAdminAuditLogQuery (Z.min 200 (limit f)) o (log_filters f)).
Proof.
  intros f Hl Ho Hs Hn.
  assert (Hf : at_offset (Some o) f = f) by (rewrite <-Ho; by destruct f).
  destruct (audit_links_keep_filters params o Hl Hs Hn) as (_ & _ & _ & _ & _ & asked & Hq & Hp).
  fold f in Hq, Hp. rewrite Hf in Hq, Hp.
  unfold answered. fold f. rewrite Hq.
  assert (Ha : address ("/api/v2/admin/audit-logs" ++ₛ "?" ++ₛ asked) = page_params f).
  { unfold address. cbn [append after_mark Ascii.eqb Bool.eqb]. by rewrite Hp. }
  rewrite Ha, (sent_query f) with (o := o); [done| |by apply parsePositive_pos|done|done|done|done].
  intros c. apply filters_normal.
Qed.

(** The link to a place of the log leads to the page there. *)
Lemma followed_link params o :
  let g := at_offset (Some o) (read_filters params) in
  safe (limit (read_filters params)) -> safe o -> 0 <= o ->
  read_filters (followed (buildPageHref g)) = g.
Proof.
  intros g Hl Hs Hn.
  destruct (audit_links_keep_filters params o Hl Hs Hn) as (q & ps & Hq & Hp & Hg & _).
  fold g in Hq, Hg. rewrite Hq. unfold followed, address.
  cbn [append after_mark Ascii.eqb Bool.eqb]. by rewrite Hp.
Qed.

Lemma js_add_safe a b : safe (a + b) -> js_add a b = Some (a + b).
Proof. intros H. unfold js_add. by apply round_double_safe. Qed.

(** A page of the log: the rows, and the links. *)
Lemma page_at params o :
  let f := read_filters params in
  let entries := matching (log_filters f) in
  let n := Z.min 200 (limit f) in
  safe (limit f) -> offset f = Some o -> safe (o + limit f) -> 0 <= o ->
  exists view, audit_page params = Done view /\
    rows view = take (Z.to_nat n) (drop (Z.to_nat o) entries) /\
    previous_href view =
      (if o >? 0 then Some (buildPageHref (at_offset (Some (Z.max 0 (o - limit f))) f)) else None) /\
    next_href view =
      (if o + n <? Z.of_nat (length entries)
       then Some (buildPageHref (at_offset (Some (o + limit f)) f)) else None).
Proof.
  intros f entries n Hl Ho Hs Hn. assert (Hpos : 0 < limit f) by by apply parsePositive_pos.
  unfold audit_page. rewrite (answered_with params o) by (first [done|unfold safe in *; lia]).
  fold f. unfold AdminAuditPage, ListAdminAuditLogs. cbn [q_Limit q_Offset q_filters].
  fold n entries. rewrite (proj2 (Z.leb_gt n 0)), (proj2 (Z.ltb_ge o 0)) by lia.
  eexists. split; [reflexivity|]. cbn [rows previous_href next_href ap_items ap_has_prev ap_has_next].
  fold f. split_and!; [done| |].
  - unfold previous_offset, js_sub. rewrite Ho. cbn [mbind option_bind].
    by rewrite round_double_safe by (unfold safe in *; lia).
  - unfold next_offset, offset_plus. rewrite Ho. cbn [mbind option_bind]. by rewrite js_add_safe.
Qed.

Hypothesis short_log : forall filters, Z.of_nat (length (matching filters)) + 200 < 2 ^ 53.

Lemma browse_from fuel params o :
  let f := read_filters params in
  let entries := matching (log_filters f) in
  limit f <= 200 -> offset f = Some o -> 0 <= o -> (Z.to_nat o <= length entries)%nat ->
  (length entries < Z.to_nat o + fuel)%nat -> browse fuel params = drop (Z.to_nat o) entries.
Proof.
  revert params o. induction fuel as [|fuel IH]; intros params o f entries Hl Ho Hn Hle Hfuel; [lia|].
  pose proof (short_log (log_filters f)) as Hshort. fold entries in Hshort.
  assert (Hpos : 0 < limit f) by by apply parsePositive_pos.
  destruct (page_at params o) as (view & Hv & Hrows & _ & Hnext);
    [unfold safe; fold f; lia|done|unfold safe; fold f; lia|done|].
  fold f entries in Hrows, Hnext. rewrite Z.min_r in Hrows, Hnext by lia.
  cbn [browse]. rewrite Hv, Hrows, Hnext.
  destruct (Z.ltb_spec (o + limit f) (Z.of_nat (length entries))) as [Hmore|Hend].
  - set (g := at_offset (Some (o + limit f)) f).
    assert (Hg : read_filters (followed (buildPageHref g)) = g).
    { apply followed_link; [unfold safe; fold f; lia|unfold safe; lia|lia]. }
    rewrite (IH _ (o + limit f)); rewrite ?Hg; change (log_filters g) with (log_filters f); fold entries;
      [|done|done|lia|lia|lia].
    replace (Z.to_nat (o + limit f)) with (Z.to_nat o + Z.to_nat (limit f))%nat by lia.
    by rewrite <-drop_drop, take_drop.
  - rewrite app_nil_r. apply take_ge. rewrite length_drop. lia.
Qed.


(** Beyond 200 rows the links leave entries out: the page shows 200 and its link leads on
    by the page size that was asked for. *)
Lemma audit_links_skip params :
  let f := read_filters params in
  let entries := matching (log_filters f) in
  200 < limit f -> safe (limit f + limit f) -> offset f = Some 0 ->
  limit f < Z.of_nat (length entries) ->
  exists view href view', audit_page params = Done view /\ rows view = take 200 entries /\
    next_href view = Some href /\ audit_page (followed href) = Done view' /\
    rows view' = take 200 (drop (Z.to_nat (limit f)) entries).
Proof.
  intros f entries Hl Hs Ho Hlen. unfold safe in Hs.
  destruct (page_at params 0) as (view & Hv & Hrows & _ & Hnext);
    [unfold safe; fold f; lia|done|unfold safe; fold f; lia|done|].
  fold f entries in Hrows, Hnext. rewrite Z.min_l in Hrows, Hnext by lia.
  rewrite (proj2 (Z.ltb_lt _ _)) in Hnext by lia. rewrite Z.add_0_l in Hnext.
  set (g := at_offset (Some (limit f)) f) in *.
  assert (Hg : read_filters (followed (buildPageHref g)) = g).
  { apply followed_link; [unfold safe; fold f; lia|unfold safe; lia|lia]. }
  destruct (page_at (followed (buildPageHref g)) (limit f)) as (view' & Hv' & Hrows' & _);
    rewrite ?Hg; change (limit g) with (limit f); [unfold safe; lia|done|unfold safe; lia|lia|].
  exists view, (buildPageHref g), view'. split_and!; [done|done|done|done|].
  rewrite Hrows', Hg. change (log_filters g) with (log_filters f). change (limit g) with (limit f).
  fold entries. by rewrite Z.min_l by lia.
Qed.
End Platform.

