(* ===== verification/OrganizerState.v ===== *)
(** * State of the organizer dashboard ([components/admin/use-organizer-dashboard.ts])

    The types, the filters, the cells of the hook and the payloads it receives,
    the values derived at each render, and the query strings of its feeds. *)

From S2P Require Import Prelude JsString JsNumber DashboardUtils ApiUtils PlatformApi ReactRuntime ReactRules AdminTypes.

(** ** Filters *)

Record CheckerRunFilters := mkCheckerRunFilters {
  k_limit : string;
  k_offset : string;
  k_tickId : string;
  k_teamId : string;
  k_challengeId : string;
  k_phase : string;
  k_status : string
}.

Record SchedulerEventFilters := mkSchedulerEventFilters {
  e_limit : string;
  e_offset : string;
  e_eventType : string;
  e_source : string;
  e_state : string
}.

Definition defaultCheckerRunFilters : CheckerRunFilters :=
  mkCheckerRunFilters "18" "0" "" "" "" "" "".

Definition baseAttackFilters : AttackFilters := mkAttackFilters "12" "0" "" "" "" "" "".

Definition defaultSchedulerEventFilters : SchedulerEventFilters :=
  mkSchedulerEventFilters "12" "0" "" "" "".

(** [{ ...filters, offset }]. *)
Definition checker_offset (o : string) (f : CheckerRunFilters) : CheckerRunFilters :=
  mkCheckerRunFilters (k_limit f) o (k_tickId f) (k_teamId f) (k_challengeId f) (k_phase f)
    (k_status f).

Definition scheduler_offset (o : string) (f : SchedulerEventFilters) : SchedulerEventFilters :=
  mkSchedulerEventFilters (e_limit f) o (e_eventType f) (e_source f) (e_state f).

Definition isDefaultCheckerRunFilters (filters : CheckerRunFilters) : bool :=
  String.eqb (k_limit filters) (k_limit defaultCheckerRunFilters) &&
  String.eqb (k_offset filters) (k_offset defaultCheckerRunFilters) &&
  blank (k_tickId filters) && blank (k_teamId filters) && blank (k_challengeId filters) &&
  blank (k_phase filters) && blank (k_status filters).

Definition isDefaultSchedulerEventFilters (filters : SchedulerEventFilters) : bool :=
  String.eqb (e_limit filters) (e_limit defaultSchedulerEventFilters) &&
  String.eqb (e_offset filters) (e_offset defaultSchedulerEventFilters) &&
  blank (e_eventType filters) && blank (e_source filters) && blank (e_state filters).

(** ** Query strings *)

(** [text.trim() || undefined], [text.trim().toLowerCase() || undefined] and
    [n || undefined]. *)
Definition text_value (s : string) : QueryValue := q_str (or_undefined (trim s)).
Definition lower_value (s : string) : QueryValue := q_str (or_undefined (to_lower (trim s))).
Definition nonzero (v : option Z) : option Z := n ← v; if n =? 0 then None else Some n.

Definition buildCheckerRunQuery (filters : CheckerRunFilters) : list (string * QueryValue) :=
  [("limit", q_num (parsePositiveInteger (Some (k_limit filters)) (Some 18) 200));
   ("offset", q_num (parseNonNegativeInteger (Some (k_offset filters))));
   ("tick_id", q_num (parsePositiveInteger (Some (k_tickId filters)) None 0));
   ("team_id", q_num (parsePositiveInteger (Some (k_teamId filters)) None 0));
   ("challenge_id", q_num (parsePositiveInteger (Some (k_challengeId filters)) None 0));
   ("phase", lower_value (k_phase filters));
   ("status", lower_value (k_status filters))]%string.

Definition buildCheckerRunQueryString (filters : CheckerRunFilters) : string :=
  buildQueryString (buildCheckerRunQuery filters).

Definition buildAttackQuery (filters : AttackFilters) : AttackFeedQuery :=
  mkAttackFeedQuery
    (parsePositiveInteger (Some (f_limit filters)) (Some 12) 200)
    (parseNonNegativeInteger (Some (f_offset filters)))
    (or_undefined (trim (f_attacker filters)))
    (or_undefined (trim (f_victim filters)))
    (or_undefined (trim (f_service filters)))
    (nonzero (parseNonNegativeInteger (Some (f_tickFrom filters))))
    (nonzero (parseNonNegativeInteger (Some (f_tickTo filters)))).

Definition buildAttackQueryString (filters : AttackFilters) : string :=
  buildQueryString (feed_entries (buildAttackQuery filters)).

Definition buildSchedulerEventQuery (filters : SchedulerEventFilters)
    : list (string * QueryValue) :=
  [("limit", q_num (parsePositiveInteger (Some (e_limit filters)) (Some 12) 200));
   ("offset", q_num (parseNonNegativeInteger (Some (e_offset filters))));
   ("event_type", lower_value (e_eventType filters));
   ("source", lower_value (e_source filters));
   ("state", lower_value (e_state filters))]%string.

Definition buildSchedulerEventQueryString (filters : SchedulerEventFilters) : string :=
  buildQueryString (buildSchedulerEventQuery filters).

(** ** Drafts, dialogs *)

Record TeamDraft := mkTeamDraft { td_name : string; td_contactEmail : string }.

Record PlayerDraft := mkPlayerDraft {
  pd_teamId : Z;
  pd_displayName : string;
  pd_email : string;
  pd_password : string;
  pd_role : string
}.

Record ChallengeDraft := mkChallengeDraft {
  cd_name : string;
  cd_baselineImage : string;
  cd_checkerImage : string;
  cd_sourceBundlePath : string;
  cd_servicePort : string;
  cd_serviceSubnetOctet : string;
  cd_egressEnabled : bool
}.

Definition emptyTeamDraft : TeamDraft := mkTeamDraft "" "".
Definition emptyChallengeDraft : ChallengeDraft := mkChallengeDraft "" "" "" "" "" "" true.

Inductive TargetKind := KTeam | KPlayer | KChallenge | KDeployment.

Record DeleteTarget := mkDeleteTarget {
  dt_kind : TargetKind;
  dt_id : Z;
  dt_label : string;
  dt_warning : option string
}.

Inductive FormMode := ModeCreate | ModeEdit.
Inductive Entity := ETeam | EPlayer | EChallenge.

(** ** Cells: the [useState] and the [useRef] of the hook *)

Inductive OrganizerCell :=
| TeamRows | PlayerRows | ChallengeRows | DeploymentRows | GameState
| SchedulerEventPageState | CheckerRunPageState | AttackPageState
| ScoreRows | ScoringAudit | ChallengeValidationRows | SelectedWireGuardPeer
| AccessStatus | WireGuardGatewayStatus | OperationsStatusState | ServiceMetricsState
| WireGuardDialogOpen | DeleteTargetState | FormModeState | FormEntityState | EditingId
| PendingAction | ActionError | ActionNote
| TeamDraftState | PlayerDraftState | ChallengeDraftState
| CheckerRunFiltersState | AttackFiltersState | SchedulerEventFiltersState
| HighlightedAttackIDs
| AttacksLiveRef | AttackPageRef | CheckerRunsLiveRef | SchedulerEventsLiveRef
| PendingActionRef | SuppressedUntilRef | LastScoringAuditTickRef | HighlightTimeoutRef.

#[export] Instance OrganizerCell_eq_dec : EqDecision OrganizerCell.
Proof. solve_decision. Defined.

Definition OrganizerCellTy (c : OrganizerCell) : Type :=
  match c with
  | TeamRows => list AdminTeam
  | PlayerRows => list AdminPlayer
  | ChallengeRows => list AdminChallenge
  | DeploymentRows => list AdminDeploymentJob
  | GameState => AdminGameStatus
  | SchedulerEventPageState => AdminSchedulerEventPage
  | CheckerRunPageState => AdminCheckerRunPage
  | AttackPageState | AttackPageRef => AdminAttackFeedPage
  | ScoreRows => list AdminGameScoreRow
  | ScoringAudit => option AdminScoringAudit
  | ChallengeValidationRows => gmap Z AdminChallengeValidationResult
  | SelectedWireGuardPeer => option AdminWireGuardPeer
  | AccessStatus => option AdminControllerAccessStatus
  | WireGuardGatewayStatus => option AdminWireGuardGatewayStatus
  | OperationsStatusState => option AdminOperationsStatus
  | ServiceMetricsState => option AdminServiceMetricSnapshot
  | WireGuardDialogOpen => bool
  | DeleteTargetState => option DeleteTarget
  | FormModeState => option FormMode
  | FormEntityState => option Entity
  | EditingId => option Z
  | PendingAction | ActionError | ActionNote | PendingActionRef => option string
  | TeamDraftState => TeamDraft
  | PlayerDraftState => PlayerDraft
  | ChallengeDraftState => ChallengeDraft
  | CheckerRunFiltersState => CheckerRunFilters
  | AttackFiltersState => AttackFilters
  | SchedulerEventFiltersState => SchedulerEventFilters
  | HighlightedAttackIDs => list string
  | AttacksLiveRef | CheckerRunsLiveRef | SchedulerEventsLiveRef => bool
  | SuppressedUntilRef => Z
  | LastScoringAuditTickRef | HighlightTimeoutRef => option Z
  end.

(** The payloads of the calls. *)
Inductive OrganizerPayload :=
| PTeam | PPlayer | PChallenge | PGatewayStatus | PAccessStatus | POperationsStatus
| PServiceMetrics | PEvidenceReport | PWireGuardPeer | PVoid | PValidation | PDeployment
| PReconcile | PGameStatus | PDeployments | PMatch | PScheduler | PAttackPage
| PCheckerRunPage | PSchedulerEventPage | PScoreRows | PScoringAudit | PTick.

Definition OrganizerPayloadTy (p : OrganizerPayload) : Type :=
  match p with
  | PTeam => AdminTeam
  | PPlayer => AdminPlayer
  | PChallenge => AdminChallenge
  | PGatewayStatus => AdminWireGuardGatewayStatus
  | PAccessStatus => AdminControllerAccessStatus
  | POperationsStatus => AdminOperationsStatus
  | PServiceMetrics => AdminServiceMetricSnapshot
  | PEvidenceReport => AdminRuntimeEvidenceReport
  | PWireGuardPeer => AdminWireGuardPeer
  | PVoid => json
  | PValidation => AdminChallengeValidationResult
  | PDeployment => AdminDeployment
  | PReconcile => AdminReconcileResult
  | PGameStatus => AdminGameStatus
  | PDeployments => list AdminDeploymentJob
  | PMatch => AdminGameMatchStatus
  | PScheduler => AdminGameSchedulerStatus
  | PAttackPage => AdminAttackFeedPage
  | PCheckerRunPage => AdminCheckerRunPage
  | PSchedulerEventPage => AdminSchedulerEventPage
  | PScoreRows => list AdminGameScoreRow
  | PScoringAudit => AdminScoringAudit
  | PTick => AdminGameTickStatus
  end.

#[export] Instance Organizer : App := {
  Cell := OrganizerCell;
  CellTy := OrganizerCellTy;
  Payload := OrganizerPayload;
  PayloadTy := OrganizerPayloadTy
}.

(** ** Initial state *)

Record OrganizerDashboardOptions := mkOrganizerDashboardOptions {
  od_attackPage : AdminAttackFeedPage;
  od_challenges : list AdminChallenge;
  od_checkerRunPage : AdminCheckerRunPage;
  od_deployments : list AdminDeploymentJob;
  od_gameStatus : AdminGameStatus;
  od_operationsStatus : option AdminOperationsStatus;
  od_serviceMetrics : option AdminServiceMetricSnapshot;
  od_players : list AdminPlayer;
  od_schedulerEventPage : AdminSchedulerEventPage;
  od_scoreboard : list AdminGameScoreRow;
  od_teams : list AdminTeam
}.

(** [Object.fromEntries]: the last entry of a key wins. *)
Definition challengeValidationRowsFromChallenges (challenges : list AdminChallenge)
    : gmap Z AdminChallengeValidationResult :=
  fold_left (fun rows challenge =>
    match ch_last_validation challenge with
    | Some v => <[ch_id challenge := v]> rows
    | None => rows
    end) challenges ∅.

Section Options.
Context (options : OrganizerDashboardOptions).

Definition initialAttackFilters : AttackFilters :=
  mkAttackFilters (num_to_string (limit (od_attackPage options)))
    (num_to_string (offset (od_attackPage options)))
    (f_attacker baseAttackFilters) (f_victim baseAttackFilters) (f_service baseAttackFilters)
    (f_tickFrom baseAttackFilters) (f_tickTo baseAttackFilters).

Definition initial_store : Store := fun c =>
  match c return OrganizerCellTy c with
  | TeamRows => od_teams options
  | PlayerRows => od_players options
  | ChallengeRows => od_challenges options
  | DeploymentRows => od_deployments options
  | GameState => od_gameStatus options
  | SchedulerEventPageState => od_schedulerEventPage options
  | CheckerRunPageState => od_checkerRunPage options
  | AttackPageState => od_attackPage options
  | AttackPageRef => od_attackPage options
  | ScoreRows => od_scoreboard options
  | ScoringAudit => None
  | ChallengeValidationRows => challengeValidationRowsFromChallenges (od_challenges options)
  | SelectedWireGuardPeer => None
  | AccessStatus => None
  | WireGuardGatewayStatus => None
  | OperationsStatusState => od_operationsStatus options
  | ServiceMetricsState => od_serviceMetrics options
  | WireGuardDialogOpen => false
  | DeleteTargetState => None
  | FormModeState => None
  | FormEntityState => None
  | EditingId => None
  | PendingAction => None
  | ActionError => None
  | ActionNote => None
  | PendingActionRef => None
  | TeamDraftState => emptyTeamDraft
  | PlayerDraftState => mkPlayerDraft 0 "" "" "" "member"
  | ChallengeDraftState => emptyChallengeDraft
  | CheckerRunFiltersState => defaultCheckerRunFilters
  | AttackFiltersState => initialAttackFilters
  | SchedulerEventFiltersState => defaultSchedulerEventFilters
  | HighlightedAttackIDs => []
  | AttacksLiveRef => true
  | CheckerRunsLiveRef => true
  | SchedulerEventsLiveRef => true
  | SuppressedUntilRef => 0
  | LastScoringAuditTickRef => None
  | HighlightTimeoutRef => None
  end.

(** ** Derived values *)

Record OrganizerSummary := mkOrganizerSummary {
  sum_pendingDeployments : nat;
  sum_pendingDrafts : nat;
  sum_players : nat;
  sum_publishedChallenges : nat;
  sum_teams : nat;
  sum_totalTicks : Z
}.

Definition summary (v : Store) : OrganizerSummary :=
  mkOrganizerSummary
    (length (bfilter (fun d => negb (String.eqb (dj_status d) "completed")) (v DeploymentRows)))
    (length (bfilter (fun c => negb (ch_published c)) (v ChallengeRows)))
    (length (v PlayerRows))
    (length (bfilter ch_published (v ChallengeRows)))
    (length (v TeamRows))
    (gs_total_ticks (v GameState)).

Definition checkerRunsLiveMode (v : Store) : bool :=
  isDefaultCheckerRunFilters (v CheckerRunFiltersState).

Definition attackRealtimeEnabled : bool := String.eqb (f_offset initialAttackFilters) "0".

Definition attacksLiveMode (v : Store) : bool :=
  attackRealtimeEnabled &&
  isDefaultAttackFilters (v AttackFiltersState) initialAttackFilters.

Definition schedulerEventsLiveMode (v : Store) : bool :=
  isDefaultSchedulerEventFilters (v SchedulerEventFiltersState).

(** The effects that copy a rendered value into a ref. *)
Definition sync_refs (s : Store) : Store :=
  upd PendingActionRef (fun _ => s PendingAction)
    (upd SchedulerEventsLiveRef (fun _ => schedulerEventsLiveMode s)
      (upd CheckerRunsLiveRef (fun _ => checkerRunsLiveMode s)
        (upd AttackPageRef (fun _ => s AttackPageState)
          (upd AttacksLiveRef (fun _ => attacksLiveMode s) s)))).
End Options.

(** ** A small dashboard

    Two teams, a player, a draft challenge, for the concrete checks. *)
Section Sample.
Open Scope string_scope.

Definition sample_team (id : Z) (name : string) : AdminTeam :=
  mkAdminTeam id name "team@example.org" "key" 1 0 true None None.

Definition sample_player : AdminPlayer :=
  mkAdminPlayer 7 1 "alpha" "ada" "ada@example.org" "captain" "peer-7" "10.0.0.7" "active"
    "2024-01-01" None "2024-01-01" true None.

Definition sample_game : AdminGameStatus := mkAdminGameStatus None None None 0 0 0 0 0.

Definition sample_options : OrganizerDashboardOptions :=
  mkOrganizerDashboardOptions (mkPage [] 12 0 0 false false) [] (mkPage [] 18 0 0 false false) [] sample_game None None
    [sample_player] (mkPage [] 12 0 0 false false) [] [sample_team 1 "alpha"; sample_team 2 "beta"].

(** A browser that answers the creation of a team and the deletions. *)
Definition online : Oracle := fun t o =>
  match o return Answer o with
  | OpFetch _ p =>
      match p return Result (Response (PayloadTy p)) with
      | PTeam => reply (sample_team 3 "gamma")
      | PVoid => reply JNull
      | _ => Thrown (OtherError "offline")
      end
  | o => offline t o
  end.
End Sample.
