(* ===== verification/Drafts.v ===== *)
(** * Forms of the organizer dashboard ([components/admin/organizer-dashboard-sections.tsx])

    The validation of the team, player and challenge drafts, which decides whether
    the dialog offers to submit, and the fields of the schedule, which hold a date
    and a time in one text. *)

From S2P Require Import Prelude JsString JsNumber ApiUtils DashboardTypes AdminTypes OrganizerState.

#[local] Open Scope string_scope.
#[local] Open Scope Z_scope.
#[local] Open Scope js_scope.

(** ** Results of a validation *)

(** [errors], and [fieldErrors] with the last message of each field. *)
Record DraftValidation := mkDraftValidation {
  errors : list string;
  fieldErrors : gmap string string
}.

Definition no_errors : DraftValidation := mkDraftValidation [] ∅.

(** [if (test) { fieldErrors[name] = hint; errors.push(message) }]. *)
Definition refuse_if (test : bool) (name hint message : string) (validation : DraftValidation)
    : DraftValidation :=
  if test then mkDraftValidation (errors validation ++ [message]) (<[name := hint]> (fieldErrors validation))
  else validation.

(** ** Team and player drafts *)

(** A dot with something before it and something after it. *)
Fixpoint dot_inside (seen : bool) (domain : string) : bool :=
  match domain with
  | EmptyString => false
  | String c r => (Ascii.eqb c "." && seen && negb (is_empty r)) || dot_inside true r
  end.

(** The pattern of an address: one [@], no white space, and a dot inside the
    domain. *)
Definition email_shape (email : string) : bool :=
  match split_on "@"%char email with
  | [local; domain] =>
      negb (is_empty local) && negb (has_char is_ws local) &&
      negb (has_char is_ws domain) && dot_inside false domain
  | _ => false
  end.

Definition check_email (raw name empty_hint empty_message message : string)
    (validation : DraftValidation) : DraftValidation :=
  let email := trim raw in
  if is_empty email then refuse_if true name empty_hint empty_message validation
  else refuse_if (negb (email_shape email)) name "Enter a valid email address." message validation.

Definition validateTeamDraft (draft : TeamDraft) : DraftValidation :=
  check_email (td_contactEmail draft) "contactEmail" "Enter a contact email."
    "Contact email is required." "Contact email must be a valid email address."
    (refuse_if (blank (td_name draft)) "name" "Enter a team name." "Team name is required." no_errors).

Definition is_create (mode : option FormMode) : bool :=
  match mode with Some ModeCreate => true | _ => false end.

Definition check_password (draft : PlayerDraft) (validation : DraftValidation) : DraftValidation :=
  if blank (pd_password draft)
  then refuse_if true "password" "Enter a password." "Password is required." validation
  else refuse_if (js_length (pd_password draft) <? 8) "password" "Use at least 8 characters."
         "Password must be at least 8 characters." validation.

Definition validatePlayerDraft (draft : PlayerDraft) (mode : option FormMode) : DraftValidation :=
  let v1 := refuse_if (is_create mode && (pd_teamId draft <=? 0)) "teamId" "Select a team."
              "Team selection is required." no_errors in
  let v2 := refuse_if (blank (pd_displayName draft)) "displayName" "Enter a display name."
              "Display name is required." v1 in
  let v3 := check_email (pd_email draft) "email" "Enter an email address." "Email is required."
              "Email must be a valid email address." v2 in
  let v4 := if is_create mode then check_password draft v3 else v3 in
  refuse_if (negb (String.eqb (pd_role draft) "member") && negb (String.eqb (pd_role draft) "captain"))
    "role" "Select a valid role." "Role must be member or captain." v4.

(** ** Challenge drafts *)

(** Null is [None], and a text that is not digits is NaN. *)
Definition parseOptionalInteger (raw : string) : option num :=
  let trimmed := trim raw in
  if is_empty trimmed then None
  else if has_char (fun c => negb (is_digit c)) trimmed then Some NaN
  else Some (js_number trimmed).

Definition nextChallengeID (challengeRows : list AdminChallenge) : Z :=
  fold_left (fun maxID challenge => Z.max maxID (ch_id challenge)) challengeRows 0 + 1.

Definition bad_bundle_path (path : string) : bool :=
  negb (is_empty path) &&
  (starts_with "/" path || String.eqb path "." || String.eqb path ".." ||
   existsb (fun segment => String.eqb segment "..") (split_on "/"%char path)).

(** [parsed === null || Number.isNaN(parsed) ? fallback : parsed]. *)
Definition parsed_or (parsed : option num) (fallback : Z) : num :=
  match parsed with
  | None | Some NaN => num_of_Z fallback
  | Some n => n
  end.

(** Given, and not a number from 1 to [max]. *)
Definition out_of_range (parsed : option num) (max : Z) : bool :=
  match parsed with
  | None => false
  | Some n => is_nan n || num_leb_Z n 0 || num_gtb_Z n max
  end.

Record ChallengeDraftValidation := mkChallengeDraftValidation {
  effectiveChallengeID : Z;
  effectiveServicePort : num;
  effectiveServiceSubnetOctet : num;
  endpointExample : string;
  challenge_validation : DraftValidation
}.

Definition effective_id (challengeRows : list AdminChallenge) (mode : option FormMode)
    (editingID : option Z) : Z :=
  match mode, editingID with
  | Some ModeEdit, Some id => id
  | _, _ => nextChallengeID challengeRows
  end.

Definition effective_port (draft : ChallengeDraft) (id : Z) : num :=
  parsed_or (parseOptionalInteger (cd_servicePort draft)) (10000 + id).

Definition effective_octet (draft : ChallengeDraft) (id : Z) : num :=
  parsed_or (parseOptionalInteger (cd_serviceSubnetOctet draft)) (Z.max 1 id).

(** The challenge that already has the octet. *)
Definition conflictingChallenge (challengeRows : list AdminChallenge) (editingID : option Z) (octet : num)
    : option AdminChallenge :=
  if negb (is_nan octet) && num_gtb_Z octet 0 && num_leb_Z octet 254 then
    find_first (fun challenge =>
      negb (match editingID with Some id => ch_id challenge =? id | None => false end) &&
      num_eqb (num_of_Z (ch_service_subnet_octet challenge)) octet) challengeRows
  else None.

Section Challenge.
(** [`${n}`] of a number that may not be an integer. *)
Variable number_text : num -> string.

Definition check_conflict (conflict : option AdminChallenge) (octet : num) (validation : DraftValidation)
    : DraftValidation :=
  match conflict with
  | Some c =>
      refuse_if true "serviceSubnetOctet" ("Already assigned to " ++ₛ ch_name c ++ₛ ".")
        ("Subnet octet " ++ₛ number_text octet ++ₛ " is already assigned to " ++ₛ ch_name c ++ₛ ".")
        validation
  | None => validation
  end.

Definition validateChallengeDraft (draft : ChallengeDraft) (challengeRows : list AdminChallenge)
    (mode : option FormMode) (editingID : option Z) (teamRows : list AdminTeam)
    : ChallengeDraftValidation :=
  let id := effective_id challengeRows mode editingID in
  let v1 := refuse_if (blank (cd_name draft)) "name" "Enter a challenge name."
              "Challenge name is required." no_errors in
  let v2 := refuse_if (blank (cd_baselineImage draft)) "baselineImage"
              "Enter the baseline runtime image." "Baseline image is required." v1 in
  let v3 := refuse_if (blank (cd_checkerImage draft)) "checkerImage" "Enter the checker image."
              "Checker image is required." v2 in
  let v4 := refuse_if (bad_bundle_path (trim (cd_sourceBundlePath draft))) "sourceBundlePath"
              "Use a relative path inside AD_CHALLENGE_SOURCE_ROOT."
              "Source bundle path must stay inside AD_CHALLENGE_SOURCE_ROOT." v3 in
  let port := effective_port draft id in
  let octet := effective_octet draft id in
  let v5 := if is_create mode then
              check_conflict (conflictingChallenge challengeRows editingID octet) octet
                (refuse_if (out_of_range (parseOptionalInteger (cd_serviceSubnetOctet draft)) 254)
                   "serviceSubnetOctet" "Enter an octet between 1 and 254."
                   "Subnet octet must be between 1 and 254."
                   (refuse_if (out_of_range (parseOptionalInteger (cd_servicePort draft)) 65535)
                      "servicePort" "Enter a port between 1 and 65535."
                      "Service port must be between 1 and 65535." v4))
            else v4 in
  let team := match teamRows with t :: _ => tm_id t | [] => 101 end in
  mkChallengeDraftValidation id port octet
    ("10.80." ++ₛ number_text octet ++ₛ "." ++ₛ
     num_to_string (if 101 <=? team then team - 90 else 11) ++ₛ ":" ++ₛ number_text port) v5.

(** ** The dialog *)

Definition form_invalid (entity : option Entity) (mode : option FormMode) (team : TeamDraft)
    (player : PlayerDraft) (challenge : ChallengeDraft) (challengeRows : list AdminChallenge)
    (editingID : option Z) (teamRows : list AdminTeam) : bool :=
  let found := match entity with
               | Some ETeam => errors (validateTeamDraft team)
               | Some EPlayer => errors (validatePlayerDraft player mode)
               | Some EChallenge =>
                   errors (challenge_validation
                     (validateChallengeDraft challenge challengeRows mode editingID teamRows))
               | None => []
               end in
  match found with [] => false | _ => true end.

Definition is_submitting (pendingAction : option string) : bool :=
  match pendingAction with
  | Some pending => includes ":create" pending || includes ":update" pending
  | None => false
  end.

Definition submit_disabled (pendingAction : option string) (invalid : bool) : bool :=
  is_submitting pendingAction || invalid.
End Challenge.

(** ** Date and time fields *)

Definition datePartFromDateTimeLocalValue (value : string) : string :=
  if is_empty value then EmptyString else hd EmptyString (split_on "T"%char value).

Definition timePartFromDateTimeLocalValue (value : string) : string :=
  if is_empty value then EmptyString else hd EmptyString (tl (split_on "T"%char value)).

Definition withUpdatedDatePart (currentValue nextDate : string) : string :=
  if is_empty nextDate then EmptyString
  else nextDate ++ₛ "T" ++ₛ str_or (timePartFromDateTimeLocalValue currentValue) "00:00".

Definition withUpdatedTimePart (currentValue nextTime : string) : string :=
  if is_empty nextTime then EmptyString
  else let datePart := datePartFromDateTimeLocalValue currentValue in
       if is_empty datePart then EmptyString else datePart ++ₛ "T" ++ₛ nextTime.

(** ** Accepted drafts *)

Lemma refuse_if_accepts test name hint message v :
  errors (refuse_if test name hint message v) = [] <-> test = false /\ errors v = [].
Proof.
  unfold refuse_if. destruct test; simpl; [|naive_solver].
  split; [|naive_solver]. intros H. by apply app_eq_nil in H as [_ H].
Qed.

Lemma check_email_accepts raw name hint message1 message v :
  errors (check_email raw name hint message1 message v) = [] <->
  email_shape (trim raw) = true /\ errors v = [].
Proof.
  unfold check_email. destruct (is_empty (trim raw)) eqn:E; rewrite refuse_if_accepts.
  - apply is_empty_spec in E. rewrite E. naive_solver.
  - by rewrite negb_false_iff.
Qed.

Lemma check_conflict_accepts nt conflict octet v :
  errors (check_conflict nt conflict octet v) = [] <-> conflict = None /\ errors v = [].
Proof.
  unfold check_conflict. destruct conflict as [c|]; [|naive_solver].
  rewrite refuse_if_accepts. naive_solver.
Qed.

Lemma dot_inside_split seen domain :
  dot_inside seen domain = true ->
  exists a b, domain = a ++ₛ "." ++ₛ b /\ (seen = true \/ is_empty a = false) /\ is_empty b = false.
Proof.
  revert seen. induction domain as [|c r IH]; intros seen; simpl; [done|].
  intros [H|H]%orb_true_iff.
  - rewrite !andb_true_iff in H. destruct H as ((Hc & Hs) & Hr). apply Ascii.eqb_eq in Hc as ->.
    exists EmptyString, r. split_and!; [done|by left|by apply negb_true_iff].
  - destruct (IH _ H) as (a & b & -> & _ & Hb). exists (String c a), b. by split_and!; [|right|].
Qed.

(** What an accepted address looks like. *)
Lemma email_shape_parts email :
  email_shape email = true ->
  exists local a b, email = local ++ₛ "@" ++ₛ a ++ₛ "." ++ₛ b /\
    is_empty local = false /\ is_empty a = false /\ is_empty b = false /\
    has_char is_ws email = false.
Proof.
  unfold email_shape. destruct (split_on "@"%char email) as [|local [|domain [|? ?]]] eqn:E; try done.
  rewrite !andb_true_iff, !negb_true_iff. intros (((Hl & Hw1) & Hw2) & Hd).
  destruct (dot_inside_split _ _ Hd) as (a & b & -> & [?|Ha] & Hb); [done|].
  exists local, a, b. pose proof (join_split "@"%char email) as Hj. rewrite E in Hj.
  cbn [join] in Hj. rewrite <- Hj. split_and!; [done|done|done|done|].
  rewrite has_char_app, Hw1. by rewrite has_char_app, Hw2.
Qed.

(** The dialog offers to create a player only when the draft has a team, a
    name, an address of the right shape once trimmed, a password of at least eight
    characters that is not blank, and one of the two roles; and every such draft is
    accepted. *)
Theorem player_draft_accepted draft :
  errors (validatePlayerDraft draft (Some ModeCreate)) = [] <->
  0 < pd_teamId draft /\ blank (pd_displayName draft) = false /\
  email_shape (trim (pd_email draft)) = true /\
  blank (pd_password draft) = false /\ 8 <= js_length (pd_password draft) /\
  (pd_role draft = "member" \/ pd_role draft = "captain").
Proof.
  unfold validatePlayerDraft. cbn [is_create]. rewrite refuse_if_accepts.
  assert (Hr : negb (String.eqb (pd_role draft) "member") &&
               negb (String.eqb (pd_role draft) "captain") = false <->
               pd_role draft = "member" \/ pd_role draft = "captain").
  { destruct (String.eqb_spec (pd_role draft) "member"), (String.eqb_spec (pd_role draft) "captain");
      naive_solver. }
  rewrite Hr. unfold check_password.
  destruct (blank (pd_password draft)) eqn:Ep; rewrite refuse_if_accepts;
    rewrite check_email_accepts, !refuse_if_accepts, ?Z.ltb_ge; simpl; rewrite ?Z.leb_gt;
    naive_solver.
Qed.

(** ** Numbers of a draft *)

(** A number of a draft that is in range is the integer it is written as. *)
Lemma parsed_in_range raw max n :
  parseOptionalInteger raw = Some n -> out_of_range (Some n) max = false ->
  exists z, n = Finite z 0 /\ js_number raw = Finite z 0 /\ 1 <= z <= max.
Proof.
  unfold parseOptionalInteger. destruct (is_empty (trim raw)) eqn:He; [done|].
  destruct (has_char _ (trim raw)) eqn:Hd; [by intros [= <-]|].
  intros [= <-]. rewrite js_number_trim, <- (js_number_trim raw).
  rewrite (js_number_digits (trim raw)) by done.
  destruct (round_double _) as [z|]; [|done]. unfold out_of_range. simpl.
  rewrite !orb_false_iff. unfold num_leb_Z, num_gtb_Z. simpl. rewrite Z.mul_1_r.
  intros [H1 H2]. exists z. split_and!; [done|done| |].
  - destruct (Z.compare_spec z 0); [done|done|lia].
  - destruct (Z.compare_spec z max); [lia|lia|done].
Qed.

Lemma num_eqb_Finite a b : num_eqb (Finite a 0) (Finite b 0) = (a =? b).
Proof. apply (num_eqb_Z a b). Qed.

Lemma no_conflict challengeRows octet :
  1 <= octet <= 254 -> conflictingChallenge challengeRows None (Finite octet 0) = None ->
  forall c, c ∈ challengeRows -> ch_service_subnet_octet c <> octet.
Proof.
  intros Ho. unfold conflictingChallenge, num_gtb_Z, num_leb_Z. cbn [num_compare_Z is_nan].
  change (octet * 2 ^ 0) with (octet * 1). rewrite Z.mul_1_r. change (0 <=? 0) with true.
  destruct (Z.compare_spec octet 0); [lia|lia|].
  destruct (Z.compare_spec octet 254); cbn [negb andb]; [| |lia];
    rewrite find_first_None, list.Forall_forall; intros Hc c Hin; specialize (Hc c Hin);
    cbn [negb andb] in Hc; unfold num_of_Z in Hc; rewrite num_eqb_Finite in Hc; by apply Z.eqb_neq.
Qed.

Lemma nextChallengeID_pos challengeRows : 1 <= nextChallengeID challengeRows.
Proof.
  unfold nextChallengeID.
  assert (H : forall rows n, 0 <= n ->
    0 <= fold_left (fun maxID challenge => Z.max maxID (ch_id challenge)) rows n).
  { induction rows as [|c rows IH]; intros n Hn; simpl; [done|]. apply IH. lia. }
  specialize (H challengeRows 0). lia.
Qed.

Section Accepted.
Context (number_text : num -> string).

Lemma challenge_accepts draft challengeRows teamRows :
  let id := nextChallengeID challengeRows in
  errors (challenge_validation
    (validateChallengeDraft number_text draft challengeRows (Some ModeCreate) None teamRows)) = [] <->
  conflictingChallenge challengeRows None (effective_octet draft id) = None /\
  out_of_range (parseOptionalInteger (cd_serviceSubnetOctet draft)) 254 = false /\
  out_of_range (parseOptionalInteger (cd_servicePort draft)) 65535 = false /\
  bad_bundle_path (trim (cd_sourceBundlePath draft)) = false /\
  blank (cd_checkerImage draft) = false /\ blank (cd_baselineImage draft) = false /\
  blank (cd_name draft) = false.
Proof.
  intros id. unfold validateChallengeDraft.
  cbn [challenge_validation is_create effective_id].
  rewrite check_conflict_accepts, !refuse_if_accepts. simpl. fold id. naive_solver.
Qed.

Lemma accepted_octet draft challengeRows teamRows :
  let validation :=
    validateChallengeDraft number_text draft challengeRows (Some ModeCreate) None teamRows in
  nextChallengeID challengeRows <= 254 ->
  errors (challenge_validation validation) = [] ->
  exists octet, effectiveServiceSubnetOctet validation = Finite octet 0 /\ 1 <= octet <= 254 /\
    forall c, c ∈ challengeRows -> ch_service_subnet_octet c <> octet.
Proof.
  intros validation Hid H. pose proof (nextChallengeID_pos challengeRows) as Hpos.
  apply challenge_accepts in H as (Hconf & Hoct & _).
  unfold validation, validateChallengeDraft. cbn [effectiveServiceSubnetOctet effective_id].
  unfold effective_octet in *.
  destruct (parseOptionalInteger (cd_serviceSubnetOctet draft)) as [n|] eqn:E.
  - destruct (parsed_in_range _ _ _ E Hoct) as (z & -> & _ & Hz). exists z.
    split_and!; [done|lia|lia|]. by apply no_conflict.
  - simpl in *. exists (Z.max 1 (nextChallengeID challengeRows)).
    assert (Hr : 1 <= Z.max 1 (nextChallengeID challengeRows) <= 254) by lia.
    split_and!; [done|lia|lia|]. by apply no_conflict.
Qed.

(** The dialog offers to create a challenge only when its names and images are
    given, its source path stays inside the source root, its port is a number from
    1 to 65535 when given, and its subnet octet, given or default, lies between 1
    and 254 and belongs to no challenge of the catalog; the default is covered as
    long as the next challenge number is at most 254. *)
Theorem accepted_challenge_draft draft challengeRows teamRows :
  let validation :=
    validateChallengeDraft number_text draft challengeRows (Some ModeCreate) None teamRows in
  nextChallengeID challengeRows <= 254 ->
  errors (challenge_validation validation) = [] ->
  blank (cd_name draft) = false /\ blank (cd_baselineImage draft) = false /\
  blank (cd_checkerImage draft) = false /\
  starts_with "/" (trim (cd_sourceBundlePath draft)) = false /\
  ".." ∉ split_on "/"%char (trim (cd_sourceBundlePath draft)) /\
  (exists port, effectiveServicePort validation = Finite port 0 /\
     1 <= port <= 65535) /\
  (exists octet, effectiveServiceSubnetOctet validation = Finite octet 0 /\ 1 <= octet <= 254 /\
     forall c, c ∈ challengeRows -> ch_service_subnet_octet c <> octet).
Proof.
  intros validation Hid H. pose proof (nextChallengeID_pos challengeRows) as Hpos.
  pose proof (accepted_octet draft challengeRows teamRows Hid H) as Hoctet.
  apply challenge_accepts in H as (_ & _ & Hport & Hpath & Hci & Hbi & Hname).
  unfold bad_bundle_path in Hpath.
  assert (Hp : starts_with "/" (trim (cd_sourceBundlePath draft)) = false /\
               ".." ∉ split_on "/"%char (trim (cd_sourceBundlePath draft))).
  { apply andb_false_iff in Hpath as [He|Hp].
    - apply negb_false_iff, is_empty_spec in He. rewrite He. split; [done|]. set_solver.
    - rewrite !orb_false_iff in Hp. destruct Hp as (((Hp & _) & _) & Hseg).
      split; [done|]. intros Hin. rewrite <- not_true_iff_false in Hseg. apply Hseg.
      apply existsb_exists. exists "..". by rewrite <- list_elem_of_In. }
  destruct Hp as [Hp1 Hp2]. split_and!; try done.
  unfold validation, validateChallengeDraft. cbn [effectiveServicePort effective_id].
  unfold effective_port. destruct (parseOptionalInteger (cd_servicePort draft)) as [n|] eqn:E.
  - destruct (parsed_in_range _ _ _ E Hport) as (z & -> & _ & Hz). by exists z.
  - exists (10000 + nextChallengeID challengeRows). split; [done|lia].
Qed.

(** Past 254 challenges the default octet is not checked: a draft that leaves
    it blank is offered for creation and announced with an octet that no subnet
    can have. *)
Theorem default_octet_unchecked draft challengeRows teamRows :
  254 < nextChallengeID challengeRows ->
  blank (cd_serviceSubnetOctet draft) = true -> blank (cd_servicePort draft) = true ->
  blank (cd_sourceBundlePath draft) = true ->
  blank (cd_name draft) = false -> blank (cd_baselineImage draft) = false ->
  blank (cd_checkerImage draft) = false ->
  let validation :=
    validateChallengeDraft number_text draft challengeRows (Some ModeCreate) None teamRows in
  errors (challenge_validation validation) = [] /\
  effectiveServiceSubnetOctet validation = Finite (nextChallengeID challengeRows) 0.
Proof.
  intros Hid Ho Hp Hs Hn Hb Hc validation. unfold blank in Ho, Hp, Hs.
  assert (Hoct : effective_octet draft (nextChallengeID challengeRows) =
                 Finite (nextChallengeID challengeRows) 0).
  { unfold effective_octet, parseOptionalInteger. rewrite Ho. simpl. by rewrite Z.max_r by lia. }
  split; [|exact Hoct]. apply challenge_accepts. rewrite Hoct.
  unfold parseOptionalInteger, bad_bundle_path. rewrite Ho, Hp, Hs.
  split_and!; try done. unfold conflictingChallenge, num_gtb_Z, num_leb_Z. simpl. rewrite Z.mul_1_r.
  destruct (Z.compare_spec (nextChallengeID challengeRows) 254); [lia|lia|].
  by rewrite andb_false_r.
Qed.
End Accepted.

(** ** Concrete checks *)

Definition catalog_entry (id octet : Z) : AdminChallenge :=
  mkAdminChallenge id "notes" "img" "chk" "" 10001 octet true true false None None None 0 0 "ready" 0 0
    "2024-01-01" None.

Definition challenge_draft (port octet : string) : ChallengeDraft :=
  mkChallengeDraft "shop" "img:1" "chk:1" "bundles/shop" port octet true.

Definition no_number_text (_ : num) : string := "?".

Lemma accepted_challenge_draft_witness :
  let validation := validateChallengeDraft no_number_text (challenge_draft " 8080 " "") [catalog_entry 1 1]
                      (Some ModeCreate) None [] in
  effectiveServicePort validation = Finite 8080 0 /\ effectiveServiceSubnetOctet validation = Finite 2 0 /\
  ".." ∉ split_on "/"%char (trim "bundles/shop").
Proof.
  intros validation. split; [reflexivity|]. split; [reflexivity|].
  apply (accepted_challenge_draft no_number_text (challenge_draft " 8080 " "") [catalog_entry 1 1] []);
    [discriminate|reflexivity].
Defined.

Lemma default_octet_unchecked_witness :
  effectiveServiceSubnetOctet (validateChallengeDraft no_number_text
    (mkChallengeDraft "shop" "img:1" "chk:1" "" "" "" true) [catalog_entry 299 1]
    (Some ModeCreate) None []) = Finite 300 0.
Proof. apply default_octet_unchecked; reflexivity. Defined.
