(* ===== verification/Organizer.v ===== *)
(** * Handlers of the organizer dashboard ([components/admin/use-organizer-dashboard.ts])

    One definition per function of the hook.  A handler reads the state it
    closes over from the view [v], the state as it was rendered when the event
    came; everything it writes goes through the state setters. *)

From S2P Require Import Prelude JsString JsNumber DashboardUtils ApiUtils PlatformApi PlatformRoutes AdminApi ReactRuntime AttackHighlights AdminTypes OrganizerState.

(** ** Updates of the rows *)

(** [{ ...challenge, total_teams: +1 }], with the deployed and ready counts of
    a published challenge. *)
Definition count_new_team (challenge : AdminChallenge) : AdminChallenge :=
  if ch_published challenge then
    mkAdminChallenge (ch_id challenge) (ch_name challenge) (ch_baseline_image challenge)
      (ch_checker_image challenge) (ch_source_bundle_path challenge) (ch_service_port challenge)
      (ch_service_subnet_octet challenge) (ch_egress_enabled challenge) (ch_published challenge)
      (ch_maintenance challenge) (ch_maintenance_at challenge) (ch_play_from_tick challenge)
      (ch_unlock_proof_epoch challenge) (ch_deployed_teams challenge + 1)
      (ch_total_teams challenge + 1) (ch_runtime_status challenge) (ch_queued_teams challenge)
      (ch_ready_teams challenge + 1) (ch_created_at challenge) (ch_last_validation challenge)
  else
    mkAdminChallenge (ch_id challenge) (ch_name challenge) (ch_baseline_image challenge)
      (ch_checker_image challenge) (ch_source_bundle_path challenge) (ch_service_port challenge)
      (ch_service_subnet_octet challenge) (ch_egress_enabled challenge) (ch_published challenge)
      (ch_maintenance challenge) (ch_maintenance_at challenge) (ch_play_from_tick challenge)
      (ch_unlock_proof_epoch challenge) (ch_deployed_teams challenge) (ch_total_teams challenge + 1)
      (ch_runtime_status challenge) (ch_queued_teams challenge) (ch_ready_teams challenge)
      (ch_created_at challenge) (ch_last_validation challenge).

Definition count_new_player (team : AdminTeam) : AdminTeam :=
  mkAdminTeam (tm_id team) (tm_name team) (tm_contact_email team) (tm_join_key team)
    (tm_player_count team + 1) (tm_deployed_challenges team) (tm_active team)
    (tm_deactivated_at team) (tm_play_from_tick team).

Definition count_new_challenge (team : AdminTeam) : AdminTeam :=
  mkAdminTeam (tm_id team) (tm_name team) (tm_contact_email team) (tm_join_key team)
    (tm_player_count team) (tm_deployed_challenges team + 1) (tm_active team)
    (tm_deactivated_at team) (tm_play_from_tick team).

Definition with_peer (peer : AdminWireGuardPeer) (player : AdminPlayer) : AdminPlayer :=
  mkAdminPlayer (pl_id player) (pl_team_id player) (pl_team_name player) (pl_display_name player)
    (pl_email player) (pl_role player) (wg_wireguard_peer peer) (wg_address peer) (wg_status peer)
    (wg_issued_at peer) (wg_revoked_at peer) (pl_created_at player) (pl_active player)
    (pl_deactivated_at player).

Definition mark_deployed (payload : AdminDeployment) (item : AdminChallenge) : AdminChallenge :=
  mkAdminChallenge (ch_id item) (ch_name item) (ch_baseline_image item) (ch_checker_image item)
    (ch_source_bundle_path item) (ch_service_port item) (ch_service_subnet_octet item)
    (ch_egress_enabled item) true (ch_maintenance item) (ch_maintenance_at item)
    (ch_play_from_tick item) (ch_unlock_proof_epoch item) (dp_total_team_count payload)
    (dp_total_team_count payload)
    (if dp_queued_team_count payload >? 0 then "deploying" else "ready")%string
    (dp_queued_team_count payload) (dp_ready_team_count payload) (ch_created_at item)
    (ch_last_validation item).

Definition supersede (at_ : string) (deployment : AdminDeploymentJob) : AdminDeploymentJob :=
  mkAdminDeploymentJob (dj_id deployment) (dj_challenge_id deployment)
    (dj_challenge_name deployment) "superseded" (dj_target_team_count deployment) 0
    (dj_ready_team_count deployment) (dj_failed_team_count deployment) (dj_created_at deployment)
    (Some at_).

(** The job row of a deployment. *)
Definition deployment_row (payload : AdminDeployment) : AdminDeploymentJob :=
  mkAdminDeploymentJob (dp_job_id payload) (dp_challenge_id payload) (dp_challenge_name payload)
    (dp_status payload) (dp_total_team_count payload) (dp_queued_team_count payload)
    (dp_ready_team_count payload) 0 (dp_created_at payload) (dp_completed_at payload).

Definition active_job (deployment : AdminDeploymentJob) : bool :=
  String.eqb (dj_status deployment) "queued" || String.eqb (dj_status deployment) "running".

Definition with_match (m : option AdminGameMatchStatus) (g : AdminGameStatus) : AdminGameStatus :=
  mkAdminGameStatus (gs_current_tick g) m (gs_scheduler g) (gs_total_ticks g)
    (gs_total_checker_runs g) (gs_successful_checker_runs g) (gs_failed_checker_runs g)
    (gs_skipped_checker_runs g).

Definition with_scheduler (sc : option AdminGameSchedulerStatus) (g : AdminGameStatus)
    : AdminGameStatus :=
  mkAdminGameStatus (gs_current_tick g) (gs_match g) sc (gs_total_ticks g)
    (gs_total_checker_runs g) (gs_successful_checker_runs g) (gs_failed_checker_runs g)
    (gs_skipped_checker_runs g).

(** [{ ...(scheduler ?? { interval_seconds: 60 }), state: "stopped", next_run_at: "" }]. *)
Definition stopped_scheduler (scheduler : option AdminGameSchedulerStatus) : AdminGameSchedulerStatus :=
  match scheduler with
  | Some sc => mkAdminGameSchedulerStatus "stopped" (sc_interval_seconds sc) (sc_last_run_at sc)
                 (Some ""%string) (sc_last_tick_id sc) (sc_last_error sc)
  | None => mkAdminGameSchedulerStatus "stopped" 60 None (Some ""%string) None None
  end.

(** The state after a manual tick, rebuilt without the other members. *)
Definition advanced_game (payload : AdminGameTickStatus) (current : AdminGameStatus)
    : AdminGameStatus :=
  mkAdminGameStatus (Some payload) None None
    (Z.max (gs_total_ticks current + 1) (tk_id payload))
    (gs_total_checker_runs current + tk_total_checker_runs payload)
    (gs_successful_checker_runs current + tk_successful_checker_runs payload)
    (gs_failed_checker_runs current + tk_failed_checker_runs payload)
    (gs_skipped_checker_runs current + tk_skipped_checker_runs payload).

(** ** Statements the handlers share *)

(** [setPendingAction(key); setActionError(null); setActionNote(null)]. *)
Definition begin_action (key : string) : Prog unit :=
  set_to PendingAction (Some key) ;;! set_to ActionError None ;;! set_to ActionNote None.

Definition end_action : Prog unit := set_to PendingAction None.
Definition note (text : string) : Prog unit := set_to ActionNote (Some text).

(** [setActionError(error instanceof Error ? error.message : fallback)]. *)
Definition report (fallback : string) (error : JsError) : Prog unit :=
  set_to ActionError (Some (error_message error fallback)).

(** The [begin; try { body } catch { report } finally { end }] of a handler, the
    one of a handler that returns whether it succeeded, and the one of a handler
    that can be silent. *)
Definition action (key fallback : string) (body : Prog unit) : Prog unit :=
  begin_action key ;;! finally (catch body (report fallback)) end_action.

Definition bool_action (key fallback : string) (body : Prog unit) : Prog bool :=
  begin_action key ;;!
  finally (catch (body ;;! Return true) (fun e => report fallback e ;;! Return false)) end_action.

Definition quiet_action (silent : bool) (key fallback : string) (body : Prog unit) : Prog unit :=
  when (negb silent) (begin_action key) ;;!
  finally (catch body (fun e => when (negb silent) (report fallback e)))
    (when (negb silent) end_action).

(** ** Clipboard, downloads, highlights *)

Definition writeTextToClipboard (text : string) : Prog unit :=
  outcome <-! perform (OpClipboard text) ;;
  match outcome with
  | ClipboardWritten => skip
  | ClipboardAbsent | ClipboardRejected =>
      copied <-! perform (OpExecCopy text) ;;
      if copied then skip else Raise (OtherError "clipboard write failed")
  end.

(** The file name in a content disposition: what follows the first [filename=],
    without the quotes, as the regular expression of the handler extracts it. *)
Fixpoint until_quote (s : string) : string :=
  match s with
  | EmptyString => EmptyString
  | String c r => if Ascii.eqb c dquote then EmptyString else String c (until_quote r)
  end.

Definition filename_at (s : string) : option string :=
  if starts_with "filename=" s then
    let r := String.substring 9 (String.length s) s in
    let r' := match r with
              | String c t => if Ascii.eqb c dquote then t else r
              | EmptyString => r
              end in
    or_undefined (until_quote r')
  else None.

Fixpoint disposition_name (s : string) : option string :=
  match filename_at s with
  | Some n => Some n
  | None => match s with EmptyString => None | String _ r => disposition_name r end
  end.

(** [useAttackHighlights], on the cells of this hook. *)
Definition scheduleAttackHighlights : list string -> Prog unit :=
  schedule_highlights (read_ref HighlightTimeoutRef) (set_to HighlightTimeoutRef)
    (set_to HighlightedAttackIDs).
Definition highlightTimeout : Prog unit :=
  highlights_expired (set_to HighlightTimeoutRef) (set_to HighlightedAttackIDs).
Definition clearAttackHighlights : Prog unit :=
  clear_highlights (read_ref HighlightTimeoutRef) (set_to HighlightTimeoutRef)
    (set_to HighlightedAttackIDs).

Section Handlers.
Context (options : OrganizerDashboardOptions).
(** How a number that is not an integer is written in a JSON text. *)
Variable fraction : Z -> Z -> json.

(** ** Refreshing *)

Definition refreshPagedFeed (silent : bool) (actionKey url errorLabel : string) (p : Payload)
    (setPage : PayloadTy p -> Prog unit) (formatNote : PayloadTy p -> string)
    (beforeSet : Prog unit) : Prog unit :=
  quiet_action silent actionKey errorLabel
    (payload <-! fetch_payload (browser_get url) p url ;;
     beforeSet ;;!
     setPage payload ;;!
     when (negb silent) (note (formatNote payload))).

Definition refreshWireGuardGatewayStatus (silent : bool) : Prog unit :=
  refreshPagedFeed silent "wireguard-gateway:status" "/api/admin/wireguard/status"
    "wireguard gateway status failed" PGatewayStatus
    (fun data => set_to WireGuardGatewayStatus (Some data))
    (fun data => "WireGuard gateway is " ++ₛ gw_state data ++ₛ " in " ++ₛ gw_mode data ++ₛ " mode.")
    skip.

Definition refreshAccessStatus (silent : bool) : Prog unit :=
  refreshPagedFeed silent "access:status" "/api/admin/access/status"
    "controller access status failed" PAccessStatus
    (fun data => set_to AccessStatus (Some data))
    (fun data => "Controller access policy is " ++ₛ ac_state data ++ₛ " in " ++ₛ ac_mode data ++ₛ
                 " mode.")
    skip.

Definition refreshOperationsStatus (silent : bool) : Prog unit :=
  quiet_action silent "operations:status" "operations status failed"
    (payload <-! fetch_payload (browser_get "/api/admin/operations/status") POperationsStatus
       "/api/admin/operations/status" ;;
     set_to OperationsStatusState (Some payload) ;;!
     when (negb silent)
       (note (if (length (op_alerts payload) =? 0)%nat then "Runtime operations look healthy."
              else "Loaded " ++ₛ num_to_string (Z.of_nat (length (op_alerts payload))) ++ₛ
                   " runtime alert(s)."))).

Definition refreshServiceMetrics (silent : bool) : Prog unit :=
  quiet_action silent "operations:metrics" "operations metrics failed"
    (payload <-! fetch_payload (browser_get "/api/admin/operations/metrics") PServiceMetrics
       "/api/admin/operations/metrics" ;;
     set_to ServiceMetricsState (Some payload) ;;!
     when (negb silent) (note "Loaded live service metrics.")).

Definition refreshDeploymentRows (silent : bool) : Prog unit :=
  refreshPagedFeed silent "deployments:list" "/api/admin/deployments"
    "deployment list fetch failed" PDeployments
    (fun rows => set_to DeploymentRows rows)
    (fun rows => "Loaded " ++ₛ num_to_string (Z.of_nat (length rows)) ++ₛ " deployment job(s).")
    skip.

Definition refreshRuntimeHealth (silent : bool) : Prog unit :=
  quiet_action silent "runtime:health" "runtime health refresh failed"
    (promise_all [refreshDeploymentRows true; refreshWireGuardGatewayStatus true;
                  refreshAccessStatus true; refreshOperationsStatus true;
                  refreshServiceMetrics true] ;;!
     when (negb silent)
       (note "Refreshed deployment, access policy, WireGuard, runtime alerts, and service metrics.")).

(** [`... (${page.offset + 1}-${page.offset + page.items.length} of ${page.total_count}).`] *)
Definition page_range {T} (page : Page T) : string :=
  "(" ++ₛ sum_to_string (js_add (offset page) 1) ++ₛ "-" ++ₛ
  sum_to_string (js_add (offset page) (Z.of_nat (length (items page)))) ++ₛ " of " ++ₛ
  num_to_string (total_count page) ++ₛ ").".

Definition loaded_rows {T} (page : Page T) (what : string) : string :=
  "Loaded " ++ₛ num_to_string (Z.of_nat (length (items page))) ++ₛ what ++ₛ page_range page.

Definition refreshAttacks (silent : bool) (filters : AttackFilters) : Prog unit :=
  refreshPagedFeed silent "game:attacks"
    ("/api/admin/game/attacks" ++ₛ buildAttackQueryString filters)
    "attack feed fetch failed" PAttackPage
    (fun page => set_to AttackPageState page)
    (fun page => loaded_rows page " accepted attack row(s) ")
    clearAttackHighlights.

Definition refreshCheckerRuns (silent : bool) (filters : CheckerRunFilters) : Prog unit :=
  refreshPagedFeed silent "game:checker-runs"
    ("/api/admin/game/checker-runs" ++ₛ buildCheckerRunQueryString filters)
    "checker runs fetch failed" PCheckerRunPage
    (fun page => set_to CheckerRunPageState page)
    (fun page => loaded_rows page " checker run row(s) from game-core ")
    skip.

Definition refreshSchedulerEvents (silent : bool) (filters : SchedulerEventFilters) : Prog unit :=
  refreshPagedFeed silent "game:scheduler-events"
    ("/api/admin/game/scheduler/events" ++ₛ buildSchedulerEventQueryString filters)
    "scheduler events fetch failed" PSchedulerEventPage
    (fun page => set_to SchedulerEventPageState page)
    (fun page => loaded_rows page " scheduler event row(s) from game-core ")
    skip.

Definition refreshGameScoreboard (silent : bool) : Prog unit :=
  quiet_action silent "game:scoreboard" "scoreboard fetch failed"
    (payload <-! fetch_payload (browser_get "/api/admin/game/scoreboard") PScoreRows
       "/api/admin/game/scoreboard" ;;
     set_to ScoreRows payload ;;!
     when (negb silent)
       (note ("Loaded " ++ₛ num_to_string (Z.of_nat (length payload)) ++ₛ
              " scoreboard row(s) from game-core."))).

Definition recomputeGameScoring (silent : bool) : Prog unit :=
  quiet_action silent "game:scoring" "score recompute failed"
    (payload <-! fetch_payload (browser_call "POST" "/api/admin/game/scoring/recompute") PScoreRows
       "/api/admin/game/scoring/recompute" ;;
     set_to ScoreRows payload ;;!
     when (negb silent)
       (note ("Recomputed " ++ₛ num_to_string (Z.of_nat (length payload)) ++ₛ
              " scoreboard row(s) from authoritative tick and submission state."))).

Definition auditGameScoring (silent : bool) : Prog unit :=
  quiet_action silent "game:scoring-audit" "score audit failed"
    (payload <-! fetch_payload (browser_get "/api/admin/game/scoring/audit") PScoringAudit
       "/api/admin/game/scoring/audit" ;;
     set_to ScoringAudit (Some payload) ;;!
     when (negb silent)
       (note (if String.eqb (au_status payload) "ok"
              then "Score audit passed: " ++ₛ num_to_string (au_replayed_rows payload) ++ₛ
                   " replayed row(s) match the stored scoreboard."
              else "Score audit found " ++ₛ num_to_string (au_mismatch_count payload) ++ₛ
                   " mismatch(es)."))).

Definition maybeAuditCompletedTick (status : AdminGameStatus) : Prog unit :=
  match gs_current_tick status with
  | None => skip
  | Some tick =>
      if negb (String.eqb (tk_status tick) "completed") then skip
      else
        last <-! read_ref LastScoringAuditTickRef ;;
        if bool_decide (last = Some (tk_id tick)) then skip
        else set_to LastScoringAuditTickRef (Some (tk_id tick)) ;;! spawn (auditGameScoring true)
  end.

Definition refreshGameStatus (silent : bool) : Prog unit :=
  quiet_action silent "game:status" "game-core status failed"
    (payload <-! fetch_payload (browser_get "/api/admin/game/status") PGameStatus
       "/api/admin/game/status" ;;
     set_to GameState payload ;;!
     maybeAuditCompletedTick payload ;;!
     when (negb silent)
       (note ("Game-core reports match " ++ₛ
              ((mt_state <$> gs_match payload) ?? "unknown") ++ₛ " with " ++ₛ
              num_to_string (gs_total_ticks payload) ++ₛ " persisted tick(s)."))).

(** ** Teams, players, challenges *)

Definition persistEntity (url method : string) (body : json) (typeLabel : string) (p : Payload)
    : Prog (PayloadTy p) :=
  fetch_payload (browser_send method url body) p
    (typeLabel ++ₛ " " ++ₛ (if String.eqb method "POST" then "create" else "update") ++ₛ " request").

Definition team_draft_json (d : TeamDraft) : json :=
  JObj [("name", JStr (td_name d)); ("contact_email", JStr (td_contactEmail d))]%string.

(** [teamId: current.teamId || id]. *)
Definition draft_team_or (id : Z) (d : PlayerDraft) : PlayerDraft :=
  mkPlayerDraft (if pd_teamId d =? 0 then id else pd_teamId d) (pd_displayName d) (pd_email d)
    (pd_password d) (pd_role d).

Definition clear_player_draft (d : PlayerDraft) : PlayerDraft :=
  mkPlayerDraft (pd_teamId d) "" "" "" (pd_role d).

Definition createTeam (v : Store) : Prog bool :=
  bool_action "team:create" "team create failed"
    (data <-! persistEntity "/api/admin/teams" "POST" (team_draft_json (v TeamDraftState)) "team"
       PTeam ;;
     update TeamRows (fun current => current ++ [data]) ;;!
     update ChallengeRows (fun current => count_new_team <$> current) ;;!
     refreshGameScoreboard true ;;!
     set_to TeamDraftState emptyTeamDraft ;;!
     update PlayerDraftState (draft_team_or (tm_id data)) ;;!
     note ("Created " ++ₛ tm_name data ++ₛ
           " and seeded deployed services for published challenges.")).

Definition createPlayer (v : Store) : Prog bool :=
  let draft : PlayerDraft := v PlayerDraftState in
  if pd_teamId draft =? 0 then
    set_to ActionError (Some "select a team before creating a player"%string) ;;! Return false
  else
    bool_action "player:create" "player create failed"
      (data <-! persistEntity "/api/admin/players" "POST"
         (JObj [("team_id", JNum (pd_teamId draft)); ("display_name", JStr (pd_displayName draft));
                ("email", JStr (pd_email draft)); ("password", JStr (pd_password draft));
                ("role", JStr (pd_role draft))]%string) "player" PPlayer ;;
       update PlayerRows (fun current => current ++ [data]) ;;!
       update TeamRows (map_if (fun team => tm_id team =? pl_team_id data) count_new_player) ;;!
       update PlayerDraftState clear_player_draft ;;!
       note ("Created player " ++ₛ pl_display_name data ++ₛ " with peer " ++ₛ
             pl_wireguard_peer data ++ₛ
             ". Reconcile the WireGuard gateway and service access policy if that team already has unlocked services.")).

(** [text.trim() === "" ? undefined : Number(text)]. *)
Definition port_json (text : string) : option json :=
  if blank text then None else Some (number_json fraction (js_number text)).

Definition createChallenge (v : Store) : Prog bool :=
  let draft : ChallengeDraft := v ChallengeDraftState in
  bool_action "challenge:create" "challenge create failed"
    (payload <-! fetch_payload
       (browser_send "POST" "/api/admin/challenges"
         (json_object [("name", Some (JStr (cd_name draft)));
            ("baseline_image", Some (JStr (cd_baselineImage draft)));
            ("checker_image", Some (JStr (cd_checkerImage draft)));
            ("source_bundle_path", Some (JStr (cd_sourceBundlePath draft)));
            ("service_port", port_json (cd_servicePort draft));
            ("service_subnet_octet", port_json (cd_serviceSubnetOctet draft));
            ("egress_enabled", Some (JBool (cd_egressEnabled draft)))]%string))
       PChallenge "/api/admin/challenges" ;;
     update ChallengeRows (fun current => current ++ [payload]) ;;!
     update ChallengeValidationRows (delete (ch_id payload)) ;;!
     set_to ChallengeDraftState emptyChallengeDraft ;;!
     note ("Created draft challenge " ++ₛ ch_name payload ++ₛ
           ". Deploy it to replicate one service per team.")).

Definition updateTeam (v : Store) : Prog bool :=
  match v EditingId with
  | None => Return false
  | Some editingId =>
      bool_action "team:update" "team update failed"
        (data <-! persistEntity ("/api/admin/teams/" ++ₛ num_to_string editingId) "PUT"
           (team_draft_json (v TeamDraftState)) "team" PTeam ;;
         update TeamRows (map_if (fun t => tm_id t =? editingId) (fun _ => data)) ;;!
         note ("Updated team " ++ₛ tm_name data ++ₛ "."))
  end.

Definition updatePlayer (v : Store) : Prog bool :=
  match v EditingId with
  | None => Return false
  | Some editingId =>
      let draft : PlayerDraft := v PlayerDraftState in
      bool_action "player:update" "player update failed"
        (data <-! persistEntity ("/api/admin/players/" ++ₛ num_to_string editingId) "PUT"
           (JObj [("display_name", JStr (pd_displayName draft)); ("email", JStr (pd_email draft));
                  ("role", JStr (pd_role draft))]%string) "player" PPlayer ;;
         update PlayerRows (map_if (fun p => pl_id p =? editingId) (fun _ => data)) ;;!
         note ("Updated player " ++ₛ pl_display_name data ++ₛ "."))
  end.

Definition updateChallenge (v : Store) : Prog bool :=
  match v EditingId with
  | None => Return false
  | Some editingId =>
      let draft : ChallengeDraft := v ChallengeDraftState in
      bool_action "challenge:update" "challenge update failed"
        (payload <-! fetch_payload
           (browser_send "PUT" ("/api/admin/challenges/" ++ₛ num_to_string editingId)
             (JObj [("name", JStr (cd_name draft));
                    ("baseline_image", JStr (cd_baselineImage draft));
                    ("checker_image", JStr (cd_checkerImage draft));
                    ("source_bundle_path", JStr (cd_sourceBundlePath draft));
                    ("egress_enabled", JBool (cd_egressEnabled draft))]%string))
           PChallenge ("/api/admin/challenges/" ++ₛ num_to_string editingId) ;;
         update ChallengeRows (map_if (fun c => ch_id c =? editingId) (fun _ => payload)) ;;!
         update ChallengeValidationRows (delete editingId) ;;!
         note ("Updated challenge " ++ₛ ch_name payload ++ₛ "."))
  end.

Definition deleteEntity (actionKey url errorLabel : string) (onSuccess : Prog unit)
    (successNote : string) : Prog unit :=
  action actionKey errorLabel
    (fetch_void (browser_call "DELETE" url) PVoid url ;;!
     onSuccess ;;!
     note successNote).

Definition quoted (what name after : string) : string :=
  what ++ₛ " " ++ₛ dq ++ₛ name ++ₛ dq ++ₛ after.

Definition deleteTeam (team : AdminTeam) : Prog unit :=
  deleteEntity ("team:delete:" ++ₛ num_to_string (tm_id team))
    ("/api/admin/teams/" ++ₛ num_to_string (tm_id team)) "team delete failed"
    (update TeamRows (bfilter (fun item => negb (tm_id item =? tm_id team))) ;;!
     update PlayerRows (bfilter (fun item => negb (pl_team_id item =? tm_id team))))
    (quoted "Team" (tm_name team) " deleted.").

Definition deletePlayer (player : AdminPlayer) : Prog unit :=
  deleteEntity ("player:delete:" ++ₛ num_to_string (pl_id player))
    ("/api/admin/players/" ++ₛ num_to_string (pl_id player)) "player delete failed"
    (update PlayerRows (bfilter (fun item => negb (pl_id item =? pl_id player))))
    (quoted "Player" (pl_display_name player) " deleted.").

Definition deleteChallenge (challenge : AdminChallenge) : Prog unit :=
  deleteEntity ("challenge:delete:" ++ₛ num_to_string (ch_id challenge))
    ("/api/admin/challenges/" ++ₛ num_to_string (ch_id challenge)) "challenge delete failed"
    (update ChallengeRows (bfilter (fun item => negb (ch_id item =? ch_id challenge))))
    (quoted "Challenge" (ch_name challenge) " deleted.").

Definition deleteDeployment (deployment : AdminDeploymentJob) : Prog unit :=
  deleteEntity ("deployment:delete:" ++ₛ num_to_string (dj_id deployment))
    ("/api/admin/deployments/" ++ₛ num_to_string (dj_id deployment)) "deployment delete failed"
    (update DeploymentRows (bfilter (fun item => negb (dj_id item =? dj_id deployment))))
    ("Deployment job #" ++ₛ num_to_string (dj_id deployment) ++ₛ " deleted.").

Definition postRowAction (actionKey url errorLabel successNote : string) (p : Payload)
    (apply_ : PayloadTy p -> Prog unit) : Prog unit :=
  action actionKey errorLabel
    (data <-! fetch_payload (browser_call "POST" url) p url ;;
     apply_ data ;;!
     note successNote).

(** [t && t > 0]. *)
Definition resumes_at (tick : option Z) : option Z :=
  n ← tick; if n >? 0 then Some n else None.

Definition setTeamActiveState (team : AdminTeam) (active : bool) : Prog unit :=
  let url := "/api/admin/teams/" ++ₛ num_to_string (tm_id team) ++ₛ "/" ++ₛ
             (if active then "reactivate" else "deactivate") in
  action ("team:active:" ++ₛ num_to_string (tm_id team))
    (if active then "team reactivate failed" else "team deactivate failed")
    (data <-! fetch_payload (browser_call "POST" url) PTeam url ;;
     update TeamRows (map_if (fun item => tm_id item =? tm_id team) (fun _ => data)) ;;!
     match (if active then resumes_at (tm_play_from_tick data) else None) with
     | Some tick =>
         note (quoted "Team" (tm_name team)
           (" reactivated. It rejoins network and checker on tick #" ++ₛ num_to_string tick ++ₛ
            ". Reconcile now so instances are ready by then."))
     | None =>
         note (quoted "Team" (tm_name team)
           (" " ++ₛ (if active then "reactivated" else "deactivated") ++ₛ "."))
     end).

Definition setPlayerActiveState (player : AdminPlayer) (active : bool) : Prog unit :=
  postRowAction ("player:active:" ++ₛ num_to_string (pl_id player))
    ("/api/admin/players/" ++ₛ num_to_string (pl_id player) ++ₛ "/" ++ₛ
     (if active then "reactivate" else "deactivate"))
    (if active then "player reactivate failed" else "player deactivate failed")
    (quoted "Player" (pl_display_name player)
       (" " ++ₛ (if active then "reactivated" else "deactivated") ++ₛ "."))
    PPlayer
    (fun data => update PlayerRows (map_if (fun item => pl_id item =? pl_id player) (fun _ => data))).

Definition setChallengeMaintenanceState (challenge : AdminChallenge) (underMaintenance : bool)
    : Prog unit :=
  let url := "/api/admin/challenges/" ++ₛ num_to_string (ch_id challenge) ++ₛ "/" ++ₛ
             (if underMaintenance then "maintenance" else "resume") in
  action ("challenge:maintenance:" ++ₛ num_to_string (ch_id challenge))
    (if underMaintenance then "challenge maintenance failed" else "challenge resume failed")
    (data <-! fetch_payload (browser_call "POST" url) PChallenge url ;;
     update ChallengeRows (map_if (fun item => ch_id item =? ch_id challenge) (fun _ => data)) ;;!
     if underMaintenance then
       note (quoted "Challenge" (ch_name challenge) " put under maintenance.")
     else match resumes_at (ch_play_from_tick data) with
          | Some tick =>
              note (quoted "Challenge" (ch_name challenge)
                (" resumed. It rejoins checker and scoring on tick #" ++ₛ num_to_string tick ++ₛ
                 ". Reconcile now so instances are ready by then."))
          | None =>
              note (quoted "Challenge" (ch_name challenge)
                " resumed. Reconcile deployments so instances come ready.")
          end).

(** ** Runtime evidence, WireGuard, access *)

Definition downloadRuntimeHealthReport : Prog unit :=
  action "runtime:report" "runtime health report download failed"
    (response <-! fetch_response (browser_get "/api/admin/runtime-health/report") PEvidenceReport ;;
     (if negb (ok response) then
        message <-! of_outcome (parseApiError response "/api/admin/runtime-health/report") ;;
        Raise (OtherError message)
      else skip) ;;!
     report <-! match ok_json response with
                | inl m => Raise (OtherError m)
                | inr report => Return report
                end ;;
     let downloadName :=
       disposition_name (header_get "content-disposition" (resp_headers response) ?? "")
         ?? "runtime-health-report.json" in
     perform (OpDownload downloadName (resp_body response ?? "")) ;;!
     note (if (length (rr_failures report) =? 0)%nat
           then "Downloaded complete runtime evidence report as " ++ₛ downloadName ++ₛ "."
           else "Downloaded partial runtime evidence report as " ++ₛ downloadName ++ₛ
                "; missing " ++ₛ join ", " (ef_section <$> rr_failures report) ++ₛ ".")).

Definition copyRuntimeHealthSummary : Prog unit :=
  action "runtime:summary" "runtime summary copy failed"
    (payload <-! fetch_payload (browser_get "/api/admin/runtime-health/report") PEvidenceReport
       "/api/admin/runtime-health/report" ;;
     writeTextToClipboard (rr_summary payload) ;;!
     note "Copied runtime summary to clipboard.").

Definition downloadWireGuardConfig (peer : AdminWireGuardPeer) : Prog unit :=
  perform (OpDownload (wg_download_name peer) (wg_config peer)) ;;! skip.

Definition applyWireGuardUpdate (peer : AdminWireGuardPeer) : Prog unit :=
  update PlayerRows (map_if (fun player => pl_id player =? wg_player_id peer) (with_peer peer)) ;;!
  update SelectedWireGuardPeer (fun current =>
    match current with
    | Some p => if wg_player_id p =? wg_player_id peer then Some peer else Some p
    | None => None
    end).

Definition player_wireguard_path (player : AdminPlayer) : string :=
  "/api/admin/players/" ++ₛ num_to_string (pl_id player) ++ₛ "/wireguard".

Definition inspectWireGuard (player : AdminPlayer) : Prog unit :=
  let path := player_wireguard_path player in
  action ("wireguard:get:" ++ₛ num_to_string (pl_id player)) "wireguard config fetch failed"
    (payload <-! fetch_payload (browser_get path) PWireGuardPeer path ;;
     applyWireGuardUpdate payload ;;!
     set_to SelectedWireGuardPeer (Some payload) ;;!
     set_to WireGuardDialogOpen true ;;!
     note ("Loaded WireGuard config for " ++ₛ pl_display_name player ++ₛ ".")).

Definition wireGuardAction (player : AdminPlayer) (act successMessage : string) (openDialog : bool)
    : Prog unit :=
  let path := player_wireguard_path player ++ₛ "/" ++ₛ act in
  action ("wireguard:" ++ₛ act ++ₛ ":" ++ₛ num_to_string (pl_id player))
    ("wireguard " ++ₛ act ++ₛ " failed")
    (payload <-! fetch_payload (browser_call "POST" path) PWireGuardPeer path ;;
     applyWireGuardUpdate payload ;;!
     set_to SelectedWireGuardPeer (Some payload) ;;!
     when openDialog (set_to WireGuardDialogOpen true) ;;!
     note successMessage).

Definition rotateWireGuard (player : AdminPlayer) : Prog unit :=
  wireGuardAction player "rotate"
    ("Rotated WireGuard config for " ++ₛ pl_display_name player ++ₛ
     ". Reconcile the WireGuard gateway so the old peer material stops working.") true.

Definition revokeWireGuard (player : AdminPlayer) : Prog unit :=
  wireGuardAction player "revoke"
    ("Revoked WireGuard config for " ++ₛ pl_display_name player ++ₛ
     ". Reconcile the WireGuard gateway and service access policy to remove the peer from runtime access.")
    false.

Definition reconcileWireGuardGateway : Prog unit :=
  action "wireguard-gateway:reconcile" "wireguard gateway reconcile failed"
    (payload <-! fetch_payload (browser_call "POST" "/api/admin/wireguard/reconcile") PGatewayStatus
       "/api/admin/wireguard/reconcile" ;;
     set_to WireGuardGatewayStatus (Some payload) ;;!
     note ("Maintenance reconcile applied WireGuard revision " ++ₛ (gw_revision payload ?? "n/a") ++ₛ
           " with " ++ₛ num_to_string (gw_peers_active payload) ++ₛ " active peer(s) and " ++ₛ
           num_to_string (gw_peers_revoked payload) ++ₛ " revoked peer(s).")).

Definition reconcileAccess : Prog unit :=
  action "access:reconcile" "controller access reconcile failed"
    (payload <-! fetch_payload (browser_call "POST" "/api/admin/access/reconcile") PAccessStatus
       "/api/admin/access/reconcile" ;;
     set_to AccessStatus (Some payload) ;;!
     note ("Maintenance reconcile applied controller access revision " ++ₛ
           (ac_revision payload ?? "n/a") ++ₛ " across " ++ₛ
           num_to_string (ac_policies_total payload) ++ₛ " service policy row(s).")).

Definition teardownWireGuardGateway : Prog unit :=
  sure <-! perform (OpConfirm
    "Are you sure you want to TEARDOWN the WireGuard gateway? This will remove ALL peer access.") ;;
  if negb sure then skip
  else
    action "wireguard-gateway:teardown" "wireguard gateway teardown failed"
      (fetch_void (browser_call "POST" "/api/admin/wireguard/teardown") PVoid
         "/api/admin/wireguard/teardown" ;;!
       refreshWireGuardGatewayStatus true ;;!
       note "WireGuard gateway rules and interface torn down.").

Definition teardownAccess : Prog unit :=
  sure <-! perform (OpConfirm
    "Are you sure you want to TEARDOWN the service access policies? This will remove ALL SSH and service access rules.") ;;
  if negb sure then skip
  else
    action "access:teardown" "controller access teardown failed"
      (fetch_void (browser_call "POST" "/api/admin/access/teardown") PVoid
         "/api/admin/access/teardown" ;;!
       refreshAccessStatus true ;;!
       note "Controller service access rules torn down.").

(** ** Validation and deployment *)

Definition applyChallengeValidation (result : AdminChallengeValidationResult) : Prog unit :=
  update ChallengeValidationRows (<[va_challenge_id result := result]>).

Definition challenge_path (challenge : AdminChallenge) (operation : string) : string :=
  "/api/admin/challenges/" ++ₛ num_to_string (ch_id challenge) ++ₛ operation.

(** The error is reported, then thrown again. *)
Definition validateChallenge (challenge : AdminChallenge) (silent : bool)
    : Prog AdminChallengeValidationResult :=
  let path := challenge_path challenge "/validate" in
  when (negb silent) (begin_action ("validate:" ++ₛ num_to_string (ch_id challenge))) ;;!
  finally
    (catch
      (payload <-! fetch_payload (browser_call "POST" path) PValidation path ;;
       applyChallengeValidation payload ;;!
       when (negb silent)
         (note (if String.eqb (va_status payload) "valid"
                then ch_name challenge ++ₛ
                     " service and checker images satisfy the current runtime package policy."
                else str_or (va_message payload ?? EmptyString)
                       (ch_name challenge ++ₛ " failed runtime validation."))) ;;!
       Return payload)
      (fun error =>
         when (negb silent) (report "challenge validation failed" error) ;;! Raise error))
    (when (negb silent) end_action).

(** The gate of a deployment. *)
Definition deployable (validation : AdminChallengeValidationResult) : bool :=
  String.eqb (va_status validation) "valid" && va_baseline_ssh_contract_ok validation &&
  va_checker_contract_ok validation && va_service_state_contract_ok validation.

(** The job rows after a deployment; [created_at] is always present, so its
    fallback, the time of the update, never applies. *)
Definition deployed_jobs (payload : AdminDeployment) (current : list AdminDeploymentJob)
    : list AdminDeploymentJob :=
  if dp_job_id payload >? 0 then
    deployment_row payload ::
    map_if (fun deployment =>
        (dj_challenge_id deployment =? dp_challenge_id payload) &&
        negb (dj_id deployment =? dp_job_id payload) && active_job deployment)
      (supersede (dp_created_at payload)) current
  else
    map_if (fun deployment =>
        (dj_challenge_id deployment =? dp_challenge_id payload) && active_job deployment)
      (supersede (dp_created_at payload)) current.

Definition deployChallenge (challenge : AdminChallenge) : Prog unit :=
  let path := challenge_path challenge "/deploy" in
  action ("deploy:" ++ₛ num_to_string (ch_id challenge)) "challenge deploy failed"
    (validation <-! validateChallenge challenge true ;;
     applyChallengeValidation validation ;;!
     (if deployable validation then skip
      else Raise (OtherError (str_or (va_message validation ?? EmptyString)
             "challenge package failed runtime validation"))) ;;!
     payload <-! fetch_payload (browser_call "POST" path) PDeployment path ;;
     update ChallengeRows (map_if (fun item => ch_id item =? ch_id challenge)
                             (mark_deployed payload)) ;;!
     update DeploymentRows (deployed_jobs payload) ;;!
     when (negb (ch_published challenge))
       (update TeamRows (fun current => count_new_challenge <$> current)) ;;!
     note (if String.eqb (dp_status payload) "queued"
           then "Queued " ++ₛ dp_challenge_name payload ++ₛ " for " ++ₛ
                num_to_string (dp_deployed_team_count payload) ++ₛ
                " team runtime(s). Open Deployments and click Reconcile to finish rollout and host access."
           else dp_challenge_name payload ++ₛ
                " was already fully deployed across all teams.")).

Definition reconcileDeployments : Prog unit :=
  action "deployments:reconcile" "deployment reconcile failed"
    (payload <-! fetch_payload (browser_call "POST" "/api/admin/deployments/reconcile") PReconcile
       "/api/admin/deployments/reconcile" ;;
     refreshRuntimeHealth true ;;!
     note ("Trusted reconcile processed " ++ₛ num_to_string (rc_processed_jobs payload) ++ₛ
           " job(s), advanced " ++ₛ num_to_string (rc_processed_instances payload) ++ₛ
           " team service instance(s), and refreshed deployment, SSH access, and WireGuard truth.")).

(** ** Game control *)

Definition suppressGameStatusRealtime (durationMs : Z) : Prog unit :=
  now <-! perform OpNow ;;
  set_to SuppressedUntilRef (now + durationMs).

(** The shape of the game handlers: the realtime status is suppressed before and
    after. *)
Definition game_action (key : string) (failed : JsError -> Prog unit) (body : Prog unit)
    : Prog unit :=
  suppressGameStatusRealtime 1500 ;;!
  begin_action key ;;!
  finally (catch body failed) (suppressGameStatusRealtime 1000 ;;! end_action).

(** [matchStarted] tells which half of the [try] failed. *)
Definition startGameMatch (v : Store) : Prog unit :=
  suppressGameStatusRealtime 1500 ;;!
  begin_action "game:match:start" ;;!
  finally
    (started <-! catch
       (matchPayload <-! fetch_optional (browser_call "POST" "/api/admin/game/match/start") PMatch
          "/api/admin/game/match/start" ;;
        Return (Some matchPayload))
       (fun error => report "game start failed" error ;;! Return None) ;;
     match started with
     | None => skip
     | Some matchPayload =>
         catch
           (update GameState (with_match matchPayload) ;;!
            schedulerPayload <-! fetch_optional
              (browser_call "POST" "/api/admin/game/scheduler/start") PScheduler
              "/api/admin/game/scheduler/start" ;;
            update GameState (fun g => with_scheduler schedulerPayload (with_match matchPayload g)) ;;!
            refreshSchedulerEvents true (v SchedulerEventFiltersState) ;;!
            note ("Game started. Submissions are " ++ₛ
                  (if (mt_accepting_submissions <$> matchPayload) ?? false then "open" else "closed") ++ₛ
                  " and the scheduler is running at " ++ₛ
                  num_to_string ((sc_interval_seconds <$> schedulerPayload) ?? 0) ++ₛ "s."))
           (fun error => set_to ActionError (Some
              match error with
              | NonError => "game start failed"%string
              | _ => "Match started, but scheduler start failed: " ++ₛ error_message error ""
              end))
     end)
    (suppressGameStatusRealtime 1000 ;;! end_action).

(** The match is stopped or paused: the scheduler shown stops with it. *)
Definition halt_game (payload : option AdminGameMatchStatus) (g : AdminGameStatus)
    : AdminGameStatus :=
  with_scheduler (Some (stopped_scheduler (gs_scheduler g))) (with_match payload g).

Definition stopGameMatch (v : Store) : Prog unit :=
  game_action "game:match:stop" (report "game match stop failed")
    (payload <-! fetch_optional (browser_call "POST" "/api/admin/game/match/stop") PMatch
       "/api/admin/game/match/stop" ;;
     update GameState (halt_game payload) ;;!
     refreshSchedulerEvents true (v SchedulerEventFiltersState) ;;!
     note "Match stopped. Participant submissions are now closed.").

Definition pauseGameMatch (v : Store) : Prog unit :=
  game_action "game:match:pause" (report "game match pause failed")
    (payload <-! fetch_optional (browser_call "POST" "/api/admin/game/match/pause") PMatch
       "/api/admin/game/match/pause" ;;
     update GameState (halt_game payload) ;;!
     refreshSchedulerEvents true (v SchedulerEventFiltersState) ;;!
     refreshGameStatus true ;;!
     refreshWireGuardGatewayStatus true ;;!
     note "Match paused. Submissions and participant traffic are now blocked.").

(** A scheduler that does not start is only logged. *)
Definition resumeGameMatch (v : Store) : Prog unit :=
  game_action "game:match:resume" (report "game match resume failed")
    (payload <-! fetch_optional (browser_call "POST" "/api/admin/game/match/resume") PMatch
       "/api/admin/game/match/resume" ;;
     schedulerPayload <-! catch
       (fetch_optional (browser_call "POST" "/api/admin/game/scheduler/start") PScheduler
          "/api/admin/game/scheduler/start")
       (fun _ => Return (gs_scheduler (v GameState))) ;;
     update GameState (fun g => with_scheduler schedulerPayload (with_match payload g)) ;;!
     refreshSchedulerEvents true (v SchedulerEventFiltersState) ;;!
     refreshGameStatus true ;;!
     refreshWireGuardGatewayStatus true ;;!
     note "Match resumed. Submissions and participant traffic are now unblocked.").

Definition startGameScheduler (v : Store) : Prog unit :=
  game_action "game:scheduler:start" (report "game-core scheduler start failed")
    (payload <-! fetch_optional (browser_call "POST" "/api/admin/game/scheduler/start") PScheduler
       "/api/admin/game/scheduler/start" ;;
     update GameState (with_scheduler payload) ;;!
     refreshSchedulerEvents true (v SchedulerEventFiltersState) ;;!
     note ("Scheduler started with " ++ₛ num_to_string ((sc_interval_seconds <$> payload) ?? 0) ++ₛ
           "s interval.")).

Definition stopGameScheduler (v : Store) : Prog unit :=
  game_action "game:scheduler:stop" (report "game-core scheduler stop failed")
    (payload <-! fetch_optional (browser_call "POST" "/api/admin/game/scheduler/stop") PScheduler
       "/api/admin/game/scheduler/stop" ;;
     update GameState (with_scheduler payload) ;;!
     refreshSchedulerEvents true (v SchedulerEventFiltersState) ;;!
     note "Scheduler stopped. Manual tick advance remains available.").

Definition updateGameMatchSchedule (scheduledStartAt scheduledEndAt : option string) : Prog unit :=
  game_action "game:match:schedule" (report "game match schedule update failed")
    (payload <-! fetch_optional
       (browser_send "PUT" "/api/admin/game/match/schedule"
         (json_object [("scheduled_start_at", JStr <$> scheduledStartAt);
                       ("scheduled_end_at", JStr <$> scheduledEndAt)]%string)) PMatch
       "/api/admin/game/match/schedule" ;;
     update GameState (with_match payload) ;;!
     note ("Match window updated. Start: " ++ₛ
           ((m ← payload; mt_scheduled_start_at m) ?? "manual") ++ₛ "; end: " ++ₛ
           ((m ← payload; mt_scheduled_end_at m) ?? "manual") ++ₛ ".")).

Definition updateGameScheduler (intervalSeconds : Z) : Prog unit :=
  game_action "game:scheduler:update" (report "game-core scheduler update failed")
    (payload <-! fetch_optional
       (browser_send "PUT" "/api/admin/game/scheduler/interval"
         (JObj [("interval_seconds", JNum intervalSeconds)]%string)) PScheduler
       "/api/admin/game/scheduler/interval" ;;
     update GameState (with_scheduler payload) ;;!
     note ("Scheduler interval updated to " ++ₛ num_to_string intervalSeconds ++ₛ " seconds.")).

Definition advanceGameTick (v : Store) : Prog unit :=
  game_action "game:advance" (report "game-core tick advance failed")
    (payload <-! fetch_payload (browser_call "POST" "/api/admin/game/ticks/advance") PTick
       "/api/admin/game/ticks/advance" ;;
     update GameState (advanced_game payload) ;;!
     refreshSchedulerEvents true (v SchedulerEventFiltersState) ;;!
     refreshCheckerRuns true (v CheckerRunFiltersState) ;;!
     recomputeGameScoring true ;;!
     auditGameScoring true ;;!
     note ("Tick " ++ₛ num_to_string (tk_id payload) ++ₛ " completed with " ++ₛ
           num_to_string (tk_successful_checker_runs payload) ++ₛ " success, " ++ₛ
           num_to_string (tk_failed_checker_runs payload) ++ₛ " failed, and " ++ₛ
           num_to_string (tk_skipped_checker_runs payload) ++ₛ " skipped checker runs.")).

(** ** Filters and paging *)

(** The next page of a feed whose filters hold [limit] and [offset]. *)
Definition next_offset (limit_ offset_ : string) (direction : Direction) (defaultLimit : Z)
    : string :=
  let lim := parsePositiveInteger (Some limit_) (Some defaultLimit) 200 ?? defaultLimit in
  let currentOffset := parseNonNegativeInteger (Some offset_) ?? 0 in
  sum_to_string (match direction with
                 | Prev => Some (Z.max 0 (js_sub currentOffset lim ?? 0))
                 | Next => js_add currentOffset lim
                 end).

Definition applyCheckerRunFilters (v : Store) : Prog unit :=
  let next := checker_offset "0" (v CheckerRunFiltersState) in
  set_to CheckerRunFiltersState next ;;! refreshCheckerRuns false next.

Definition resetCheckerRunFilters : Prog unit :=
  set_to CheckerRunFiltersState defaultCheckerRunFilters ;;!
  refreshCheckerRuns false defaultCheckerRunFilters.

Definition pageCheckerRuns (v : Store) (direction : Direction) : Prog unit :=
  let filters : CheckerRunFilters := v CheckerRunFiltersState in
  let next := checker_offset (next_offset (k_limit filters) (k_offset filters) direction 18)
                filters in
  set_to CheckerRunFiltersState next ;;! refreshCheckerRuns false next.

Definition applyAttackFilters (v : Store) : Prog unit :=
  let next := with_offset "0" (v AttackFiltersState) in
  set_to AttackFiltersState next ;;! refreshAttacks false next.

Definition resetAttackFilters : Prog unit :=
  set_to AttackFiltersState (initialAttackFilters options) ;;!
  refreshAttacks false (initialAttackFilters options).

Definition pageAttacks (v : Store) (direction : Direction) : Prog unit :=
  let next := computePageOffset (v AttackFiltersState) direction 12 200 in
  set_to AttackFiltersState next ;;! refreshAttacks false next.

Definition applySchedulerEventFilters (v : Store) : Prog unit :=
  let next := scheduler_offset "0" (v SchedulerEventFiltersState) in
  set_to SchedulerEventFiltersState next ;;! refreshSchedulerEvents false next.

Definition resetSchedulerEventFilters : Prog unit :=
  set_to SchedulerEventFiltersState defaultSchedulerEventFilters ;;!
  refreshSchedulerEvents false defaultSchedulerEventFilters.

Definition pageSchedulerEvents (v : Store) (direction : Direction) : Prog unit :=
  let filters : SchedulerEventFilters := v SchedulerEventFiltersState in
  let next := scheduler_offset (next_offset (e_limit filters) (e_offset filters) direction 12)
                filters in
  set_to SchedulerEventFiltersState next ;;! refreshSchedulerEvents false next.

(** ** Dialogs and forms *)

Definition closeWireGuardDialog : Prog unit := set_to WireGuardDialogOpen false.
Definition selectDeleteTarget (target : DeleteTarget) : Prog unit :=
  set_to DeleteTargetState (Some target).
Definition closeDeleteDialog : Prog unit := set_to DeleteTargetState None.

Definition confirmDelete (v : Store) : Prog unit :=
  match v DeleteTargetState with
  | None => skip
  | Some target =>
      set_to DeleteTargetState None ;;!
      match dt_kind target with
      | KTeam =>
          match find_first (fun t => tm_id t =? dt_id target) (v TeamRows) with
          | Some team => deleteTeam team
          | None => skip
          end
      | KPlayer =>
          match find_first (fun p => pl_id p =? dt_id target) (v PlayerRows) with
          | Some player => deletePlayer player
          | None => skip
          end
      | KChallenge =>
          match find_first (fun c => ch_id c =? dt_id target) (v ChallengeRows) with
          | Some challenge => deleteChallenge challenge
          | None => skip
          end
      | KDeployment =>
          match find_first (fun d => dj_id d =? dt_id target) (v DeploymentRows) with
          | Some deployment => deleteDeployment deployment
          | None => skip
          end
      end
  end.

(** The team a new player draft starts with. *)
Definition default_team (v : Store) : Z :=
  (tm_id <$> find_first (fun team => tm_id team =? pd_teamId (v PlayerDraftState)) (v TeamRows))
    ?? (tm_id <$> head (v TeamRows)) ?? 0.

Definition openCreateDialog (v : Store) (entity : Entity) : Prog unit :=
  set_to FormModeState (Some ModeCreate) ;;!
  set_to FormEntityState (Some entity) ;;!
  set_to EditingId None ;;!
  set_to ActionError None ;;!
  set_to ActionNote None ;;!
  match entity with
  | ETeam => set_to TeamDraftState emptyTeamDraft
  | EPlayer => update PlayerDraftState (fun _ => mkPlayerDraft (default_team v) "" "" "" "member")
  | EChallenge => set_to ChallengeDraftState emptyChallengeDraft
  end.

Definition openEditDialog (v : Store) (entity : Entity) (id : Z) : Prog unit :=
  set_to FormModeState (Some ModeEdit) ;;!
  set_to FormEntityState (Some entity) ;;!
  set_to EditingId (Some id) ;;!
  set_to ActionError None ;;!
  set_to ActionNote None ;;!
  match entity with
  | ETeam =>
      match find_first (fun t => tm_id t =? id) (v TeamRows) with
      | Some team => set_to TeamDraftState (mkTeamDraft (tm_name team) (tm_contact_email team))
      | None => skip
      end
  | EPlayer =>
      match find_first (fun p => pl_id p =? id) (v PlayerRows) with
      | Some player => set_to PlayerDraftState (mkPlayerDraft (pl_team_id player)
          (pl_display_name player) (pl_email player) "" (pl_role player))
      | None => skip
      end
  | EChallenge =>
      match find_first (fun c => ch_id c =? id) (v ChallengeRows) with
      | Some challenge => set_to ChallengeDraftState (mkChallengeDraft (ch_name challenge)
          (ch_baseline_image challenge) (ch_checker_image challenge)
          (ch_source_bundle_path challenge) (num_to_string (ch_service_port challenge))
          (num_to_string (ch_service_subnet_octet challenge)) (ch_egress_enabled challenge))
      | None => skip
      end
  end.

Definition closeFormDialog : Prog unit :=
  set_to FormModeState None ;;! set_to FormEntityState None ;;! set_to EditingId None.

Definition submitForm (v : Store) : Prog unit :=
  let close_if done := if (done : bool) then closeFormDialog else skip in
  match v FormModeState with
  | Some ModeCreate =>
      created <-! match v FormEntityState with
                  | Some ETeam => createTeam v
                  | Some EPlayer => createPlayer v
                  | Some EChallenge => createChallenge v
                  | None => Return false
                  end ;;
      close_if created
  | Some ModeEdit =>
      updated <-! match v FormEntityState with
                  | Some ETeam => updateTeam v
                  | Some EPlayer => updatePlayer v
                  | Some EChallenge => updateChallenge v
                  | None => Return false
                  end ;;
      close_if updated
  | None => skip
  end.

(** ** Realtime frames

    [data] is the parsed frame, absent when it is malformed. *)

Definition onGameStatus (data : option AdminGameStatus) : Prog unit :=
  act <-! read_ref PendingActionRef ;;
  if match act with Some a => starts_with "game:" a | None => false end then skip
  else
    now <-! perform OpNow ;;
    until <-! read_ref SuppressedUntilRef ;;
    if now <? until then skip
    else match data with
         | Some payload => set_to GameState payload ;;! maybeAuditCompletedTick payload
         | None => skip
         end.

Definition onScoreboard (data : option (list AdminGameScoreRow)) : Prog unit :=
  match data with Some rows => set_to ScoreRows rows | None => skip end.

(** The limit is the one the handler was created with, when the page opened. *)
Definition onAttacks (data : option AdminAttackFeedPage) : Prog unit :=
  live <-! read_ref AttacksLiveRef ;;
  page <-! read_ref AttackPageRef ;;
  match handleRealtimeAttackMessage ae_id live page (f_limit (initialAttackFilters options)) data with
  | None => skip
  | Some (mergedPage, ids) =>
      set_to AttackPageState mergedPage ;;!
      match ids with
      | [] => skip
      | _ => scheduleAttackHighlights ids ;;! perform (OpSound ids) ;;! skip
      end
  end.

Definition onCheckerRuns (data : option AdminCheckerRunPage) : Prog unit :=
  live <-! read_ref CheckerRunsLiveRef ;;
  if negb live then skip
  else match data with Some page => set_to CheckerRunPageState page | None => skip end.

Definition onSchedulerEvents (data : option AdminSchedulerEventPage) : Prog unit :=
  live <-! read_ref SchedulerEventsLiveRef ;;
  if negb live then skip
  else match data with Some page => set_to SchedulerEventPageState page | None => skip end.

(** ** Effects *)

(** On mount. *)
Definition mount_effect : Prog unit :=
  spawn (refreshWireGuardGatewayStatus true) ;;!
  spawn (refreshAccessStatus true) ;;!
  spawn (refreshOperationsStatus true) ;;!
  spawn (refreshServiceMetrics true).

(** Every thirty seconds, and when the window gets the focus. *)
Definition poll_effect : Prog unit :=
  spawn (refreshOperationsStatus true) ;;! spawn (refreshServiceMetrics true).

Definition handleDeploymentsReconciled : Prog unit := spawn (refreshDeploymentRows true).

(** ** Events

    Everything that starts a program of the hook: the operations it returns to
    the page, the streams, the timers and the window events. *)

Inductive Event :=
| EvCreateTeam | EvCreatePlayer | EvCreateChallenge | EvSubmitForm | EvConfirmDelete
| EvSetTeamActive (team : AdminTeam) (active : bool)
| EvSetPlayerActive (player : AdminPlayer) (active : bool)
| EvSetMaintenance (challenge : AdminChallenge) (under : bool)
| EvRefreshGateway (silent : bool) | EvRefreshAccess (silent : bool)
| EvRefreshOperations (silent : bool) | EvRefreshMetrics (silent : bool)
| EvRefreshHealth (silent : bool) | EvRefreshDeployments (silent : bool)
| EvRefreshGame (silent : bool) | EvRefreshScoreboard (silent : bool)
| EvRefreshAttacks (silent : bool) (filters : AttackFilters)
| EvRefreshCheckerRuns (silent : bool) (filters : CheckerRunFilters)
| EvRefreshSchedulerEvents (silent : bool) (filters : SchedulerEventFilters)
| EvRecompute (silent : bool) | EvAudit (silent : bool)
| EvDownloadReport | EvCopySummary | EvDownloadConfig (peer : AdminWireGuardPeer)
| EvInspect (player : AdminPlayer) | EvRotate (player : AdminPlayer) | EvRevoke (player : AdminPlayer)
| EvReconcileGateway | EvReconcileAccess | EvTeardownGateway | EvTeardownAccess
| EvValidate (challenge : AdminChallenge) (silent : bool) | EvDeploy (challenge : AdminChallenge)
| EvReconcileDeployments
| EvStartMatch | EvStopMatch | EvPauseMatch | EvResumeMatch | EvStartScheduler | EvStopScheduler
| EvUpdateSchedule (start end_ : option string) | EvUpdateScheduler (intervalSeconds : Z)
| EvAdvanceTick
| EvApplyCheckerRuns | EvResetCheckerRuns | EvPageCheckerRuns (direction : Direction)
| EvApplyAttacks | EvResetAttacks | EvPageAttacks (direction : Direction)
| EvApplySchedulerEvents | EvResetSchedulerEvents | EvPageSchedulerEvents (direction : Direction)
| EvCloseWireGuard | EvSelectDelete (target : DeleteTarget) | EvCloseDelete
| EvOpenCreate (entity : Entity) | EvOpenEdit (entity : Entity) (id : Z) | EvCloseForm
| EvSetTeamDraft (d : TeamDraft) | EvSetPlayerDraft (d : PlayerDraft)
| EvSetChallengeDraft (d : ChallengeDraft) | EvSetAttackFilters (f : AttackFilters)
| EvSetCheckerRunFilters (f : CheckerRunFilters)
| EvSetSchedulerEventFilters (f : SchedulerEventFilters)
| EvGameStatus (data : option AdminGameStatus)
| EvScoreboard (data : option (list AdminGameScoreRow))
| EvAttacks (data : option AdminAttackFeedPage)
| EvCheckerRuns (data : option AdminCheckerRunPage)
| EvSchedulerEvents (data : option AdminSchedulerEventPage)
| EvMount | EvPoll | EvDeploymentsReconciled | EvHighlightTimeout.

Definition handle (v : Store) (event : Event) : Prog unit :=
  let ignore m := bind m (fun _ : bool => skip) in
  match event with
  | EvCreateTeam => ignore (createTeam v)
  | EvCreatePlayer => ignore (createPlayer v)
  | EvCreateChallenge => ignore (createChallenge v)
  | EvSubmitForm => submitForm v
  | EvConfirmDelete => confirmDelete v
  | EvSetTeamActive team active => setTeamActiveState team active
  | EvSetPlayerActive player active => setPlayerActiveState player active
  | EvSetMaintenance challenge under => setChallengeMaintenanceState challenge under
  | EvRefreshGateway silent => refreshWireGuardGatewayStatus silent
  | EvRefreshAccess silent => refreshAccessStatus silent
  | EvRefreshOperations silent => refreshOperationsStatus silent
  | EvRefreshMetrics silent => refreshServiceMetrics silent
  | EvRefreshHealth silent => refreshRuntimeHealth silent
  | EvRefreshDeployments silent => refreshDeploymentRows silent
  | EvRefreshGame silent => refreshGameStatus silent
  | EvRefreshScoreboard silent => refreshGameScoreboard silent
  | EvRefreshAttacks silent filters => refreshAttacks silent filters
  | EvRefreshCheckerRuns silent filters => refreshCheckerRuns silent filters
  | EvRefreshSchedulerEvents silent filters => refreshSchedulerEvents silent filters
  | EvRecompute silent => recomputeGameScoring silent
  | EvAudit silent => auditGameScoring silent
  | EvDownloadReport => downloadRuntimeHealthReport
  | EvCopySummary => copyRuntimeHealthSummary
  | EvDownloadConfig peer => downloadWireGuardConfig peer
  | EvInspect player => inspectWireGuard player
  | EvRotate player => rotateWireGuard player
  | EvRevoke player => revokeWireGuard player
  | EvReconcileGateway => reconcileWireGuardGateway
  | EvReconcileAccess => reconcileAccess
  | EvTeardownGateway => teardownWireGuardGateway
  | EvTeardownAccess => teardownAccess
  | EvValidate challenge silent => validateChallenge challenge silent ;;! skip
  | EvDeploy challenge => deployChallenge challenge
  | EvReconcileDeployments => reconcileDeployments
  | EvStartMatch => startGameMatch v
  | EvStopMatch => stopGameMatch v
  | EvPauseMatch => pauseGameMatch v
  | EvResumeMatch => resumeGameMatch v
  | EvStartScheduler => startGameScheduler v
  | EvStopScheduler => stopGameScheduler v
  | EvUpdateSchedule start end_ => updateGameMatchSchedule start end_
  | EvUpdateScheduler intervalSeconds => updateGameScheduler intervalSeconds
  | EvAdvanceTick => advanceGameTick v
  | EvApplyCheckerRuns => applyCheckerRunFilters v
  | EvResetCheckerRuns => resetCheckerRunFilters
  | EvPageCheckerRuns direction => pageCheckerRuns v direction
  | EvApplyAttacks => applyAttackFilters v
  | EvResetAttacks => resetAttackFilters
  | EvPageAttacks direction => pageAttacks v direction
  | EvApplySchedulerEvents => applySchedulerEventFilters v
  | EvResetSchedulerEvents => resetSchedulerEventFilters
  | EvPageSchedulerEvents direction => pageSchedulerEvents v direction
  | EvCloseWireGuard => closeWireGuardDialog
  | EvSelectDelete target => selectDeleteTarget target
  | EvCloseDelete => closeDeleteDialog
  | EvOpenCreate entity => openCreateDialog v entity
  | EvOpenEdit entity id => openEditDialog v entity id
  | EvCloseForm => closeFormDialog
  | EvSetTeamDraft d => set_to TeamDraftState d
  | EvSetPlayerDraft d => set_to PlayerDraftState d
  | EvSetChallengeDraft d => set_to ChallengeDraftState d
  | EvSetAttackFilters f => set_to AttackFiltersState f
  | EvSetCheckerRunFilters f => set_to CheckerRunFiltersState f
  | EvSetSchedulerEventFilters f => set_to SchedulerEventFiltersState f
  | EvGameStatus data => onGameStatus data
  | EvScoreboard data => onScoreboard data
  | EvAttacks data => onAttacks data
  | EvCheckerRuns data => onCheckerRuns data
  | EvSchedulerEvents data => onSchedulerEvents data
  | EvMount => mount_effect
  | EvPoll => poll_effect
  | EvDeploymentsReconciled => handleDeploymentsReconciled
  | EvHighlightTimeout => highlightTimeout
  end.

(** One step of the page. *)
Definition organizer_step : Config -> Config -> Prop :=
  step (fun v m => exists event, m = handle v event) (sync_refs options).

Definition organizer_page : Config :=
  mkConfig (initial_store options) (initial_store options) [] [].
End Handlers.
