(* ===== verification/OrganizerPage.v ===== *)
(** * The organizer dashboard under any interleaving

    What holds of the page whatever handlers are started, in whatever order their
    operations are interleaved and whatever the calls answer. *)

From S2P Require Import Prelude JsString JsNumber DashboardUtils ApiUtils PlatformApi ReactRuntime ReactRules ReactTermination AdminTypes OrganizerState Organizer.

(** ** The pending action is a bracket *)

Definition no_action (pending : option string) : Prop := pending = None.

Notation balanced_ := (balanced PendingAction no_action).
Notation releases_ := (releases PendingAction no_action).

Lemma end_action_releases : releases_ end_action.
Proof. left. split; [done|]. intros s. by rewrite upd_same. Qed.

Lemma end_action_balanced : balanced_ end_action.
Proof. split; [|done]. intros _. left. split; [done|]. intros s. by rewrite upd_same. Qed.

Lemma bracket_balanced {A : Type} key (m : Prog A) f :
  balanced_ m -> balanced_ f -> releases_ f ->
  balanced_ (begin_action key ;;! finally m f).
Proof.
  intros Hm Hf Hr. split; [intros _; right; right; right; by apply releases_finally|].
  split; [by intros [=]|]. split; [by intros [=]|]. by apply balanced_finally.
Qed.

Lemma report_balanced fallback e : balanced_ (report fallback e).
Proof. by apply set_to_balanced. Qed.

Lemma note_balanced text : balanced_ (note text).
Proof. by apply set_to_balanced. Qed.

Lemma action_balanced key fallback body :
  balanced_ body -> balanced_ (action key fallback body).
Proof.
  intros H. apply bracket_balanced;
    [apply balanced_catch; [done|intros; apply report_balanced]
    |apply end_action_balanced|apply end_action_releases].
Qed.

Lemma bool_action_balanced key fallback body :
  balanced_ body -> balanced_ (bool_action key fallback body).
Proof.
  intros H. apply bracket_balanced; [|apply end_action_balanced|apply end_action_releases].
  apply balanced_catch; [by apply balanced_bind|].
  intros e. apply balanced_bind; [apply report_balanced|done].
Qed.

Lemma quiet_action_balanced silent key fallback body :
  balanced_ body -> balanced_ (quiet_action silent key fallback body).
Proof.
  intros H. destruct silent; [|by apply action_balanced].
  by apply balanced_finally; [apply balanced_catch|].
Qed.

Lemma suppress_balanced d : balanced_ (suppressGameStatusRealtime d).
Proof. intros now. by split. Qed.

Lemma game_end_balanced : balanced_ (suppressGameStatusRealtime 1000 ;;! end_action).
Proof. apply balanced_bind; [apply suppress_balanced|intros; apply end_action_balanced]. Qed.

Lemma game_end_releases : releases_ (suppressGameStatusRealtime 1000 ;;! end_action).
Proof. intros now. right. apply end_action_releases. Qed.

Lemma game_action_balanced key failed body :
  balanced_ body -> (forall e, balanced_ (failed e)) -> balanced_ (game_action key failed body).
Proof.
  intros H Hf. apply balanced_bind; [apply suppress_balanced|]. intros _.
  apply bracket_balanced; [by apply balanced_catch|apply game_end_balanced|apply game_end_releases].
Qed.

Lemma validateChallenge_balanced challenge silent : balanced_ (validateChallenge challenge silent).
Proof.
  assert (Hb : balanced_ (payload <-! fetch_payload
       (browser_call "POST" (challenge_path challenge "/validate")) PValidation
       (challenge_path challenge "/validate") ;;
     applyChallengeValidation payload ;;!
     when (negb silent)
         (note (if String.eqb (va_status payload) "valid"
                then ch_name challenge ++ₛ
                     " service and checker images satisfy the current runtime package policy."
                else str_or (va_message payload ?? EmptyString)
                       (ch_name challenge ++ₛ " failed runtime validation."))) ;;!
     Return payload)).
  { apply balanced_bind; [apply fetch_payload_balanced|]. intros payload.
    apply balanced_bind; [by apply update_balanced|]. intros _.
    apply balanced_bind; [apply when_balanced, note_balanced|done]. }
  unfold validateChallenge. destruct silent.
  - by apply balanced_finally; [apply balanced_catch|].
  - apply bracket_balanced; [|apply end_action_balanced|apply end_action_releases].
    apply balanced_catch; [done|]. intros e. apply balanced_bind; [apply report_balanced|done].
Qed.

(** The handlers, by their structure. *)
Ltac bal_step :=
  lazymatch goal with
  | |- forall _, _ => intros
  | |- Forall _ [] => apply List.Forall_nil
  | |- Forall _ (_ :: _) => apply List.Forall_cons
  | |- ?c <> PendingAction => discriminate
  | |- balanced _ _ ?m =>
      lazymatch m with
      | action _ _ _ => apply action_balanced
      | bool_action _ _ _ => apply bool_action_balanced
      | quiet_action _ _ _ _ => apply quiet_action_balanced
      | game_action _ _ _ => apply game_action_balanced
      | validateChallenge _ _ => apply validateChallenge_balanced
      | report _ _ => apply report_balanced
      | note _ => apply note_balanced
      | suppressGameStatusRealtime _ => apply suppress_balanced
      | _ => balanced_rule m
      end
  end.
Ltac bal := repeat bal_step.

Lemma startGameMatch_balanced v : balanced_ (startGameMatch v).
Proof.
  unfold startGameMatch. apply balanced_bind; [apply suppress_balanced|]. intros _.
  apply bracket_balanced; [bal|apply game_end_balanced|apply game_end_releases].
Qed.

Section Page.
Context (options : OrganizerDashboardOptions) (fraction : Z -> Z -> json).

Lemma handler_balanced v event : balanced_ (handle options fraction v event).
Proof.
  destruct event; cbn [handle]; try apply startGameMatch_balanced; bal.
Qed.

Lemma rest_has_no_action page :
  rtc (organizer_step options fraction) (organizer_page options) page ->
  g_pool page = [] -> g_store page PendingAction = None.
Proof.
  intros Hsteps Hpool. eapply (quiescent_idle _ (sync_refs options) PendingAction no_action);
    [| |exact Hsteps|done|done|done].
  - intros r m [event ->]. apply handler_balanced.
  - intros s. unfold sync_refs. by rewrite !upd_other by discriminate.
Qed.

(** Whatever events occur on the page, however the operations of their
    handlers interleave and whatever the calls answer or throw, no action is left
    pending once every handler has finished. *)
Theorem no_pending_action_at_rest page :
  rtc (organizer_step options fraction) (organizer_page options) page ->
  g_pool page = [] -> g_store page PendingAction = None.
Proof. apply rest_has_no_action. Qed.

(** C4: take the page wherever the events have led it, and let only the handlers
    already in progress go on, however they interleave and whatever their calls
    answer or throw.  They cannot go on forever; as long as one is in progress
    something can happen; and every way they have of running out leaves no action
    pending.  No further event is needed for that. *)
Theorem page_comes_to_rest page :
  rtc (organizer_step options fraction) (organizer_page options) page ->
  Acc (fun page2 page1 => work page1 page2) page /\
  (exists final, rtc work page final /\ nf work final) /\
  forall final, rtc work page final -> nf work final ->
    g_pool final = [] /\ g_store final PendingAction = None.
Proof.
  intros Hsteps. split; [apply work_terminates|]. split; [apply work_runs_out|].
  intros final Hwork Hend. apply stuck_is_empty in Hend. split; [done|].
  apply rest_has_no_action; [|done]. etrans; [exact Hsteps|]. by apply work_steps.
Qed.
End Page.

(** An action that fails, on a small dashboard. *)
Lemma no_pending_action_at_rest_witness :
  let fraction := fun _ _ => JNull in
  let r := run offline [] (initial_store sample_options)
             (handle sample_options fraction (initial_store sample_options) EvCreateTeam) in
  o_store r ActionError = Some "offline"%string /\ o_store r PendingAction = None.
Proof.
  intros fraction r. split; [reflexivity|].
  apply (no_pending_action_at_rest sample_options fraction
    (mkConfig (o_store r) (initial_store sample_options) [] (o_trace r))); [|reflexivity].
  apply event_steps. by exists EvCreateTeam.
Defined.

(** The event of the check above, still in progress: however it ends. *)
Lemma page_comes_to_rest_witness :
  let fraction := fun _ _ => JNull in
  let s := initial_store sample_options in
  let page := mkConfig s s [handle sample_options fraction s EvCreateTeam] [] in
  (exists final, rtc work page final /\ nf work final) /\
  forall final, rtc work page final -> nf work final -> g_store final PendingAction = None.
Proof.
  intros fraction s page.
  destruct (page_comes_to_rest sample_options fraction page) as (_ & He & Hf).
  { apply rtc_once. apply (step_event _ _ s s [] []). by exists EvCreateTeam. }
  split; [exact He|]. intros final H1 H2. by destruct (Hf final H1 H2).
Defined.
