(* ===== verification/OrganizerQuiet.v ===== *)
(** * Background activity of the organizer dashboard

    The streams, the timers and the silent refreshes: whatever they answer and
    however they interleave, they neither throw nor touch what the page says
    about the action in progress. *)

From S2P Require Import Prelude JsString JsNumber DashboardUtils ApiUtils PlatformApi ReactRuntime ReactRules AdminTypes OrganizerState Organizer.

(** The cells that tell the user about the action in progress. *)
Definition report_cells : list Cell := [PendingAction; ActionError; ActionNote].

Section Silent.
Context (W : forall c, (CellTy c -> CellTy c) -> Prop) (E : JsError -> Prop).

(** A silent action throws nothing, whatever its body throws. *)
Lemma may_silent key fallback body :
  spec W any any any body -> spec W any E any (quiet_action true key fallback body).
Proof.
  intros H. unfold quiet_action. cbn [negb when bind]. apply spec_finally; [|done].
  eapply spec_catch; [exact H|]. done.
Qed.
End Silent.

(** Handlers, by their structure. *)
Ltac may_step :=
  lazymatch goal with
  | |- forall _, _ => intros
  | |- Forall _ [] => apply List.Forall_nil
  | |- Forall _ (_ :: _) => apply List.Forall_cons
  | |- spec _ _ _ _ (quiet_action true _ _ _) => apply may_silent
  | |- spec _ _ _ _ ?m => may_rule m
  end.
Ltac may := repeat may_step.

(** ** Background events *)

(** What happens without the organizer: the frames of the streams, the effects,
    the timers, and the refreshes made silently. *)
Definition background (event : Event) : bool :=
  match event with
  | EvRefreshGateway silent | EvRefreshAccess silent | EvRefreshOperations silent
  | EvRefreshMetrics silent | EvRefreshHealth silent | EvRefreshDeployments silent
  | EvRefreshGame silent | EvRefreshScoreboard silent | EvRefreshAttacks silent _
  | EvRefreshCheckerRuns silent _ | EvRefreshSchedulerEvents silent _
  | EvRecompute silent | EvAudit silent => silent
  | EvGameStatus _ | EvScoreboard _ | EvAttacks _ | EvCheckerRuns _ | EvSchedulerEvents _
  | EvMount | EvPoll | EvDeploymentsReconciled | EvHighlightTimeout => true
  | _ => false
  end.

(** The writes of the background: data and bookkeeping, never the report. *)
Definition quiet_write (c : Cell) (_ : CellTy c -> CellTy c) : Prop :=
  c ∉ report_cells.

Section Background.
Context (options : OrganizerDashboardOptions) (fraction : Z -> Z -> json).

Lemma background_quiet v event :
  background event = true -> spec quiet_write any nothing any (handle options fraction v event).
Proof.
  destruct event; intros Hb; try discriminate Hb; cbn [background] in Hb; subst; cbn [handle];
    may; unfold quiet_write, report_cells; set_solver.
Qed.

Definition in_background (v : Store) (m : Prog unit) : Prop :=
  exists event, background event = true /\ m = handle options fraction v event.

(** A background event run to its end, whatever it is answered, throws
    nothing and leaves the pending action, the error and the note as they are. *)
Theorem background_run oracle t s v event :
  background event = true ->
  let r := run oracle t s (handle options fraction v event) in
  o_result r = Done tt /\ forall c, c ∈ report_cells -> o_store r c = s c.
Proof.
  intros Hb r.
  destruct (run_spec quiet_write any nothing any (fun s' => forall c, c ∈ report_cells -> s' c = s c)
    oracle t s _ (background_quiet v event Hb)) as (_ & Hs & Hr).
  - intros c f s' Hw Hs c' Hc'. rewrite upd_other; [by apply Hs|]. by intros ->.
  - done.
  - split; [|exact Hs]. subst r.
    by destruct (o_result (run oracle t s (handle options fraction v event))) as [[]|].
Qed.

(** As long as only background events occur, however their handlers
    interleave with one another and with the renders, what the page says about
    the organizer's action does not change. *)
Theorem background_interleaving page page' :
  rtc (step in_background (sync_refs options)) page page' ->
  g_pool page = [] ->
  forall c, c ∈ report_cells -> g_store page' c = g_store page c.
Proof.
  intros Hsteps Hp c Hc.
  destruct (page_invariant in_background (sync_refs options) quiet_write any
    (fun s => forall c, c ∈ report_cells -> s c = g_store page c) page page') as (_ & Hs & _);
    [| | |exact Hsteps| | | |by apply Hs].
  - intros r m (event & Hb & ->). eapply spec_any. by apply background_quiet.
  - intros d f s Hw Hs e He. rewrite upd_other; [by apply Hs|]. by intros ->.
  - intros s Hs e He. rewrite <-(Hs e He). unfold report_cells in He.
    apply list_elem_of_In in He. simpl in He. unfold sync_refs.
    destruct He as [<-|[<-|[<-|[]]]]; by rewrite !upd_other by discriminate.
  - rewrite Hp. constructor.
  - done.
  - by apply list.Forall_true.
Qed.
End Background.

Lemma background_run_witness :
  background EvPoll = true /\
  let r := run offline [] (initial_store sample_options)
             (handle sample_options (fun _ _ => JNull) (initial_store sample_options) EvPoll) in
  o_result r = Done tt /\ length (o_trace r) = 2%nat /\ o_store r ActionError = None.
Proof.
  split; [reflexivity|].
  destruct (background_run sample_options (fun _ _ => JNull) offline [] (initial_store sample_options)
    (initial_store sample_options) EvPoll eq_refl) as [H1 H2].
  cbn zeta. split_and!; [exact H1|reflexivity|]. rewrite H2; [reflexivity|].
  right. left.
Defined.

Lemma background_interleaving_witness :
  let s := initial_store sample_options in
  let r := run offline [] s (handle sample_options (fun _ _ => JNull) s (EvScoreboard (Some []))) in
  o_store r ScoreRows = [] /\ o_store r ActionNote = None.
Proof.
  intros s r. split; [reflexivity|].
  apply (background_interleaving sample_options (fun _ _ => JNull) (mkConfig s s [] [])
    (mkConfig (o_store r) s [] (o_trace r))); [|reflexivity|right; right; left].
  apply event_steps. by exists (EvScoreboard (Some [])).
Defined.
