(* ===== verification/OrganizerRows.v ===== *)
(** * The rows of the organizer dashboard under interleaving

    The handlers add and change rows through functional updates of the state, so
    that handlers in progress at the same time do not lose one another's rows. *)

From S2P Require Import Prelude JsString JsNumber DashboardUtils ApiUtils PlatformApi ReactRuntime ReactRules AdminTypes OrganizerState Organizer OrganizerQuiet.

(** The identifiers of the rows, in the order of the page. *)
Definition team_ids (s : Store) : list Z := tm_id <$> (s TeamRows : list AdminTeam).
Definition player_ids (s : Store) : list Z := pl_id <$> (s PlayerRows : list AdminPlayer).
Definition challenge_ids (s : Store) : list Z := ch_id <$> (s ChallengeRows : list AdminChallenge).

(** Every row is still there, in its place; rows may have been added after. *)
Definition rows_kept (s s' : Store) : Prop :=
  team_ids s `prefix_of` team_ids s' /\ player_ids s `prefix_of` player_ids s' /\
  challenge_ids s `prefix_of` challenge_ids s'.

#[export] Instance rows_kept_preorder : PreOrder rows_kept.
Proof.
  split; [intros s; by repeat split|].
  intros s1 s2 s3 (H1 & H2 & H3) (H4 & H5 & H6). split_and!; by etrans.
Qed.

Definition keeps_rows (c : Cell) (f : CellTy c -> CellTy c) : Prop :=
  forall s, rows_kept s (upd c f s).

Lemma rows_kept_eq s s' :
  s' TeamRows = s TeamRows -> s' PlayerRows = s PlayerRows -> s' ChallengeRows = s ChallengeRows ->
  rows_kept s s'.
Proof.
  intros H1 H2 H3. unfold rows_kept, team_ids, player_ids, challenge_ids. rewrite H1, H2, H3.
  by split_and!.
Qed.

Lemma keeps_other c f :
  c <> TeamRows -> c <> PlayerRows -> c <> ChallengeRows -> keeps_rows c f.
Proof. intros H1 H2 H3 s. apply rows_kept_eq; by apply upd_other. Qed.

Lemma keeps_teams (f : list AdminTeam -> list AdminTeam) :
  (forall l, (tm_id <$> l) `prefix_of` (tm_id <$> f l)) -> keeps_rows TeamRows f.
Proof.
  intros H s. unfold rows_kept, team_ids, player_ids, challenge_ids.
  rewrite upd_same, !upd_other by discriminate. split_and!; [apply H|done|done].
Qed.

Lemma keeps_players (f : list AdminPlayer -> list AdminPlayer) :
  (forall l, (pl_id <$> l) `prefix_of` (pl_id <$> f l)) -> keeps_rows PlayerRows f.
Proof.
  intros H s. unfold rows_kept, team_ids, player_ids, challenge_ids.
  rewrite upd_same, !upd_other by discriminate. split_and!; [done|apply H|done].
Qed.

Lemma keeps_challenges (f : list AdminChallenge -> list AdminChallenge) :
  (forall l, (ch_id <$> l) `prefix_of` (ch_id <$> f l)) -> keeps_rows ChallengeRows f.
Proof.
  intros H s. unfold rows_kept, team_ids, player_ids, challenge_ids.
  rewrite upd_same, !upd_other by discriminate. split_and!; [done|done|apply H].
Qed.

(** Adding at the end and changing rows without their identifier. *)
Lemma prefix_added {A : Type} (g : A -> Z) (x : A) l : (g <$> l) `prefix_of` (g <$> l ++ [x]).
Proof. rewrite fmap_app. by apply prefix_app_r. Qed.

Lemma prefix_mapped {A : Type} (g : A -> Z) (h : A -> A) l :
  (forall x, g (h x) = g x) -> (g <$> l) `prefix_of` (g <$> (h <$> l)).
Proof.
  intros H. rewrite <-list_fmap_compose.
  replace ((g ∘ h) <$> l) with (g <$> l); [done|]. apply list_fmap_ext. intros i x _. symmetry. apply H.
Qed.

Lemma prefix_map_if {A : Type} (g : A -> Z) (p : A -> bool) (h : A -> A) l :
  (forall x, g (h x) = g x) -> (g <$> l) `prefix_of` (g <$> map_if p h l).
Proof. intros H. apply prefix_mapped. intros x. by destruct (p x). Qed.

Ltac keeps :=
  lazymatch goal with
  | |- keeps_rows TeamRows _ => apply keeps_teams; intros l
  | |- keeps_rows PlayerRows _ => apply keeps_players; intros l
  | |- keeps_rows ChallengeRows _ => apply keeps_challenges; intros l
  | |- keeps_rows _ _ => apply keeps_other; discriminate
  end;
  first [apply prefix_added | apply prefix_mapped | apply prefix_map_if];
  intros x; unfold count_new_team; by repeat case_match.

(** Everything but the deletions and the edits that replace a row by the one the
    call answered. *)
Definition additive (event : Event) : bool :=
  match event with
  | EvConfirmDelete | EvSubmitForm | EvSetTeamActive _ _ | EvSetPlayerActive _ _
  | EvSetMaintenance _ _ => false
  | _ => true
  end.

Section Rows.
Context (options : OrganizerDashboardOptions) (fraction : Z -> Z -> json).

Lemma additive_keeps_rows v event :
  additive event = true -> spec keeps_rows any any any (handle options fraction v event).
Proof.
  intros H. destruct event; try discriminate H; clear H; cbn [handle]; may; keeps.
Qed.

Definition in_additive (v : Store) (m : Prog unit) : Prop :=
  exists event, additive event = true /\ m = handle options fraction v event.

(** C7: however creations, deployments, key rotations, game actions, refreshes and
    frames interleave, and whatever the calls answer, no team, player or challenge
    on the page is lost or moved: the new ones come after. *)
Theorem rows_never_lost page page' :
  rtc (step in_additive (sync_refs options)) page page' -> g_pool page = [] ->
  rows_kept (g_store page) (g_store page').
Proof.
  intros Hsteps Hp.
  destruct (page_invariant in_additive (sync_refs options) keeps_rows any
    (rows_kept (g_store page)) page page') as (_ & Hs & _);
    [| | |exact Hsteps| | | |exact Hs].
  - intros r m (event & Hb & ->). by apply additive_keeps_rows.
  - intros c f s Hw Hs. etrans; [exact Hs|]. apply Hw.
  - intros s Hs. etrans; [exact Hs|]. apply rows_kept_eq; unfold sync_refs;
      by rewrite !upd_other by discriminate.
  - rewrite Hp. constructor.
  - done.
  - by apply list.Forall_true.
Qed.
End Rows.

(** A team created on the small dashboard comes after the two others. *)
Lemma rows_never_lost_witness :
  let s := initial_store sample_options in
  let r := run online [] s (handle sample_options (fun _ _ => JNull) s EvCreateTeam) in
  team_ids (o_store r) = [1; 2; 3] /\ rows_kept s (o_store r).
Proof.
  intros s r. split; [reflexivity|].
  apply (rows_never_lost sample_options (fun _ _ => JNull) (mkConfig s s [] [])
    (mkConfig (o_store r) s [] (o_trace r))); [|reflexivity].
  apply event_steps. by exists EvCreateTeam.
Defined.
