(* ===== verification/OrganizerActions.v ===== *)
(** * What each action of the organizer dashboard does

    The handlers run alone, against any oracle: the requests they make, in order,
    the rows they leave and what they report, on success and on failure. *)

From S2P Require Import Prelude JsString JsNumber DashboardUtils ApiUtils PlatformApi PlatformRoutes AdminApi ReactRuntime ReactRules AdminTypes OrganizerState Organizer OrganizerQuiet.

(** ** Running the shared statements *)

(** The store after [begin_action]. *)
Definition begun (key : string) (s : Store) : Store :=
  upd ActionNote (fun _ => None) (upd ActionError (fun _ => None)
    (upd PendingAction (fun _ => Some key) s)).

Definition ended (s : Store) : Store := upd PendingAction (fun _ => None) s.
Definition reported (message : string) (s : Store) : Store :=
  upd ActionError (fun _ => Some message) s.

(** Reading a cell of an updated store. *)
Ltac cells := repeat first [rewrite upd_same | rewrite upd_other by discriminate].
(** A cell that is not one of the listed ones. *)
Ltac notin := rewrite ?not_elem_of_cons; split_and!; first [discriminate | apply not_elem_of_nil].
Ltac unfold_stores := unfold ended, reported, begun.

Section Run.
Context (oracle : Oracle).

Lemma run_action t s key fallback body :
  run oracle t s (action key fallback body) =
  let r := run oracle t (begun key s) body in
  mkOutcome (o_trace r)
    (ended (match o_result r with
            | Done _ => o_store r
            | Thrown e => reported (error_message e fallback) (o_store r)
            end)) (Done tt).
Proof.
  unfold action, begin_action, begun. simpl. rewrite run_finally, run_catch. simpl.
  by destruct (run oracle t _ body) as [t1 s1 [[]|e]].
Qed.

Lemma run_bool_action t s key fallback body :
  run oracle t s (bool_action key fallback body) =
  let r := run oracle t (begun key s) body in
  match o_result r with
  | Done _ => mkOutcome (o_trace r) (ended (o_store r)) (Done true)
  | Thrown e =>
      mkOutcome (o_trace r) (ended (reported (error_message e fallback) (o_store r))) (Done false)
  end.
Proof.
  unfold bool_action, begin_action, begun. simpl. rewrite run_finally, run_catch, !(run_bind oracle t _ body). simpl.
  by destruct (run oracle t _ body) as [t1 s1 [[]|e]].
Qed.

Lemma quiet_action_loud key fallback body :
  quiet_action false key fallback body = action key fallback body.
Proof. done. Qed.

Lemma run_silent t s key fallback body :
  run oracle t s (quiet_action true key fallback body) =
  let r := run oracle t s body in mkOutcome (o_trace r) (o_store r) (Done tt).
Proof.
  unfold quiet_action. simpl. rewrite run_finally, run_catch. simpl.
  by destruct (run oracle t s body) as [t1 s1 [[]|e]].
Qed.

Lemma silent_fetch t s key fallback req p path c (k : PayloadTy p -> Prog unit) :
  (forall v t s, run oracle t s (k v) = mkOutcome t (o_store (run oracle t s (k v))) (Done tt) /\
     forall c', c' <> c -> o_store (run oracle t s (k v)) c' = s c') ->
  silently t s (OpFetch req p) c
    (run oracle t s (quiet_action true key fallback (bind (fetch_payload req p path) k))).
Proof.
  intros Hk. rewrite run_silent, run_bind, run_fetch_payload. cbn [o_trace o_store o_result].
  destruct (payload_of _ path) as [v|e]; [|done].
  destruct (Hk v (t ++ [OpFetch req p]) s) as [E Hc]. split_and!; [|done|exact Hc].
  cbn [o_trace]. by rewrite E.
Qed.

Ltac silent_write :=
  apply silent_fetch; intros v t' s'; split; [reflexivity|];
  intros c' Hc'; cbn; by rewrite upd_other.

Lemma refreshGameScoreboard_silent t s :
  silently t s (OpFetch (browser_get "/api/admin/game/scoreboard") PScoreRows) ScoreRows
    (run oracle t s (refreshGameScoreboard true)).
Proof. silent_write. Qed.

Lemma recomputeGameScoring_silent t s :
  silently t s (OpFetch (browser_call "POST" "/api/admin/game/scoring/recompute") PScoreRows)
    ScoreRows (run oracle t s (recomputeGameScoring true)).
Proof. silent_write. Qed.

Lemma auditGameScoring_silent t s :
  silently t s (OpFetch (browser_get "/api/admin/game/scoring/audit") PScoringAudit) ScoringAudit
    (run oracle t s (auditGameScoring true)).
Proof. silent_write. Qed.

Lemma refreshSchedulerEvents_silent t s filters :
  silently t s (OpFetch (browser_get ("/api/admin/game/scheduler/events" ++ₛ
      buildSchedulerEventQueryString filters)) PSchedulerEventPage) SchedulerEventPageState
    (run oracle t s (refreshSchedulerEvents true filters)).
Proof. silent_write. Qed.

Lemma refreshCheckerRuns_silent t s filters :
  silently t s (OpFetch (browser_get ("/api/admin/game/checker-runs" ++ₛ
      buildCheckerRunQueryString filters)) PCheckerRunPage) CheckerRunPageState
    (run oracle t s (refreshCheckerRuns true filters)).
Proof. silent_write. Qed.

Lemma refreshWireGuardGatewayStatus_silent t s :
  silently t s (OpFetch (browser_get "/api/admin/wireguard/status") PGatewayStatus)
    WireGuardGatewayStatus (run oracle t s (refreshWireGuardGatewayStatus true)).
Proof. silent_write. Qed.

Lemma refreshAccessStatus_silent t s :
  silently t s (OpFetch (browser_get "/api/admin/access/status") PAccessStatus)
    AccessStatus (run oracle t s (refreshAccessStatus true)).
Proof. silent_write. Qed.

Lemma refreshDeploymentRows_silent t s :
  silently t s (OpFetch (browser_get "/api/admin/deployments") PDeployments)
    DeploymentRows (run oracle t s (refreshDeploymentRows true)).
Proof. silent_write. Qed.

Lemma refreshOperationsStatus_silent t s :
  silently t s (OpFetch (browser_get "/api/admin/operations/status") POperationsStatus)
    OperationsStatusState (run oracle t s (refreshOperationsStatus true)).
Proof. silent_write. Qed.

Lemma refreshServiceMetrics_silent t s :
  silently t s (OpFetch (browser_get "/api/admin/operations/metrics") PServiceMetrics)
    ServiceMetricsState (run oracle t s (refreshServiceMetrics true)).
Proof. silent_write. Qed.
End Run.


(** ** Failure leaves the data alone *)

(** What follows the call: it cannot fail and does not write the error. *)
Definition keeps_error (c : Cell) (_ : CellTy c -> CellTy c) : Prop := c <> ActionError.
Definition clean {A : Type} (m : Prog A) : Prop := spec keeps_error any nothing any m.

Lemma clean_run {A : Type} oracle t s (m : Prog A) :
  clean m ->
  (exists a, o_result (run oracle t s m) = Done a) /\
  o_store (run oracle t s m) ActionError = s ActionError.
Proof.
  intros Hm.
  destruct (run_spec keeps_error any nothing any
    (fun s' => s' ActionError = s ActionError) oracle t s m Hm) as (_ & Hs & Hr).
  - intros c f s' Hw Hs. by rewrite upd_other.
  - done.
  - split; [|exact Hs]. destruct (o_result (run oracle t s m)) as [a|e]; [by eexists|done].
Qed.

(** The data are as before: only the report may have changed. *)
Definition untouched (s s' : Store) : Prop := forall c, c ∉ report_cells -> s' c = s c.

Lemma untouched_ended e key s : untouched s (ended (reported e (begun key s))).
Proof.
  intros c Hc. unfold report_cells in Hc. unfold_stores.
  rewrite !upd_other; set_solver.
Qed.

(** An action either reports an error and leaves the data alone, or reports
    none. *)
Definition atomic (s : Store) (r : Outcome unit) : Prop :=
  o_result r = Done tt /\
  (o_store r ActionError = None \/ untouched s (o_store r)).

Definition settled (s : Store) (r : Outcome bool) : Prop :=
  (o_result r = Done true /\ o_store r ActionError = None) \/
  (o_result r = Done false /\ untouched s (o_store r)).

Section Atomic.
Context {A : Type} (oracle : Oracle) (m : Prog A) (k : A -> Prog unit).
Context (Hm : asks m) (Hk : forall a, clean (k a)).

Lemma run_asks_clean t s key :
  let r := run oracle t (begun key s) (bind m k) in
  (exists e, o_result r = Thrown e /\ o_store r = begun key s) \/
  (o_result r = Done tt /\ o_store r ActionError = None).
Proof.
  cbn zeta. rewrite run_bind. cbn zeta. specialize (Hm oracle t (begun key s)).
  destruct (o_result (run oracle t (begun key s) m)) as [a|e]; [right|left; by exists e].
  destruct (clean_run oracle (o_trace (run oracle t (begun key s) m))
    (o_store (run oracle t (begun key s) m)) (k a) (Hk a)) as [[[] ->] ->].
  split; [done|]. rewrite Hm. unfold begun. by cells.
Qed.

Lemma action_atomic t s key fallback :
  atomic s (run oracle t s (action key fallback (bind m k))).
Proof.
  rewrite run_action. cbn zeta. split; [done|]. cbn [o_store].
  destruct (run_asks_clean t s key) as [(e & -> & ->)|[-> He]].
  - right. apply untouched_ended.
  - left. unfold ended. cells. exact He.
Qed.

Lemma bool_action_settled t s key fallback :
  settled s (run oracle t s (bool_action key fallback (bind m k))).
Proof.
  rewrite run_bool_action. cbn zeta.
  destruct (run_asks_clean t s key) as [(e & -> & ->)|[-> He]].
  - right. split; [done|]. apply untouched_ended.
  - left. split; [done|]. unfold ended. cbn [o_store]. cells. exact He.
Qed.
End Atomic.
