(* ===== verification/OrganizerForms.v ===== *)
(** * The mutations of the organizer dashboard

    Creating, updating and deleting teams, players and challenges, deploying,
    tearing down: what is requested, what the rows become, and that a failure
    leaves the data alone. *)

From S2P Require Import Prelude JsString JsNumber DashboardUtils ApiUtils PlatformApi PlatformRoutes AdminApi ReactRuntime ReactRules AdminTypes OrganizerState Organizer OrganizerQuiet OrganizerActions.

Ltac clean_tac :=
  intros; unfold clean; may; unfold keeps_error; discriminate.
Ltac atomic_tac :=
  first [apply action_atomic | apply bool_action_settled];
  [first [apply asks_fetch_payload | apply asks_fetch_void | apply asks_fetch_optional]|clean_tac].

Section Forms.
Context (options : OrganizerDashboardOptions) (fraction : Z -> Z -> json) (oracle : Oracle).
Notation run_ := (run oracle).

Lemma early_return t s : settled s (run_ t s (Return false)).
Proof. by right. Qed.

Lemma createTeam_settled t s v : settled s (run_ t s (createTeam v)).
Proof. atomic_tac. Qed.

Lemma createPlayer_settled t s v : settled s (run_ t s (createPlayer v)).
Proof.
  unfold createPlayer. cbn zeta. case_match; [|atomic_tac]. right. split; [done|].
  intros c Hc. cbn. rewrite upd_other; [done|]. intros <-. set_solver.
Qed.

Lemma createChallenge_settled t s v : settled s (run_ t s (createChallenge fraction v)).
Proof. atomic_tac. Qed.

Lemma updateTeam_settled t s v : settled s (run_ t s (updateTeam v)).
Proof. unfold updateTeam. case_match; [atomic_tac|apply early_return]. Qed.

Lemma updatePlayer_settled t s v : settled s (run_ t s (updatePlayer v)).
Proof. unfold updatePlayer. case_match; [atomic_tac|apply early_return]. Qed.

Lemma updateChallenge_settled t s v : settled s (run_ t s (updateChallenge v)).
Proof. unfold updateChallenge. case_match; [atomic_tac|apply early_return]. Qed.

(** The save a form submits. *)
Definition form_save (v : Store) (mode : FormMode) : Prog bool :=
  match mode, v FormEntityState with
  | ModeCreate, Some ETeam => createTeam v
  | ModeCreate, Some EPlayer => createPlayer v
  | ModeCreate, Some EChallenge => createChallenge fraction v
  | ModeEdit, Some ETeam => updateTeam v
  | ModeEdit, Some EPlayer => updatePlayer v
  | ModeEdit, Some EChallenge => updateChallenge v
  | _, None => Return false
  end.

Lemma form_save_settled t s (v : Store) mode : settled s (run_ t s (form_save v mode)).
Proof.
  unfold form_save.
  destruct mode; destruct (v FormEntityState) as [[]|];
    auto using createTeam_settled, createPlayer_settled, createChallenge_settled,
      updateTeam_settled, updatePlayer_settled, updateChallenge_settled, early_return.
Qed.

Lemma run_submitForm t s (v : Store) mode :
  v FormModeState = Some mode ->
  run_ t s (submitForm fraction v) =
  run_ t s (bind (form_save v mode) (fun done => if done : bool then closeFormDialog else skip)).
Proof.
  intros Hm. unfold submitForm, form_save. rewrite Hm.
  by destruct mode; destruct (v FormEntityState) as [[]|].
Qed.

(** A submitted form is closed exactly when its entity was saved: either the
    save returned true, no error is shown and the dialog is closed, or it returned
    false and the dialog, the drafts and all the rows are as they were. *)
Theorem submitForm_closes_on_success t s (v : Store) mode :
  v FormModeState = Some mode ->
  let save := run_ t s (form_save v mode) in
  let r := run_ t s (submitForm fraction v) in
  o_result r = Done tt /\ o_trace r = o_trace save /\
  ((o_result save = Done true /\ o_store r ActionError = None /\
    o_store r FormModeState = None /\ o_store r FormEntityState = None /\
    o_store r EditingId = None /\
    (forall c, c ∉ ([FormModeState; FormEntityState; EditingId] : list Cell) ->
       o_store r c = o_store save c)) \/
   (o_result save = Done false /\ untouched s (o_store r))).
Proof.
  intros Hm save r. subst r. rewrite (run_submitForm t s v mode Hm), run_bind. fold save. cbn zeta.
  destruct (form_save_settled t s v mode) as [[Hr He]|[Hr Hu]]; fold save in Hr.
  - rewrite Hr. cbn [closeFormDialog set_to bind run o_result o_trace o_store].
    split_and!; [done|done|]. left. split_and!; [done|by cells..|].
    intros c Hc. rewrite !upd_other; set_solver.
  - rewrite Hr. cbn [skip run o_result o_trace o_store]. split_and!; [done|done|]. by right.
Qed.

(** ** Creating a team *)

(** A created team is asked for once with the draft; on success it is added
    at the end of the rows, every challenge counts one more team, the scoreboard
    is read again, the drafts are prepared for the next entry and no error is
    shown; on failure the error is reported and nothing else changes. *)
Theorem createTeam_spec t s (v : Store) :
  let ask := OpFetch (browser_send "POST" "/api/admin/teams" (team_draft_json (v TeamDraftState)))
               PTeam in
  let board := OpFetch (browser_get "/api/admin/game/scoreboard") PScoreRows in
  let r := run_ t s (createTeam v) in
  match payload_of (oracle t ask) "team create request" with
  | Done team =>
      o_trace r = t ++ [ask; board] /\ o_result r = Done true /\
      o_store r TeamRows = s TeamRows ++ [team] /\
      o_store r ChallengeRows = count_new_team <$> s ChallengeRows /\
      o_store r TeamDraftState = emptyTeamDraft /\
      o_store r PlayerDraftState = draft_team_or (tm_id team) (s PlayerDraftState) /\
      o_store r PendingAction = None /\ o_store r ActionError = None /\
      o_store r ActionNote = Some ("Created " ++ₛ tm_name team ++ₛ
        " and seeded deployed services for published challenges.") /\
      (forall c, c ∉ TeamRows :: ChallengeRows :: ScoreRows :: TeamDraftState :: PlayerDraftState ::
         report_cells -> o_store r c = s c)
  | Thrown e =>
      o_trace r = t ++ [ask] /\ o_result r = Done false /\ untouched s (o_store r) /\
      o_store r PendingAction = None /\
      o_store r ActionError = Some (error_message e "team create failed")
  end.
Proof.
  cbn zeta. unfold createTeam, persistEntity. rewrite run_bool_action, run_bind, run_fetch_payload.
  cbn [o_trace o_store o_result String.eqb Ascii.eqb Bool.eqb].
  change ("team" ++ₛ " " ++ₛ "create" ++ₛ " request") with "team create request"%string.
  set (ask := OpFetch (app := Organizer) _ PTeam).
  destruct (payload_of (oracle t ask) _) as [team|e]; cbn [o_trace o_store o_result].
  - cbn [update set_to bind run].
    set (s1 := upd (app := Organizer) ChallengeRows _ _).
    pose proof (refreshGameScoreboard_silent oracle (t ++ [ask]) s1) as Hb.
    rewrite (run_after _ _ _ _ _ _ _ Hb). destruct Hb as (_ & _ & Hs).
    cbn [note set_to update bind run o_trace o_store o_result]. unfold ended.
    rewrite <-app_assoc. split_and!; try done; try (cells; rewrite ?Hs by done; unfold s1, begun; by cells).
    intros c Hc. unfold report_cells in Hc. rewrite !upd_other by set_solver.
    rewrite Hs by set_solver. unfold s1, begun. by rewrite !upd_other by set_solver.
  - split_and!; try done; [by apply untouched_ended|unfold_stores; by cells..].
Qed.

(** ** Deploying a challenge *)

Definition validate_op (challenge : AdminChallenge) : Op :=
  OpFetch (browser_call "POST" (challenge_path challenge "/validate")) PValidation.
Definition deploy_op (challenge : AdminChallenge) : Op :=
  OpFetch (browser_call "POST" (challenge_path challenge "/deploy")) PDeployment.

Definition validated (validation : AdminChallengeValidationResult) (s : Store) : Store :=
  upd ChallengeValidationRows (<[va_challenge_id validation := validation]>) s.

Lemma run_validate_silent t s challenge :
  run_ t s (validateChallenge challenge true) =
  match payload_of (oracle t (validate_op challenge)) (challenge_path challenge "/validate") with
  | Done validation => mkOutcome (t ++ [validate_op challenge]) (validated validation s) (Done validation)
  | Thrown e => mkOutcome (t ++ [validate_op challenge]) s (Thrown e)
  end.
Proof.
  unfold validateChallenge. cbn [negb when]. cbn [skip bind].
  rewrite run_finally, run_catch, !(run_bind oracle t s (fetch_payload _ _ _)), !run_fetch_payload.
  fold (validate_op challenge). cbn zeta.
  cbn [o_trace o_store o_result].
  by destruct (payload_of (oracle t (validate_op challenge)) _).
Qed.

(** C6: a challenge is deployed only after a validation that found it valid and
    its three contracts respected: the deployment is requested last, once, and
    only then; otherwise an error is shown and no row of challenges, teams or
    deployments changes. *)
Theorem deployChallenge_gated t s challenge :
  let r := run_ t s (deployChallenge challenge) in
  o_result r = Done tt /\ o_store r PendingAction = None /\
  match payload_of (oracle t (validate_op challenge)) (challenge_path challenge "/validate") with
  | Done validation =>
      o_store r ChallengeValidationRows =
        <[va_challenge_id validation := validation]> (s ChallengeValidationRows) /\
      if deployable validation
      then o_trace r = t ++ [validate_op challenge; deploy_op challenge] /\
           match payload_of (oracle (t ++ [validate_op challenge]) (deploy_op challenge))
                   (challenge_path challenge "/deploy") with
           | Done payload =>
               o_store r ActionError = None /\
               o_store r ChallengeRows =
                 map_if (fun item => ch_id item =? ch_id challenge) (mark_deployed payload)
                   (s ChallengeRows) /\
               o_store r DeploymentRows = deployed_jobs payload (s DeploymentRows) /\
               o_store r TeamRows = (if ch_published challenge then s TeamRows
                                     else count_new_challenge <$> s TeamRows)
           | Thrown e =>
               o_store r ActionError = Some (error_message e "challenge deploy failed") /\
               o_store r ChallengeRows = s ChallengeRows /\
               o_store r DeploymentRows = s DeploymentRows /\ o_store r TeamRows = s TeamRows
           end
      else o_trace r = t ++ [validate_op challenge] /\
           o_store r ActionError = Some (str_or (va_message validation ?? EmptyString)
             "challenge package failed runtime validation") /\
           o_store r ChallengeRows = s ChallengeRows /\
           o_store r DeploymentRows = s DeploymentRows /\ o_store r TeamRows = s TeamRows
  | Thrown e =>
      o_trace r = t ++ [validate_op challenge] /\
      o_store r ActionError = Some (error_message e "challenge deploy failed") /\
      untouched s (o_store r)
  end.
Proof.
  cbn zeta. unfold deployChallenge. rewrite run_action, run_bind, run_validate_silent. cbn zeta.
  destruct (payload_of (oracle t (validate_op challenge)) _) as [va|e];
    cbn [o_trace o_store o_result].
  - cbn [applyChallengeValidation update bind run].
    destruct (deployable va); cbn [bind run skip].
    + rewrite run_bind, run_fetch_payload. cbn zeta. fold (deploy_op challenge).
      cbn [o_trace o_store o_result].
      destruct (payload_of (oracle _ (deploy_op challenge)) _) as [d|e].
      * destruct (ch_published challenge);
          cbn [negb when note skip update set_to bind run o_trace o_store o_result];
          unfold validated; unfold_stores; rewrite <-app_assoc; split_and!; try done; cells;
          try done; by apply (insert_insert_eq (M := gmap Z)).
      * cbn [o_trace o_store o_result]. unfold validated; unfold_stores.
        rewrite <-app_assoc. split_and!; try done; cells; try done.
        by apply (insert_insert_eq (M := gmap Z)).
    + cbn [o_trace o_store o_result]. unfold validated; unfold_stores.
      split_and!; try done; cells; try done. by apply (insert_insert_eq (M := gmap Z)).
  - split_and!; try done; [unfold_stores; by cells..|by apply untouched_ended].
Qed.

(** After a deployment that got a job, the job is the first row, every other
    queued or running row of the challenge is superseded with nothing left queued,
    and all other rows are kept as they are, in order. *)
Theorem deployed_jobs_supersede payload current :
  0 < dp_job_id payload ->
  let rows := deployed_jobs payload current in
  exists rest, rows = deployment_row payload :: rest /\
  Forall2 (fun before after =>
    dj_id after = dj_id before /\ dj_challenge_id after = dj_challenge_id before /\
    (active_job after = true -> dj_challenge_id after = dp_challenge_id payload ->
     dj_id after = dp_job_id payload) /\
    (after = before \/
     (dj_challenge_id before = dp_challenge_id payload /\ active_job before = true /\
      dj_status after = "superseded"%string /\ dj_queued_team_count after = 0)))
    current rest.
Proof.
  intros Hid rows. unfold rows, deployed_jobs. rewrite (proj2 (Z.gtb_lt _ _) Hid).
  eexists. split; [done|]. unfold map_if. rewrite Forall2_fmap_r.
  apply Forall2_same_length_lookup; split; [done|]. intros i d d' E1 E2.
  rewrite E1 in E2. injection E2 as <-.
  clear E1. unfold compose; cbv beta. match goal with |- context [if ?b then _ else _] => destruct b eqn:E end.
  - apply andb_true_iff in E as [[Hc _]%andb_true_iff Ha]. apply Z.eqb_eq in Hc.
    split_and!; [done|done|done|right; by split_and!].
  - split_and!; [done|done| |by left]. intros Ha Hc. rewrite Ha, Hc, Z.eqb_refl in E.
    destruct (dj_id d =? dp_job_id payload) eqn:Hi; [by apply Z.eqb_eq|done].
Qed.

(** ** Deleting *)

Definition delete_url (target : DeleteTarget) : string :=
  match dt_kind target with
  | KTeam => "/api/admin/teams/"
  | KPlayer => "/api/admin/players/"
  | KChallenge => "/api/admin/challenges/"
  | KDeployment => "/api/admin/deployments/"
  end ++ₛ num_to_string (dt_id target).

Definition delete_op (target : DeleteTarget) : Op :=
  OpFetch (browser_call "DELETE" (delete_url target)) PVoid.

(** The target is still one of the rows on screen. *)
Definition listed (v : Store) (target : DeleteTarget) : bool :=
  match dt_kind target with
  | KTeam => existsb (fun t => tm_id t =? dt_id target) (v TeamRows)
  | KPlayer => existsb (fun p => pl_id p =? dt_id target) (v PlayerRows)
  | KChallenge => existsb (fun c => ch_id c =? dt_id target) (v ChallengeRows)
  | KDeployment => existsb (fun d => dj_id d =? dt_id target) (v DeploymentRows)
  end.

(** The rows after the deletion: the target is out, and with a team its players. *)
Definition deleted (target : DeleteTarget) (s s' : Store) : Prop :=
  let id := dt_id target in
  s' TeamRows = match dt_kind target with
                | KTeam => bfilter (fun t => negb (tm_id t =? id)) (s TeamRows)
                | _ => s TeamRows
                end /\
  s' PlayerRows = match dt_kind target with
                  | KTeam => bfilter (fun p => negb (pl_team_id p =? id)) (s PlayerRows)
                  | KPlayer => bfilter (fun p => negb (pl_id p =? id)) (s PlayerRows)
                  | _ => s PlayerRows
                  end /\
  s' ChallengeRows = match dt_kind target with
                     | KChallenge => bfilter (fun c => negb (ch_id c =? id)) (s ChallengeRows)
                     | _ => s ChallengeRows
                     end /\
  s' DeploymentRows = match dt_kind target with
                      | KDeployment => bfilter (fun d => negb (dj_id d =? id)) (s DeploymentRows)
                      | _ => s DeploymentRows
                      end.

Lemma run_deleteEntity t s key url label apply_ text :
  run_ t s (deleteEntity key url label apply_ text) =
  let op := OpFetch (browser_call "DELETE" url) PVoid in
  match void_of (oracle t op) url with
  | Done _ =>
      let r := run_ (t ++ [op]) (begun key s) (apply_ ;;! note text) in
      mkOutcome (o_trace r)
        (ended (match o_result r with
                | Done _ => o_store r
                | Thrown e => reported (error_message e label) (o_store r)
                end)) (Done tt)
  | Thrown e =>
      mkOutcome (t ++ [op]) (ended (reported (error_message e label) (begun key s))) (Done tt)
  end.
Proof.
  unfold deleteEntity. rewrite run_action, run_bind, run_fetch_void. cbn zeta.
  cbn [o_trace o_store o_result]. by destruct (void_of _ url).
Qed.

Definition delete_label (target : DeleteTarget) : string :=
  match dt_kind target with
  | KTeam => "team delete failed"
  | KPlayer => "player delete failed"
  | KChallenge => "challenge delete failed"
  | KDeployment => "deployment delete failed"
  end.

(** C16: confirming a deletion closes the dialog; nothing is sent when the target
    is no longer on screen, and otherwise exactly one DELETE of that target: on
    success its row, and with a team its players, disappear and every other row
    stays; on failure the error is reported and all data stay. *)
Theorem confirmDelete_spec t s (v : Store) target :
  v DeleteTargetState = Some target ->
  let r := run_ t s (confirmDelete v) in
  o_result r = Done tt /\ o_store r DeleteTargetState = None /\
  if listed v target then
    o_trace r = t ++ [delete_op target] /\
    match void_of (oracle t (delete_op target)) (delete_url target) with
    | Done _ => o_store r ActionError = None /\ deleted target s (o_store r)
    | Thrown e =>
        o_store r ActionError = Some (error_message e (delete_label target)) /\
        forall c, c ∉ DeleteTargetState :: report_cells -> o_store r c = s c
    end
  else o_trace r = t /\ forall c, c <> DeleteTargetState -> o_store r c = s c.
Proof.
  intros Hv. cbn zeta. unfold confirmDelete. rewrite Hv. cbn [set_to bind run].
  set (s0 := upd (app := Organizer) DeleteTargetState _ s).
  unfold listed, delete_op, delete_url, delete_label, deleted. destruct (dt_kind target).
  all: rewrite existsb_find_first; destruct (find_first _ _) as [x|] eqn:E;
    [|by split_and!; unfold s0; [|cells| |intros c Hc; apply upd_other]].
  all: apply find_first_Some in E as [_ Hid%Z.eqb_eq];
    unfold deleteTeam, deletePlayer, deleteChallenge, deleteDeployment; rewrite run_deleteEntity, Hid;
    cbn zeta; destruct (void_of _ _);
    cbn [note update set_to bind run o_trace o_store o_result]; unfold s0; unfold_stores;
    split_and!; try done; try by cells.
  all: intros c Hc; unfold report_cells in Hc; rewrite !upd_other; set_solver.
Qed.

(** ** Tearing down *)

(** The two teardowns: the handler, the question asked, the call and the status
    read again afterwards. *)
Inductive teardown : Event -> string -> string -> string -> Op -> Prop :=
| teardown_gateway : teardown EvTeardownGateway
    "Are you sure you want to TEARDOWN the WireGuard gateway? This will remove ALL peer access."
    "/api/admin/wireguard/teardown" "wireguard gateway teardown failed"
    (OpFetch (browser_get "/api/admin/wireguard/status") PGatewayStatus)
| teardown_access : teardown EvTeardownAccess
    "Are you sure you want to TEARDOWN the service access policies? This will remove ALL SSH and service access rules."
    "/api/admin/access/teardown" "controller access teardown failed"
    (OpFetch (browser_get "/api/admin/access/status") PAccessStatus).

(** A teardown is requested only after the organizer confirmed it, once, and
    the status is read again only when it succeeded; a refusal changes nothing. *)
Theorem teardown_needs_confirmation t s v event question url label status :
  teardown event question url label status ->
  let r := run_ t s (handle options fraction v event) in
  let ask := OpConfirm question in
  let op := OpFetch (browser_call "POST" url) PVoid in
  if (oracle t ask : bool)
  then match void_of (oracle (t ++ [ask]) op) url with
       | Done _ => o_trace r = t ++ [ask; op; status] /\ o_store r ActionError = None
       | Thrown e => o_trace r = t ++ [ask; op] /\
                     o_store r ActionError = Some (error_message e label) /\ untouched s (o_store r)
       end
  else o_trace r = t ++ [ask] /\ o_store r = s.
Proof.
  intros H. cbn zeta. destruct H; cbn [handle];
    unfold teardownWireGuardGateway, teardownAccess; cbn [perform bind run].
  all: match goal with |- context [negb ?b] => destruct b; [|done]; cbn [negb] end.
  all: rewrite run_action, run_bind, run_fetch_void; cbn zeta; cbn [o_trace o_store o_result].
  all: destruct (void_of _ _); cbn [o_trace o_store o_result]; rewrite <-?app_assoc;
    [|split_and!; [done|unfold_stores; by cells|apply untouched_ended]].
  all: erewrite run_after by first [apply refreshWireGuardGatewayStatus_silent
                                   |apply refreshAccessStatus_silent].
  all: cbn [note set_to run o_trace o_store o_result]; rewrite <-app_assoc; split; [done|].
  all: unfold ended; cells.
  - erewrite (proj2 (proj2 (refreshWireGuardGatewayStatus_silent oracle _ _))) by done.
    unfold begun. by cells.
  - erewrite (proj2 (proj2 (refreshAccessStatus_silent oracle _ _))) by done.
    unfold begun. by cells.
Qed.

(** ** Atomicity *)

(** The operations that change teams, players, challenges, keys or the runtime
    with one call. *)
Definition mutation (event : Event) : bool :=
  match event with
  | EvCreateTeam | EvCreatePlayer | EvCreateChallenge
  | EvSetTeamActive _ _ | EvSetPlayerActive _ _ | EvSetMaintenance _ _
  | EvInspect _ | EvRotate _ | EvRevoke _
  | EvReconcileGateway | EvReconcileAccess | EvTeardownGateway | EvTeardownAccess
  | EvReconcileDeployments => true
  | _ => false
  end.

Lemma settled_atomic t s (m : Prog bool) :
  settled s (run_ t s m) -> atomic s (run_ t s (bind m (fun _ => skip))).
Proof.
  intros H. rewrite run_bind. cbn zeta.
  destruct H as [[-> He]|[-> Hu]]; split; cbn; auto.
Qed.

(** C33: a mutation never throws; if it ends with an error on the page, it left
    every row, draft, filter and dialog as it was. *)
Theorem failed_mutation_keeps_data t s v event :
  mutation event = true ->
  let r := run_ t s (handle options fraction v event) in
  o_result r = Done tt /\ (o_store r ActionError <> None -> untouched s (o_store r)).
Proof.
  intros Hm r. enough (H : atomic s r).
  { destruct H as [H1 [H2|H2]]; split; auto. by rewrite H2. }
  subst r. destruct event; try discriminate Hm; cbn [handle];
    first
      [apply settled_atomic, createTeam_settled | apply settled_atomic, createPlayer_settled
      |apply settled_atomic, createChallenge_settled | atomic_tac
      |unfold teardownWireGuardGateway, teardownAccess; cbn [perform bind run];
       case_match; [by split; [|right]|atomic_tac]].
Qed.
End Forms.

(** ** Concrete checks *)

Definition no_fraction (_ _ : Z) : json := JNull.

(** The creation form of a team, open, and the deletion of the second team. *)
Definition creating : Store :=
  upd (app := Organizer) FormModeState (fun _ => Some ModeCreate)
    (upd FormEntityState (fun _ => Some ETeam) (initial_store sample_options)).
Definition beta_target : DeleteTarget := mkDeleteTarget KTeam 2 "beta" None.
Definition deleting : Store :=
  upd (app := Organizer) DeleteTargetState (fun _ => Some beta_target) (initial_store sample_options).

Lemma submitForm_closes_on_success_witness :
  creating FormModeState = Some ModeCreate /\
  o_store (run online [] creating (submitForm no_fraction creating)) FormModeState = None /\
  o_store (run offline [] creating (submitForm no_fraction creating)) FormModeState
    = Some ModeCreate.
Proof.
  split; [reflexivity|]. split.
  - destruct (submitForm_closes_on_success no_fraction online [] creating creating ModeCreate eq_refl)
      as (_ & _ & [(_ & _ & H & _)|(H & _)]); [exact H|discriminate H].
  - destruct (submitForm_closes_on_success no_fraction offline [] creating creating ModeCreate eq_refl)
      as (_ & _ & [(H & _)|(_ & H)]); [discriminate H|].
    rewrite H; [reflexivity|]. unfold report_cells. notin.
Defined.

Lemma failed_mutation_keeps_data_witness :
  let r := run offline [] creating (handle sample_options no_fraction creating EvCreateTeam) in
  mutation EvCreateTeam = true /\ o_store r ActionError = Some "offline"%string /\
  untouched creating (o_store r).
Proof.
  cbn zeta. split; [reflexivity|]. split; [reflexivity|].
  apply (failed_mutation_keeps_data sample_options no_fraction offline [] creating creating
    EvCreateTeam eq_refl). discriminate.
Defined.

Lemma deployed_jobs_supersede_witness :
  let payload := mkAdminDeployment 9 4 "web" "queued" true 2 2 2 0 "now" None in
  let current := [mkAdminDeploymentJob 8 4 "web" "running" 2 2 0 0 "before" None] in
  0 < dp_job_id payload /\
  exists rest, deployed_jobs payload current = deployment_row payload :: rest /\ length rest = 1%nat.
Proof.
  intros payload current. split; [reflexivity|].
  destruct (deployed_jobs_supersede payload current ltac:(reflexivity)) as (rest & H & Hr).
  exists rest. split; [exact H|]. symmetry. exact (Forall2_length Hr).
Defined.

Lemma confirmDelete_spec_witness :
  let r := run online [] deleting (confirmDelete deleting) in
  deleting DeleteTargetState = Some beta_target /\
  o_trace r = [delete_op beta_target] /\ o_store r TeamRows = [sample_team 1 "alpha"] /\
  deleted beta_target deleting (o_store r).
Proof.
  intros r. split; [reflexivity|].
  destruct (confirmDelete_spec online [] deleting deleting beta_target eq_refl) as (_ & _ & H).
  split; [exact (proj1 H)|]. split; [reflexivity|]. exact (proj2 (proj2 H)).
Defined.

Lemma teardown_needs_confirmation_witness :
  let r := run online [] creating (handle sample_options no_fraction creating EvTeardownAccess) in
  length (o_trace r) = 3%nat /\ o_store r ActionError = None.
Proof.
  cbn zeta.
  destruct (teardown_needs_confirmation sample_options no_fraction online [] creating creating
    _ _ _ _ _ teardown_access) as [Ht He].
  split; [rewrite Ht; reflexivity|exact He].
Defined.
