(* ===== verification/RuntimeTier.v ===== *)
(** * The organizers' runtime actions, from the click to the platform and back

    The routes under [app/api/admin] that answer with the value of one call, found
    by their method and path, behind the proxy; what the page reads of the answer of
    the platform; and a teardown from the button of the organizer dashboard to the
    platform. *)

From S2P Require Import Prelude JsString JsNumber ApiUtils Io ApiHandler SessionToken Session PlatformApi AdminApi AdminRoutes ReactRuntime ReactRules AdminTypes OrganizerState Organizer OrganizerPage OrganizerActions OrganizerForms Tier.

#[local] Open Scope string_scope.
#[local] Open Scope Z_scope.
#[local] Open Scope list_scope.
#[local] Open Scope js_scope.

(** A route file that makes one call without a body: its method, its path, the path
    of the call under [/api/v2/admin], the words it falls back to, and its handler. *)
Record CallRoute := mkCallRoute {
  cr_method : string;
  cr_path : string;
  cr_upstream : string;
  cr_fallback : string;
  cr_handler : Io Reply
}.

Section RuntimeTier.
Variable hmac : list Z -> list Z -> list Z.
Variable json_parse : list Z -> option json.
Variable url_origin : string -> option string.
Variable parse_text : string -> option json.
Variable syntax_error : string.
Context (c : Ctx) (b : Browser).

Definition call_routes : list CallRoute :=
  [mkCallRoute "GET" "/api/admin/access/status" "access/status"
     "controller access status failed" (access_status_GET c);
   mkCallRoute "POST" "/api/admin/access/reconcile" "access/reconcile"
     "controller access reconcile failed" (access_reconcile_POST c);
   mkCallRoute "POST" "/api/admin/access/teardown" "access/teardown"
     "controller access teardown failed" (access_teardown_POST c);
   mkCallRoute "GET" "/api/admin/wireguard/status" "wireguard/status"
     "wireguard gateway status failed" (wireguard_status_GET c);
   mkCallRoute "POST" "/api/admin/wireguard/teardown" "wireguard/teardown"
     "wireguard gateway teardown failed" (wireguard_teardown_POST c);
   mkCallRoute "GET" "/api/admin/game/status" "game/status"
     "game-core status failed" (game_status_GET c);
   mkCallRoute "GET" "/api/admin/operations/status" "operations/status"
     "operations status failed" (operations_status_GET c);
   mkCallRoute "POST" "/api/admin/game/match/start" "game/match/start"
     "game match start failed" (match_start_POST c);
   mkCallRoute "POST" "/api/admin/game/match/pause" "game/match/pause"
     "game match pause failed" (match_pause_POST c);
   mkCallRoute "POST" "/api/admin/game/match/resume" "game/match/resume"
     "game match resume failed" (match_resume_POST c);
   mkCallRoute "POST" "/api/admin/game/match/stop" "game/match/stop"
     "game match stop failed" (match_stop_POST c);
   mkCallRoute "POST" "/api/admin/game/ticks/advance" "game/ticks/advance"
     "game-core tick advance failed" (ticks_advance_POST c);
   mkCallRoute "POST" "/api/admin/game/scheduler/start" "game/scheduler/start"
     "scheduler start failed" (scheduler_start_POST c);
   mkCallRoute "POST" "/api/admin/game/scheduler/stop" "game/scheduler/stop"
     "scheduler stop failed" (scheduler_stop_POST c);
   mkCallRoute "GET" "/api/admin/game/scoreboard" "game/scoreboard"
     "scoreboard fetch failed" (scoreboard_GET c);
   mkCallRoute "POST" "/api/admin/game/scoreboard/unfreeze" "game/scoreboard/unfreeze"
     "freeze clear failed" (unfreeze_POST c);
   mkCallRoute "GET" "/api/admin/game/scoring/audit" "game/scoring/audit"
     "score audit failed" (scoring_audit_GET c);
   mkCallRoute "POST" "/api/admin/game/scoring/recompute" "game/scoring/recompute"
     "score recompute failed" (scoring_recompute_POST c)].

Definition call_init (route : CallRoute) : RequestInit := mkRequestInit (cr_method route) [] None.

(** Each handler is the call it is listed with. *)
Lemma call_routes_call :
  Forall (fun route => cr_handler route =
    answer_json (adminFetch c (admin_path (cr_upstream route)) (call_init route)) (cr_fallback route))
    call_routes.
Proof. repeat constructor. Qed.

Definition runtime_routes : Routes := fun method pathname _ =>
  cr_handler <$> find_first (fun route => String.eqb (cr_method route) method &&
                                          String.eqb (cr_path route) pathname) call_routes.

Lemma listed (P : CallRoute -> Prop) route : Forall P call_routes -> route ∈ call_routes -> P route.
Proof. intros H. by apply (proj1 (list.Forall_forall _ _)). Qed.

Lemma runtime_route_found route body :
  route ∈ call_routes -> runtime_routes (cr_method route) (cr_path route) body = Some (cr_handler route).
Proof.
  apply (listed (fun route =>
    runtime_routes (cr_method route) (cr_path route) body = Some (cr_handler route))).
  repeat constructor.
Qed.

Lemma runtime_path route :
  route ∈ call_routes ->
  proxied (cr_path route) = true /\ starts_with "/admin" (cr_path route) = false.
Proof.
  apply (listed (fun route =>
    proxied (cr_path route) = true /\ starts_with "/admin" (cr_path route) = false)).
  by repeat constructor.
Qed.

Definition organizer_in (up : Upstream) (token : string) : Prop :=
  signed_in hmac json_parse c (fun role => role = "organizer") up token.

(** The request of the page, and the call that reaches the platform. *)
Definition runtime_request (route : CallRoute) : Request := browser_call (cr_method route) (cr_path route).

Definition runtime_call (admin_token : string) (route : CallRoute) : Request :=
  authenticatedFetch_request (adminBaseUrl c) (admin_path (cr_upstream route)) (Some admin_token)
    (call_init route).

(** The conditions under which a runtime action reaches the platform. *)
Record runs (up : Upstream) (token admin_token : string) (route : CallRoute) : Prop := {
  rn_organizer : organizer_in up token;
  rn_network : honest_network up;
  rn_token : trimmed (ADMIN_API_TOKEN (env c)) = Some admin_token;
  rn_same_origin : sameOriginBrowserMutation url_origin (sent_by b (runtime_request route)) = true;
  rn_listed : route ∈ call_routes
}.

Notation runtime_answer := (tier_answer hmac json_parse url_origin parse_text syntax_error c b
  runtime_routes).

Lemma run_adminFetch up calls admin_token route :
  trimmed (ADMIN_API_TOKEN (env c)) = Some admin_token ->
  let req := runtime_call admin_token route in
  Io.run up calls (adminFetch c (admin_path (cr_upstream route)) (call_init route)) =
  (calls ++ [req],
   result_bind (up calls req) (fun r => processApiResponse r (admin_path (cr_upstream route)))).
Proof.
  intros Ht req. unfold adminFetch, getAdminToken. rewrite Ht. cbn [io_bind].
  unfold authenticatedFetch, fetch. cbn [io_bind Io.run]. fold (runtime_call admin_token route). fold req.
  destruct (up calls req) as [r|e]; cbn [of_result Io.run io_bind result_bind]; [|done].
  by destruct (processApiResponse r _).
Qed.

Lemma runtime_answer_spec {T} (decode : json -> T) up calls token admin_token route :
  runs up token admin_token route ->
  let asked := calls ++ [Session.session_request (env c) token] in
  let req := runtime_call admin_token route in
  runtime_answer decode up calls (runtime_request route) =
  (asked ++ [req],
   Done (received parse_text syntax_error decode
     (call_reply (cr_fallback route) upstream_title
       (result_bind (up asked req)
         (fun r => processApiResponse r (admin_path (cr_upstream route))))))).
Proof.
  intros [Hin Hnet Ht Hsame Hr] asked req. unfold tier_answer, serve.
  cbn [runtime_request browser_call sent_by n_method n_pathname r_method r_url].
  rewrite runtime_route_found by done. cbn [fmap option_fmap option_map].
  destruct (runtime_path route Hr) as [Hp Ha].
  rewrite run_try_catch. unfold through_proxy. cbn [n_pathname sent_by r_url runtime_request browser_call].
  rewrite Hp, run_let.
  erewrite run_proxy by first [exact Hin | exact Hsame | exact Ha | by intros _ role ->].
  assert (Hh : cr_handler route =
    answer_json (adminFetch c (admin_path (cr_upstream route)) (call_init route)) (cr_fallback route))
    by exact (listed _ route call_routes_call Hr).
  rewrite Hh. unfold answer_json.
  by rewrite (run_call_route _ _ _ _ _ _ _ (run_adminFetch up asked admin_token route Ht)).
Qed.

(** The tier is transparent for the runtime actions of the organizers.  For an
    organizer who is signed in, a request of the same origin costs a check of the
    session and the call itself, with the administration token; and the page reads
    exactly what the platform answered. *)
Theorem organizer_tier_is_transparent {T} (decode : json -> T) up calls token admin_token route path :
  runs up token admin_token route ->
  let asked := calls ++ [Session.session_request (env c) token] in
  let req := runtime_call admin_token route in
  header_get "Authorization" (r_headers req) = Some ("Bearer " ++ₛ admin_token) /\
  r_url req = adminBaseUrl c ++ₛ "/api/v2/admin/" ++ₛ cr_upstream route /\
  exists r,
    runtime_answer decode up calls (runtime_request route) = (asked ++ [req], Done r) /\
    payload_of (Done r) path =
      seen decode (cr_fallback route) upstream_title
        (result_bind (up asked req)
          (fun answer => processApiResponse answer (admin_path (cr_upstream route)))).
Proof.
  intros Hr asked req. pose proof (trimmed_some _ _ (rn_token _ _ _ _ Hr)) as [He _].
  split_and!; [unfold req, runtime_call, authenticatedFetch_request; by rewrite He|done|].
  eexists. split; [by apply runtime_answer_spec|]. unfold payload_of. cbn [result_bind].
  rewrite call_reply_seen; [by destruct (seen _ _ _ _)| |done]. apply call_fails.
  intros e. apply (rn_network _ _ _ _ Hr).
Qed.

(** ** A teardown, from the button to the gateway *)

(** The route of a teardown. *)
Definition teardown_route (url : string) : option CallRoute :=
  find_first (fun route => String.eqb (cr_path route) url) call_routes.

(** A teardown that the organizer confirms and that the platform carries out,
    answering 204 as it does, ends on the page as an error: the message says that a
    value cannot be serialised, nothing tells that the teardown was done, and the
    status on screen is the one from before it. *)
Theorem teardown_done_shown_as_error (oracle : Oracle (app := Organizer)) options fraction up calls
    token admin_token t (s v : Store) event question url label again route r :
  teardown event question url label again ->
  teardown_route url = Some route ->
  runs up token admin_token route ->
  (oracle t (OpConfirm question) : bool) = true ->
  let op := OpFetch (browser_call "POST" url) PVoid in
  oracle (t ++ [OpConfirm question]) op = (runtime_answer (fun data => data) up calls (runtime_request route)).2 ->
  up (calls ++ [Session.session_request (env c) token]) (runtime_call admin_token route) = Done r ->
  status r = 204 ->
  let after := ReactRuntime.run oracle t s (handle options fraction v event) in
  o_trace after = t ++ [OpConfirm question; op] /\
  o_store after ActionError = Some "Value is not JSON serializable" /\
  untouched s (o_store after).
Proof.
  intros Htd Hroute Hruns Hsure op Hanswer Hup Hst after.
  pose proof (teardown_needs_confirmation options fraction oracle t s v event question url label again
    Htd) as H. cbn zeta in H. fold after in H. rewrite Hsure in H. fold op in H.
  rewrite Hanswer, (runtime_answer_spec _ _ _ token admin_token) in H by done. cbn [snd] in H.
  rewrite Hup in H. cbn [result_bind] in H.
  assert (Hnone : forall path, processApiResponse r path = Done None).
  { intros path. unfold processApiResponse, ok. by rewrite Hst. }
  rewrite Hnone in H. unfold void_of in H. cbn [result_bind] in H.
  rewrite call_reply_seen in H by done. exact H.
Qed.
End RuntimeTier.

(** ** Witnesses *)

Section Checks.
Let arena : Env := mkEnv None None None None None (Some "admin") (Some "secret") None.
Definition organizer_cookie : string := issue_token sample_hmac [1; 2; 3] [4; 5] "secret".
Definition organizer_ctx : Ctx := mkCtx arena None (Some organizer_cookie) 1700000000000.
Definition organizer_browser : Browser :=
  mkBrowser "arena.example" "https:" [("sec-fetch-site", "same-origin")].

(** A platform that knows the organizer and has nothing to say of a teardown. *)
Definition obeying_platform : Upstream := fun _ req =>
  if String.eqb (r_url req) "http://127.0.0.1:8080/api/v2/session"
  then Done (mkResponse 200 [] None
         (inr (JObj [("player_id", JNum 1); ("team_id", JNum 0); ("role", JStr "organizer")])) None)
  else Done no_content.

Definition access_teardown_route : CallRoute :=
  mkCallRoute "POST" "/api/admin/access/teardown" "access/teardown"
    "controller access teardown failed" (access_teardown_POST organizer_ctx).

Definition organizer_answer (req : Request) : list Request * Result (Response json) :=
  tier_answer sample_hmac sample_parse (fun _ => None) (fun _ => None) "no JSON" organizer_ctx
    organizer_browser (runtime_routes organizer_ctx) (fun data => data) obeying_platform [] req.

Definition through_organizer_tier : Oracle (app := Organizer) := fun t o =>
  match o return Answer o with
  | OpFetch req p =>
      match p return Result (Response (OrganizerPayloadTy p)) with
      | PVoid => (organizer_answer req).2
      | _ => Thrown (OtherError "offline")
      end
  | o => offline t o
  end.

Lemma runs_sample :
  runs sample_hmac sample_parse (fun _ => None) organizer_ctx organizer_browser obeying_platform
    organizer_cookie "admin" access_teardown_route.
Proof.
  constructor; [| |reflexivity|reflexivity|repeat constructor].
  - split_and!; [vm_compute; reflexivity|reflexivity| |].
    + eexists. split; vm_compute; reflexivity.
    + intros calls. exists (mkValidated 1 0 "" "" "" "" "organizer").
      split; [|done]. eexists _, _. repeat split; vm_compute; reflexivity.
  - intros calls req e. unfold obeying_platform. by destruct (String.eqb _ _).
Qed.
End Checks.

Lemma organizer_tier_is_transparent_witness :
  exists r, organizer_answer (runtime_request access_teardown_route) =
      ([Session.session_request (env organizer_ctx) organizer_cookie;
        runtime_call organizer_ctx "admin" access_teardown_route], Done r) /\
    payload_of (Done r) "teardown" =
      Thrown (PlatformAPIError "Value is not JSON serializable" 502 None).
Proof.
  destruct (organizer_tier_is_transparent sample_hmac sample_parse (fun _ => None) (fun _ => None)
    "no JSON" organizer_ctx organizer_browser (fun data => data) obeying_platform [] organizer_cookie
    "admin" access_teardown_route "teardown" runs_sample) as (_ & _ & r & Hr & Hp).
  exists r. split; [exact Hr|]. etrans; [exact Hp|]. vm_compute. reflexivity.
Defined.

Lemma teardown_done_shown_as_error_witness :
  let s := initial_store sample_options in
  let after := ReactRuntime.run through_organizer_tier [] s
                 (handle sample_options no_fraction s EvTeardownAccess) in
  o_store after ActionError = Some "Value is not JSON serializable".
Proof.
  intros s after.
  destruct (teardown_done_shown_as_error sample_hmac sample_parse (fun _ => None) (fun _ => None)
    "no JSON" organizer_ctx organizer_browser through_organizer_tier sample_options no_fraction
    obeying_platform [] organizer_cookie "admin" [] s s EvTeardownAccess _ _ _ _
    access_teardown_route no_content teardown_access eq_refl runs_sample eq_refl eq_refl eq_refl eq_refl)
    as (_ & H & _). exact H.
Defined.
