(* ===== verification/RuntimeHealth.v ===== *)
(** * Health of the runtime ([components/admin/organizer-dashboard-sections.tsx])

    What the organizer dashboard works out from the state of the deployments, of
    the access policy, of the gateway, from the alerts and from the metrics: the
    severity with its warnings, the health of each service, the rows of the status
    cards, and the controls of the match. *)

From S2P Require Import Prelude JsString JsNumber ApiUtils DashboardUtils PlatformApi DashboardTypes AdminTypes OrganizerState Drafts DashboardData.

#[local] Open Scope string_scope.
#[local] Open Scope Z_scope.
#[local] Open Scope js_scope.

Definition count {A} (p : A -> bool) (l : list A) : nat := length (bfilter p l).

(** [if (test) list.push(text)]. *)
Definition push_if (test : bool) (text : string) : list string := if test then [text] else [].

Definition is_false (value : option bool) : bool :=
  match value with Some b => negb b | None => false end.

(** ** The snapshot *)

Inductive RuntimeHealthSeverity := Healthy | Warning | Critical.

#[export] Instance RuntimeHealthSeverity_eq_dec : EqDecision RuntimeHealthSeverity.
Proof. solve_decision. Defined.

Record RuntimeHealthSnapshot := mkRuntimeHealthSnapshot {
  hs_accessLabel : string;
  hs_deploymentFailedCount : nat;
  hs_deploymentPendingCount : nat;
  hs_generatedAt : string;
  hs_metricsAttentionCount : nat;
  hs_operationsCriticalCount : nat;
  hs_operationsWarningCount : nat;
  hs_severity : RuntimeHealthSeverity;
  hs_summary : string;
  hs_wireGuardLabel : string;
  hs_warnings : list string
}.

(** What the health is worked out from. *)
Record RuntimeTruth := mkRuntimeTruth {
  accessStatus : option AdminControllerAccessStatus;
  deploymentRows : list AdminDeploymentJob;
  operationsStatus : option AdminOperationsStatus;
  serviceMetrics : option AdminServiceMetricSnapshot;
  wireGuardGatewayStatus : option AdminWireGuardGatewayStatus
}.

Definition deployment_pending (job : AdminDeploymentJob) : bool :=
  negb (existsb (String.eqb (dj_status job)) ["completed"; "failed"; "superseded"]).

Definition deployment_failed (job : AdminDeploymentJob) : bool :=
  String.eqb (dj_status job) "failed" || (dj_failed_team_count job >? 0).

Definition alert_critical (alert : AdminOperationsAlert) : bool :=
  String.eqb (al_severity alert) "critical".

Definition alerts_of (status : option AdminOperationsStatus) : list AdminOperationsAlert :=
  match status with Some s => op_alerts s | None => [] end.

Definition metrics_warnings (metrics : option AdminServiceMetricSnapshot) : list string :=
  match metrics with
  | None => ["Live service metrics snapshot is unavailable."]
  | Some m =>
      push_if (is_false (cm_access_last_apply_success (sn_controller_service m)))
        "Controller metrics report the last access apply was unsuccessful." ++
      push_if (is_false (wm_last_apply_success (sn_wireguard_gateway m)))
        "WireGuard metrics report the last gateway apply was unsuccessful." ++
      push_if (is_false (rm_last_sync_success (sn_realtime_gateway m)))
        "Realtime metrics report the last snapshot sync was unsuccessful."
  end.

Definition access_warnings (status : option AdminControllerAccessStatus) : list string :=
  match status with
  | Some s => push_if (negb (String.eqb (ac_state s) "applied"))
                ("Controller access policy is " ++ₛ ac_state s ++ₛ ", so SSH truth may be stale.")
  | None => ["Controller access policy status is not loaded yet."]
  end.

Definition gateway_warnings (status : option AdminWireGuardGatewayStatus) : list string :=
  match status with
  | Some s => push_if (negb (String.eqb (gw_state s) "applied"))
                ("WireGuard gateway is " ++ₛ gw_state s ++ₛ ", so peer truth may be stale.")
  | None => ["WireGuard gateway status is not loaded yet."]
  end.

Definition counted (n : nat) (text : string) : list string :=
  push_if (0 <? n)%nat (num_to_string (Z.of_nat n) ++ₛ text).

Definition pending_count (truth : RuntimeTruth) : nat := count deployment_pending (deploymentRows truth).
Definition failed_count (truth : RuntimeTruth) : nat := count deployment_failed (deploymentRows truth).
Definition critical_count (truth : RuntimeTruth) : nat :=
  count alert_critical (alerts_of (operationsStatus truth)).
Definition warning_count (truth : RuntimeTruth) : nat :=
  length (alerts_of (operationsStatus truth)) - critical_count truth.

Definition health_warnings (truth : RuntimeTruth) : list string :=
  counted (pending_count truth) " deployment job(s) still need trusted reconcile completion." ++
  counted (failed_count truth) " deployment job(s) have failed team runtime work recorded." ++
  access_warnings (accessStatus truth) ++
  gateway_warnings (wireGuardGatewayStatus truth) ++
  counted (critical_count truth) " critical runtime alert(s) are active." ++
  counted (warning_count truth) " warning runtime alert(s) are active." ++
  metrics_warnings (serviceMetrics truth).

Definition state_is_error (state : option string) : bool :=
  match state with Some s => String.eqb s "error" | None => false end.

Definition health_severity (truth : RuntimeTruth) : RuntimeHealthSeverity :=
  if (0 <? critical_count truth)%nat || (0 <? failed_count truth)%nat ||
     state_is_error (ac_state <$> accessStatus truth) ||
     state_is_error (gw_state <$> wireGuardGatewayStatus truth)
  then Critical
  else match health_warnings truth with [] => Healthy | _ => Warning end.

Definition health_summary (severity : RuntimeHealthSeverity) : string :=
  match severity with
  | Healthy =>
      "Trusted reconcile, controller access, WireGuard, deployments, and live metrics currently agree."
  | Critical =>
      "Runtime truth is degraded. Reconcile or inspect the failing layer before trusting SSH access or deployment state."
  | Warning =>
      "Runtime drift warnings are active. Review deployments, access, and gateway state before assuming the stack is converged."
  end.

Definition runtimeHealthSeverityLabel (severity : RuntimeHealthSeverity) : string :=
  match severity with Critical => "critical" | Warning => "attention" | Healthy => "healthy" end.

Section Texts.
(** [formatIndonesianDate], and [value.toFixed(2)] and [String(value)] of a number. *)
Variable formatIndonesianDate : option string -> string.
Variable to_fixed number_text : num -> string.

Definition formatRuntimeHealthTimestamp (value : option string) : string :=
  str_or (formatIndonesianDate value) "n/a".

Definition first_some (a b : option string) : option string :=
  match a with Some _ => a | None => b end.

Definition buildRuntimeHealthSnapshot (truth : RuntimeTruth) : RuntimeHealthSnapshot :=
  let severity := health_severity truth in
  mkRuntimeHealthSnapshot
    (match accessStatus truth with
     | Some s => ac_state s ++ₛ " (" ++ₛ ac_mode s ++ₛ ")"
     | None => "not loaded"
     end)
    (failed_count truth) (pending_count truth)
    (formatRuntimeHealthTimestamp
       (first_some (op_generated_at <$> operationsStatus truth)
          (first_some (accessStatus truth ≫= ac_applied_at)
             (wireGuardGatewayStatus truth ≫= gw_applied_at))))
    (length (metrics_warnings (serviceMetrics truth)))
    (critical_count truth) (warning_count truth) severity (health_summary severity)
    (match wireGuardGatewayStatus truth with
     | Some s => gw_state s ++ₛ " (" ++ₛ gw_mode s ++ₛ ")"
     | None => "not loaded"
     end)
    (health_warnings truth).

(** ** The health of each service *)

Definition formatMetricNumber (value : option num) : string :=
  match value with
  | None => "n/a"
  | Some x => match num_integer x with Some _ => number_text x | None => to_fixed x end
  end.

Definition formatMetricBool (value : option bool) : string :=
  match value with None => "n/a" | Some true => "yes" | Some false => "no" end.

(** [(value ?? 0) > 0]. *)
Definition positive (value : option num) : bool :=
  match value with Some x => num_gtb_Z x 0 | None => false end.

Record ServiceHealthSummary := mkServiceHealthSummary {
  sh_title : string;
  sh_healthy : bool;
  sh_statusLabel : string;
  sh_statusClassName : string;
  sh_detail : string
}.

Definition summarizeServiceHealth (title : string) (warnings : list string) : ServiceHealthSummary :=
  match warnings with
  | [] => mkServiceHealthSummary title true "healthy" "tone-success"
            "No obvious issues in the current metrics snapshot."
  | _ => mkServiceHealthSummary title false "attention" "tone-warning" (join ", " warnings)
  end.

Definition buildServiceHealthSummaries (m : AdminServiceMetricSnapshot) : list ServiceHealthSummary :=
  let game := sn_game_core m in
  let realtime := sn_realtime_gateway m in
  [summarizeServiceHealth "Game Core"
     (push_if (String.eqb (AdminTypes.gm_match_state game) "running" && is_false (gm_scheduler_running game))
        "scheduler stopped" ++
      push_if (positive (gm_checker_runs_failed game))
        (formatMetricNumber (gm_checker_runs_failed game) ++ₛ " checker failures"));
   summarizeServiceHealth "Submission"
     (push_if (positive (sm_submit_failures_total (sn_submission_service m)))
        (formatMetricNumber (sm_submit_failures_total (sn_submission_service m)) ++ₛ " submit failures"));
   summarizeServiceHealth "Controller"
     (push_if (is_false (cm_access_last_apply_success (sn_controller_service m)))
        "access apply not successful");
   summarizeServiceHealth "Realtime"
     (push_if (is_false (rm_last_sync_success realtime)) "last sync failed" ++
      push_if (positive (rm_sync_errors_total realtime))
        (formatMetricNumber (rm_sync_errors_total realtime) ++ₛ " sync errors"));
   summarizeServiceHealth "WireGuard"
     (push_if (is_false (wm_last_apply_success (sn_wireguard_gateway m))) "last apply failed")].

(** The page an alert leads to, and the label of the link. *)
Definition operationsAlertAction (alert : AdminOperationsAlert) : option (string * string) :=
  let source := al_source alert in
  if String.eqb source "scheduler" then Some ("/admin/game#scheduler-card", "Scheduler Controls")
  else if String.eqb source "checker" then Some ("/admin/game#checker-runs-card", "Checker History")
  else if String.eqb source "deployments" then Some ("/admin/deployments", "Deployment Jobs")
  else if String.eqb source "wireguard" || String.eqb source "access"
  then Some ("/admin/players", "Runtime Access")
  else None.

(** ** The status cards *)

Definition RuntimeStatusRow : Type := string * option string.

Definition runtimeNotLoadedRows (emptyLabels : list string) (rows : list RuntimeStatusRow)
    : list RuntimeStatusRow :=
  rows ++ ((fun label => (label, None)) <$> emptyLabels).

Definition formatWireGuardPeerCounts (s : AdminWireGuardGatewayStatus) : string :=
  num_to_string (gw_peers_active s) ++ₛ " active / " ++ₛ num_to_string (gw_peers_revoked s) ++ₛ
  " revoked / " ++ₛ num_to_string (gw_peers_total s) ++ₛ " total".

Definition wireGuardGatewayRows (status : option AdminWireGuardGatewayStatus) : list RuntimeStatusRow :=
  match status with
  | None =>
      runtimeNotLoadedRows ["Interface"; "Firewall"; "Config"; "Rules"]
        [("Mode", Some "unknown"); ("Peers", Some "not loaded");
         ("Revision", Some "not applied yet"); ("Applied at", Some "n/a")]
  | Some s =>
      [("Mode", Some (gw_mode s)); ("Interface", gw_interface s); ("Firewall", gw_firewall_backend s);
       ("Peers", Some (formatWireGuardPeerCounts s)); ("Revision", gw_revision s);
       ("Applied at", Some (formatIndonesianDate (gw_applied_at s)));
       ("Config", gw_config_path s); ("Rules", gw_rules_path s)]
  end.

Definition formatAccessPolicyCounts (s : AdminControllerAccessStatus) : string :=
  num_to_string (ac_policies_total s) ++ₛ " total / " ++ₛ num_to_string (ac_ssh_open_services s) ++ₛ
  " SSH-open / " ++ₛ num_to_string (ac_ssh_locked_services s) ++ₛ " SSH-locked".

Definition accessPolicyRows (status : option AdminControllerAccessStatus) : list RuntimeStatusRow :=
  match status with
  | None =>
      runtimeNotLoadedRows ["Interface"; "Firewall"; "Rules"]
        [("Mode", Some "unknown"); ("Policies", Some "not loaded");
         ("Allowed peers", Some "not loaded"); ("Revision", Some "not applied yet");
         ("Applied at", Some "n/a")]
  | Some s =>
      [("Mode", Some (ac_mode s)); ("Interface", ac_interface s); ("Firewall", ac_firewall_backend s);
       ("Policies", Some (formatAccessPolicyCounts s));
       ("Allowed peers", Some (num_to_string (ac_allowed_peers_total s)));
       ("Revision", ac_revision s); ("Applied at", Some (formatIndonesianDate (ac_applied_at s)));
       ("Rules", ac_rules_path s)]
  end.
End Texts.

(** ** The controls of the match *)

Record MatchControls := mkMatchControls {
  canStart : bool;
  canPause : bool;
  canResume : bool;
  canStop : bool
}.

Definition state_in (state : option string) (states : list string) : bool :=
  match state with Some s => existsb (String.eqb s) states | None => false end.

(** [state] is [matchState?.state]. *)
Definition match_controls (state : option string) : MatchControls :=
  mkMatchControls (negb (state_in state ["running"; "paused"; "finished"]))
    (state_in state ["running"]) (state_in state ["paused"]) (state_in state ["running"; "paused"]).

(** ** Applied filters *)

Definition hasSchedulerFiltersApplied (f : SchedulerEventFilters) : bool :=
  negb (blank (e_eventType f)) || negb (blank (e_source f)) || negb (blank (e_state f)).

Definition hasAttackFiltersApplied (f : AttackFilters) : bool :=
  negb (blank (f_attacker f)) || negb (blank (f_victim f)) || negb (blank (f_service f)) ||
  negb (blank (f_tickFrom f)) || negb (blank (f_tickTo f)) ||
  match parse_int (f_offset f) with Some n => n >? 0 | None => false end.

Definition hasCheckerRunFiltersApplied (f : CheckerRunFilters) : bool :=
  negb (blank (k_tickId f)) || negb (blank (k_teamId f)) || negb (blank (k_challengeId f)) ||
  negb (blank (k_phase f)) || negb (blank (k_status f)).

(** ** Tones of the badges *)

Definition normalized (status : option string) : string := to_lower (trim (status ?? EmptyString)).

Definition one_of (s : string) (l : list string) : bool := existsb (String.eqb s) l.

Definition getChallengeRuntimeTone (status : string) : string :=
  let norm := normalized (Some status) in
  if String.eqb norm "ready" then "tone-success"
  else if String.eqb norm "deploying" then "tone-info"
  else if one_of norm ["failed"; "error"; "degraded"] then "tone-danger"
  else "tone-warning".

Definition getValidationStatusTone (status : string) : string :=
  if String.eqb status "valid" then "tone-success"
  else if String.eqb status "invalid" then "tone-danger"
  else if String.eqb status "unavailable" then "tone-warning"
  else "tone-neutral".

Definition getGatewayTone (state : option string) : string :=
  let norm := normalized state in
  if one_of norm ["applied"; "success"] then "tone-success"
  else if one_of norm ["error"; "failed"; "degraded"] then "tone-danger"
  else if String.eqb norm "disabled" then "tone-neutral"
  else "tone-warning".

Definition getTickStatusTone (status : string) : string :=
  let norm := normalized (Some status) in
  if one_of norm ["completed"; "success"] then "tone-success"
  else if one_of norm ["running"; "deploying"] then "tone-info"
  else if one_of norm ["failed"; "error"; "degraded"] then "tone-danger"
  else if one_of norm ["queued"; "pending"; "draft"; "reconciling"] then "tone-warning"
  else "tone-neutral".

Definition getCheckerRunStatusTone (status : string) : string :=
  if String.eqb status "success" then "tone-success"
  else if String.eqb status "failed" then "tone-danger"
  else if String.eqb status "skipped" then "tone-warning"
  else "tone-neutral".

Definition getServiceStateTone (status : option string) : string :=
  let norm := normalized status in
  if String.eqb norm "ok" then "tone-success"
  else if String.eqb norm "recovering" then "tone-info"
  else if one_of norm ["flag_not_found"; "faulty"; "down"] then "tone-danger"
  else "tone-neutral".

Definition formatServiceStateLabel (status : option string) : string :=
  let norm := normalized status in
  if String.eqb norm "flag_not_found" then "flag not found"
  else if one_of norm ["ok"; "recovering"; "faulty"; "down"] then norm
  else "unknown".

Definition formatScoringAuditSummary (scoringAudit : option AdminScoringAudit) : string :=
  match scoringAudit with
  | None => "not run"
  | Some audit =>
      if String.eqb (au_status audit) "ok"
      then "ok / " ++ₛ num_to_string (au_replayed_rows audit) ++ₛ " rows"
      else num_to_string (au_mismatch_count audit) ++ₛ " mismatch"
  end.

(** ** Properties *)

Lemma push_if_nil test text : push_if test text = [] <-> test = false.
Proof. by destruct test. Qed.

Lemma counted_nil n text : counted n text = [] <-> n = 0%nat.
Proof. unfold counted. rewrite push_if_nil, Nat.ltb_ge. lia. Qed.

Lemma count_zero {A} (p : A -> bool) l : count p l = 0%nat <-> forall x, x ∈ l -> p x = false.
Proof.
  unfold count. induction l as [|x l IH]; simpl; [set_solver|].
  setoid_rewrite elem_of_cons. destruct (p x) eqn:E; simpl; [|rewrite IH; naive_solver].
  split; [done|]. intros H. rewrite H in E; [done|by left].
Qed.

Lemma no_critical_no_warning alerts :
  count alert_critical alerts = 0%nat -> (length alerts - count alert_critical alerts = 0)%nat ->
  alerts = [].
Proof. destruct alerts; simpl; [done|lia]. Qed.

(** A severity is critical only for a reason that is also a warning. *)
Lemma critical_has_warning truth : health_severity truth = Critical -> health_warnings truth <> [].
Proof.
  unfold health_severity. destruct (_ || _) eqn:E; [intros _ H|by destruct (health_warnings truth)].
  unfold health_warnings in H. rewrite !app_nil, !counted_nil in H.
  destruct H as (_ & Hf & Ha & Hg & Hc & _). rewrite Hf, Hc in E. simpl in E.
  apply orb_true_iff in E as [E|E].
  - destruct (accessStatus truth) as [a|]; [|done]. simpl in *. apply push_if_nil in Ha.
    apply negb_false_iff, String.eqb_eq in Ha. by rewrite Ha in E.
  - destruct (wireGuardGatewayStatus truth) as [g|]; [|done]. simpl in *. apply push_if_nil in Hg.
    apply negb_false_iff, String.eqb_eq in Hg. by rewrite Hg in E.
Qed.

Lemma healthy_no_warning truth : health_severity truth = Healthy <-> health_warnings truth = [].
Proof.
  pose proof (critical_has_warning truth) as Hc. unfold health_severity in *.
  destruct (_ || _); destruct (health_warnings truth) eqn:E; naive_solver.
Qed.

Lemma is_false_not value : is_false value = false <-> value <> Some false.
Proof. destruct value as [[]|]; naive_solver. Qed.

(** The runtime is announced as healthy exactly when every layer agrees: no
    deployment is pending or has failed work, the access policy and the gateway are
    loaded and applied, no alert is active, and the metrics are loaded and none of
    them reports a failure.  Alerts that were never loaded count as none. *)
Theorem healthy_iff_converged truth :
  health_severity truth = Healthy <->
  (forall job, job ∈ deploymentRows truth ->
     (dj_status job = "completed" \/ dj_status job = "superseded") /\ dj_failed_team_count job <= 0) /\
  (exists access, accessStatus truth = Some access /\ ac_state access = "applied") /\
  (exists gateway, wireGuardGatewayStatus truth = Some gateway /\ gw_state gateway = "applied") /\
  alerts_of (operationsStatus truth) = [] /\
  (exists m, serviceMetrics truth = Some m /\
     cm_access_last_apply_success (sn_controller_service m) <> Some false /\
     wm_last_apply_success (sn_wireguard_gateway m) <> Some false /\
     rm_last_sync_success (sn_realtime_gateway m) <> Some false).
Proof.
  rewrite healthy_no_warning. unfold health_warnings. rewrite !app_nil, !counted_nil.
  unfold pending_count, failed_count. rewrite !count_zero.
  assert (Hjobs : ((forall x, x ∈ deploymentRows truth -> deployment_pending x = false) /\
                   (forall x, x ∈ deploymentRows truth -> deployment_failed x = false)) <->
    forall job, job ∈ deploymentRows truth ->
     (dj_status job = "completed" \/ dj_status job = "superseded") /\ dj_failed_team_count job <= 0).
  { assert (Hj : forall job, deployment_pending job = false /\ deployment_failed job = false <->
      (dj_status job = "completed" \/ dj_status job = "superseded") /\ dj_failed_team_count job <= 0).
    { intros job. unfold deployment_pending, deployment_failed. simpl.
      rewrite orb_false_iff, negb_false_iff, Z.gtb_ltb, Z.ltb_ge, !orb_true_iff, !String.eqb_eq, String.eqb_neq.
      intuition congruence. }
    split; [intros [H1 H2] job Hin; apply Hj; auto|].
    intros H. split; intros job Hin; by apply Hj, H. }
  assert (Halerts : critical_count truth = 0%nat /\ warning_count truth = 0%nat <->
                    alerts_of (operationsStatus truth) = []).
  { unfold warning_count, critical_count. split; [intros [H1 H2]; by apply no_critical_no_warning|].
    by intros ->. }
  assert (Ha : access_warnings (accessStatus truth) = [] <->
               exists access, accessStatus truth = Some access /\ ac_state access = "applied").
  { unfold access_warnings. destruct (accessStatus truth) as [a|]; [|naive_solver].
    rewrite push_if_nil, negb_false_iff, String.eqb_eq. naive_solver. }
  assert (Hg : gateway_warnings (wireGuardGatewayStatus truth) = [] <->
               exists gateway, wireGuardGatewayStatus truth = Some gateway /\ gw_state gateway = "applied").
  { unfold gateway_warnings. destruct (wireGuardGatewayStatus truth) as [g|]; [|naive_solver].
    rewrite push_if_nil, negb_false_iff, String.eqb_eq. naive_solver. }
  assert (Hm : metrics_warnings (serviceMetrics truth) = [] <-> exists m, serviceMetrics truth = Some m /\
     cm_access_last_apply_success (sn_controller_service m) <> Some false /\
     wm_last_apply_success (sn_wireguard_gateway m) <> Some false /\
     rm_last_sync_success (sn_realtime_gateway m) <> Some false).
  { unfold metrics_warnings. destruct (serviceMetrics truth) as [m|]; [|naive_solver].
    rewrite !app_nil, !push_if_nil, !is_false_not. naive_solver. }
  rewrite <- Hjobs, <- Halerts, <- Ha, <- Hg, <- Hm. tauto.
Qed.

Lemma count_split {A} (p q r : A -> bool) l :
  (forall x, p x = q x || r x) -> (forall x, q x = true -> r x = false) ->
  count p l = (count q l + count r l)%nat.
Proof.
  intros H Hd. unfold count. induction l as [|x l IH]; simpl; [done|].
  rewrite H. specialize (Hd x). destruct (q x); simpl.
  - rewrite Hd by done. simpl. by rewrite IH.
  - destruct (r x); simpl; rewrite IH; lia.
Qed.

(** A job that has ended without completing. *)
Definition job_abandoned (job : AdminDeploymentJob) : bool :=
  String.eqb (dj_status job) "failed" || String.eqb (dj_status job) "superseded".

(** The two counts of pending deployments of the organizer pages differ by the
    jobs that ended without completing: the overview counts failed and superseded
    jobs as pending, the health card does not. *)
Theorem overview_counts_abandoned_jobs url data source truth :
  deploymentRows truth = al_deployments data ->
  ao_pendingDeploymentCount (buildAdminOverview url data source) =
  (pending_count truth + count job_abandoned (al_deployments data))%nat.
Proof.
  intros E. unfold buildAdminOverview, pending_count. cbn [ao_pendingDeploymentCount]. rewrite E.
  apply (count_split (fun job => negb (String.eqb (dj_status job) "completed"))).
  - intros job. unfold deployment_pending, job_abandoned. simpl.
    destruct (String.eqb_spec (dj_status job) "completed") as [->|]; [done|].
    by destruct (String.eqb (dj_status job) "failed"), (String.eqb (dj_status job) "superseded").
  - intros job. unfold deployment_pending, job_abandoned. simpl.
    rewrite negb_true_iff, !orb_false_iff. by intros (_ & -> & -> & _).
Qed.

(** A superseded job is pending in the overview only. *)
Lemma overview_counts_abandoned_jobs_witness :
  let job := mkAdminDeploymentJob 1 1 "notes" "superseded" 2 0 0 0 "2024-01-01" None in
  let data := mkAdminLiveData [] [] [] [job] emptyOperationsStatus None emptyGameStatus
    (emptyAttackPage 12) (emptyAttackPage 18) (emptyAttackPage 12) [] in
  let truth := mkRuntimeTruth None [job] None None None in
  ao_pendingDeploymentCount (buildAdminOverview "" data Live) = 1%nat /\ pending_count truth = 0%nat.
Proof.
  intros job data truth. split; [|reflexivity].
  rewrite (overview_counts_abandoned_jobs "" data Live truth); reflexivity.
Defined.
