(* ===== verification/Evidence.v ===== *)
(** * Evidence of the runtime ([app/api/admin/runtime-health/report/route.ts])

    The report that organizers download: six reads made together, each one either
    in the report or among its failures, and a summary of them. *)

From S2P Require Import Prelude JsString JsNumber ApiUtils DashboardTypes AdminTypes DashboardData RuntimeHealth.

#[local] Open Scope string_scope.
#[local] Open Scope Z_scope.
#[local] Open Scope list_scope.
#[local] Open Scope js_scope.

(** [readSettled]: the value, and the failures so far. *)
Definition readSettled {T} (section : string) (result : Result T)
    (failures : list AdminRuntimeEvidenceFailure) : option T * list AdminRuntimeEvidenceFailure :=
  match result with
  | Done value => (Some value, failures)
  | Thrown error =>
      (None, failures ++ [mkAdminRuntimeEvidenceFailure section
                            (error_message error (section ++ₛ " fetch failed"))])
  end.

(** [`: ${state ?? "unavailable"}${revision ? ` (${revision})` : ""}`]. *)
Definition layer_text (state revision : option string) : string :=
  (state ?? "unavailable") ++ₛ
  match revision with
  | Some r => if is_empty r then EmptyString else " (" ++ₛ r ++ₛ ")"
  | None => EmptyString
  end.

Definition count_text (n : nat) : string := num_to_string (Z.of_nat n).

Record PartialReport := mkPartialReport {
  pr_generated_at : string;
  pr_failures : list AdminRuntimeEvidenceFailure;
  pr_deployments : option (list AdminDeploymentJob);
  pr_access_status : option AdminControllerAccessStatus;
  pr_wireguard_status : option AdminWireGuardGatewayStatus;
  pr_operations_status : option AdminOperationsStatus;
  pr_service_metrics : option AdminServiceMetricSnapshot;
  pr_game_status : option AdminGameStatus
}.

Definition summary_pending (report : PartialReport) : nat :=
  count deployment_pending (pr_deployments report ?? []).
Definition summary_failed (report : PartialReport) : nat :=
  count deployment_failed (pr_deployments report ?? []).
Definition summary_critical (report : PartialReport) : nat :=
  count alert_critical (alerts_of (pr_operations_status report)).
Definition summary_warning (report : PartialReport) : nat :=
  length (alerts_of (pr_operations_status report)) - summary_critical report.

Definition newline_text : string := String (chr 10) EmptyString.

Definition buildSummary (report : PartialReport) : string :=
  join newline_text
    ["Runtime summary generated " ++ₛ pr_generated_at report;
     "Deployments: " ++ₛ count_text (summary_pending report) ++ₛ " pending, " ++ₛ
       count_text (summary_failed report) ++ₛ " failed";
     "Access: " ++ₛ layer_text (ac_state <$> pr_access_status report)
                      (pr_access_status report ≫= ac_revision);
     "WireGuard: " ++ₛ layer_text (gw_state <$> pr_wireguard_status report)
                         (pr_wireguard_status report ≫= gw_revision);
     "Operations alerts: " ++ₛ count_text (summary_critical report) ++ₛ " critical, " ++ₛ
       count_text (summary_warning report) ++ₛ " warning";
     match pr_failures report with
     | [] => "Report completeness: all sections loaded"
     | failures => "Report completeness: partial, missing " ++ₛ join ", " (ef_section <$> failures)
     end].

(** What the six reads settle to. *)
Record EvidenceReads := mkEvidenceReads {
  ev_deployments : Result (list AdminDeploymentJob);
  ev_access_status : Result AdminControllerAccessStatus;
  ev_wireguard_status : Result AdminWireGuardGatewayStatus;
  ev_operations_status : Result AdminOperationsStatus;
  ev_service_metrics : Result AdminServiceMetricSnapshot;
  ev_game_status : Result AdminGameStatus
}.

Definition partialReport (generated_at : string) (reads : EvidenceReads) : PartialReport :=
  let '(deployments, f1) := readSettled "deployments" (ev_deployments reads) [] in
  let '(access, f2) := readSettled "access_status" (ev_access_status reads) f1 in
  let '(wireguard, f3) := readSettled "wireguard_status" (ev_wireguard_status reads) f2 in
  let '(operations, f4) := readSettled "operations_status" (ev_operations_status reads) f3 in
  let '(metrics, f5) := readSettled "service_metrics" (ev_service_metrics reads) f4 in
  let '(game, f6) := readSettled "game_status" (ev_game_status reads) f5 in
  mkPartialReport generated_at f6 deployments access wireguard operations metrics game.

(** [generated_at.replace(/[:.]/g, "-")]. *)
Fixpoint dashes (s : string) : string :=
  match s with
  | EmptyString => EmptyString
  | String c r => String (if Ascii.eqb c ":" || Ascii.eqb c "." then "-"%char else c) (dashes r)
  end.

Definition report_filename (generated_at : string) : string :=
  "runtime-health-" ++ₛ dashes generated_at ++ₛ ".json".

(** The report with its summary, and the name of the file. *)
Definition evidence_GET (generated_at : string) (reads : EvidenceReads)
    : PartialReport * string * string :=
  let report := partialReport generated_at reads in
  (report, buildSummary report, report_filename generated_at).

(** ** Properties *)

Definition read_failed {T} (result : Result T) : bool := negb (isFulfilled result).

(** The sections, each with whether its read failed and whether it is missing. *)
Definition sections (reads : EvidenceReads) (report : PartialReport) : list (string * bool * bool) :=
  let missing {A} (value : option A) := match value with None => true | Some _ => false end in
  [("deployments", read_failed (ev_deployments reads), missing (pr_deployments report));
   ("access_status", read_failed (ev_access_status reads), missing (pr_access_status report));
   ("wireguard_status", read_failed (ev_wireguard_status reads), missing (pr_wireguard_status report));
   ("operations_status", read_failed (ev_operations_status reads), missing (pr_operations_status report));
   ("service_metrics", read_failed (ev_service_metrics reads), missing (pr_service_metrics report));
   ("game_status", read_failed (ev_game_status reads), missing (pr_game_status report))].

Lemma readSettled_failures {T} section (result : Result T) failures :
  ef_section <$> (readSettled section result failures).2 =
  (ef_section <$> failures) ++ (if read_failed result then [section] else []).
Proof. destruct result; simpl; [by rewrite app_nil_r|by rewrite fmap_app]. Qed.

(** The report accounts for every section: a section is missing exactly when its
    read failed, and the failures list the missing sections, once each and in
    order. *)
Theorem evidence_accounts_for_sections generated_at reads :
  let report := partialReport generated_at reads in
  Forall (fun s => s.1.2 = s.2) (sections reads report) /\
  ef_section <$> pr_failures report = (fun s => s.1.1) <$> bfilter (fun s => s.2) (sections reads report).
Proof.
  intros report. unfold report, partialReport, sections.
  destruct reads as [[?|?] [?|?] [?|?] [?|?] [?|?] [?|?]]; cbn; split; (repeat constructor) || done.
Qed.
