(* ===== verification/Prometheus.v ===== *)
(** * Service metrics ([lib/admin-api.ts], [getAdminOperationsMetrics])

    The web tier reads the text that five services expose in the Prometheus format,
    parses it, and picks the values of the snapshot that the organizers see.  The
    pattern of a line is matched by hand: a name, optional labels between braces,
    white space, and a number that ends the line. *)

From S2P Require Import Prelude JsString JsNumber ApiUtils Io ApiHandler DashboardTypes AdminTypes.

#[local] Open Scope string_scope.
#[local] Open Scope Z_scope.
#[local] Open Scope list_scope.
#[local] Open Scope js_scope.

(** ** Lines *)

(** [labels] is the object that the loop fills: a later entry of a name wins. *)
Record PromLine := mkPromLine {
  pl_name : string;
  pl_labels : list (string * string);
  pl_value : num
}.

(** [labels[name]]. *)
Definition label_of (name : string) (labels : list (string * string)) : option string :=
  snd <$> find_first (fun e => String.eqb e.1 name) labels.

Definition is_alpha (c : ascii) : bool :=
  ((65 <=? code c) && (code c <=? 90)) || ((97 <=? code c) && (code c <=? 122)).

Definition name_start (c : ascii) : bool := is_alpha c || Ascii.eqb c "_" || Ascii.eqb c ":".
Definition name_char (c : ascii) : bool := name_start c || is_digit c.

(** The longest prefix of characters in [p], and the rest. *)
Fixpoint span (p : ascii -> bool) (s : string) : string * string :=
  match s with
  | EmptyString => (EmptyString, EmptyString)
  | String c r => if p c then let '(a, b) := span p r in (String c a, b) else (EmptyString, s)
  end.

(** [-?(\d+\.?\d*|\.\d+)([eE][+-]?\d+)?], to the end of the text. *)
Definition exponent_shape (s : string) : bool :=
  match s with
  | EmptyString => true
  | String c r =>
      (Ascii.eqb c "e" || Ascii.eqb c "E") &&
      let digits := match r with
                    | String d r' => if Ascii.eqb d "+" || Ascii.eqb d "-" then r' else r
                    | EmptyString => r
                    end in
      negb (is_empty digits) && negb (has_char (fun c => negb (is_digit c)) digits)
  end.

Definition unsigned_shape (s : string) : bool :=
  let '(ip, t) := span_digits s in
  match t with
  | String c r =>
      if Ascii.eqb c "." then
        let '(fp, u) := span_digits r in
        negb (is_empty ip && is_empty fp) && exponent_shape u
      else negb (is_empty ip) && exponent_shape t
  | EmptyString => negb (is_empty ip)
  end.

Definition number_shape (s : string) : bool :=
  match s with
  | String c r => if Ascii.eqb c "-" then unsigned_shape r else unsigned_shape s
  | EmptyString => false
  end.

(** The labels between braces, when there are some, and what follows. *)
Definition match_labels (s : string) : option (string * string) :=
  match s with
  | String c r =>
      if Ascii.eqb c "{" then
        match span (fun d => negb (Ascii.eqb d "}")) r with
        | (labels, String _ rest) => Some (labels, rest)
        | (_, EmptyString) => None
        end
      else Some (EmptyString, s)
  | EmptyString => Some (EmptyString, s)
  end.

(** [line.match(...)]: the name, the labels and the value. *)
Definition match_line (line : string) : option (string * string * string) :=
  match line with
  | String c _ =>
      if name_start c then
        let '(name, rest) := span name_char line in
        '(labels, rest) ← match_labels rest;
        let '(spaces, value) := span is_ws rest in
        if negb (is_empty spaces) && number_shape value then Some (name, labels, value) else None
      else None
  | EmptyString => None
  end.

(** ** Labels *)

Definition quote : ascii := "034"%char.

Fixpoint quotes (s : string) : nat :=
  match s with
  | EmptyString => 0
  | String c r => ((if Ascii.eqb c quote then 1 else 0) + quotes r)%nat
  end.

(** [split] at the commas that an even number of quotes follows. *)
Fixpoint split_labels (s : string) : list string :=
  match s with
  | EmptyString => [EmptyString]
  | String c r =>
      if Ascii.eqb c "," && Nat.even (quotes r) then EmptyString :: split_labels r
      else match split_labels r with
           | [] => [String c EmptyString]
           | part :: parts => String c part :: parts
           end
  end.

(** [text.replace(/^"|"$/g, "")]. *)
Fixpoint drop_last_quote (s : string) : string :=
  match s with
  | EmptyString => EmptyString
  | String c EmptyString => if Ascii.eqb c quote then EmptyString else s
  | String c r => String c (drop_last_quote r)
  end.

Definition strip_quotes (s : string) : string :=
  drop_last_quote (match s with
                   | String c r => if Ascii.eqb c quote then r else s
                   | EmptyString => s
                   end).

(** [labels[name] = value]. *)
Definition set_label (name value : string) (labels : list (string * string)) : list (string * string) :=
  (name, value) :: bfilter (fun e => negb (String.eqb e.1 name)) labels.

Definition parse_label (labels : list (string * string)) (entry : string) : list (string * string) :=
  match split_on "="%char entry with
  | rawKey :: rawLabelValue :: _ =>
      if is_empty rawKey || is_empty rawLabelValue then labels
      else set_label (trim rawKey) (strip_quotes (trim rawLabelValue)) labels
  | _ => labels
  end.

Definition parse_labels (rawLabels : string) : list (string * string) :=
  if is_empty rawLabels then [] else fold_left parse_label (split_labels rawLabels) [].

Definition parse_line (rawLine : string) : option PromLine :=
  let line := trim rawLine in
  if is_empty line || starts_with "#" line then None
  else '(name, rawLabels, rawValue) ← match_line line;
       let value := js_number rawValue in
       if is_nan value then None else Some (mkPromLine name (parse_labels rawLabels) value).

Definition newline : ascii := "010"%char.

Definition parsePrometheus (text : string) : list PromLine :=
  omap parse_line (split_on newline text).

(** ** Values *)

(** The last row of the name that carries the expected labels. *)
Definition row_matches (metricName : string) (expectedLabels : list (string * string)) (row : PromLine)
    : bool :=
  String.eqb (pl_name row) metricName &&
  forallb (fun e => match label_of e.1 (pl_labels row) with
                    | Some v => String.eqb v e.2
                    | None => false
                    end) expectedLabels.

Definition metricValue (rows : list PromLine) (metricName : string)
    (expectedLabels : list (string * string)) : option num :=
  pl_value <$> find_first (row_matches metricName expectedLabels) (rev rows).

Definition metricSum (rows : list PromLine) (metricName : string) : option num :=
  match bfilter (fun row => String.eqb (pl_name row) metricName) rows with
  | [] => None
  | matching => Some (fold_left (fun sum row => num_add sum (pl_value row)) matching (Finite 0 0))
  end.

(** [value >= 1]. *)
Definition metricBool (value : option num) : option bool :=
  (fun x => match num_compare_Z x 1 with Some Gt | Some Eq => true | _ => false end) <$> value.

(** ** The snapshot *)

(** [metricValue(...) === 1]. *)
Definition in_state (rows : list PromLine) (state : string) : bool :=
  match metricValue rows "adplatform_game_core_match_state" [("state", state)] with
  | Some x => num_eqb x (num_of_Z 1)
  | None => false
  end.

Definition match_state (rows : list PromLine) : string :=
  if in_state rows "running" then "running"
  else if in_state rows "finished" then "finished"
  else if in_state rows "not_started" then "not_started"
  else "unknown".

Definition operation_requests (rows : list PromLine) (operation : string) : option num :=
  metricValue rows "adplatform_controller_service_operation_requests_total" [("operation", operation)].

Definition verdicts (rows : list PromLine) (class : string) : option num :=
  metricValue rows "adplatform_submission_service_submit_verdicts_total" [("class", class)].

Definition peers (rows : list PromLine) (status : string) : option num :=
  metricValue rows "adplatform_wireguard_gateway_peer_counts" [("status", status)].

Definition snapshot (generated_at : string) (gameCore submission controller realtime wireguard : list PromLine)
    : AdminServiceMetricSnapshot :=
  mkAdminServiceMetricSnapshot generated_at
    (mkGameCoreMetrics (match_state gameCore)
       (metricValue gameCore "adplatform_game_core_total_ticks" [])
       (metricValue gameCore "adplatform_game_core_checker_runs_total" [("status", "all")])
       (metricValue gameCore "adplatform_game_core_checker_runs_total" [("status", "failed")])
       (metricBool (metricValue gameCore "adplatform_game_core_scheduler_running" [])))
    (mkSubmissionMetrics
       (metricValue submission "adplatform_submission_service_submit_requests_total" [])
       (metricValue submission "adplatform_submission_service_submit_failures_total" [])
       (metricValue submission "adplatform_submission_service_attack_feed_requests_total" [])
       (mkVerdictMetrics (verdicts submission "correct") (verdicts submission "duplicate")
          (verdicts submission "invalid") (verdicts submission "unknown")))
    (mkControllerMetrics (operation_requests controller "deployment_reconcile")
       (operation_requests controller "access_reconcile")
       (operation_requests controller "service_access_reconcile")
       (operation_requests controller "ssh_credential")
       (metricValue controller "adplatform_controller_service_access_policies_total" [])
       (metricBool (metricValue controller "adplatform_controller_service_access_last_apply_success" [])))
    (mkRealtimeMetrics
       (metricBool (metricValue realtime "adplatform_realtime_gateway_last_sync_success" []))
       (metricValue realtime "adplatform_realtime_gateway_sync_errors_total" [])
       (metricSum realtime "adplatform_realtime_gateway_subscribers")
       (metricSum realtime "adplatform_realtime_gateway_snapshot_bytes"))
    (mkWireGuardMetrics
       (metricValue wireguard "adplatform_wireguard_gateway_operation_requests_total"
          [("operation", "reconcile")])
       (peers wireguard "total") (peers wireguard "active") (peers wireguard "revoked")
       (metricBool (metricValue wireguard "adplatform_wireguard_gateway_last_apply_success" []))).

(** ** The calls *)

(** The addresses in the environment, when they are set. *)
Record MetricsEnv := mkMetricsEnv {
  AD_PLATFORM_GAME_CORE_URL : option string;
  AD_PLATFORM_SUBMISSION_SERVICE_URL : option string;
  AD_PLATFORM_CONTROLLER_METRICS_URL : option string;
  AD_PLATFORM_CONTROLLER_URL : option string;
  AD_PLATFORM_REALTIME_URL : option string;
  AD_PLATFORM_WIREGUARD_GATEWAY_URL : option string
}.

Section Metrics.
Variable e : MetricsEnv.

Definition gameCoreBaseUrl : string :=
  trimBaseUrl (AD_PLATFORM_GAME_CORE_URL e ?? "http://127.0.0.1:8081").
Definition submissionServiceBaseUrl : string :=
  trimBaseUrl (AD_PLATFORM_SUBMISSION_SERVICE_URL e ?? "http://127.0.0.1:8082").
Definition realtimeGatewayBaseUrl : string :=
  trimBaseUrl (AD_PLATFORM_REALTIME_URL e ?? "http://127.0.0.1:8086").
Definition controllerMetricsBaseUrl : string :=
  trimBaseUrl (AD_PLATFORM_CONTROLLER_METRICS_URL e ??
               (AD_PLATFORM_CONTROLLER_URL e ?? "http://127.0.0.1:8084")).
Definition wireGuardGatewayBaseUrl : string :=
  trimBaseUrl (AD_PLATFORM_WIREGUARD_GATEWAY_URL e ?? "http://127.0.0.1:8087").

Definition fetchText (baseUrl path : string) : Io string :=
  let! response := fetch (mkRequest "GET" (baseUrl ++ₛ path) [] None) in
  if negb (ok response) then Throw (OtherError ("request to " ++ₛ path ++ₛ " failed"))
  else Ret (resp_body response ?? EmptyString).

(** The outcome of a call that is made anyway. *)
Definition settle {A} (m : Io A) : Io (Result A) :=
  try_catch (let! a := m in Ret (Done a)) (fun error => Ret (Thrown error)).

(** [Promise.all]: every call is made, and the first failure is thrown. *)
Definition getAdminOperationsMetrics (generated_at : string) : Io AdminServiceMetricSnapshot :=
  let! gameCore := settle (fetchText gameCoreBaseUrl "/metrics") in
  let! submission := settle (fetchText submissionServiceBaseUrl "/metrics") in
  let! controller := settle (fetchText controllerMetricsBaseUrl "/metrics") in
  let! realtime := settle (fetchText realtimeGatewayBaseUrl "/metrics") in
  let! wireguard := settle (fetchText wireGuardGatewayBaseUrl "/metrics") in
  let! gameCoreText := of_result gameCore in
  let! submissionText := of_result submission in
  let! controllerText := of_result controller in
  let! realtimeText := of_result realtime in
  let! wireguardText := of_result wireguard in
  Ret (snapshot generated_at (parsePrometheus gameCoreText) (parsePrometheus submissionText)
         (parsePrometheus controllerText) (parsePrometheus realtimeText)
         (parsePrometheus wireguardText)).

(** [JSON.stringify] of a snapshot. *)
Variable to_json : AdminServiceMetricSnapshot -> json.

(** [GET /api/admin/operations/metrics]. *)
Definition operations_metrics_GET (generated_at : string) : Io Reply :=
  guarded (let! data := getAdminOperationsMetrics generated_at in Ret (json_reply (to_json data)))
    "operations metrics failed" upstream_title.
End Metrics.

(** ** The calls, together *)

Section Calls.
Context (e : MetricsEnv) (generated_at : string).

Definition metrics_requests : list Request :=
  (fun base => mkRequest "GET" (base ++ₛ "/metrics") [] None) <$>
    [gameCoreBaseUrl e; submissionServiceBaseUrl e; controllerMetricsBaseUrl e;
     realtimeGatewayBaseUrl e; wireGuardGatewayBaseUrl e].

(** What a service answers to the read of its metrics. *)
Definition text_of (answer : Result (Response json)) : Result string :=
  result_bind answer (fun response =>
    if ok response then Done (resp_body response ?? EmptyString)
    else Thrown (OtherError "request to /metrics failed")).

Lemma run_settle {A} up t (m : Io A) :
  run up t (settle m) = ((run up t m).1, Done (run up t m).2).
Proof.
  unfold settle. rewrite run_try_catch, run_let. by destruct (run up t m) as [t' [a|x]].
Qed.

Lemma run_fetchText up t base :
  run up t (fetchText base "/metrics") =
  (t ++ [mkRequest "GET" (base ++ₛ "/metrics") [] None],
   text_of (up t (mkRequest "GET" (base ++ₛ "/metrics") [] None))).
Proof.
  unfold fetchText, fetch, text_of. simpl.
  destruct (up t _) as [response|x]; [|done]. simpl. by destruct (ok response).
Qed.

Lemma run_of_result {A} up t (r : Result A) : run up t (of_result r) = (t, r).
Proof. by destruct r. Qed.

(** The snapshot is all or nothing: the five services are all asked, whatever
    the first ones answer, and when one of them cannot be reached or answers with an
    error there is no snapshot at all. *)
Theorem metrics_all_or_nothing up t :
  let answer i req := text_of (up (t ++ take i metrics_requests) req) in
  let texts := imap answer metrics_requests in
  (run up t (getAdminOperationsMetrics e generated_at)).1 = t ++ metrics_requests /\
  ((exists r, (run up t (getAdminOperationsMetrics e generated_at)).2 = Done r) <->
   Forall (fun text => exists s, text = Done s) texts).
Proof.
  intros answer texts.
  assert (Hrun : exists outcome,
    run up t (getAdminOperationsMetrics e generated_at) = (t ++ metrics_requests, outcome) /\
    ((exists r, outcome = Done r) <-> Forall (fun text => exists s, text = Done s) texts)).
  { unfold getAdminOperationsMetrics.
    do 5 (rewrite run_let, run_settle, run_fetchText; cbn [fst snd]).
    rewrite <- !app_assoc. cbn [app].
    unfold texts, answer, metrics_requests. cbn [fmap list_fmap imap take compose].
    rewrite app_nil_r.
    repeat match goal with
    | |- context [text_of ?x] => generalize (text_of x); intros ?r
    end.
    repeat match goal with r : Result string |- _ => destruct r as [?text|?error] end;
      simpl; eexists; (split; [reflexivity|]); rewrite !list.Forall_cons; split;
      first [by intros [? ?] | by intros _; split_and!; eauto | naive_solver]. }
  destruct Hrun as (outcome & -> & H). by split.
Qed.
End Calls.
