(* ===== verification/Exposition.v ===== *)
(** * What the services write and the web tier reads

    Every service answers [/metrics] through [internal/platform/httpapi/metrics.go],
    which writes the counters of its requests and then those of the service; here of
    the WireGuard gateway ([services/wireguard-gateway/metrics.go]).  The lines are
    those of the two files: comments, and samples with quoted labels and numbers
    printed by [%d], [%.0f] or [%.6f].  The parser of Prometheus.v reads them back. *)

From S2P Require Import Prelude JsString JsNumber JsDate ApiUtils Io DashboardTypes AdminTypes Prometheus.

#[local] Open Scope string_scope.
#[local] Open Scope Z_scope.
#[local] Open Scope list_scope.
#[local] Open Scope js_scope.

(** ** Text *)

(** A number as it is printed: [%d] and [%.0f] of a whole number, and [%.6f] of a
    number that rounds to so many millionths. *)
Inductive Value := Whole (n : Z) | Millionths (n : Z).

Definition value_int (v : Value) : Z := match v with Whole n | Millionths n => n end.

Definition magnitude_text (v : Value) : string :=
  match v with
  | Whole n => dec (Z.abs n)
  | Millionths n => dec (Z.abs n / 10 ^ 6) ++ₛ "." ++ₛ pad 6 (Z.abs n mod 10 ^ 6)
  end.

Definition value_text (v : Value) : string :=
  (if value_int v <? 0 then "-" else "") ++ₛ magnitude_text v.

(** [strconv.Quote], byte by byte, for text whose other bytes are printable. *)
Definition hex_digit (z : Z) : ascii :=
  if z <? 10 then digit_char z else ascii_of_N (Z.to_N (z + 87)).

Definition quoted_char (c : ascii) : string :=
  let z := code c in
  let escaped d := String "\" (String d EmptyString) in
  if Ascii.eqb c quote then escaped quote
  else if Ascii.eqb c "\" then escaped "\"%char
  else if z =? 7 then escaped "a"%char
  else if z =? 8 then escaped "b"%char
  else if z =? 9 then escaped "t"%char
  else if z =? 10 then escaped "n"%char
  else if z =? 11 then escaped "v"%char
  else if z =? 12 then escaped "f"%char
  else if z =? 13 then escaped "r"%char
  else if (z <? 32) || (z =? 127) then
    "\x" ++ₛ String (hex_digit (z / 16)) (String (hex_digit (z mod 16)) EmptyString)
  else String c EmptyString.

Fixpoint quoted_body (s : string) : string :=
  match s with EmptyString => EmptyString | String c r => quoted_char c ++ₛ quoted_body r end.

Definition go_quote (s : string) : string :=
  String quote (quoted_body s ++ₛ String quote EmptyString).

Fixpoint replace_char (c : ascii) (by_ : string) (s : string) : string :=
  match s with
  | EmptyString => EmptyString
  | String d r => (if Ascii.eqb d c then by_ else String d EmptyString) ++ₛ replace_char c by_ r
  end.

Definition prometheusLabelValue (value : string) : string :=
  replace_char quote (String "\" (String quote EmptyString))
    (replace_char newline "\n" (replace_char "\" "\\" value)).

(** ** Lines *)

Record Sample := mkSample {
  sa_name : string;
  sa_labels : list (string * string);
  sa_value : Value
}.

Inductive Line := Comment (text : string) | SampleLine (sample : Sample).

Definition label_text (e : string * string) : string := e.1 ++ₛ "=" ++ₛ go_quote e.2.

Definition labels_text (labels : list (string * string)) : string :=
  match labels with
  | [] => EmptyString
  | _ => "{" ++ₛ join "," (label_text <$> labels) ++ₛ "}"
  end.

Definition sample_text (m : Sample) : string :=
  sa_name m ++ₛ labels_text (sa_labels m) ++ₛ " " ++ₛ value_text (sa_value m).

Definition line_text (l : Line) : string :=
  match l with Comment text => "# " ++ₛ text | SampleLine m => sample_text m end.

Definition exposition (l : list Line) : string :=
  fold_right (fun line rest => line_text line ++ₛ String newline rest) EmptyString l.

(** The two comments of a metric, and its samples. *)
Definition family (name kind help : string) (l : list (list (string * string) * Value)) : list Line :=
  Comment ("HELP " ++ₛ name ++ₛ " " ++ₛ help) :: Comment ("TYPE " ++ₛ name ++ₛ " " ++ₛ kind) ::
  ((fun e => SampleLine (mkSample name e.1 e.2)) <$> l).

(** ** The requests of a service ([writePrometheus])

    [sm_requests] is in the order of the sort; the sums and the uptime are in
    millionths of a second, as they are printed. *)

Record RequestSample := mkRequestSample {
  rs_Method : string;
  rs_Pattern : string;
  rs_StatusCode : Z;
  rs_Count : Z;
  rs_DurationSumSec : Z
}.

Record serviceMetrics := mkServiceMetrics {
  sm_name : string;
  sm_version : string;
  sm_uptime : Z;
  sm_inFlight : Z;
  sm_requests : list RequestSample
}.

Definition request_labels (m : serviceMetrics) (request : RequestSample) : list (string * string) :=
  [("service", prometheusLabelValue (sm_name m));
   ("method", prometheusLabelValue (rs_Method request));
   ("pattern", prometheusLabelValue (rs_Pattern request));
   ("status_code", prometheusLabelValue (dec (rs_StatusCode request)))].

Definition writePrometheus (m : serviceMetrics) (sources : list (list Line)) : list Line :=
  let service := [("service", prometheusLabelValue (sm_name m))] in
  family "adplatform_service_info" "gauge" "Static service metadata."
    [(service ++ [("version", prometheusLabelValue (sm_version m))], Whole 1)] ++
  family "adplatform_service_uptime_seconds" "gauge" "Service uptime in seconds."
    [(service, Millionths (sm_uptime m))] ++
  family "adplatform_http_in_flight_requests" "gauge" "Current in-flight HTTP requests."
    [(service, Whole (sm_inFlight m))] ++
  family "adplatform_http_requests_total" "counter" "Total HTTP requests handled by the service."
    ((fun r => (request_labels m r, Whole (rs_Count r))) <$> sm_requests m) ++
  family "adplatform_http_request_duration_seconds_sum" "counter"
    "Total HTTP request duration in seconds."
    ((fun r => (request_labels m r, Millionths (rs_DurationSumSec r))) <$> sm_requests m) ++
  family "adplatform_http_request_duration_seconds_count" "counter"
    "Total observed HTTP requests for duration accounting."
    ((fun r => (request_labels m r, Whole (rs_Count r))) <$> sm_requests m) ++
  concat sources.

(** ** The WireGuard gateway ([WritePrometheusMetrics]) *)

Definition wireGuardMetricOperations : list string := ["status"; "reconcile"; "teardown"].

Record wireGuardOperationAggregate := mkOperationAggregate {
  requestsTotal : Z;
  failuresTotal : Z;
  durationSecondsSum : Z;
  durationSecondsCount : Z
}.

(** What [s.status()] and the counters give; [gw_AppliedAt] is the second at which
    the rules were applied, when that is a date. *)
Record WireGuardGateway := mkWireGuardGateway {
  gw_operations : string -> wireGuardOperationAggregate;
  gw_reconciledPeersTotal : Z;
  gw_State : string;
  gw_PeersTotal : Z;
  gw_PeersActive : Z;
  gw_PeersRevoked : Z;
  gw_LastError : string;
  gw_AppliedAt : option Z
}.

(** Named apart from [metricBool] of the web tier. *)
Definition go_metricBool (value : bool) : Value := Whole (if value then 1 else 0).

Definition last_apply_success (g : WireGuardGateway) : bool :=
  String.eqb (gw_State g) "applied" && is_empty (gw_LastError g).

Definition per_operation (g : WireGuardGateway) (value : wireGuardOperationAggregate -> Value)
    : list (list (string * string) * Value) :=
  (fun operation => ([("operation", operation)], value (gw_operations g operation))) <$>
    wireGuardMetricOperations.

Definition WritePrometheusMetrics (g : WireGuardGateway) : list Line :=
  family "adplatform_wireguard_gateway_metrics_collection_success" "gauge"
    "Whether wireguard-gateway metrics collection succeeded." [([], Whole 1)] ++
  family "adplatform_wireguard_gateway_operation_requests_total" "counter"
    "Total wireguard-gateway requests grouped by operation."
    (per_operation g (fun a => Whole (requestsTotal a))) ++
  family "adplatform_wireguard_gateway_operation_failures_total" "counter"
    "Total failed wireguard-gateway requests grouped by operation."
    (per_operation g (fun a => Whole (failuresTotal a))) ++
  family "adplatform_wireguard_gateway_operation_duration_seconds_sum" "counter"
    "Total wireguard-gateway operation duration in seconds."
    (per_operation g (fun a => Millionths (durationSecondsSum a))) ++
  family "adplatform_wireguard_gateway_operation_duration_seconds_count" "counter"
    "Total observed wireguard-gateway operations for duration accounting."
    (per_operation g (fun a => Whole (durationSecondsCount a))) ++
  family "adplatform_wireguard_gateway_reconciled_peers_total" "counter"
    "Total peers included in reconcile attempts." [([], Whole (gw_reconciledPeersTotal g))] ++
  family "adplatform_wireguard_gateway_peer_counts" "gauge" "Current peer counts grouped by status."
    [([("status", "total")], Whole (gw_PeersTotal g));
     ([("status", "active")], Whole (gw_PeersActive g));
     ([("status", "revoked")], Whole (gw_PeersRevoked g))] ++
  family "adplatform_wireguard_gateway_state" "gauge"
    "Whether the wireguard gateway currently reports the given state."
    ((fun state => ([("state", state)], go_metricBool (String.eqb (gw_State g) state))) <$>
       ["idle"; "applied"; "error"]) ++
  family "adplatform_wireguard_gateway_last_apply_success" "gauge"
    "Whether the wireguard gateway last reported a successful apply."
    [([], go_metricBool (last_apply_success g))] ++
  family "adplatform_wireguard_gateway_last_error" "gauge"
    "Whether the wireguard gateway currently reports a last_error value."
    [([], go_metricBool (negb (is_empty (gw_LastError g))))] ++
  match gw_AppliedAt g with
  | Some appliedAt =>
      family "adplatform_wireguard_gateway_applied_at_unixtime" "gauge"
        "Last gateway apply time as a Unix timestamp." [([], Whole appliedAt)]
  | None => []
  end.

(** ** Readable samples *)

(** The nearest double of a printed number. *)
Definition value_num (v : Value) : num :=
  match v with
  | Whole n => Finite n 0
  | Millionths n =>
      let x := scale10 (Z.abs n) (-6) (js_length (dec (Z.abs n / 10 ^ 6)) + 6) in
      if n <? 0 then negate x else x
  end.

(** What is read back of a sample. *)
Definition read_back (m : Sample) : PromLine :=
  mkPromLine (sa_name m) (rev (sa_labels m)) (value_num (sa_value m)).

Definition samples (l : list Line) : list Sample :=
  omap (fun line => match line with SampleLine m => Some m | Comment _ => None end) l.

(** Plain characters: a label holds no separator, no quote, no brace, and nothing
    that is escaped. *)
Definition plain (c : ascii) : bool :=
  negb (Ascii.eqb c quote || Ascii.eqb c "," || Ascii.eqb c "=" || Ascii.eqb c "}" || is_ws c) &&
  ((33 <=? code c) && (code c <=? 126) && negb (Ascii.eqb c "\")).

Definition all_inb (p : ascii -> bool) (s : string) : bool := negb (has_char (fun c => negb (p c)) s).
Definition all_in (p : ascii -> bool) (s : string) : Prop := has_char (fun c => negb (p c)) s = false.

Definition label_okb (e : string * string) : bool :=
  all_inb plain e.1 && negb (is_empty e.1) && all_inb plain e.2.

Definition label_ok (e : string * string) : Prop :=
  all_in plain e.1 /\ is_empty e.1 = false /\ all_in plain e.2.

(** A name and labels that the parser splits at the right places. *)
Definition readable (m : Sample) : bool :=
  match sa_name m with
  | String c r => name_start c && all_inb name_char r
  | EmptyString => false
  end && forallb label_okb (sa_labels m) && bool_decide (NoDup (sa_labels m).*1).

(** Whole numbers stay below 2^53. *)
Definition value_ok (v : Value) : Prop := match v with Whole n => safe n | Millionths _ => True end.

Definition sample_ok (m : Sample) : Prop :=
  (exists c r, sa_name m = String c r /\ name_start c = true /\ all_in name_char r) /\
  Forall label_ok (sa_labels m) /\ NoDup (sa_labels m).*1 /\ value_ok (sa_value m).

Lemma all_inb_iff p s : all_inb p s = true <-> all_in p s.
Proof. unfold all_inb, all_in. apply negb_true_iff. Qed.

Lemma label_okb_ok e : label_okb e = true -> label_ok e.
Proof.
  unfold label_okb, label_ok. intros [[Hk Hn]%andb_prop Hv]%andb_prop.
  apply all_inb_iff in Hk, Hv. by apply negb_true_iff in Hn.
Qed.

Lemma readable_ok m : readable m = true -> value_ok (sa_value m) -> sample_ok m.
Proof.
  unfold readable, sample_ok. intros [[Hn Hl]%andb_prop Hd]%andb_prop Hv.
  apply bool_decide_eq_true in Hd. split_and!; [| |done|done].
  - destruct (sa_name m) as [|c r]; [done|]. apply andb_prop in Hn as [Hc Hr].
    apply all_inb_iff in Hr. by exists c, r.
  - apply list.Forall_forall. intros e He. apply label_okb_ok.
    rewrite forallb_forall in Hl. by apply Hl, list_elem_of_In.
Qed.

(** ** Reading it back *)

Lemma all_in_app p s t : all_in p (s ++ₛ t) <-> all_in p s /\ all_in p t.
Proof. unfold all_in. by rewrite has_char_app, orb_false_iff. Qed.

Lemma all_in_weaken (p q : ascii -> bool) s : (forall c, p c = true -> q c = true) -> all_in p s -> all_in q s.
Proof.
  unfold all_in. intros H. induction s as [|c s IH]; simpl; [done|].
  rewrite !orb_false_iff, !negb_false_iff. naive_solver.
Qed.

Lemma span_all p s t :
  all_in p s -> (forall c r, t = String c r -> p c = false) -> span p (s ++ₛ t) = (s, t).
Proof.
  unfold all_in. intros Hs Ht. induction s as [|c s IH]; simpl in *.
  - destruct t as [|c r]; [done|]. simpl. by rewrite (Ht c r).
  - apply orb_false_iff in Hs as [Hc Hs]. apply negb_false_iff in Hc. by rewrite Hc, IH.
Qed.

Lemma drop_end_app p s t :
  is_empty t = false -> drop_end p t = t -> drop_end p (s ++ₛ t) = s ++ₛ t.
Proof.
  intros He Ht. induction s as [|c s IH]; simpl; [done|]. rewrite IH.
  destruct s as [|d s]; simpl; [|done]. by destruct t.
Qed.

Lemma plain_free c d : plain c = true -> plain d = false -> Ascii.eqb c d = false.
Proof. intros H1 H2. destruct (Ascii.eqb_spec c d) as [->|]; congruence. Qed.

Lemma quotes_plain s : all_in plain s -> quotes s = 0%nat.
Proof.
  unfold all_in. induction s as [|c s IH]; simpl; [done|].
  intros [Hc Hs]%orb_false_iff. apply negb_false_iff in Hc.
  rewrite (plain_free c quote) by done. by rewrite IH.
Qed.

Lemma quotes_app s t : quotes (s ++ₛ t) = (quotes s + quotes t)%nat.
Proof. induction s as [|c s IH]; simpl; [done|]. rewrite IH. lia. Qed.

Lemma plain_quoted c : plain c = true -> quoted_char c = String c EmptyString.
Proof. destruct c as [[] [] [] [] [] [] [] []]; vm_compute; congruence. Qed.

Lemma go_quote_plain s : all_in plain s -> go_quote s = String quote (s ++ₛ String quote EmptyString).
Proof.
  intros H. unfold go_quote. do 2 f_equal. unfold all_in in H.
  induction s as [|c s IH]; simpl in *; [done|].
  apply orb_false_iff in H as [Hc Hs]. apply negb_false_iff in Hc.
  by rewrite plain_quoted, IH.
Qed.

(** A label with a plain text. *)
Lemma label_text_plain e :
  label_ok e -> label_text e = e.1 ++ₛ "=" ++ₛ String quote (e.2 ++ₛ String quote EmptyString).
Proof. intros (_ & _ & Hv). unfold label_text. by rewrite go_quote_plain. Qed.

Lemma label_text_quotes e : label_ok e -> quotes (label_text e) = 2%nat.
Proof.
  intros H. rewrite label_text_plain by done. destruct H as (Hk & _ & Hv).
  rewrite quotes_app, quotes_plain by done.
  cbn [append quotes]. rewrite quotes_app, quotes_plain by done. reflexivity.
Qed.

Lemma split_labels_skip s t :
  all_in (fun c => negb (Ascii.eqb c ",")) s ->
  split_labels (s ++ₛ t) =
  match split_labels t with [] => [s] | part :: parts => (s ++ₛ part) :: parts end.
Proof.
  unfold all_in. induction s as [|c s IH]; intros H; simpl.
  - destruct (split_labels t) eqn:E; [|done]. destruct t; simpl in E; [done|].
    destruct (_ && _); [done|]. by destruct (split_labels t).
  - simpl in H. apply orb_false_iff in H as [Hc Hs]. rewrite negb_involutive in Hc. rewrite Hc. simpl.
    rewrite IH by done. by destruct (split_labels t).
Qed.

Lemma label_text_no_comma e :
  label_ok e -> all_in (fun c => negb (Ascii.eqb c ",")) (label_text e).
Proof.
  intros H. rewrite label_text_plain by done. destruct H as (Hk & _ & Hv).
  assert (Hp : forall c, plain c = true -> negb (Ascii.eqb c ",") = true).
  { intros c Hc. by rewrite plain_free. }
  apply all_in_app. split; [by eapply all_in_weaken|].
  change (all_in (fun c => negb (Ascii.eqb c ",")) ("=" ++ₛ String quote EmptyString ++ₛ e.2 ++ₛ String quote EmptyString)).
  rewrite !all_in_app. split_and!; [done|done|by eapply all_in_weaken|done].
Qed.

Lemma joined_quotes labels :
  Forall label_ok labels -> Nat.even (quotes (join "," (label_text <$> labels))) = true.
Proof.
  intros H. induction H as [|e labels He Hl IH]; [done|].
  destruct labels as [|e2 labels]; [cbn; by rewrite label_text_quotes|].
  change (join "," (label_text <$> e :: e2 :: labels)) with
    (label_text e ++ₛ "," ++ₛ join "," (label_text <$> e2 :: labels)).
  rewrite quotes_app, label_text_quotes by done. cbn [append quotes Ascii.eqb]. exact IH.
Qed.

Lemma split_labels_comma t :
  Nat.even (quotes t) = true -> split_labels ("," ++ₛ t) = EmptyString :: split_labels t.
Proof. intros H. simpl. by rewrite H. Qed.

Lemma split_labels_join labels :
  labels <> [] -> Forall label_ok labels ->
  split_labels (join "," (label_text <$> labels)) = label_text <$> labels.
Proof.
  intros Hne H. induction H as [|e labels He Hl IH]; [done|]. clear Hne.
  destruct labels as [|e2 labels].
  - cbn [fmap list_fmap join]. rewrite <- (app_nil_s (label_text e)) at 1.
    rewrite split_labels_skip by by apply label_text_no_comma. cbn [split_labels]. by rewrite app_nil_s.
  - change (join "," (label_text <$> e :: e2 :: labels)) with
      (label_text e ++ₛ "," ++ₛ join "," (label_text <$> e2 :: labels)).
    rewrite split_labels_skip by by apply label_text_no_comma.
    rewrite split_labels_comma by by apply joined_quotes. rewrite IH by done.
    by rewrite app_nil_s.
Qed.

Lemma all_in_free p c s : all_in p s -> p c = false -> free_of c s.
Proof.
  unfold all_in, free_of. intros Hs Hc. induction s as [|d s IH]; simpl in *; [done|].
  apply orb_false_iff in Hs as [Hd Hs]. apply negb_false_iff in Hd.
  destruct (Ascii.eqb_spec d c) as [->|]; [congruence|]. by apply IH.
Qed.

Lemma plain_no_ws s : all_in plain s -> has_char is_ws s = false.
Proof.
  unfold all_in. induction s as [|c s IH]; simpl; [done|].
  intros [Hc Hs]%orb_false_iff. apply negb_false_iff in Hc.
  unfold plain in Hc. apply andb_prop in Hc as [Hc _].
  apply negb_true_iff, orb_false_iff in Hc as [_ ->]. auto.
Qed.

Lemma drop_last_quote_app s : drop_last_quote (s ++ₛ String quote EmptyString) = s.
Proof.
  induction s as [|c s IH]; [done|]. cbn [append drop_last_quote].
  rewrite IH. by destruct s.
Qed.

Lemma strip_quotes_quoted s : strip_quotes (String quote (s ++ₛ String quote EmptyString)) = s.
Proof. unfold strip_quotes. simpl. apply drop_last_quote_app. Qed.

Lemma parse_label_text labels e :
  label_ok e -> e.1 ∉ labels.*1 -> parse_label labels (label_text e) = e :: labels.
Proof.
  intros He Hfresh. unfold parse_label. rewrite label_text_plain by done.
  destruct He as (Hk & Hne & Hv). destruct e as [k v]. simpl in *.
  rewrite split_on_app by (by eapply all_in_free).
  rewrite split_on_free.
  2:{ pose proof (all_in_free plain "="%char v Hv eq_refl) as Hf. unfold free_of in *.
      cbn [has_char]. by rewrite has_char_app, Hf. }
  rewrite Hne. cbn [is_empty orb].
  rewrite (trim_no_ws k) by by apply plain_no_ws.
  rewrite (trim_no_ws (String quote _)).
  2:{ cbn [has_char]. rewrite has_char_app, plain_no_ws by done. done. }
  rewrite strip_quotes_quoted. unfold set_label. f_equal.
  apply bfilter_id, list.Forall_forall. intros [k2 v2] Hin. simpl. apply negb_true_iff, String.eqb_neq. intros ->.
  apply Hfresh, list_elem_of_fmap. by exists (k, v2).
Qed.

Lemma parse_labels_text labels acc :
  Forall label_ok labels -> NoDup (labels.*1 ++ acc.*1) ->
  fold_left parse_label (label_text <$> labels) acc = rev labels ++ acc.
Proof.
  revert acc. induction labels as [|e labels IH]; intros acc H Hn; [done|].
  apply list.Forall_cons in H as [He Hl]. csimpl in Hn. apply list.NoDup_cons in Hn as [Hin Hn].
  csimpl. rewrite parse_label_text by (done || set_solver). rewrite IH; [|done|].
  - by rewrite <- app_assoc.
  - csimpl. apply list.NoDup_app in Hn as (H1 & H2 & H3). apply list.NoDup_app. split_and!; [done| |].
    + intros x Hx. apply not_elem_of_cons. split; [|by apply H2]. intros ->. set_solver.
    + apply list.NoDup_cons. split; [set_solver|done].
Qed.

Lemma joined_free labels :
  Forall label_ok labels -> all_in (fun d => negb (Ascii.eqb d "}")) (join "," (label_text <$> labels)).
Proof.
  assert (Hp : forall c, plain c = true -> negb (Ascii.eqb c "}") = true).
  { intros c Hc. by rewrite plain_free. }
  assert (Hone : forall e, label_ok e -> all_in (fun d => negb (Ascii.eqb d "}")) (label_text e)).
  { intros e He. rewrite label_text_plain by done. destruct He as (Hk & _ & Hv).
    apply all_in_app. split; [by eapply all_in_weaken|].
    apply (proj2 (all_in_app _ "=" _)). split; [done|].
    apply (proj2 (all_in_app _ (String quote EmptyString) _)). split; [done|].
    apply all_in_app. split; [by eapply all_in_weaken|done]. }
  intros H. induction H as [|e labels He Hl IH]; [done|].
  destruct labels as [|e2 labels]; [by apply Hone|].
  change (join "," (label_text <$> e :: e2 :: labels)) with
    (label_text e ++ₛ "," ++ₛ join "," (label_text <$> e2 :: labels)).
  apply all_in_app. split; [by apply Hone|]. apply (proj2 (all_in_app _ "," _)). by split.
Qed.

Lemma joined_nonempty e labels : is_empty (join "," (label_text <$> e :: labels)) = false.
Proof. destruct e as [[|] ?], labels; done. Qed.

(** The labels of a sample, between the name and the number. *)
Lemma match_labels_text labels rest :
  Forall label_ok labels ->
  match_labels (labels_text labels ++ₛ String " " rest) =
  Some (join "," (label_text <$> labels), String " " rest).
Proof.
  intros H. destruct labels as [|e labels]; [done|].
  unfold labels_text. cbn [append]. unfold match_labels. change (Ascii.eqb "{" "{") with true.
  cbv beta iota. rewrite app_assoc_s.
  rewrite span_all; [done|by apply joined_free|]. by intros c r [= <- _].
Qed.

(** ** Numbers *)

Lemma digits_value_app acc s t : digits_value acc (s ++ₛ t) = digits_value (digits_value acc s) t.
Proof. revert acc. induction s as [|c s IH]; intros acc; [done|]. apply IH. Qed.

Lemma digits_value_pad w acc n :
  0 <= n < 10 ^ Z.of_nat w -> digits_value acc (pad w n) = acc * 10 ^ Z.of_nat w + n.
Proof.
  revert acc n. induction w as [|w IH]; intros acc n Hn; [cbn; change (10 ^ Z.of_nat 0) with 1 in *; lia|].
  rewrite Nat2Z.inj_succ, Z.pow_succ_r in * by lia. cbn [pad]. rewrite digits_value_app.
  rewrite IH; [|split; [apply Z.div_pos; lia|apply Z.div_lt_upper_bound; lia]]. cbn [digits_value].
  rewrite code_digit_char by (apply Z.mod_pos_bound; lia). pose proof (Z.div_mod n 10 ltac:(lia)). lia.
Qed.

(** Digits, perhaps with a point and more digits. *)
Definition magnitude_shape (s : string) : Prop :=
  exists ip t, s = ip ++ₛ t /\ all_digits ip /\ is_empty ip = false /\
    (t = EmptyString \/ exists fp, t = String "." fp /\ all_digits fp).

Lemma magnitude_text_shape v : magnitude_shape (magnitude_text v).
Proof.
  destruct v as [n|n]; cbn [magnitude_text]; eexists _, _.
  - split; [by rewrite app_nil_s|]. split_and!; [apply dec_digits; lia|apply dec_nonempty|by left].
  - split; [reflexivity|]. split_and!; [apply dec_digits, Z.div_pos; lia|apply dec_nonempty|].
    right. eexists. split; [reflexivity|apply pad_digits].
Qed.

Definition value_char (c : ascii) : bool := is_digit c || Ascii.eqb c "." || Ascii.eqb c "-".

Lemma magnitude_chars s : magnitude_shape s -> all_in value_char s.
Proof.
  assert (Hd : forall d, all_digits d -> all_in value_char d).
  { intros d. unfold all_digits, all_in. apply (all_in_weaken is_digit).
    intros c Hc. unfold value_char. by rewrite Hc. }
  intros (ip & t & -> & Hip & _ & Ht). apply all_in_app. split; [by apply Hd|].
  destruct Ht as [->|(fp & -> & Hfp)]; [done|].
  apply (proj2 (all_in_app _ "." fp)). split; [done|by apply Hd].
Qed.

Lemma value_text_chars v : all_in value_char (value_text v).
Proof.
  unfold value_text. apply all_in_app. split; [by destruct (_ <? 0)|].
  apply magnitude_chars, magnitude_text_shape.
Qed.

Lemma value_char_not_ws c : value_char c = true -> negb (is_ws c) = true.
Proof. destruct c as [[] [] [] [] [] [] [] []]; vm_compute; congruence. Qed.

Lemma value_text_no_ws v : has_char is_ws (value_text v) = false.
Proof.
  pose proof (all_in_weaken _ (fun c => negb (is_ws c)) _ value_char_not_ws (value_text_chars v)) as H.
  revert H. unfold all_in. generalize (value_text v). intros s. induction s as [|c s IH]; [done|].
  simpl. rewrite negb_involutive, !orb_false_iff. naive_solver.
Qed.

Lemma magnitude_start s : magnitude_shape s -> exists c r, s = String c r /\ is_digit c = true.
Proof.
  intros ([|c ip] & t & -> & Hip & Hne & _); [done|]. exists c, (ip ++ₛ t). split; [done|].
  unfold all_digits in Hip. simpl in Hip. apply orb_false_iff in Hip as [Hc _].
  by apply negb_false_iff in Hc.
Qed.

Lemma value_text_nonempty v : is_empty (value_text v) = false.
Proof.
  unfold value_text. destruct (_ <? 0); [done|].
  by destruct (magnitude_start _ (magnitude_text_shape v)) as (c & r & -> & _).
Qed.

Lemma span_digits_point ip t :
  all_digits ip -> (t = EmptyString \/ exists fp, t = String "." fp /\ all_digits fp) ->
  span_digits (ip ++ₛ t) = (ip, t).
Proof.
  intros Hip Ht. apply span_digits_all; [done|]. intros c r ->.
  destruct Ht as [?|(fp & [= -> _] & _)]; done.
Qed.

Lemma magnitude_unsigned s : magnitude_shape s -> unsigned_shape s = true.
Proof.
  intros (ip & t & -> & Hip & Hne & Ht). unfold unsigned_shape.
  rewrite span_digits_point by done. destruct Ht as [->|(fp & -> & Hfp)]; [by rewrite Hne|].
  change (Ascii.eqb "." ".") with true. cbv iota. rewrite span_digits_only by done.
  by rewrite Hne.
Qed.

Lemma value_number_shape v : number_shape (value_text v) = true.
Proof.
  pose proof (magnitude_unsigned _ (magnitude_text_shape v)) as Hu. unfold value_text.
  destruct (_ <? 0); [exact Hu|].
  destruct (magnitude_start _ (magnitude_text_shape v)) as (c & r & E & Hc).
  change ("" ++ₛ magnitude_text v) with (magnitude_text v). rewrite E in *.
  unfold number_shape. by destruct (Ascii.eqb_spec c "-") as [->|].
Qed.

Lemma magnitude_decimal s :
  magnitude_shape s -> exists m e len, parse_decimal s = Some (m, e, len).
Proof.
  intros (ip & t & -> & Hip & Hne & Ht). unfold parse_decimal. rewrite span_digits_point by done.
  destruct Ht as [->|(fp & -> & Hfp)].
  - rewrite app_nil_s, Hne. cbn. by do 3 eexists.
  - change (Ascii.eqb "." ".") with true. cbv iota. rewrite span_digits_only by done.
    destruct ip as [|c ip]; [done|]. cbn. by do 3 eexists.
Qed.

(** What the parser makes of the digits, without the sign. *)
Definition magnitude_num (s : string) : num :=
  match parse_decimal s with Some (m, e, len) => scale10 m e len | None => NaN end.

Lemma js_number_magnitude s neg :
  magnitude_shape s ->
  js_number ((if neg : bool then "-" else "") ++ₛ s) =
  (if neg then negate (magnitude_num s) else magnitude_num s).
Proof.
  intros H. pose proof (magnitude_chars _ H) as Hch. pose proof (magnitude_start _ H) as (c & r & E & Hc).
  assert (Hws : has_char is_ws s = false).
  { pose proof (all_in_weaken _ (fun c => negb (is_ws c)) _ value_char_not_ws Hch) as Hw.
    revert Hw. unfold all_in. clear. induction s as [|c s IH]; [done|].
    simpl. rewrite negb_involutive, !orb_false_iff. naive_solver. }
  assert (Hinf : String.eqb s "Infinity" = false).
  { rewrite E. simpl. by destruct (Ascii.eqb_spec c "I") as [->|]. }
  unfold js_number. destruct neg.
  - rewrite trim_no_ws by (simpl; exact Hws). cbn [append is_empty].
    replace (parse_prefixed (String "-" s)) with (@None num) by (rewrite E; by destruct r).
    cbn [sign_split Ascii.eqb Bool.eqb]. cbv beta iota zeta. rewrite Hinf. done.
  - change ("" ++ₛ s) with s. rewrite trim_no_ws by done. rewrite E in *. cbn [is_empty].
    replace (parse_prefixed (String c r)) with (@None num); [|].
    2:{ destruct r as [|d r]; [done|]. unfold all_in in Hch. simpl in Hch.
        apply orb_false_iff in Hch as [_ [Hd _]%orb_false_iff]. apply negb_false_iff in Hd.
        clear -Hd. unfold parse_prefixed.
        assert (Hne : forall p, value_char p = false -> Ascii.eqb d p = false).
        { intros p Hp. destruct (Ascii.eqb_spec d p) as [->|]; congruence. }
        rewrite !Hne by reflexivity. cbn. by rewrite andb_false_r. }
    replace (sign_split (String c r)) with (false, String c r).
    2:{ simpl. destruct (Ascii.eqb_spec c "-") as [->|]; [done|].
        by destruct (Ascii.eqb_spec c "+") as [->|]. }
    cbv beta iota zeta. by rewrite Hinf.
Qed.

Lemma magnitude_num_whole n : safe n -> magnitude_num (magnitude_text (Whole n)) = Finite (Z.abs n) 0.
Proof.
  intros Hs. assert (Hs' : safe (Z.abs n)) by (unfold safe in *; lia).
  pose proof (js_number_magnitude _ false (magnitude_text_shape (Whole n))) as H.
  cbn [magnitude_text] in *. rewrite <- H.
  change ("" ++ₛ dec (Z.abs n)) with (dec (Z.abs n)).
  rewrite js_number_digits by (apply dec_digits || apply dec_nonempty; lia).
  by rewrite dec_value, round_double_safe by (done || lia).
Qed.

Lemma magnitude_num_millionths n :
  magnitude_num (magnitude_text (Millionths n)) =
  scale10 (Z.abs n) (-6) (js_length (dec (Z.abs n / 10 ^ 6)) + 6).
Proof.
  unfold magnitude_num, magnitude_text. set (a := Z.abs n / 10 ^ 6). set (f := Z.abs n mod 10 ^ 6).
  assert (Hf : 0 <= f < 10 ^ 6) by (apply Z.mod_pos_bound; lia).
  assert (Ha : 0 <= a) by (apply Z.div_pos; lia).
  pose proof (dec_digits a Ha) as Hd. pose proof (dec_nonempty a) as Hne.
  unfold parse_decimal. change (dec a ++ₛ "." ++ₛ pad 6 f) with (dec a ++ₛ String "." (pad 6 f)).
  rewrite span_digits_point; [|done|right; eexists; split; [reflexivity|apply pad_digits]].
  change (Ascii.eqb "." ".") with true. cbv iota. rewrite span_digits_only by apply pad_digits.
  assert (E : is_empty (dec a ++ₛ pad 6 f) = false) by by destruct (dec a).
  rewrite E. cbn [parse_exponent mbind option_bind].
  rewrite digits_value_app, dec_value by done. rewrite digits_value_pad by done.
  unfold js_length. rewrite length_app_s, length_pad.
  replace (a * 10 ^ Z.of_nat 6 + f) with (Z.abs n); [f_equal; lia|].
  unfold a, f. rewrite (Z.div_mod (Z.abs n) (10 ^ 6)) at 1 by lia. change (Z.of_nat 6) with 6. lia.
Qed.

Lemma js_number_value v : value_ok v -> js_number (value_text v) = value_num v.
Proof.
  intros Hv. unfold value_text. rewrite js_number_magnitude by apply magnitude_text_shape.
  destruct v as [n|n]; cbn [value_int value_num value_ok] in *.
  - rewrite magnitude_num_whole by done. destruct (n <? 0) eqn:E; boolify; cbn [negate]; f_equal; lia.
  - by rewrite magnitude_num_millionths.
Qed.

Lemma round_rat_finite n d : is_nan (round_rat n d) = false.
Proof. unfold round_rat. by destruct (_ && _). Qed.

Lemma value_num_finite v : is_nan (value_num v) = false.
Proof.
  destruct v as [n|n]; [done|]. cbn [value_num].
  assert (H : forall m e len, is_nan (scale10 m e len) = false).
  { intros m e len. unfold scale10. repeat case_match; try done. apply round_rat_finite. }
  pose proof (H (Z.abs n) (-6) (js_length (dec (Z.abs n / 10 ^ 6)) + 6)) as Hx.
  destruct (n <? 0); [|exact Hx]. by destruct (scale10 _ _ _).
Qed.

(** ** Lines *)

Lemma match_line_text m :
  sample_ok m ->
  match_line (sample_text m) =
  Some (sa_name m, join "," (label_text <$> sa_labels m), value_text (sa_value m)).
Proof.
  intros ((c & r & Hname & Hc & Hr) & Hl & _ & _). unfold sample_text. rewrite Hname.
  cbn [append]. unfold match_line. rewrite Hc. set (v := value_text (sa_value m)).
  assert (Hbreak : forall d u, labels_text (sa_labels m) ++ₛ String " " v = String d u ->
                               name_char d = false).
  { intros d u. destruct (sa_labels m); by intros [= <- _]. }
  change (String c (r ++ₛ labels_text (sa_labels m) ++ₛ String " " v)) with
    (String c r ++ₛ (labels_text (sa_labels m) ++ₛ String " " v)).
  rewrite span_all; [| |exact Hbreak].
  - rewrite match_labels_text by done. cbn [mbind option_bind].
    change (String " " v) with (" " ++ₛ v).
    rewrite span_all; [by unfold v; rewrite value_number_shape|done|].
    intros d u Hv. pose proof (value_text_chars (sa_value m)) as Hch. fold v in Hch. rewrite Hv in Hch.
    unfold all_in in Hch. simpl in Hch. apply orb_false_iff in Hch as [Hd _].
    apply negb_false_iff, value_char_not_ws in Hd. by apply negb_true_iff in Hd.
  - unfold all_in in *. simpl. unfold name_char at 1. rewrite Hc. exact Hr.
Qed.

Lemma name_start_not_ws c : name_start c = true -> is_ws c = false.
Proof. destruct c as [[] [] [] [] [] [] [] []]; vm_compute; congruence. Qed.

Lemma sample_trim m : sample_ok m -> trim (sample_text m) = sample_text m.
Proof.
  intros ((c & r & Hname & Hc & _) & _).
  assert (Hend : drop_end is_ws (sample_text m) = sample_text m).
  { unfold sample_text. rewrite <- !app_assoc_s. apply drop_end_app; [apply value_text_nonempty|].
    apply drop_end_none, value_text_no_ws. }
  unfold trim. replace (drop_start is_ws (sample_text m)) with (sample_text m); [done|].
  unfold sample_text. rewrite Hname. simpl. by rewrite (name_start_not_ws c).
Qed.

Lemma parse_sample m : sample_ok m -> parse_line (sample_text m) = Some (read_back m).
Proof.
  intros Hok. unfold parse_line. rewrite sample_trim by done.
  pose proof (match_line_text m Hok) as Hm.
  destruct Hok as ((c & r & Hname & Hc & _) & Hl & Hnd & Hv).
  assert (Hhash : is_empty (sample_text m) || starts_with "#" (sample_text m) = false).
  { unfold sample_text. rewrite Hname. unfold starts_with. cbn [append is_empty orb String.prefix].
    by destruct (ascii_dec "#" c) as [<-|]. }
  rewrite Hhash, Hm. cbn [mbind option_bind].
  rewrite js_number_value, value_num_finite by done.
  unfold read_back, parse_labels. do 3 f_equal.
  destruct (sa_labels m) as [|e labels]; [done|].
  rewrite joined_nonempty, split_labels_join by done.
  rewrite parse_labels_text; [by rewrite app_nil_r|done|]. csimpl. by rewrite app_nil_r.
Qed.

Lemma parse_comment text : parse_line ("# " ++ₛ text) = None.
Proof.
  unfold parse_line.
  assert (Ht : exists r, trim ("# " ++ₛ text) = String "#" r).
  { unfold trim. cbn [append drop_start]. change (is_ws "#") with false. cbv iota.
    generalize (String " " text). intros s. cbn [drop_end]. change (is_ws "#") with false.
    destruct (drop_end is_ws s) as [|d r]; eauto. }
  destruct Ht as [r ->]. by destruct r.
Qed.

(** ** One line each *)

Definition one_line (s : string) : Prop := all_in (fun c => negb (Ascii.eqb c newline)) s.

Lemma one_line_free s : one_line s <-> free_of newline s.
Proof.
  unfold one_line, all_in, free_of. induction s as [|c s IH]; simpl; [done|].
  by rewrite negb_involutive, !orb_false_iff, IH.
Qed.

Lemma quoted_char_line c : one_line (quoted_char c).
Proof. destruct c as [[] [] [] [] [] [] [] []]; vm_compute; reflexivity. Qed.

(** A quoted label has no end of line, whatever was quoted. *)
Lemma go_quote_line s : one_line (go_quote s).
Proof.
  unfold go_quote. apply (proj2 (all_in_app _ (String quote EmptyString) _)). split; [done|].
  apply all_in_app. split; [|done].
  induction s as [|c s IH]; [done|]. apply all_in_app. split; [apply quoted_char_line|exact IH].
Qed.

Lemma join_line parts : Forall one_line parts -> one_line (join "," parts).
Proof.
  intros H. induction H as [|x l Hx Hl IH]; [done|]. destruct l as [|y l]; [done|].
  change (join "," (x :: y :: l)) with (x ++ₛ "," ++ₛ join "," (y :: l)).
  apply all_in_app. split; [done|]. apply (proj2 (all_in_app _ "," _)). by split.
Qed.

Lemma value_text_line v : one_line (value_text v).
Proof.
  unfold one_line. apply (all_in_weaken value_char); [|apply value_text_chars].
  intros [[] [] [] [] [] [] [] []]; vm_compute; congruence.
Qed.

(** A line whose name and label names have no end of line. *)
Definition line_named (l : Line) : Prop :=
  match l with
  | Comment text => one_line text
  | SampleLine m => one_line (sa_name m) /\ Forall (fun e => one_line e.1) (sa_labels m)
  end.

Lemma line_text_line l : line_named l -> one_line (line_text l).
Proof.
  destruct l as [text|m]; cbn [line_named line_text].
  - intros H. apply (proj2 (all_in_app _ "# " _)). by split.
  - intros [Hn Hl]. apply all_in_app. split; [done|].
    apply all_in_app. split; [|apply (proj2 (all_in_app _ " " _)); split; [done|apply value_text_line]].
    destruct (sa_labels m) as [|e labels]; [done|]. unfold labels_text.
    apply (proj2 (all_in_app _ "{" _)). split; [done|]. apply all_in_app. split; [|done].
    apply join_line, list.Forall_fmap. eapply list.Forall_impl; [exact Hl|].
    intros x Hx. apply all_in_app. split; [done|].
    apply (proj2 (all_in_app _ "=" _)). split; [done|apply go_quote_line].
Qed.

(** The parser reads line by line. *)
Lemma parse_exposition l :
  Forall line_named l -> parsePrometheus (exposition l) = omap (fun x => parse_line (line_text x)) l.
Proof.
  unfold parsePrometheus. induction 1 as [|x l Hx _ IH]; [done|].
  change (exposition (x :: l)) with (line_text x ++ₛ String newline (exposition l)).
  rewrite split_on_app by by apply one_line_free, line_text_line. csimpl. by rewrite IH.
Qed.

Definition line_ok (l : Line) : Prop :=
  match l with Comment _ => True | SampleLine m => sample_ok m end.

(** Readable samples are read back, and nothing else. *)
Lemma readable_samples l :
  Forall line_ok l -> omap (fun x => parse_line (line_text x)) l = read_back <$> samples l.
Proof.
  induction 1 as [|x l Hx _ IH]; [done|]. destruct x as [text|m];
    cbn [omap list_omap line_text line_ok] in *.
  - rewrite parse_comment. exact IH.
  - rewrite parse_sample by done. cbn [samples omap list_omap fmap list_fmap]. by rewrite IH.
Qed.

(** ** A service's own counters *)

Definition line_namedb (l : Line) : bool :=
  match l with
  | Comment text => all_inb (fun c => negb (Ascii.eqb c newline)) text
  | SampleLine m =>
      all_inb (fun c => negb (Ascii.eqb c newline)) (sa_name m) &&
      forallb (fun e => all_inb (fun c => negb (Ascii.eqb c newline)) e.1) (sa_labels m)
  end.

Lemma line_namedb_ok l : line_namedb l = true -> line_named l.
Proof.
  destruct l as [text|m]; cbn [line_namedb line_named]; [apply all_inb_iff|].
  intros [Hn Hl]%andb_prop. apply all_inb_iff in Hn. split; [done|].
  apply list.Forall_forall. intros e He. apply all_inb_iff.
  rewrite forallb_forall in Hl. by apply Hl, list_elem_of_In.
Qed.

Lemma family_named name kind help l :
  one_line name -> one_line kind -> one_line help ->
  Forall (fun e => Forall (fun x : string * string => one_line x.1) e.1) l ->
  Forall line_named (family name kind help l).
Proof.
  intros Hn Hk Hh Hl.
  assert (Ht : forall a b c, one_line a -> one_line b -> one_line c ->
                             one_line (a ++ₛ b ++ₛ " " ++ₛ c)).
  { intros a b c Ha Hb Hc. apply all_in_app. split; [done|]. apply all_in_app. split; [done|].
    apply (proj2 (all_in_app _ " " _)). by split. }
  unfold family. rewrite !list.Forall_cons. split_and!.
  - by apply Ht.
  - by apply Ht.
  - apply list.Forall_fmap. eapply list.Forall_impl; [exact Hl|]. intros e He. by split.
Qed.

(** Whatever the requests were, each of their lines is one line. *)
Lemma requests_named m sources :
  Forall line_named (concat sources) -> Forall line_named (writePrometheus m sources).
Proof.
  intros Hs.
  assert (Hr : forall f : RequestSample -> Value,
    Forall (fun e => Forall (fun x : string * string => one_line x.1) e.1)
      ((fun r => (request_labels m r, f r)) <$> sm_requests m)).
  { intros f. apply list.Forall_fmap, list.Forall_true. intros r. by repeat constructor. }
  unfold writePrometheus. rewrite !list.Forall_app. split_and!; [..|exact Hs];
    (apply family_named; [done|done|done|]); first [apply Hr|by repeat constructor].
Qed.

(** The counters of the gateway are below 2^53. *)
Definition gateway_fits (g : WireGuardGateway) : Prop :=
  (forall operation, safe (requestsTotal (gw_operations g operation)) /\
     safe (failuresTotal (gw_operations g operation)) /\
     safe (durationSecondsCount (gw_operations g operation))) /\
  safe (gw_reconciledPeersTotal g) /\ safe (gw_PeersTotal g) /\ safe (gw_PeersActive g) /\
  safe (gw_PeersRevoked g) /\ from_option safe True (gw_AppliedAt g).

Lemma gateway_named g : Forall line_named (WritePrometheusMetrics g).
Proof.
  assert (H : forallb line_namedb (WritePrometheusMetrics g) = true).
  { unfold WritePrometheusMetrics. by destruct (gw_AppliedAt g); vm_compute. }
  apply list.Forall_forall. intros l Hl. apply line_namedb_ok.
  rewrite forallb_forall in H. by apply H, list_elem_of_In.
Qed.

Lemma family_ok name kind help l :
  forallb (fun e => readable (mkSample name e.1 e.2)) l = true -> Forall (fun e => value_ok e.2) l ->
  Forall line_ok (family name kind help l).
Proof.
  intros Hr Hv. unfold family. rewrite !list.Forall_cons. split_and!; [done|done|].
  apply list.Forall_fmap, list.Forall_forall. intros e He. rewrite list.Forall_forall in Hv.
  rewrite forallb_forall in Hr. apply readable_ok; [by apply Hr, list_elem_of_In|by apply Hv].
Qed.

Lemma gateway_ok g : gateway_fits g -> Forall line_ok (WritePrometheusMetrics g).
Proof.
  intros (Hop & Hrec & Ht & Ha & Hr & Hat).
  assert (Hb : forall b, value_ok (go_metricBool b)) by by intros [].
  assert (Hop1 : forall o, safe (requestsTotal (gw_operations g o))) by (intros o; apply Hop).
  assert (Hop2 : forall o, safe (failuresTotal (gw_operations g o))) by (intros o; apply Hop).
  assert (Hop3 : forall o, safe (durationSecondsCount (gw_operations g o))) by (intros o; apply Hop).
  unfold WritePrometheusMetrics, per_operation, wireGuardMetricOperations.
  rewrite !list.Forall_app. split_and!.
  11: destruct (gw_AppliedAt g) as [at_|]; [|constructor].
  all: apply family_ok; [vm_compute; reflexivity|].
  all: repeat apply list.Forall_cons_2; first [apply list.Forall_nil_2|cbn [value_ok snd from_option] in *].
  all: first [apply Hb|exact I|reflexivity|auto].
Qed.

Lemma metricValue_app rows rows' name labels :
  metricValue (rows ++ rows') name labels =
  match metricValue rows' name labels with Some x => Some x | None => metricValue rows name labels end.
Proof.
  unfold metricValue. rewrite rev_app_distr.
  assert (H : forall l l', find_first (row_matches name labels) (l ++ l') =
    match find_first (row_matches name labels) l with
    | Some x => Some x | None => find_first (row_matches name labels) l' end).
  { intros l l'. induction l as [|x l IH]; [done|]. cbn [app find_first].
    by destruct (row_matches name labels x). }
  rewrite H. by destruct (find_first _ (rev rows')).
Qed.

(** C11: the metrics page shows the counters of the WireGuard gateway as they are.
    Of the text that the gateway answers to [/metrics], the counters of its requests
    first, whatever methods, paths and numbers they hold, and its own counters after
    them, the web tier reads back exactly the reconcile requests, the peers that are
    known, active and revoked, and whether the last apply succeeded; counters below
    2^53 are assumed. *)
Theorem wireguard_metrics_read generated_at gameCore submission controller realtime m g :
  gateway_fits g ->
  sn_wireguard_gateway
    (snapshot generated_at gameCore submission controller realtime
       (parsePrometheus (exposition (writePrometheus m [WritePrometheusMetrics g])))) =
  mkWireGuardMetrics (Some (Finite (requestsTotal (gw_operations g "reconcile")) 0))
    (Some (Finite (gw_PeersTotal g) 0)) (Some (Finite (gw_PeersActive g) 0))
    (Some (Finite (gw_PeersRevoked g) 0)) (Some (last_apply_success g)).
Proof.
  intros Hg.
  assert (Hown : omap (fun x => parse_line (line_text x)) (concat [WritePrometheusMetrics g]) =
                 read_back <$> samples (WritePrometheusMetrics g)).
  { cbn [concat]. rewrite app_nil_r. by apply readable_samples, gateway_ok. }
  rewrite parse_exposition.
  2:{ apply requests_named. cbn [concat]. rewrite app_nil_r. apply gateway_named. }
  unfold writePrometheus. rewrite !app_assoc, omap_app, Hown.
  unfold snapshot, sn_wireguard_gateway, peers. rewrite !metricValue_app.
  unfold WritePrometheusMetrics, go_metricBool.
  destruct (gw_AppliedAt g), (last_apply_success g); reflexivity.
Qed.

(** A gateway that served requests of every shape. *)
Lemma wireguard_metrics_read_witness :
  let m := mkServiceMetrics "wireguard-gateway" "dev" 61500000 0
             [mkRequestSample "GET" "/a}b,c=d 7" 404 3 1250;
              mkRequestSample "POST" "POST /internal/v1/wireguard/reconcile" 200 12 48000000] in
  let g := mkWireGuardGateway (fun _ => mkOperationAggregate 12 1 48000001 12) 40 "applied" 5 4 1 ""
             (Some 1700000000) in
  sn_wireguard_gateway
    (snapshot "" [] [] [] [] (parsePrometheus (exposition (writePrometheus m [WritePrometheusMetrics g])))) =
  mkWireGuardMetrics (Some (Finite 12 0)) (Some (Finite 5 0)) (Some (Finite 4 0)) (Some (Finite 1 0))
    (Some true).
Proof.
  intros m g. apply (wireguard_metrics_read "" [] [] [] [] m g).
  unfold gateway_fits. cbn [g gw_operations gw_AppliedAt from_option]. split_and!; try reflexivity.
  intros operation. split_and!; reflexivity.
Defined.
