(* ===== verification/OrganizerDrafts.v ===== *)
(** * From the challenge dialog to the request

    The dialog offers to submit what it has validated; the handler sends the draft.
    A draft that the dialog accepts is sent with the numbers it announced. *)

From S2P Require Import Prelude JsString JsNumber DashboardUtils ApiUtils PlatformApi PlatformRoutes AdminApi ReactRuntime ReactRules AdminTypes OrganizerState Drafts Organizer OrganizerActions.

(** The body of the request that creates a challenge. *)
Definition challenge_body (fraction : Z -> Z -> json) (draft : ChallengeDraft) : list (string * json) :=
  omap (fun e : string * option json => (fun v => (e.1, v)) <$> e.2)
    [("name", Some (JStr (cd_name draft)));
     ("baseline_image", Some (JStr (cd_baselineImage draft)));
     ("checker_image", Some (JStr (cd_checkerImage draft)));
     ("source_bundle_path", Some (JStr (cd_sourceBundlePath draft)));
     ("service_port", port_json fraction (cd_servicePort draft));
     ("service_subnet_octet", port_json fraction (cd_serviceSubnetOctet draft));
     ("egress_enabled", Some (JBool (cd_egressEnabled draft)))]%string.

Section Sent.
Context (fraction : Z -> Z -> json) (number_text : num -> string).

Lemma blank_parsed text : blank text = true <-> parseOptionalInteger text = None.
Proof.
  unfold parseOptionalInteger, blank. destruct (is_empty (trim text)); [done|].
  by destruct (has_char _ _).
Qed.

Lemma port_json_sent text max z :
  out_of_range (parseOptionalInteger text) max = false ->
  port_json fraction text = None /\ blank text = true \/
  exists n, port_json fraction text = Some (JNum n) /\ blank text = false /\
            parsed_or (parseOptionalInteger text) z = Finite n 0 /\ 1 <= n <= max.
Proof.
  intros Hr. unfold port_json. destruct (blank text) eqn:Hb; [by left|right].
  destruct (parseOptionalInteger text) as [n|] eqn:E.
  - destruct (parsed_in_range _ _ _ E Hr) as (k & -> & Hk & Hrange). exists k.
    rewrite Hk. split_and!; try done; try lia.
    unfold number_json, num_integer. cbn [Z.leb Z.compare]. by rewrite Z.mul_1_r.
  - apply blank_parsed in E. congruence.
Qed.

(** The field of a body, last wins as in any object. *)
Lemma challenge_body_octet draft :
  field "service_subnet_octet" (challenge_body fraction draft) =
  port_json fraction (cd_serviceSubnetOctet draft).
Proof. unfold challenge_body. csimpl. by destruct (port_json fraction (cd_servicePort draft)), (port_json fraction (cd_serviceSubnetOctet draft)). Qed.

Lemma challenge_body_port draft :
  field "service_port" (challenge_body fraction draft) = port_json fraction (cd_servicePort draft).
Proof. unfold challenge_body. csimpl. by destruct (port_json fraction (cd_servicePort draft)), (port_json fraction (cd_serviceSubnetOctet draft)). Qed.

(** C39: the request that creates a challenge carries what the dialog announced.  For
    a draft the dialog accepts, while the next identifier on the page is at most 254,
    there is one request, and its port and its octet are the announced numbers, within
    the ranges of a port and of an octet, the octet being used by no challenge on the
    page; a field that is blank is left out of the request, and the number that the
    dialog announces for it is not sent. *)
Theorem accepted_draft_sent oracle t s (v : Store) teamRows :
  let draft : ChallengeDraft := v ChallengeDraftState in
  let rows : list AdminChallenge := v ChallengeRows in
  let validation := validateChallengeDraft number_text draft rows (Some ModeCreate) None teamRows in
  nextChallengeID rows <= 254 -> errors (challenge_validation validation) = [] ->
  exists body,
    o_trace (run oracle t s (createChallenge fraction v)) =
      t ++ [OpFetch (browser_send "POST" "/api/admin/challenges" (JObj body)) PChallenge] /\
    (field "service_port" body = None /\ blank (cd_servicePort draft) = true \/
     exists port, field "service_port" body = Some (JNum port) /\
       effectiveServicePort validation = Finite port 0 /\ 1 <= port <= 65535) /\
    (field "service_subnet_octet" body = None /\ blank (cd_serviceSubnetOctet draft) = true \/
     exists octet, field "service_subnet_octet" body = Some (JNum octet) /\
       effectiveServiceSubnetOctet validation = Finite octet 0 /\ 1 <= octet <= 254 /\
       forall c, c ∈ rows -> ch_service_subnet_octet c <> octet).
Proof.
  intros draft rows validation Hid H. exists (challenge_body fraction draft).
  pose proof (accepted_octet number_text draft rows teamRows Hid H) as (octet & Hoctet & _ & Hfree).
  apply challenge_accepts in H as (_ & Hoct & Hport & _).
  rewrite challenge_body_octet, challenge_body_port. split_and!.
  - unfold createChallenge. rewrite run_bool_action. cbn zeta. rewrite run_then_payload.
    fold draft. change (json_object _) with (JObj (challenge_body fraction draft)).
    by destruct (payload_of _ _).
  - destruct (port_json_sent _ _ (10000 + nextChallengeID rows) Hport) as [?|(n & ? & _ & ? & ?)];
      [by left|right; by exists n].
  - destruct (port_json_sent _ _ (Z.max 1 (nextChallengeID rows)) Hoct) as [?|(n & ? & _ & Hn & ?)];
      [by left|right]. exists n. split_and!; try done; try lia.
    assert (octet = n) as <-; [|done].
    cbv [validation validateChallengeDraft effectiveServiceSubnetOctet effective_id effective_octet] in Hoctet.
    congruence.
Qed.
End Sent.

Lemma accepted_draft_sent_witness :
  let v := upd (app := Organizer) ChallengeDraftState (fun _ => challenge_draft "8080" " 7 ")
             (initial_store sample_options) in
  exists body octet,
    o_trace (run online [] v (createChallenge (fun _ _ => JNull) v)) =
      [OpFetch (browser_send "POST" "/api/admin/challenges" (JObj body)) PChallenge] /\
    field "service_subnet_octet" body = Some (JNum octet) /\ 1 <= octet <= 254.
Proof.
  intros v.
  destruct (accepted_draft_sent (fun _ _ => JNull) no_number_text online [] v v []) as (body & Ht & _ & Ho);
    [discriminate|reflexivity|].
  destruct Ho as [[_ Hb]|(octet & Hf & _ & Hr & _)]; [discriminate Hb|].
  exists body, octet. split; [exact Ht|]. split; [exact Hf|exact Hr].
Defined.
