(* ===== verification/OrganizerGame.v ===== *)
(** * The game control of the organizer dashboard

    Starting the match and the scheduler, the suppression of the realtime status
    around the actions, the audit of completed ticks, the health refresh and the
    manual tick. *)

From S2P Require Import Prelude JsString JsNumber DashboardUtils ApiUtils PlatformApi PlatformRoutes AdminApi ReactRuntime ReactRules AdminTypes OrganizerState Organizer OrganizerQuiet OrganizerActions.

Section Game.
Context (options : OrganizerDashboardOptions) (fraction : Z -> Z -> json) (oracle : Oracle).
Notation run_ := (run oracle).

(** The store with the realtime status suppressed until [now + d]. *)
Definition suppressed (now d : Z) (s : Store) : Store :=
  upd SuppressedUntilRef (fun _ => now + d) s.

(** What a game action does around its work: the suppression and the marks. *)
Lemma run_bracket t s key (m : Prog unit) :
  run_ t s (suppressGameStatusRealtime 1500 ;;!
            begin_action key ;;!
            finally m (suppressGameStatusRealtime 1000 ;;! end_action)) =
  let r := run_ (t ++ [OpNow]) (begun key (suppressed (oracle t OpNow) 1500 s)) m in
  mkOutcome (o_trace r ++ [OpNow])
    (ended (suppressed (oracle (o_trace r) OpNow) 1000 (o_store r))) (o_result r).
Proof.
  unfold suppressGameStatusRealtime, begin_action, begun. cbn [perform set_to bind run].
  rewrite run_finally. cbn [perform set_to bind run end_action].
  unfold suppressed. by destruct (o_result _).
Qed.

Lemma run_game_action t s key failed body :
  run_ t s (game_action key failed body) =
  let r := run_ (t ++ [OpNow]) (begun key (suppressed (oracle t OpNow) 1500 s)) (catch body failed) in
  mkOutcome (o_trace r ++ [OpNow])
    (ended (suppressed (oracle (o_trace r) OpNow) 1000 (o_store r))) (o_result r).
Proof. apply run_bracket. Qed.

(** ** Starting the game *)

Definition start_op : Op := OpFetch (browser_call "POST" "/api/admin/game/match/start") PMatch.
Definition scheduler_op : Op :=
  OpFetch (browser_call "POST" "/api/admin/game/scheduler/start") PScheduler.
Definition events_op (filters : SchedulerEventFilters) : Op :=
  OpFetch (browser_get ("/api/admin/game/scheduler/events" ++ₛ
    buildSchedulerEventQueryString filters)) PSchedulerEventPage.

(** The second half: the match has started. *)
Definition start_scheduler (v : Store) (matchPayload : option AdminGameMatchStatus) : Prog unit :=
  update GameState (with_match matchPayload) ;;!
  schedulerPayload <-! fetch_optional
    (browser_call "POST" "/api/admin/game/scheduler/start") PScheduler
    "/api/admin/game/scheduler/start" ;;
  update GameState (fun g => with_scheduler schedulerPayload (with_match matchPayload g)) ;;!
  refreshSchedulerEvents true (v SchedulerEventFiltersState) ;;!
  note ("Game started. Submissions are " ++ₛ
        (if (mt_accepting_submissions <$> matchPayload) ?? false then "open" else "closed") ++ₛ
        " and the scheduler is running at " ++ₛ
        num_to_string ((sc_interval_seconds <$> schedulerPayload) ?? 0) ++ₛ "s.").

Lemma run_start_scheduler t s (v : Store) m :
  let r := run_ t s (start_scheduler v m) in
  o_store r ActionError = s ActionError /\
  match optional_of (oracle t scheduler_op) "/api/admin/game/scheduler/start" with
  | Thrown e => o_trace r = t ++ [scheduler_op] /\ o_result r = Thrown e /\
                o_store r GameState = with_match m (s GameState)
  | Done sc => o_trace r = t ++ [scheduler_op; events_op (v SchedulerEventFiltersState)] /\
               o_result r = Done tt /\
               o_store r GameState = with_scheduler sc (with_match m (s GameState))
  end.
Proof.
  cbn zeta. unfold start_scheduler. cbn [update bind run]. rewrite run_then_optional.
  fold scheduler_op. destruct (optional_of (oracle t scheduler_op) _) as [sc|e].
  - cbn [update bind run].
    match goal with |- context [run oracle ?t ?s (bind (refreshSchedulerEvents true ?f) ?k)] =>
      pose proof (refreshSchedulerEvents_silent oracle t s f) as Hs;
      rewrite (run_after _ _ _ _ _ _ k Hs); destruct Hs as (_ & _ & Hs) end.
    cbn [note set_to run o_trace o_store o_result]. rewrite <-app_assoc.
    split_and!; try done; cells; rewrite Hs by done; by cells.
  - cbn [o_trace o_store o_result]. split_and!; try done; by cells.
Qed.

(** C15: starting the game asks for the match, then, only if it started, for the
    scheduler, then, only if that started, for the events; each half that
    succeeded is shown, and the error says which half failed. *)
Theorem startGameMatch_spec t s (v : Store) :
  let r := run_ t s (startGameMatch v) in
  o_result r = Done tt /\ o_store r PendingAction = None /\
  match optional_of (oracle (t ++ [OpNow]) start_op) "/api/admin/game/match/start" with
  | Thrown e =>
      o_trace r = t ++ [OpNow; start_op; OpNow] /\ o_store r GameState = s GameState /\
      o_store r ActionError = Some (error_message e "game start failed")
  | Done m =>
      match optional_of (oracle (t ++ [OpNow; start_op]) scheduler_op)
              "/api/admin/game/scheduler/start" with
      | Thrown e =>
          o_trace r = t ++ [OpNow; start_op; scheduler_op; OpNow] /\
          o_store r GameState = with_match m (s GameState) /\
          o_store r ActionError = Some (match e with
            | NonError => "game start failed"%string
            | _ => "Match started, but scheduler start failed: " ++ₛ error_message e ""
            end)
      | Done sc =>
          o_trace r = t ++ [OpNow; start_op; scheduler_op;
                            events_op (v SchedulerEventFiltersState); OpNow] /\
          o_store r GameState = with_scheduler sc (with_match m (s GameState)) /\
          o_store r ActionError = None
      end
  end.
Proof.
  cbn zeta. unfold startGameMatch. rewrite run_bracket. cbn zeta.
  rewrite run_bind, run_try, run_then_optional. fold start_op. cbn zeta.
  destruct (optional_of (oracle (t ++ [OpNow]) start_op) _) as [m|e].
  - cbn [run o_trace o_store o_result caught]. fold (start_scheduler v m). rewrite run_try.
    rewrite <- !app_assoc. cbn [app].
    match goal with |- context [run oracle ?t ?s (start_scheduler _ _)] =>
      destruct (run_start_scheduler t s v m) as [He Hr] end.
    destruct (optional_of (oracle _ scheduler_op) _) as [sc|e]; destruct Hr as (Ht & Hres & Hg).
    + unfold caught. rewrite Hres, Ht. cbn [o_trace o_store o_result]. rewrite <- !app_assoc.
      unfold ended, suppressed. split_and!; try done; cells;
        rewrite ?Hg, ?He; unfold begun, suppressed; by cells.
    + unfold caught. rewrite Hres. cbn [set_to run o_trace o_store o_result]. rewrite Ht.
      rewrite <- !app_assoc.
      unfold ended, suppressed. split_and!; try done; cells; rewrite ?Hg; unfold begun, suppressed; by cells.
  - cbn [caught report set_to bind skip run o_trace o_store o_result]. rewrite <- !app_assoc.
    unfold ended, suppressed. split_and!; try done; cells; unfold begun, suppressed; by cells.
Qed.

(** ** Realtime frames during an action *)

(** The actions on the match, the scheduler and the ticks. *)
Definition game_event (event : Event) : bool :=
  match event with
  | EvStartMatch | EvStopMatch | EvPauseMatch | EvResumeMatch | EvStartScheduler
  | EvStopScheduler | EvUpdateSchedule _ _ | EvUpdateScheduler _ | EvAdvanceTick => true
  | _ => false
  end.

Lemma run_game_event t s v event :
  game_event event = true ->
  exists key m,
    let r := run_ (t ++ [OpNow]) (begun key (suppressed (oracle t OpNow) 1500 s)) m in
    run_ t s (handle options fraction v event) =
    mkOutcome (o_trace r ++ [OpNow])
      (ended (suppressed (oracle (o_trace r) OpNow) 1000 (o_store r))) (o_result r).
Proof.
  intros H. destruct event; try discriminate H; cbn [handle]; eexists _, _;
    first [apply run_bracket | apply run_game_action].
Qed.

(** The writes that leave the game state alone. *)
Definition not_the_game (c : Cell) (_ : CellTy c -> CellTy c) : Prop := c <> GameState.

(** A frame of the game status is ignored while a game action is pending and
    until the end of the suppression window; otherwise a well-formed frame
    becomes the state shown. *)
Theorem onGameStatus_suppression t s frame :
  let r := run_ t s (onGameStatus frame) in
  let busy := match s PendingActionRef with Some a => starts_with "game:" a | None => false end in
  if busy || (oracle t OpNow <? s SuppressedUntilRef)
  then o_store r = s /\ o_result r = Done tt
  else o_store r GameState = frame ?? s GameState.
Proof.
  cbn zeta. unfold onGameStatus. cbn [read_ref perform bind run].
  destruct (match s PendingActionRef with Some _ => _ | None => _ end); cbn [orb]; [done|].
  cbn [bind run].
  destruct (oracle t OpNow <? s SuppressedUntilRef); [done|].
  destruct frame as [payload|]; [|done]. cbn [default set_to bind run]. unfold id.
  destruct (run_spec not_the_game any nothing any
    (fun s' => s' GameState = payload) oracle (t ++ [OpNow])
    (upd (app := Organizer) GameState (fun _ => payload) s) (maybeAuditCompletedTick payload)) as (_ & Hs & _).
  - may; unfold not_the_game; discriminate.
  - intros c f s' Hc Hs. by rewrite upd_other.
  - by rewrite upd_same.
  - exact Hs.
Qed.

(** C24: after a game action ended, however it went, the frames that arrive within
    a second leave the page as the action left it. *)
Theorem frames_ignored_after_game_action t s v event frame :
  game_event event = true ->
  let r := run_ t s (handle options fraction v event) in
  exists before, o_trace r = before ++ [OpNow] /\
  (oracle (o_trace r) OpNow < oracle before OpNow + 1000 ->
   o_store (run_ (o_trace r) (o_store r) (onGameStatus frame)) = o_store r).
Proof.
  intros H. cbn zeta. destruct (run_game_event t s v event H) as (key & m & ->). cbn zeta.
  cbn [o_trace o_store]. set (r := run_ _ _ m).
  exists (o_trace r). split; [done|]. intros Hlt.
  set (s' := ended _).
  pose proof (onGameStatus_suppression (o_trace r ++ [OpNow]) s' frame) as Hf. cbn zeta in Hf.
  assert (E : s' SuppressedUntilRef = oracle (o_trace r) OpNow + 1000).
  { unfold s', ended, suppressed. by cells. }
  rewrite E in Hf. apply Z.ltb_lt in Hlt. rewrite Hlt, orb_true_r in Hf. by destruct Hf.
Qed.

(** ** The audit of completed ticks *)

Definition audit_op : Op := OpFetch (browser_get "/api/admin/game/scoring/audit") PScoringAudit.

(** The tick of a status, when it is completed. *)
Definition completed_tick (status : AdminGameStatus) : option Z :=
  tick ← gs_current_tick status;
  if String.eqb (tk_status tick) "completed" then Some (tk_id tick) else None.

Lemma run_maybeAudit t (s : Store) status :
  let r := run_ t s (maybeAuditCompletedTick status) in
  match completed_tick status with
  | Some tick =>
      if bool_decide (s LastScoringAuditTickRef = Some tick)
      then r = mkOutcome t s (Done tt)
      else o_trace r = t ++ [audit_op] /\ o_store r LastScoringAuditTickRef = Some tick
  | None => r = mkOutcome t s (Done tt)
  end.
Proof.
  cbn zeta. unfold maybeAuditCompletedTick, completed_tick.
  destruct (gs_current_tick status) as [tick|]; [|done]. cbn [mbind option_bind].
  destruct (String.eqb (tk_status tick) "completed"); [|done].
  cbn [negb read_ref bind run]. case_bool_decide as E.
  - done.
  - cbn [spawn set_to bind run o_trace o_store].
    pose proof (auditGameScoring_silent oracle t
      (upd LastScoringAuditTickRef (fun _ => Some (tk_id tick)) s)) as (Ht & _ & Hs).
    rewrite Ht, Hs by done. split; [done|]. by cells.
Qed.

(** The scores of a completed tick are audited once: the first status that
    reports it asks for one audit and the next ones that report the same tick
    ask for nothing and change nothing. *)
Theorem audit_once_per_tick t (s : Store) first second tick :
  completed_tick first = Some tick -> completed_tick second = Some tick ->
  s LastScoringAuditTickRef <> Some tick ->
  let r := run_ t s (maybeAuditCompletedTick first) in
  o_trace r = t ++ [audit_op] /\
  run_ (o_trace r) (o_store r) (maybeAuditCompletedTick second) =
    mkOutcome (o_trace r) (o_store r) (Done tt).
Proof.
  intros H1 H2 Hs r. pose proof (run_maybeAudit t s first) as H. cbn zeta in H. fold r in H.
  rewrite H1 in H. rewrite bool_decide_eq_false_2 in H by done. destruct H as [Ht Hl].
  split; [done|]. pose proof (run_maybeAudit (o_trace r) (o_store r) second) as H. cbn zeta in H.
  rewrite H2, bool_decide_eq_true_2 in H by exact Hl. exact H.
Qed.

(** ** The health refresh *)

(** The five reads of a health refresh, in order. *)
Definition health_ops : list Op :=
  [OpFetch (browser_get "/api/admin/deployments") PDeployments;
   OpFetch (browser_get "/api/admin/wireguard/status") PGatewayStatus;
   OpFetch (browser_get "/api/admin/access/status") PAccessStatus;
   OpFetch (browser_get "/api/admin/operations/status") POperationsStatus;
   OpFetch (browser_get "/api/admin/operations/metrics") PServiceMetrics].

Definition health_reads : Prog unit :=
  promise_all [refreshDeploymentRows true; refreshWireGuardGatewayStatus true;
               refreshAccessStatus true; refreshOperationsStatus true; refreshServiceMetrics true].

Lemma run_health_reads t s :
  let r := run_ t s health_reads in
  o_trace r = t ++ health_ops /\ o_result r = Done tt /\
  forall c, c ∉ [DeploymentRows; WireGuardGatewayStatus; AccessStatus; OperationsStatusState;
                 ServiceMetricsState] -> o_store r c = s c.
Proof.
  cbn zeta. unfold health_reads, promise_all. cbn [foldr].
  pose proof (refreshDeploymentRows_silent oracle t s) as H1. rewrite (run_both_after _ _ _ _ _ _ _ H1).
  destruct H1 as (_ & _ & H1). set (s1 := o_store _) in *. set (t1 := t ++ [_]).
  pose proof (refreshWireGuardGatewayStatus_silent oracle t1 s1) as H2.
  rewrite (run_both_after _ _ _ _ _ _ _ H2).
  destruct H2 as (_ & _ & H2). set (s2 := o_store (run_ t1 _ _)) in *. set (t2 := t1 ++ [_]).
  pose proof (refreshAccessStatus_silent oracle t2 s2) as H3. rewrite (run_both_after _ _ _ _ _ _ _ H3).
  destruct H3 as (_ & _ & H3). set (s3 := o_store (run_ t2 _ _)) in *. set (t3 := t2 ++ [_]).
  pose proof (refreshOperationsStatus_silent oracle t3 s3) as H4. rewrite (run_both_after _ _ _ _ _ _ _ H4).
  destruct H4 as (_ & _ & H4). set (s4 := o_store (run_ t3 _ _)) in *. set (t4 := t3 ++ [_]).
  pose proof (refreshServiceMetrics_silent oracle t4 s4) as H5. rewrite (run_both_after _ _ _ _ _ _ _ H5).
  destruct H5 as (_ & _ & H5). cbn [run o_trace o_store o_result].
  split_and!; [|done|].
  - unfold t4, t3, t2, t1. by rewrite <- !app_assoc.
  - intros c Hc. rewrite H5, H4, H3, H2, H1; [done|..]; intros ->; apply Hc; set_solver.
Qed.

(** A health refresh always ends with the success note and without an error,
    even when every one of its five reads failed: the silent reads swallow their
    errors, so the failure branch of the refresh is never taken. *)
Theorem health_refresh_always_reports_success t s :
  let r := run_ t s (refreshRuntimeHealth false) in
  o_trace r = t ++ health_ops /\ o_result r = Done tt /\
  o_store r PendingAction = None /\ o_store r ActionError = None /\
  o_store r ActionNote = Some
    "Refreshed deployment, access policy, WireGuard, runtime alerts, and service metrics."%string.
Proof.
  cbn zeta. unfold refreshRuntimeHealth. rewrite quiet_action_loud. cbn [negb when].
  fold health_reads.
  rewrite run_action, run_bind. cbn zeta.
  set (s0 := begun _ _). destruct (run_health_reads t s0) as (Ht & Hr & Hs).
  rewrite Hr, Ht. cbn [note set_to run o_trace o_store o_result]. unfold ended.
  split_and!; [done|done|by cells| |by cells].
  cells. rewrite (Hs ActionError) by notin. unfold s0, begun. by cells.
Qed.

(** ** The manual tick *)

Definition advance_op : Op := OpFetch (browser_call "POST" "/api/admin/game/ticks/advance") PTick.
Definition runs_op (filters : CheckerRunFilters) : Op :=
  OpFetch (browser_get ("/api/admin/game/checker-runs" ++ₛ buildCheckerRunQueryString filters))
    PCheckerRunPage.
Definition recompute_op : Op :=
  OpFetch (browser_call "POST" "/api/admin/game/scoring/recompute") PScoreRows.

(** A manual tick that succeeds reads the events and the runs again, then
    recomputes the scores, then audits them, in that order, and adds the counts
    of the tick to the totals; the match and the scheduler are no longer part of
    the state shown.  A failure only shows the error. *)
Theorem advanceGameTick_spec t s (v : Store) :
  let r := run_ t s (advanceGameTick v) in
  o_result r = Done tt /\ o_store r PendingAction = None /\
  match payload_of (oracle (t ++ [OpNow]) advance_op) "/api/admin/game/ticks/advance" with
  | Done tick =>
      o_trace r = t ++ [OpNow; advance_op; events_op (v SchedulerEventFiltersState);
                        runs_op (v CheckerRunFiltersState); recompute_op; audit_op; OpNow] /\
      o_store r ActionError = None /\
      o_store r GameState = advanced_game tick (s GameState) /\
      gs_match (o_store r GameState) = None /\ gs_scheduler (o_store r GameState) = None
  | Thrown e =>
      o_trace r = t ++ [OpNow; advance_op; OpNow] /\ o_store r GameState = s GameState /\
      o_store r ActionError = Some (error_message e "game-core tick advance failed")
  end.
Proof.
  cbn zeta. unfold advanceGameTick. rewrite run_game_action. cbn zeta.
  set (s0 := begun _ _). rewrite run_try, run_then_payload. fold advance_op.
  destruct (payload_of (oracle (t ++ [OpNow]) advance_op) _) as [tick|e].
  - cbn [update bind run]. set (s1 := upd (app := Organizer) GameState _ s0). set (t1 := _ ++ [advance_op]).
    pose proof (refreshSchedulerEvents_silent oracle t1 s1 (v SchedulerEventFiltersState)) as H1.
    rewrite (run_after _ _ _ _ _ _ _ H1). destruct H1 as (_ & _ & H1).
    set (s2 := o_store (run_ t1 s1 _)) in *. set (t2 := t1 ++ [_]).
    pose proof (refreshCheckerRuns_silent oracle t2 s2 (v CheckerRunFiltersState)) as H2.
    rewrite (run_after _ _ _ _ _ _ _ H2). destruct H2 as (_ & _ & H2).
    set (s3 := o_store (run_ t2 s2 _)) in *. set (t3 := t2 ++ [_]).
    pose proof (recomputeGameScoring_silent oracle t3 s3) as H3.
    rewrite (run_after _ _ _ _ _ _ _ H3). destruct H3 as (_ & _ & H3).
    set (s4 := o_store (run_ t3 s3 _)) in *. set (t4 := t3 ++ [_]).
    pose proof (auditGameScoring_silent oracle t4 s4) as H4.
    rewrite (run_after _ _ _ _ _ _ _ H4). destruct H4 as (_ & _ & H4).
    cbn [caught note set_to run o_trace o_store o_result].
    unfold t4, t3, t2, t1. rewrite <- !app_assoc. unfold ended, suppressed.
    assert (Hg : forall c, c ∈ [GameState; ActionError] ->
              o_store (run_ t4 s4 (auditGameScoring true)) c = s1 c).
    { intros c Hc. rewrite H4, H3, H2, H1; [done|..]; intros ->; set_solver. }
    unfold t4, t3, t2, t1 in Hg. rewrite <- ?app_assoc in Hg.
    split_and!; try done; cells; rewrite ?Hg by set_solver; unfold s1, s0, begun, suppressed; by cells.
  - cbn [caught report set_to run o_trace o_store o_result]. rewrite <- !app_assoc.
    unfold ended, suppressed. split_and!; try done; cells; unfold s0, begun, suppressed; by cells.
Qed.
End Game.

(** ** Concrete checks *)

Lemma frames_ignored_after_game_action_witness :
  let s := initial_store sample_options in
  let r := run offline [] s (handle sample_options (fun _ _ => JNull) s EvStopMatch) in
  game_event EvStopMatch = true /\
  o_store (run offline (o_trace r) (o_store r) (onGameStatus (Some (with_match None sample_game))))
    = o_store r.
Proof.
  intros s r. split; [reflexivity|].
  destruct (frames_ignored_after_game_action sample_options (fun _ _ => JNull) offline [] s s EvStopMatch
    (Some (with_match None sample_game)) eq_refl) as (before & Ht & H).
  apply H. unfold offline. lia.
Defined.

Lemma audit_once_per_tick_witness :
  let tick := mkAdminGameTickStatus 5 "completed" 0 0 0 0 "now" (Some "now"%string) None in
  let status := mkAdminGameStatus (Some tick) None None 5 0 0 0 0 in
  let s := initial_store sample_options in
  let r := run offline [] s (maybeAuditCompletedTick status) in
  completed_tick status = Some 5 /\ s LastScoringAuditTickRef <> Some 5 /\
  o_trace r = [audit_op] /\
  o_trace (run offline (o_trace r) (o_store r) (maybeAuditCompletedTick status)) = [audit_op].
Proof.
  intros tick status s r. split; [reflexivity|]. split; [discriminate|].
  destruct (audit_once_per_tick offline [] s status status 5 eq_refl eq_refl ltac:(discriminate))
    as [H1 H2].
  split; [exact H1|]. subst r. rewrite H2. exact H1.
Defined.
