(* ===== verification/GameCards.v ===== *)
(** * The game controls of the organizers: schedule window and scheduler

    The two cards of the Game tab that keep drafts of their own
    ([components/admin/organizer-dashboard-sections.tsx]): the window of the match, whose
    texts are wall times of the browser's zone, and the interval of the scheduler.  What
    they send is handled by [updateGameMatchSchedule] and [updateGameScheduler]
    ([Organizer]). *)

From S2P Require Import Prelude JsString JsNumber ApiUtils PlatformApi PlatformRoutes AdminApi ReactRuntime AdminTypes OrganizerState Drafts RuntimeHealth Organizer OrganizerActions OrganizerGame JsDate.

#[local] Open Scope string_scope.
#[local] Open Scope Z_scope.
#[local] Open Scope list_scope.
#[local] Open Scope js_scope.

(** ** The schedule window *)

Section Schedule.
Context `{Zone}.

(** The year is taken to have four digits: [toISOString] of a shifted date is sliced. *)
Definition toDateTimeLocalValue (isoString : option string) : string :=
  match isoString ≫= or_undefined with
  | None => ""
  | Some text => match parse_date text with
                 | None => ""
                 | Some parsed => String.substring 0 16 (toISOString (local parsed))
                 end
  end.

Definition fromDateTimeLocalValue (value : string) : option string :=
  if is_empty value then None else toISOString <$> parse_date value.

Record ScheduleCard := mkScheduleCard {
  matchState : option AdminGameMatchStatus;
  draftScheduledStart : string;
  draftScheduledEnd : string
}.

Definition scheduled_start (m : option AdminGameMatchStatus) : option string := m ≫= mt_scheduled_start_at.
Definition scheduled_end (m : option AdminGameMatchStatus) : option string := m ≫= mt_scheduled_end_at.

(** The effect on the two times of the match. *)
Definition drafts_of (m : option AdminGameMatchStatus) : ScheduleCard :=
  mkScheduleCard m (toDateTimeLocalValue (scheduled_start m)) (toDateTimeLocalValue (scheduled_end m)).

Definition scheduleChanged (c : ScheduleCard) : bool :=
  negb (String.eqb (draftScheduledStart c) (toDateTimeLocalValue (scheduled_start (matchState c)))) ||
  negb (String.eqb (draftScheduledEnd c) (toDateTimeLocalValue (scheduled_end (matchState c)))).

Definition scheduleRangeInvalid (c : ScheduleCard) : bool :=
  negb (is_empty (draftScheduledStart c)) && negb (is_empty (draftScheduledEnd c)) &&
  (code_unit_compare (draftScheduledEnd c) (draftScheduledStart c) <? 0).

Definition save_disabled (pendingAction : option string) (c : ScheduleCard) : bool :=
  bool_decide (pendingAction <> None) || negb (scheduleChanged c) || scheduleRangeInvalid c.

Definition clear_disabled (pendingAction : option string) (c : ScheduleCard) : bool :=
  bool_decide (pendingAction <> None) || (is_empty (draftScheduledStart c) && is_empty (draftScheduledEnd c)).

(** What the two buttons send. *)
Definition saved_window (c : ScheduleCard) : option string * option string :=
  (fromDateTimeLocalValue (draftScheduledStart c), fromDateTimeLocalValue (draftScheduledEnd c)).

Definition saveWindow (c : ScheduleCard) : Prog unit :=
  updateGameMatchSchedule (saved_window c).1 (saved_window c).2.

Definition clearWindow : Prog unit := updateGameMatchSchedule None None.

(** A new match of the page, an edit of one of the four inputs, a click on Clear. *)
Inductive ScheduleEvent :=
| NewMatch (m : option AdminGameMatchStatus)
| StartDate (value : string)
| StartTime (value : string)
| EndDate (value : string)
| EndTime (value : string)
| ClearDrafts.

Definition with_start (text : string) (c : ScheduleCard) : ScheduleCard :=
  mkScheduleCard (matchState c) text (draftScheduledEnd c).

Definition with_end (text : string) (c : ScheduleCard) : ScheduleCard :=
  mkScheduleCard (matchState c) (draftScheduledStart c) text.

Definition schedule_step (e : ScheduleEvent) (c : ScheduleCard) : ScheduleCard :=
  match e with
  | NewMatch m =>
      if bool_decide (scheduled_start m = scheduled_start (matchState c)) &&
         bool_decide (scheduled_end m = scheduled_end (matchState c))
      then mkScheduleCard m (draftScheduledStart c) (draftScheduledEnd c)
      else drafts_of m
  | StartDate value => with_start (withUpdatedDatePart (draftScheduledStart c) value) c
  | StartTime value => with_start (withUpdatedTimePart (draftScheduledStart c) value) c
  | EndDate value => with_end (withUpdatedDatePart (draftScheduledEnd c) value) c
  | EndTime value => with_end (withUpdatedTimePart (draftScheduledEnd c) value) c
  | ClearDrafts => mkScheduleCard (matchState c) "" ""
  end.

Definition schedule_steps (es : list ScheduleEvent) (m : option AdminGameMatchStatus) : ScheduleCard :=
  fold_left (fun c e => schedule_step e c) es (drafts_of m).
End Schedule.

(** ** The interval of the scheduler *)

Record SchedulerCard := mkSchedulerCard {
  scheduler : option AdminGameSchedulerStatus;
  draftInterval : string
}.

Definition interval_seconds (c : SchedulerCard) : option Z := sc_interval_seconds <$> scheduler c.

Definition reset_interval (sc : option AdminGameSchedulerStatus) : SchedulerCard :=
  mkSchedulerCard sc (num_to_string ((sc_interval_seconds <$> sc) ?? 60)).

(** [Number.parseInt(draftInterval, 10)]; [None] is [NaN] (a number too long to be
    finite is not told apart). *)
Definition parsedInterval (c : SchedulerCard) : option Z := parse_int (draftInterval c).

Definition intervalChanged (c : SchedulerCard) : bool :=
  match parsedInterval c with
  | Some n => bool_decide (Some n <> interval_seconds c) && (n >? 0)
  | None => false
  end.

Definition updateDisabled (pendingAction : option string) (c : SchedulerCard) : bool :=
  bool_decide (pendingAction <> None) || negb (intervalChanged c) || bool_decide (parsedInterval c = None).

Inductive SchedulerEvent :=
| NewScheduler (sc : option AdminGameSchedulerStatus)
| TypeInterval (text : string).

Definition scheduler_step (e : SchedulerEvent) (c : SchedulerCard) : SchedulerCard :=
  match e with
  | NewScheduler sc =>
      if bool_decide (sc_interval_seconds <$> sc = interval_seconds c)
      then mkSchedulerCard sc (draftInterval c) else reset_interval sc
  | TypeInterval text => mkSchedulerCard (scheduler c) text
  end.

Definition scheduler_steps (es : list SchedulerEvent) (sc : option AdminGameSchedulerStatus) : SchedulerCard :=
  fold_left (fun c e => scheduler_step e c) es (reset_interval sc).

(** What a key in the field and a click on Update do. *)
Definition on_key (key : string) (c : SchedulerCard) : Prog unit :=
  if String.eqb key "Enter" && intervalChanged c then
    match parsedInterval c with Some n => updateGameScheduler n | None => skip end
  else skip.

Definition on_update (pendingAction : option string) (c : SchedulerCard) : Prog unit :=
  if updateDisabled pendingAction c then skip
  else match parsedInterval c with Some n => updateGameScheduler n | None => skip end.

Definition start_disabled (pendingAction schedulerState : option string) : bool :=
  bool_decide (pendingAction <> None) || bool_decide (schedulerState = Some "running").

Definition stop_disabled (pendingAction schedulerState : option string) : bool :=
  bool_decide (pendingAction <> None) || bool_decide (schedulerState <> Some "running").

(** The audit trail opens by itself when it is filtered. *)
Definition auditExpanded (schedulerEventsLiveMode : bool) (filters : SchedulerEventFilters) : bool :=
  negb schedulerEventsLiveMode || hasSchedulerFiltersApplied filters.

(** ** Wall times in the drafts *)

Definition date_text (y m d : Z) : string := pad 4 y ++ₛ "-" ++ₛ pad 2 m ++ₛ "-" ++ₛ pad 2 d.
Definition time_text (h mi : Z) : string := pad 2 h ++ₛ ":" ++ₛ pad 2 mi.

(** A year whose neighbours have four digits, too. *)
Definition inner_year (y : Z) : Prop := 1 <= y <= 9998.

(** A wall time to the minute. *)
Record wall (w : Fields) : Prop := {
  wall_fields : valid_fields w;
  wall_year : inner_year (year w);
  wall_minute : on_the_minute w
}.

Lemma wall_four w : inner_year (year w) -> four_digits w.
Proof. unfold inner_year, four_digits. lia. Qed.

Lemma minute_text_parts w :
  inner_year (year w) ->
  minute_text w = date_text (year w) (month w) (day w) ++ₛ "T" ++ₛ time_text (hour w) (minute w).
Proof.
  intros Hy. unfold minute_text, date_text, time_text. rewrite year_text_four by by apply wall_four.
  by rewrite !app_assoc_s.
Qed.

Lemma pad_free c w n : is_digit c = false -> free_of c (pad w n).
Proof. apply digits_free, pad_digits. Qed.

Lemma date_text_free y m d : free_of "T" (date_text y m d).
Proof.
  pose proof (fun w n => pad_free "T" w n eq_refl) as H. unfold date_text, free_of in *.
  rewrite !has_char_app, !H. reflexivity.
Qed.

Lemma time_text_free h mi : free_of "T" (time_text h mi).
Proof.
  pose proof (fun w n => pad_free "T" w n eq_refl) as H. unfold time_text, free_of in *.
  rewrite !has_char_app, !H. reflexivity.
Qed.

Lemma dateTime_parts y m d h mi :
  datePartFromDateTimeLocalValue (date_text y m d ++ₛ "T" ++ₛ time_text h mi) = date_text y m d /\
  timePartFromDateTimeLocalValue (date_text y m d ++ₛ "T" ++ₛ time_text h mi) = time_text h mi.
Proof.
  unfold datePartFromDateTimeLocalValue, timePartFromDateTimeLocalValue.
  assert (E : is_empty (date_text y m d ++ₛ "T" ++ₛ time_text h mi) = false)
    by (destruct (date_text y m d); reflexivity).
  rewrite E. cbn [append].
  rewrite split_on_app by apply date_text_free. by rewrite split_on_free by apply time_text_free.
Qed.

(** What the inputs of the browser give: nothing, or a date, or a time to the minute. *)
Definition date_input (value : string) : Prop :=
  value = "" \/ exists y m d, valid_date y m d /\ inner_year y /\ value = date_text y m d.

Definition time_input (value : string) : Prop :=
  value = "" \/ exists h mi, 0 <= h < 24 /\ 0 <= mi < 60 /\ value = time_text h mi.

Definition draft_ok (draft : string) : Prop := draft = "" \/ exists w, wall w /\ draft = minute_text w.

Lemma wall_of y m d h mi :
  valid_date y m d -> inner_year y -> 0 <= h < 24 -> 0 <= mi < 60 -> wall (mkFields y m d h mi 0 0).
Proof. intros Hd Hy Hh Hm. constructor; [constructor; cbn; (done || lia)|done|done]. Qed.

Lemma draft_of_parts y m d h mi :
  valid_date y m d -> inner_year y -> 0 <= h < 24 -> 0 <= mi < 60 ->
  draft_ok (date_text y m d ++ₛ "T" ++ₛ time_text h mi).
Proof.
  intros Hd Hy Hh Hm. right. exists (mkFields y m d h mi 0 0). split; [by apply wall_of|].
  by rewrite minute_text_parts.
Qed.

Lemma draft_with_date current value : draft_ok current -> date_input value -> draft_ok (withUpdatedDatePart current value).
Proof.
  intros Hc [->|(y & m & d & Hd & Hy & ->)]; [by left|]. unfold withUpdatedDatePart.
  assert (E : is_empty (date_text y m d) = false) by reflexivity. rewrite E.
  destruct Hc as [->|(w & Hw & ->)].
  - apply (draft_of_parts y m d 0 0); (done || lia).
  - pose proof Hw as [[_ Hh Hm _ _] Hyw _]. rewrite minute_text_parts by done.
    rewrite (proj2 (dateTime_parts _ _ _ _ _)). by apply draft_of_parts.
Qed.

Lemma draft_with_time current value : draft_ok current -> time_input value -> draft_ok (withUpdatedTimePart current value).
Proof.
  intros Hc [->|(h & mi & Hh & Hm & ->)]; [by left|]. unfold withUpdatedTimePart.
  assert (E : is_empty (time_text h mi) = false) by reflexivity. rewrite E.
  destruct Hc as [->|(w & Hw & ->)]; [by left|].
  pose proof Hw as [[Hd _ _ _ _] Hyw _]. rewrite minute_text_parts by done.
  rewrite (proj1 (dateTime_parts _ _ _ _ _)).
  assert (Ed : is_empty (date_text (year w) (month w) (day w)) = false) by reflexivity. rewrite Ed.
  by apply draft_of_parts.
Qed.

(** Within a day of an inner year the years have four digits. *)
Lemma near_year t t' :
  inner_year (year (fields_of t')) -> Z.abs (t - t') < ms_per_day -> four_digits (fields_of t).
Proof.
  intros Hy Ht.
  assert (Hn : t' / ms_per_day - 1 <= t / ms_per_day <= t' / ms_per_day + 1).
  { pose proof (Z_div_mod_eq_full t ms_per_day). pose proof (Z.mod_pos_bound t ms_per_day ltac:(done)).
    pose proof (Z_div_mod_eq_full t' ms_per_day). pose proof (Z.mod_pos_bound t' ms_per_day ltac:(done)).
    unfold ms_per_day in *. lia. }
  unfold fields_of, four_digits, inner_year in *.
  pose proof (days_of_civil_of_days (t / ms_per_day)) as H. pose proof (days_of_civil_of_days (t' / ms_per_day)) as H'.
  destruct (civil_of_days (t / ms_per_day)) as [[y m] d], (civil_of_days (t' / ms_per_day)) as [[y' m'] d'].
  destruct H as [Hv E], H' as [Hv' E']. cbn [year] in *.
  pose proof (vd_month _ _ _ Hv). pose proof (vd_month _ _ _ Hv').
  assert (V : forall y m d, date_ok y m d = true -> valid_date y m d) by (intros *; apply date_ok_iff).
  split.
  - destruct (Z.lt_ge_cases y 0) as [Hl|]; [exfalso|done].
    pose proof (days_of_civil_lt _ _ _ 0 1 1 Hv (V 0 1 1 eq_refl) ltac:(lia)) as D1.
    pose proof (days_of_civil_lt 0 12 31 _ _ _ (V 0 12 31 eq_refl) Hv' ltac:(lia)) as D2.
    change (days_of_civil 0 1 1) with (-719528) in D1. change (days_of_civil 0 12 31) with (-719163) in D2. lia.
  - destruct (Z.lt_ge_cases 9999 y) as [Hl|]; [exfalso|done].
    pose proof (days_of_civil_lt _ _ _ 9999 1 1 Hv' (V 9999 1 1 eq_refl) ltac:(lia)) as D1.
    pose proof (days_of_civil_lt 9999 12 31 _ _ _ (V 9999 12 31 eq_refl) Hv ltac:(lia)) as D2.
    change (days_of_civil 9999 1 1) with 2932532 in D1. change (days_of_civil 9999 12 31) with 2932896 in D2. lia.
Qed.

(** The wall time of a date, to the minute. *)
Definition to_minute (w : Fields) : Fields := mkFields (year w) (month w) (day w) (hour w) (minute w) 0 0.

Lemma wall_to_minute w : valid_fields w -> inner_year (year w) -> wall (to_minute w).
Proof. intros [Hd Hh Hm _ _] Hy. by apply wall_of. Qed.

Section ZonedFacts.
Context `{Zone} {Hzone : ZoneLaws}.

(** A wall time that the zone has: not one that a change to summer time skips. *)
Definition exists_in_zone (w : Fields) : Prop := exists t, local t = time_of w.

Lemma local_near t : Z.abs (t - local t) < ms_per_day.
Proof. destruct (near_utc t) as [Ho _]. unfold local, ms_per_day. lia. Qed.

Lemma toDateTimeLocalValue_iso t :
  inner_year (year (fields_of (local t))) ->
  toDateTimeLocalValue (Some (toISOString t)) = minute_text (fields_of (local t)).
Proof.
  intros Hy. pose proof (near_year t (local t) Hy (local_near t)) as Ht.
  unfold toDateTimeLocalValue. cbn [mbind option_bind].
  assert (E : or_undefined (toISOString t) = Some (toISOString t)).
  { unfold toISOString, minute_text. rewrite year_text_four by done. reflexivity. }
  rewrite E, parse_toISOString by done. apply slice_toISOString. by apply wall_four.
Qed.

Lemma fromDateTimeLocalValue_wall w :
  wall w -> fromDateTimeLocalValue (minute_text w) = Some (toISOString (utc (time_of w))).
Proof.
  intros [Hv Hy Hm]. unfold fromDateTimeLocalValue.
  assert (E : is_empty (minute_text w) = false)
    by (unfold minute_text; rewrite year_text_four by (by apply wall_four); reflexivity).
  rewrite E, parse_minute_text by (done || by apply wall_four). done.
Qed.

(** A wall time that was sent is shown again as it was entered. *)
Lemma window_read_back w :
  wall w -> exists_in_zone w -> toDateTimeLocalValue (fromDateTimeLocalValue (minute_text w)) = minute_text w.
Proof.
  intros Hw [t Ht]. rewrite fromDateTimeLocalValue_wall by done. destruct Hw as [Hv Hy Hm].
  assert (E : fields_of (local (utc (time_of w))) = w) by (rewrite <- Ht, local_utc, Ht; by apply fields_of_time_of).
  rewrite toDateTimeLocalValue_iso by (by rewrite E). by rewrite E.
Qed.

(** A timestamp of the platform that is read falls in an inner year. *)
Definition timestamp_ok (isoString : option string) : Prop :=
  forall text t, isoString = Some text -> parse_date text = Some t -> inner_year (year (fields_of (local t))).

Lemma draft_of_timestamp isoString : timestamp_ok isoString -> draft_ok (toDateTimeLocalValue isoString).
Proof.
  intros Hok. unfold toDateTimeLocalValue. destruct isoString as [text|]; [|by left].
  cbn [mbind option_bind]. destruct (or_undefined text) as [text'|] eqn:Eo; [|by left].
  assert (text' = text) as -> by (unfold or_undefined in Eo; destruct (is_empty text); congruence).
  destruct (parse_date text) as [t|] eqn:Et; [|by left]. right.
  specialize (Hok text t eq_refl Et). destruct (time_of_fields_of (local t)) as [_ Hv].
  exists (to_minute (fields_of (local t))). split; [by apply wall_to_minute|].
  rewrite slice_toISOString by (by apply wall_four). reflexivity.
Qed.

Definition event_ok (e : ScheduleEvent) : Prop :=
  match e with
  | NewMatch m => timestamp_ok (scheduled_start m) /\ timestamp_ok (scheduled_end m)
  | StartDate value | EndDate value => date_input value
  | StartTime value | EndTime value => time_input value
  | ClearDrafts => True
  end.

Definition card_ok (c : ScheduleCard) : Prop := draft_ok (draftScheduledStart c) /\ draft_ok (draftScheduledEnd c).

Lemma schedule_step_ok e c : event_ok e -> card_ok c -> card_ok (schedule_step e c).
Proof.
  intros He [Hs Hd]. destruct e; cbn [schedule_step event_ok] in *.
  - destruct (_ && _); [done|]. destruct He. split; by apply draft_of_timestamp.
  - split; [by apply draft_with_date|done].
  - split; [by apply draft_with_time|done].
  - split; [done|by apply draft_with_date].
  - split; [done|by apply draft_with_time].
  - split; by left.
Qed.

Lemma schedule_steps_ok es m :
  event_ok (NewMatch m) -> Forall event_ok es -> card_ok (schedule_steps es m).
Proof.
  intros [Hs Hd] Hes. unfold schedule_steps.
  assert (Hc : card_ok (drafts_of m)) by (split; by apply draft_of_timestamp). revert Hc. generalize (drafts_of m).
  induction Hes as [|e es He _ IH]; intros c Hc; [done|]. cbn [fold_left]. apply IH. by apply schedule_step_ok.
Qed.
End ZonedFacts.

(** ** The window that is saved *)

Section Window.
Context `{Zone} {Hzone : ZoneLaws}.

(** What is sent for a draft. *)
Definition sent_for (draft : string) (sent : option string) : Prop :=
  (draft = "" /\ sent = None) \/
  exists w, wall w /\ draft = minute_text w /\ sent = Some (toISOString (utc (time_of w))).

Lemma sent_for_draft draft : draft_ok draft -> sent_for draft (fromDateTimeLocalValue draft).
Proof.
  intros [->|(w & Hw & ->)]; [by left|]. right. exists w. split_and!; [done..|]. by apply fromDateTimeLocalValue_wall.
Qed.

Lemma sent_time draft text t :
  sent_for draft (Some text) -> parse_date text = Some t -> 
  exists w, wall w /\ draft = minute_text w /\ t = utc (time_of w).
Proof.
  intros [[_ E]|(w & Hw & -> & [= ->])] Ht; [done|]. exists w. split_and!; [done..|].
  destruct Hw as [Hv Hy Hm].
  rewrite parse_toISOString in Ht; [by injection Ht|].
  apply (near_year _ (time_of w)); [by rewrite fields_of_time_of|]. apply near_utc.
Qed.

(** Every wall time that a draft names is one that the zone has. *)
Definition draft_exists (draft : string) : Prop := forall w, wall w -> draft = minute_text w -> exists_in_zone w.

(** *** What the platform answers

    The game core keeps a time of the window in the text of [time.RFC3339], to the second
    and without milliseconds, and leaves out an end that is not set. *)
Definition rfc3339 (t : Z) : string :=
  let w := fields_of t in minute_text w ++ₛ ":" ++ₛ pad 2 (second w) ++ₛ "Z".

Definition taken_over (answer sent : option string) : Prop :=
  match sent with
  | None => answer = None
  | Some text => exists t, parse_date text = Some t /\ answer = Some (rfc3339 t)
  end.

Lemma second_text s : 0 <= s < 60 -> read_seconds (":" ++ₛ pad 2 s ++ₛ "Z") = (s, 0, "Z").
Proof. intros Hs. unfold read_seconds. cbn [append]. by rewrite read_pair_pad by lia. Qed.

Lemma milli_of t : milli (fields_of t) = t mod 1000.
Proof.
  destruct (time_of_fields_of t) as [E [Hd Hh Hm Hs Hi]]. generalize dependent (fields_of t).
  intros w <- Hd Hh Hm Hs Hi. unfold time_of.
  apply (Z.mod_unique_pos _ _ (days_of_civil (year w) (month w) (day w) * 86400 + hour w * 3600 + minute w * 60 + second w));
    unfold ms_per_day; lia.
Qed.

Lemma parse_rfc3339 t : four_digits (fields_of t) -> t mod 1000 = 0 -> parse_date (rfc3339 t) = Some t.
Proof.
  intros Hy Hm. rewrite <-milli_of in Hm. destruct (time_of_fields_of t) as [Ht Hw].
  unfold rfc3339. set (w := fields_of t) in *.
  rewrite (parse_minute_text_with w _ (second w) 0 "Z") by (done || apply second_text; by destruct Hw).
  cbn zeta. replace (mkFields _ _ _ _ _ _ _) with w by (destruct w; cbn in *; congruence).
  rewrite fields_ok_valid by done. cbn. rewrite <- Ht. f_equal. lia.
Qed.

(** A whole minute of the zone is a whole second of the clock. *)
Lemma wall_seconds w : wall w -> exists_in_zone w -> utc (time_of w) mod 1000 = 0.
Proof.
  intros [Hv Hy [Hs Hm]] [t Ht].
  assert (E : local (utc (time_of w)) = time_of w) by by rewrite <-Ht, local_utc.
  unfold local in E. set (t' := utc (time_of w)) in *.
  assert (Hw : (time_of w) mod 1000 = 0).
  { unfold time_of. rewrite Hs, Hm.
    replace (days_of_civil (year w) (month w) (day w) * ms_per_day + (hour w * 3600000 + minute w * 60000 + 0 * 1000 + 0))
      with ((days_of_civil (year w) (month w) (day w) * 86400 + hour w * 3600 + minute w * 60) * 1000)
      by (unfold ms_per_day; lia).
    apply Z.mod_mul. lia. }
  replace t' with (time_of w + offset_at t' * 60 * 1000) by lia. by rewrite Z.mod_add.
Qed.

(** A draft that was sent is shown again as it was entered. *)
Lemma draft_taken_over draft answer :
  draft_ok draft -> draft_exists draft -> taken_over answer (fromDateTimeLocalValue draft) ->
  toDateTimeLocalValue answer = draft.
Proof.
  intros [->|(w & Hw & ->)] Hx; [by intros ->|]. pose proof (Hx w Hw eq_refl) as Hz.
  rewrite fromDateTimeLocalValue_wall by done. intros (t & Ht & ->).
  assert (Hsec : utc (time_of w) mod 1000 = 0) by by apply wall_seconds.
  assert (Hf : four_digits (fields_of (utc (time_of w)))).
  { destruct Hw as [Hv Hy _]. apply (near_year _ (time_of w)); [by rewrite fields_of_time_of|]. apply near_utc. }
  rewrite parse_toISOString in Ht by done. injection Ht as <-.
  rewrite <-(window_read_back w) by done. rewrite fromDateTimeLocalValue_wall by done.
  unfold toDateTimeLocalValue. cbn [mbind option_bind].
  assert (Hne : or_undefined (rfc3339 (utc (time_of w))) = Some (rfc3339 (utc (time_of w))) /\
                or_undefined (toISOString (utc (time_of w))) = Some (toISOString (utc (time_of w)))).
  { unfold rfc3339, toISOString, minute_text. by rewrite year_text_four by done. }
  destruct Hne as [-> ->]. by rewrite parse_rfc3339, parse_toISOString by done.
Qed.

End Window.

(** ** Seconds are lost *)

Section Seconds.
Variable minutes : Z.
#[local] Instance here : Zone := fixed_zone minutes.

(** The minute of a time, where the offset is of whole minutes. *)
Lemma minute_of_fields l : time_of (to_minute (fields_of l)) = l - l mod 60000.
Proof.
  destruct (time_of_fields_of l) as [El [Hd Hh Hm Hs Hi]]. generalize dependent (fields_of l).
  intros w <- Hd Hh Hm Hs Hi.
  unfold time_of, to_minute. cbn [year month day hour minute second milli].
  assert (Hmod : (days_of_civil (year w) (month w) (day w) * ms_per_day +
      (hour w * 3600000 + minute w * 60000 + second w * 1000 + milli w)) mod 60000 = second w * 1000 + milli w).
  { symmetry. apply (Z.mod_unique_pos _ _ (days_of_civil (year w) (month w) (day w) * 1440 + hour w * 60 + minute w));
      unfold ms_per_day; lia. }
  rewrite Hmod. lia.
Qed.

Definition edits_end (e : ScheduleEvent) : Prop :=
  match e with EndDate _ | EndTime _ => True | _ => False end.

(** Saving the window rounds a start that nobody touched: from a match whose start is
    not on a minute, after edits of the end alone, the start that is sent is the
    beginning of its minute, so that the match moves forward by up to 59 seconds. *)
Theorem untouched_start_loses_seconds es m start :
  Z.abs minutes < 1440 -> inner_year (year (fields_of (local start))) ->
  scheduled_start m = Some (toISOString start) -> Forall edits_end es ->
  let c := schedule_steps es m in
  draftScheduledStart c = toDateTimeLocalValue (scheduled_start m) /\
  (saved_window c).1 = Some (toISOString (start - start mod 60000)).
Proof.
  intros Ho Hy Hm Hes c. pose proof (fixed_zone_laws minutes Ho) as Hz.
  assert (E : draftScheduledStart c = toDateTimeLocalValue (scheduled_start m)).
  { unfold c, schedule_steps. change (toDateTimeLocalValue (scheduled_start m)) with (draftScheduledStart (drafts_of m)).
    generalize (drafts_of m). induction Hes as [|e es He _ IH]; intros c0; [done|]. cbn [fold_left]. rewrite IH.
    by destruct e. }
  split; [done|]. unfold saved_window. cbn [fst]. rewrite E, Hm.
  rewrite (toDateTimeLocalValue_iso (Hzone := Hz)) by done.
  set (w := fields_of (local start)) in *.
  assert (Hw : wall (to_minute w)) by (apply wall_to_minute; [apply time_of_fields_of|done]).
  change (minute_text w) with (minute_text (to_minute w)).
  rewrite (fromDateTimeLocalValue_wall _ Hw). do 2 f_equal. unfold w. rewrite minute_of_fields.
  unfold local. cbn. pose proof (Z.mod_add start (- minutes) 60000 ltac:(lia)) as M.
  replace (start - minutes * 60000) with (start + - minutes * 60000) by lia. rewrite M. lia.
Qed.
End Seconds.

(** In Jakarta: a match that starts at 09:00:45 and gets an end. *)
Definition jakarta : Z := -420.

Definition sample_match : option AdminGameMatchStatus :=
  Some (mkAdminGameMatchStatus "idle" None None (Some "2026-05-01T02:00:45.000Z") None false).

Definition sample_edits : list ScheduleEvent := [EndDate "2026-05-01"; EndTime "18:30"].

Lemma untouched_start_loses_seconds_witness :
  (saved_window (H := fixed_zone jakarta) (schedule_steps (H := fixed_zone jakarta) sample_edits sample_match)).1 =
  Some "2026-05-01T02:00:00.000Z".
Proof.
  exact (proj2 (untouched_start_loses_seconds jakarta sample_edits sample_match 1777600845000
    ltac:(reflexivity) ltac:(split; discriminate) ltac:(reflexivity) ltac:(repeat constructor))).
Defined.


(** ** The window on the page *)

Definition schedule_request (window : option string * option string) : Request :=
  browser_send "PUT" "/api/admin/game/match/schedule"
    (json_object [("scheduled_start_at", JStr <$> window.1); ("scheduled_end_at", JStr <$> window.2)]).

Definition interval_request (n : Z) : Request :=
  browser_send "PUT" "/api/admin/game/scheduler/interval" (JObj [("interval_seconds", JNum n)]).

Section OnThePage.
Context (oracle : Oracle).

(** What a game action of one call does to the page. *)
Definition one_call (p : Payload) (req : Request) (path fallback : string)
    (shown : option (PayloadTy (App := Organizer) p) -> AdminGameStatus -> AdminGameStatus)
    (t : list Op) (s : Store) (r : Outcome unit) : Prop :=
  let ask := OpFetch req p in
  o_trace r = t ++ [OpNow; ask; OpNow] /\ o_result r = Done tt /\ o_store r PendingAction = None /\
  match optional_of (oracle (t ++ [OpNow]) ask) path with
  | Done payload => o_store r GameState = shown payload (s GameState) /\ o_store r ActionError = None
  | Thrown e => o_store r GameState = s GameState /\ o_store r ActionError = Some (error_message e fallback)
  end.

Lemma run_one_call p req path key fallback shown text t s :
  one_call p req path fallback shown t s
    (run oracle t s
       (game_action key (report fallback)
          (payload <-! fetch_optional req p path ;;
           update GameState (shown payload) ;;!
           note (text payload)))).
Proof.
  unfold one_call. rewrite run_game_action. cbn zeta. rewrite run_try, run_then_optional.
  destruct (optional_of (oracle (t ++ [OpNow]) (OpFetch req p)) path) as [payload|e];
    cbn [caught update note report set_to bind run o_trace o_store o_result]; rewrite <- !app_assoc;
    unfold ended, suppressed, begun; split_and!; try done; by cells.
Qed.
End OnThePage.

(** ** The interval that is sent *)

(** What Enter and the button send is the same, but for the pending action. *)
Lemma on_key_on_update c : on_key "Enter" c = on_update None c.
Proof.
  unfold on_key, on_update, updateDisabled. rewrite String.eqb_refl. cbn [andb].
  rewrite bool_decide_false by (intros H; by apply H). unfold intervalChanged.
  destruct (parsedInterval c) as [n|]; [|done]. rewrite (bool_decide_false (Some n = None)) by done.
  by destruct (_ && _).
Qed.

Lemma typed_interval es sc n :
  safe n -> Some n <> sc_interval_seconds <$> scheduler (scheduler_steps es sc) -> 0 < n ->
  intervalChanged (scheduler_step (TypeInterval (num_to_string n)) (scheduler_steps es sc)) = true.
Proof.
  intros Hs Hne Hn. unfold intervalChanged, parsedInterval. cbn [scheduler_step draftInterval].
  rewrite parse_int_num_to_string by done. unfold interval_seconds. cbn [scheduler].
  rewrite bool_decide_true by done. cbn [andb]. by rewrite Z.gtb_ltb, (proj2 (Z.ltb_lt _ _)).
Qed.

(** The interval field.  However schedulers arrive and texts are typed, the button
    sends nothing while an action is pending, and otherwise nothing but a positive number
    that differs from the interval in force; a number that was typed in digits is the
    number that is sent.  The Enter key sends the same, but also while an action is
    pending: its request runs beside the action's, and when it ends, the page no longer
    marks the action that still runs. *)
Theorem interval_update_spec oracle es sc t (s : Store) :
  let c := scheduler_steps es sc in
  (forall pending, on_update (Some pending) c = skip) /\
  (on_update None c = skip \/
   exists n, 0 < n /\ Some n <> interval_seconds c /\ on_update None c = updateGameScheduler n) /\
  (forall n, safe n -> 0 < n -> Some n <> interval_seconds c ->
     let typed := scheduler_step (TypeInterval (num_to_string n)) c in
     on_update None typed = updateGameScheduler n /\ on_key "Enter" typed = updateGameScheduler n /\
     one_call oracle PScheduler (interval_request n) "/api/admin/game/scheduler/interval"
       "game-core scheduler update failed" with_scheduler t s (run oracle t s (on_key "Enter" typed))).
Proof.
  intros c. split_and!.
  - intros pending. unfold on_update, updateDisabled. by rewrite bool_decide_true.
  - unfold on_update. destruct (updateDisabled None c) eqn:E; [by left|]. right.
    unfold updateDisabled in E. apply orb_false_iff in E as [E _]. apply orb_false_iff in E as [_ E].
    apply negb_false_iff in E. unfold intervalChanged in E. destruct (parsedInterval c) as [n|]; [|done].
    apply andb_true_iff in E as [E1 E2]. apply bool_decide_eq_true in E1. exists n. split_and!; [lia|done|done].
  - intros n Hs Hn Hne typed. assert (Hc : intervalChanged typed = true) by by apply typed_interval.
    assert (E : on_key "Enter" typed = updateGameScheduler n).
    { unfold on_key. rewrite String.eqb_refl, Hc. cbn [andb]. unfold parsedInterval, typed.
      cbn [scheduler_step draftInterval]. by rewrite parse_int_num_to_string. }
    split_and!; [by rewrite <- on_key_on_update|done|]. rewrite E. unfold updateGameScheduler. apply run_one_call.
Qed.

(** A number that the field accepts in another notation is sent as its leading digits:
    1e3 seconds become one second, and 2.5 become two. *)
Theorem interval_reads_leading_digits sc :
  (sc_interval_seconds <$> sc) = Some 60 ->
  let typed text := scheduler_step (TypeInterval text) (reset_interval sc) in
  on_update None (typed "1e3") = updateGameScheduler 1 /\ on_update None (typed "2.5") = updateGameScheduler 2.
Proof.
  intros E typed. destruct sc as [sc|]; [|done]. injection E as E. unfold on_update, updateDisabled, typed.
  unfold intervalChanged, interval_seconds. cbn [scheduler_step reset_interval scheduler fmap option_fmap option_map].
  rewrite E. split; reflexivity.
Qed.

Definition sample_scheduler : option AdminGameSchedulerStatus :=
  Some (mkAdminGameSchedulerStatus "running" 60 None None None None).

Lemma interval_reads_leading_digits_witness :
  on_update None (scheduler_step (TypeInterval "1e3") (reset_interval sample_scheduler)) = updateGameScheduler 1.
Proof. exact (proj1 (interval_reads_leading_digits sample_scheduler eq_refl)). Defined.

(** Saving the window of the match makes one call with the two texts of the drafts,
    and the match that is shown is the one the platform answered with; a refusal keeps
    the match and is reported. *)
Theorem saveWindow_spec `{Zone} oracle t (s : Store) c :
  one_call oracle PMatch (schedule_request (saved_window c)) "/api/admin/game/match/schedule"
    "game match schedule update failed" with_match t s (run oracle t s (saveWindow c)) /\
  one_call oracle PMatch (schedule_request (None, None)) "/api/admin/game/match/schedule"
    "game match schedule update failed" with_match t s (run oracle t s clearWindow).
Proof. split; apply run_one_call. Qed.
