(* ===== verification/OrganizerControls.v ===== *)
(** * The controls of the organizer pages

    What an organizer can do on each page of the dashboard
    ([components/admin/organizer-dashboard.tsx] and
    [components/admin/organizer-dashboard-sections.tsx]): the buttons with the condition
    that disables them, the action whose mark they show as a spinner and the event of
    the hook that they start ([Organizer]), and the fields with what an edit makes of
    their draft or filter.  Everything that is rendered and enabled is offered: that an
    open dialog covers the rest of the page is not modelled.  The cards that keep their own
    state and call the server themselves ([OrganizerPanels]) are left out. *)

From S2P Require Import Prelude JsString JsNumber DashboardUtils Controls ApiUtils PlatformApi ReactRuntime ReactRules ReactMark AdminTypes OrganizerState Drafts RuntimeHealth Organizer OrganizerPage OrganizerQuiet JsDate GameCards.

#[local] Open Scope string_scope.
#[local] Open Scope Z_scope.
#[local] Open Scope list_scope.
#[local] Open Scope js_scope.

(** ** Buttons *)

Notation Control := (Controls.Control Event).

(** [pendingAction !== null]. *)
Definition busy (v : Store) : bool := bool_decide (v PendingAction <> None).

Definition button (v : Store) (name : string) (event : Event) : Control := mkControl name (busy v) None event.

(** [RuntimeActionButton], and the buttons that spin in the same way. *)
Definition spinner (v : Store) (name action : string) (event : Event) : Control :=
  mkControl name (busy v) (Some action) event.

Definition numbered (name : string) (id : Z) : string := name ++ₛ num_to_string id.

(** *** Teams, players, challenges, deployments *)

Definition team_controls (v : Store) (team : AdminTeam) : list Control :=
  [button v (numbered "toggle-team-active-" (tm_id team)) (EvSetTeamActive team (negb (tm_active team)));
   button v (numbered "edit-team-" (tm_id team)) (EvOpenEdit ETeam (tm_id team));
   button v (numbered "delete-team-" (tm_id team))
     (EvSelectDelete (mkDeleteTarget KTeam (tm_id team) (tm_name team)
       (Some "This will also delete all associated players and service states.")))].

Definition TeamsTab (v : Store) : list Control :=
  always "Create Team" (EvOpenCreate ETeam) :: ((v TeamRows : list AdminTeam) ≫= team_controls v).

Definition hasWireGuardPeer (player : AdminPlayer) : bool :=
  negb (is_empty (pl_wireguard_peer player)) && negb (is_empty (pl_wireguard_address player)) &&
  negb (is_empty (pl_wireguard_status player)).

Definition player_controls (v : Store) (player : AdminPlayer) : list Control :=
  let id := pl_id player in
  let no_peer := negb (hasWireGuardPeer player) in
  [button v (numbered "toggle-player-active-" id) (EvSetPlayerActive player (negb (pl_active player)));
   button v (numbered "edit-player-" id) (EvOpenEdit EPlayer id);
   disabled_if no_peer (spinner v (numbered "inspect-wireguard-" id) (numbered "wireguard:get:" id) (EvInspect player));
   disabled_if no_peer (spinner v (numbered "rotate-wireguard-" id) (numbered "wireguard:rotate:" id) (EvRotate player));
   disabled_if (no_peer || String.eqb (pl_wireguard_status player) "revoked")
     (spinner v (numbered "revoke-wireguard-" id) (numbered "wireguard:revoke:" id) (EvRevoke player));
   button v (numbered "delete-player-" id)
     (EvSelectDelete (mkDeleteTarget KPlayer id (pl_display_name player) None))].

Definition WireGuardGatewayActions (v : Store) : list Control :=
  [spinner v "refresh-wireguard-gateway" "wireguard-gateway:status" (EvRefreshGateway false);
   spinner v "reconcile-wireguard-gateway" "wireguard-gateway:reconcile" EvReconcileGateway;
   spinner v "teardown-wireguard-gateway" "wireguard-gateway:teardown" EvTeardownGateway].

Definition AccessPolicyActions (v : Store) : list Control :=
  [spinner v "refresh-access" "access:status" (EvRefreshAccess false);
   spinner v "reconcile-access" "access:reconcile" EvReconcileAccess;
   spinner v "teardown-access" "access:teardown" EvTeardownAccess].

(** The dialog with the configuration of a peer. *)
Definition WireGuardDialog (v : Store) : list Control :=
  if (v WireGuardDialogOpen : bool)
  then always "Close" EvCloseWireGuard ::
       match (v SelectedWireGuardPeer : option AdminWireGuardPeer) with
       | Some peer => [always "Download .conf" (EvDownloadConfig peer)]
       | None => []
       end
  else [].

Definition PlayersTab (v : Store) : list Control :=
  WireGuardGatewayActions v ++ AccessPolicyActions v ++
  always "Create Player" (EvOpenCreate EPlayer) :: ((v PlayerRows : list AdminPlayer) ≫= player_controls v) ++
  WireGuardDialog v.

Definition challenge_controls (v : Store) (challenge : AdminChallenge) : list Control :=
  let id := ch_id challenge in
  [button v (numbered "edit-challenge-" id) (EvOpenEdit EChallenge id);
   spinner v (numbered "validate-challenge-" id) (numbered "validate:" id) (EvValidate challenge false);
   spinner v (numbered "deploy-challenge-" id) (numbered "deploy:" id) (EvDeploy challenge);
   disabled_if (negb (ch_published challenge))
     (spinner v (numbered "toggle-challenge-maintenance-" id) (numbered "challenge:maintenance:" id)
       (EvSetMaintenance challenge (negb (ch_maintenance challenge))));
   button v (numbered "delete-challenge-" id)
     (EvSelectDelete (mkDeleteTarget KChallenge id (ch_name challenge)
       (Some "This will also delete all associated service instances.")))].

Definition ChallengesTab (v : Store) : list Control :=
  always "Create Challenge" (EvOpenCreate EChallenge) :: ((v ChallengeRows : list AdminChallenge) ≫= challenge_controls v).

Definition deployment_controls (v : Store) (deployment : AdminDeploymentJob) : list Control :=
  [button v (numbered "delete-deployment-" (dj_id deployment))
    (EvSelectDelete (mkDeleteTarget KDeployment (dj_id deployment)
      ("#" ++ₛ num_to_string (dj_id deployment) ++ₛ " " ++ₛ dj_challenge_name deployment)
      (Some "This only removes the deployment job record. Deployed services remain intact.")))].

Definition DeploymentsTab (v : Store) : list Control :=
  (v DeploymentRows : list AdminDeploymentJob) ≫= deployment_controls v.

(** *** Dialogs of every page *)

Definition kind_name (kind : TargetKind) : string :=
  match kind with KTeam => "team" | KPlayer => "player" | KChallenge => "challenge" | KDeployment => "deployment" end.

(** The key of the deletion of a target. *)
Definition delete_key (target : DeleteTarget) : string :=
  kind_name (dt_kind target) ++ₛ numbered ":delete:" (dt_id target).

Definition isDeleting (v : Store) : bool :=
  match (v DeleteTargetState : option DeleteTarget) with
  | Some target => bool_decide (v PendingAction = Some (delete_key target))
  | None => false
  end.

(** A dialog is also closed by its corner button, the Escape key and a press outside. *)
Definition DeleteConfirmDialog (v : Store) : list Control :=
  match (v DeleteTargetState : option DeleteTarget) with
  | Some target =>
      [mkControl "Cancel" (isDeleting v) None EvCloseDelete;
       mkControl "Delete" (isDeleting v) (Some (delete_key target)) EvConfirmDelete;
       always "Dismiss" EvCloseDelete]
  | None => []
  end.

Section Controls.
(** [`${n}`] of a number that may not be an integer. *)
Variable number_text : num -> string.

Definition formInvalid (v : Store) : bool :=
  form_invalid number_text (v FormEntityState) (v FormModeState) (v TeamDraftState) (v PlayerDraftState)
    (v ChallengeDraftState) (v ChallengeRows) (v EditingId) (v TeamRows).

Definition EntityFormDialog (v : Store) : list Control :=
  if bool_decide (v FormModeState <> None) && bool_decide (v FormEntityState <> None)
  then [mkControl "Cancel" (is_submitting (v PendingAction)) None EvCloseForm;
        mkControl "Submit" (submit_disabled (v PendingAction) (formInvalid v)) None EvSubmitForm;
        always "Dismiss" EvCloseForm]
  else [].

(** *** Scores and attacks *)

Definition ScoreboardTab (v : Store) : list Control :=
  [spinner v "Audit" "game:scoring-audit" (EvAudit false);
   spinner v "Refresh scoreboard" "game:scoreboard" (EvRefreshScoreboard false)].

Definition attack_rows (v : Store) : list AdminAttackEvent := items (v AttackPageState : AdminAttackFeedPage).

Definition latestTick (v : Store) : Z := fold_left (fun value row => Z.max value (ae_tick row)) (attack_rows v) 0.

Definition with_ticks (from to : Z) (f : AttackFilters) : AttackFilters :=
  mkAttackFilters (f_limit f) "0" (f_attacker f) (f_victim f) (f_service f) (num_to_string from) (num_to_string to).

(** The presets of the ticks, when there is an attack. *)
Definition tick_presets (v : Store) : list Control :=
  let latest := latestTick v in
  if latest >? 0
  then [always "Current tick" (EvSetAttackFilters (with_ticks latest latest (v AttackFiltersState)));
        always "Last 5 ticks" (EvSetAttackFilters (with_ticks (Z.max 0 (latest - 4)) latest (v AttackFiltersState)))]
  else [].

(** The second reset, in place of the table when it is empty. *)
Definition empty_view_reset (v : Store) : list Control :=
  match attack_rows v with
  | [] => if hasAttackFiltersApplied (v AttackFiltersState) then [always "Reset view" EvResetAttacks] else []
  | _ => []
  end.

Definition GameAttacksCard (v : Store) : list Control :=
  spinner v "Refresh attacks" "game:attacks" (EvRefreshAttacks false (v AttackFiltersState)) :: tick_presets v ++
  PagedFilterActions (busy v) (has_prev (v AttackPageState : AdminAttackFeedPage)) (has_next (v AttackPageState : AdminAttackFeedPage))
    EvApplyAttacks EvResetAttacks EvPageAttacks ++
  empty_view_reset v.

(** *** The game *)

Definition EvidenceActions (v : Store) : list Control :=
  [spinner v "copy-runtime-health-summary" "runtime:summary" EvCopySummary;
   spinner v "download-runtime-health-report" "runtime:report" EvDownloadReport].

(** The first three are in the panel of the remediation when there are warnings. *)
Definition RuntimeHealthCard (v : Store) : list Control :=
  spinner v "Refresh Runtime" "runtime:health" (EvRefreshHealth false) :: EvidenceActions v ++
  [spinner v "refresh-runtime-alerts" "operations:status" (EvRefreshOperations false);
   spinner v "refresh-runtime-deployments" "deployments:list" (EvRefreshDeployments false)].

Definition OperationsSupportPanel (v : Store) : list Control :=
  [spinner v "Refresh alerts" "operations:status" (EvRefreshOperations false);
   spinner v "Refresh metrics" "operations:metrics" (EvRefreshMetrics false)].

Definition MatchLifecycleCard (v : Store) : list Control :=
  let m := match_controls (mt_state <$> gs_match (v GameState : AdminGameStatus)) in
  if_shown (canStart m) (spinner v "start-match" "game:match:start" EvStartMatch) ++
  if_shown (canPause m) (spinner v "pause-match" "game:match:pause" EvPauseMatch) ++
  if_shown (canResume m) (spinner v "resume-match" "game:match:resume" EvResumeMatch) ++
  [spinner v "refresh-game-status" "game:status" (EvRefreshGame false)] ++
  if_shown (canStop m) (spinner v "stop-match" "game:match:stop" EvStopMatch).

(** The card of the window keeps drafts [c] of its own. *)
Definition MatchScheduleCard `{Zone} (c : ScheduleCard) (v : Store) : list Control :=
  [mkControl "Save" (save_disabled (v PendingAction) c) (Some "game:match:schedule")
     (EvUpdateSchedule (saved_window c).1 (saved_window c).2);
   mkControl "Clear" (clear_disabled (v PendingAction) c) None (EvUpdateSchedule None None)].

Definition QuickActionsCard (v : Store) : list Control :=
  [spinner v "audit-scores" "game:scoring-audit" (EvAudit false);
   spinner v "advance-tick" "game:advance" EvAdvanceTick;
   spinner v "recompute-scores" "game:scoring" (EvRecompute false)].

(** The field of the interval and its button; the field also takes the Enter key. *)
Definition SchedulerIntervalControl (sc : SchedulerCard) (v : Store) : list Control :=
  match parsedInterval sc with
  | Some n =>
      [mkControl "Update" (updateDisabled (v PendingAction) sc) (Some "game:scheduler:update") (EvUpdateScheduler n);
       mkControl "Enter" (negb (intervalChanged sc)) None (EvUpdateScheduler n)]
  | None => []
  end.

Definition scheduler_state (v : Store) : option string := sc_state <$> gs_scheduler (v GameState : AdminGameStatus).

Definition SchedulerActionRow (v : Store) : list Control :=
  [mkControl "Resume Scheduler" (start_disabled (v PendingAction) (scheduler_state v)) (Some "game:scheduler:start")
     EvStartScheduler;
   mkControl "Stop Scheduler" (stop_disabled (v PendingAction) (scheduler_state v)) (Some "game:scheduler:stop")
     EvStopScheduler].

Definition SchedulerCardControls (sc : SchedulerCard) (v : Store) : list Control :=
  spinner v "Refresh events" "game:scheduler-events" (EvRefreshSchedulerEvents false (v SchedulerEventFiltersState)) ::
  SchedulerIntervalControl sc v ++ SchedulerActionRow v ++
  PagedFilterActions (busy v) (has_prev (v SchedulerEventPageState : AdminSchedulerEventPage))
    (has_next (v SchedulerEventPageState : AdminSchedulerEventPage))
    EvApplySchedulerEvents EvResetSchedulerEvents EvPageSchedulerEvents.

Definition CheckerRunsCard (v : Store) : list Control :=
  spinner v "Refresh runs" "game:checker-runs" (EvRefreshCheckerRuns false (v CheckerRunFiltersState)) ::
  PagedFilterActions (busy v) (has_prev (v CheckerRunPageState : AdminCheckerRunPage))
    (has_next (v CheckerRunPageState : AdminCheckerRunPage))
    EvApplyCheckerRuns EvResetCheckerRuns EvPageCheckerRuns.

Definition GameTab `{Zone} (c : ScheduleCard) (sc : SchedulerCard) (v : Store) : list Control :=
  RuntimeHealthCard v ++ OperationsSupportPanel v ++
  MatchLifecycleCard v ++ MatchScheduleCard c v ++ QuickActionsCard v ++
  [spinner v "Refresh snapshot" "game:scoreboard" (EvRefreshScoreboard false)] ++
  SchedulerCardControls sc v ++ CheckerRunsCard v.

(** *** Pages *)

Inductive Tab := Teams | Players | Challenges | Deployments | Game | Scoreboard | Attacks.

(** What the cards of the game tab keep by themselves. *)
Record Drafts := mkDrafts { schedule_card : ScheduleCard; scheduler_card : SchedulerCard }.

Definition renderOrganizerPanel `{Zone} (tab : Tab) (d : Drafts) (v : Store) : list Control :=
  match tab with
  | Teams => TeamsTab v ++ DeleteConfirmDialog v
  | Players => PlayersTab v ++ DeleteConfirmDialog v
  | Challenges => ChallengesTab v ++ DeleteConfirmDialog v
  | Deployments => DeploymentsTab v ++ DeleteConfirmDialog v
  | Scoreboard => ScoreboardTab v
  | Attacks => GameAttacksCard v
  | Game => GameTab (schedule_card d) (scheduler_card d) v
  end.

Definition OrganizerDashboard `{Zone} (tab : Tab) (d : Drafts) (v : Store) : list Control :=
  renderOrganizerPanel tab d v ++ EntityFormDialog v.
End Controls.

(** ** Fields

    What an edit of one field makes of the draft or the filters; [creating] fields are
    only there when something is created. *)

Inductive team_edit (d : TeamDraft) : TeamDraft -> Prop :=
| edit_team_name x : team_edit d (mkTeamDraft x (td_contactEmail d))
| edit_contact x : team_edit d (mkTeamDraft (td_name d) x).

Inductive player_edit (creating : bool) (d : PlayerDraft) : PlayerDraft -> Prop :=
| edit_player_team id : creating = true ->
    player_edit creating d (mkPlayerDraft id (pd_displayName d) (pd_email d) (pd_password d) (pd_role d))
| edit_display_name x : player_edit creating d (mkPlayerDraft (pd_teamId d) x (pd_email d) (pd_password d) (pd_role d))
| edit_email x : player_edit creating d (mkPlayerDraft (pd_teamId d) (pd_displayName d) x (pd_password d) (pd_role d))
| edit_password x : creating = true ->
    player_edit creating d (mkPlayerDraft (pd_teamId d) (pd_displayName d) (pd_email d) x (pd_role d))
| edit_role x : player_edit creating d (mkPlayerDraft (pd_teamId d) (pd_displayName d) (pd_email d) (pd_password d) x).

Inductive challenge_edit (creating : bool) (d : ChallengeDraft) : ChallengeDraft -> Prop :=
| edit_challenge_name x : challenge_edit creating d (mkChallengeDraft x (cd_baselineImage d) (cd_checkerImage d)
    (cd_sourceBundlePath d) (cd_servicePort d) (cd_serviceSubnetOctet d) (cd_egressEnabled d))
| edit_baseline x : challenge_edit creating d (mkChallengeDraft (cd_name d) x (cd_checkerImage d)
    (cd_sourceBundlePath d) (cd_servicePort d) (cd_serviceSubnetOctet d) (cd_egressEnabled d))
| edit_checker x : challenge_edit creating d (mkChallengeDraft (cd_name d) (cd_baselineImage d) x
    (cd_sourceBundlePath d) (cd_servicePort d) (cd_serviceSubnetOctet d) (cd_egressEnabled d))
| edit_bundle x : challenge_edit creating d (mkChallengeDraft (cd_name d) (cd_baselineImage d) (cd_checkerImage d)
    x (cd_servicePort d) (cd_serviceSubnetOctet d) (cd_egressEnabled d))
| edit_port x : creating = true -> challenge_edit creating d (mkChallengeDraft (cd_name d) (cd_baselineImage d)
    (cd_checkerImage d) (cd_sourceBundlePath d) x (cd_serviceSubnetOctet d) (cd_egressEnabled d))
| edit_octet x : creating = true -> challenge_edit creating d (mkChallengeDraft (cd_name d) (cd_baselineImage d)
    (cd_checkerImage d) (cd_sourceBundlePath d) (cd_servicePort d) x (cd_egressEnabled d))
| edit_egress b : challenge_edit creating d (mkChallengeDraft (cd_name d) (cd_baselineImage d) (cd_checkerImage d)
    (cd_sourceBundlePath d) (cd_servicePort d) (cd_serviceSubnetOctet d) b).

Inductive attack_edit (f : AttackFilters) : AttackFilters -> Prop :=
| edit_attacker x : attack_edit f (mkAttackFilters (f_limit f) (f_offset f) x (f_victim f) (f_service f) (f_tickFrom f) (f_tickTo f))
| edit_victim x : attack_edit f (mkAttackFilters (f_limit f) (f_offset f) (f_attacker f) x (f_service f) (f_tickFrom f) (f_tickTo f))
| edit_service x : attack_edit f (mkAttackFilters (f_limit f) (f_offset f) (f_attacker f) (f_victim f) x (f_tickFrom f) (f_tickTo f))
| edit_tick_from x : attack_edit f (mkAttackFilters (f_limit f) (f_offset f) (f_attacker f) (f_victim f) (f_service f) x (f_tickTo f))
| edit_tick_to x : attack_edit f (mkAttackFilters (f_limit f) (f_offset f) (f_attacker f) (f_victim f) (f_service f) (f_tickFrom f) x)
| edit_attack_limit x : attack_edit f (mkAttackFilters x (f_offset f) (f_attacker f) (f_victim f) (f_service f) (f_tickFrom f) (f_tickTo f)).

Inductive checker_edit (f : CheckerRunFilters) : CheckerRunFilters -> Prop :=
| edit_checker_limit x : checker_edit f (mkCheckerRunFilters x (k_offset f) (k_tickId f) (k_teamId f) (k_challengeId f) (k_phase f) (k_status f))
| edit_checker_tick x : checker_edit f (mkCheckerRunFilters (k_limit f) (k_offset f) x (k_teamId f) (k_challengeId f) (k_phase f) (k_status f))
| edit_checker_team x : checker_edit f (mkCheckerRunFilters (k_limit f) (k_offset f) (k_tickId f) x (k_challengeId f) (k_phase f) (k_status f))
| edit_checker_challenge x : checker_edit f (mkCheckerRunFilters (k_limit f) (k_offset f) (k_tickId f) (k_teamId f) x (k_phase f) (k_status f))
| edit_checker_phase x : checker_edit f (mkCheckerRunFilters (k_limit f) (k_offset f) (k_tickId f) (k_teamId f) (k_challengeId f) x (k_status f))
| edit_checker_status x : checker_edit f (mkCheckerRunFilters (k_limit f) (k_offset f) (k_tickId f) (k_teamId f) (k_challengeId f) (k_phase f) x).

Inductive scheduler_edit (f : SchedulerEventFilters) : SchedulerEventFilters -> Prop :=
| edit_scheduler_limit x : scheduler_edit f (mkSchedulerEventFilters x (e_offset f) (e_eventType f) (e_source f) (e_state f))
| edit_event_type x : scheduler_edit f (mkSchedulerEventFilters (e_limit f) (e_offset f) x (e_source f) (e_state f))
| edit_source x : scheduler_edit f (mkSchedulerEventFilters (e_limit f) (e_offset f) (e_eventType f) x (e_state f))
| edit_state x : scheduler_edit f (mkSchedulerEventFilters (e_limit f) (e_offset f) (e_eventType f) (e_source f) x).

Definition creating (v : Store) : bool := is_create (v FormModeState).

(** The edits that a page offers. *)
Inductive edits (tab : Tab) (v : Store) : Event -> Prop :=
| in_team_form d : v FormModeState <> None -> v FormEntityState = Some ETeam ->
    team_edit (v TeamDraftState) d -> edits tab v (EvSetTeamDraft d)
| in_player_form d : v FormModeState <> None -> v FormEntityState = Some EPlayer ->
    player_edit (creating v) (v PlayerDraftState) d -> edits tab v (EvSetPlayerDraft d)
| in_challenge_form d : v FormModeState <> None -> v FormEntityState = Some EChallenge ->
    challenge_edit (creating v) (v ChallengeDraftState) d -> edits tab v (EvSetChallengeDraft d)
| in_attack_filters f : tab = Attacks -> attack_edit (v AttackFiltersState) f -> edits tab v (EvSetAttackFilters f)
| in_checker_filters f : tab = Game -> checker_edit (v CheckerRunFiltersState) f -> edits tab v (EvSetCheckerRunFilters f)
| in_scheduler_filters f : tab = Game -> scheduler_edit (v SchedulerEventFiltersState) f ->
    edits tab v (EvSetSchedulerEventFilters f).

(** What an organizer can bring about: an enabled button, or an edit. *)
Inductive offers (number_text : num -> string) `{Zone} (tab : Tab) (d : Drafts) (v : Store) : Event -> Prop :=
| press c : c ∈ OrganizerDashboard number_text tab d v -> disabled c = false -> offers number_text tab d v (calls c)
| edit event : edits tab v event -> offers number_text tab d v event.

(** ** While an action is pending *)

(** The events that begin no action: dialogs, edits, the download of a shown
    configuration, and the background. *)
Definition idle_event (event : Event) : bool :=
  match event with
  | EvDownloadConfig _ | EvCloseWireGuard | EvSelectDelete _ | EvCloseDelete | EvOpenCreate _ | EvOpenEdit _ _
  | EvCloseForm | EvSetTeamDraft _ | EvSetPlayerDraft _ | EvSetChallengeDraft _ | EvSetAttackFilters _
  | EvSetCheckerRunFilters _ | EvSetSchedulerEventFilters _ => true
  | _ => background event
  end.

(** The ways around a pending action. *)
Inductive loophole (number_text : num -> string) (tab : Tab) (d : Drafts) (v : Store) : Event -> Prop :=
| loop_reset : tab = Attacks -> attack_rows v = [] -> hasAttackFiltersApplied (v AttackFiltersState) = true ->
    loophole number_text tab d v EvResetAttacks
| loop_interval n : tab = Game -> intervalChanged (scheduler_card d) = true ->
    parsedInterval (scheduler_card d) = Some n -> loophole number_text tab d v (EvUpdateScheduler n)
| loop_delete target : tab ∈ [Teams; Players; Challenges; Deployments] -> v DeleteTargetState = Some target ->
    v PendingAction <> Some (delete_key target) -> loophole number_text tab d v EvConfirmDelete
| loop_submit : v FormModeState <> None -> v FormEntityState <> None ->
    submit_disabled (v PendingAction) (formInvalid number_text v) = false -> loophole number_text tab d v EvSubmitForm.

Section Busy.
Context (number_text : num -> string) `{Zone} (tab : Tab) (d : Drafts) (v : Store).
Hypothesis pending : v PendingAction <> None.

(** What a control may be. *)
Definition held (c : Control) : Prop :=
  disabled c = true \/ idle_event (calls c) = true \/ loophole number_text tab d v (calls c).

Lemma busy_now : busy v = true.
Proof. by apply bool_decide_eq_true. Qed.

Lemma held_button name event : held (button v name event).
Proof. left. exact busy_now. Qed.

Lemma held_spinner name action event : held (spinner v name action event).
Proof. left. exact busy_now. Qed.

Lemma held_if b c : held c -> held (disabled_if b c).
Proof. intros [Hd|Hc]; [left; simpl; by rewrite Hd|by right]. Qed.

Lemma held_always name event : idle_event event = true -> held (always name event).
Proof. right. by left. Qed.

Ltac held_step :=
  lazymatch goal with
  | |- Forall held _ => controls_step
  | |- held (button _ _ _) => apply held_button
  | |- held (spinner _ _ _ _) => apply held_spinner
  | |- held (disabled_if _ _) => apply held_if
  | |- held (always _ _) => apply held_always; reflexivity
  end.
Ltac hold := repeat held_step.

Lemma held_filters prev next apply reset page : Forall held (PagedFilterActions (busy v) prev next apply reset page).
Proof. unfold PagedFilterActions. rewrite busy_now. hold; by left. Qed.

Lemma held_delete : tab ∈ [Teams; Players; Challenges; Deployments] -> Forall held (DeleteConfirmDialog v).
Proof.
  intros Ht. unfold DeleteConfirmDialog. destruct (v DeleteTargetState) as [target|] eqn:E; [|constructor]. hold.
  - right. by left.
  - destruct (isDeleting v) eqn:Ed; [by left|]. right. right. eapply loop_delete; [exact Ht|exact E|].
    unfold isDeleting in Ed. rewrite E in Ed. by apply bool_decide_eq_false in Ed.
Qed.

Lemma held_form : Forall held (EntityFormDialog number_text v).
Proof.
  unfold EntityFormDialog. destruct (_ && _) eqn:E; [|constructor].
  apply andb_true_iff in E as [E1 E2]. apply bool_decide_eq_true in E1, E2. hold.
  - right. by left.
  - destruct (submit_disabled (v PendingAction) (formInvalid number_text v)) eqn:Es; [by left|].
    right. right. by apply loop_submit.
Qed.

Lemma held_teams : Forall held (TeamsTab v).
Proof. unfold TeamsTab. hold. unfold team_controls. hold. Qed.

Lemma held_players : Forall held (PlayersTab v).
Proof.
  unfold PlayersTab, WireGuardGatewayActions, AccessPolicyActions. hold; [unfold player_controls; hold|].
  unfold WireGuardDialog. destruct (v WireGuardDialogOpen); hold. destruct (v SelectedWireGuardPeer); hold.
Qed.

Lemma held_challenges : Forall held (ChallengesTab v).
Proof. unfold ChallengesTab. hold. unfold challenge_controls. hold. Qed.

Lemma held_deployments : Forall held (DeploymentsTab v).
Proof. unfold DeploymentsTab. hold. unfold deployment_controls. hold. Qed.

Lemma held_attacks : tab = Attacks -> Forall held (GameAttacksCard v).
Proof.
  intros Ht. unfold GameAttacksCard. hold; [|apply held_filters|].
  - unfold tick_presets. destruct (latestTick v >? 0); hold.
  - unfold empty_view_reset. destruct (attack_rows v) eqn:Er; [|constructor].
    destruct (hasAttackFiltersApplied (v AttackFiltersState)) eqn:Ef; [|constructor].
    apply List.Forall_cons; [|constructor]. right. right. by apply loop_reset.
Qed.

Lemma held_game : tab = Game -> Forall held (GameTab (schedule_card d) (scheduler_card d) v).
Proof.
  intros Ht. unfold GameTab, RuntimeHealthCard, EvidenceActions, OperationsSupportPanel, MatchLifecycleCard,
    MatchScheduleCard, QuickActionsCard, SchedulerCardControls, SchedulerActionRow, CheckerRunsCard.
  hold; try apply held_filters;
    try (left; unfold save_disabled, clear_disabled, start_disabled, stop_disabled; cbn [disabled];
         rewrite (bool_decide_eq_true_2 _ pending); reflexivity).
  unfold SchedulerIntervalControl. destruct (parsedInterval (scheduler_card d)) as [n|] eqn:En; hold.
  - left. cbn [disabled]. unfold updateDisabled. by rewrite (bool_decide_eq_true_2 _ pending).
  - destruct (intervalChanged (scheduler_card d)) eqn:Ec; [|by left].
    right. right. by apply loop_interval.
Qed.

Lemma held_page : Forall held (OrganizerDashboard number_text tab d v).
Proof.
  unfold OrganizerDashboard. apply list.Forall_app. split; [|apply held_form].
  unfold renderOrganizerPanel. destruct tab eqn:Ht; rewrite ?list.Forall_app; try split;
    try (apply held_delete; rewrite Ht; set_solver).
  - apply held_teams.
  - apply held_players.
  - apply held_challenges.
  - apply held_deployments.
  - by apply held_game.
  - unfold ScoreboardTab. hold.
  - by apply held_attacks.
Qed.

Lemma offers_when_busy event :
  offers number_text tab d v event -> idle_event event = true \/ loophole number_text tab d v event.
Proof.
  intros [c Hc Hd|e He].
  - destruct (controls_in _ _ _ held_page Hc) as [E|E]; [congruence|exact E].
  - left. by destruct He.
Qed.

(** Each way around is there: its button is on the page and is enabled. *)
Lemma loopholes_offered event : loophole number_text tab d v event -> offers number_text tab d v event.
Proof.
  intros [Ht Hr Hf|n Ht Hc Hn|target Ht Hd Hp|Hm He Hs].
  - apply (press _ _ _ _ (always "Reset view" EvResetAttacks)); [|done].
    unfold OrganizerDashboard, renderOrganizerPanel, GameAttacksCard, empty_view_reset. rewrite Ht, Hr, Hf.
    rewrite !app_comm_cons, !elem_of_app. left. right. right. by left.
  - apply (press _ _ _ _ (mkControl "Enter" (negb (intervalChanged (scheduler_card d))) None (EvUpdateScheduler n)));
      [|simpl; by rewrite Hc].
    unfold OrganizerDashboard, renderOrganizerPanel, GameTab, SchedulerCardControls, SchedulerIntervalControl.
    rewrite Ht, Hn. rewrite !elem_of_app. left. do 6 right. left. right. rewrite !elem_of_app. left. right. by left.
  - apply (press _ _ _ _ (mkControl "Delete" (isDeleting v) (Some (delete_key target)) EvConfirmDelete));
      [|simpl; unfold isDeleting; rewrite Hd; by apply bool_decide_eq_false].
    assert (Hin : mkControl "Delete" (isDeleting v) (Some (delete_key target)) EvConfirmDelete ∈ DeleteConfirmDialog v).
    { unfold DeleteConfirmDialog. rewrite Hd. right. by left. }
    unfold OrganizerDashboard, renderOrganizerPanel. rewrite elem_of_app. left.
    rewrite !list.elem_of_cons in Ht.
    destruct Ht as [->|[->|[->|[->|[]%elem_of_nil]]]]; rewrite elem_of_app; by right.
  - apply (press _ _ _ _ (mkControl "Submit" (submit_disabled (v PendingAction) (formInvalid number_text v)) None EvSubmitForm));
      [|exact Hs].
    unfold OrganizerDashboard, EntityFormDialog. rewrite !bool_decide_eq_true_2 by done.
    rewrite elem_of_app. right. right. by left.
Qed.
End Busy.

(** ** Spinners *)

(** The mark is absent or the key's. *)
Definition marked_by (k : string) (s : Store) : Prop := s PendingAction = None \/ s PendingAction = Some k.

(** The write does not put another mark. *)
Definition marks (k : string) (c : Cell) (f : CellTy c -> CellTy c) : Prop :=
  forall s, marked_by k s -> marked_by k (upd c f s).

Lemma marks_other k c f : c <> PendingAction -> marks k c f.
Proof. intros Hc s Hs. unfold marked_by. by rewrite upd_other. Qed.

Lemma marks_none k : marks k PendingAction (fun _ => None).
Proof. intros s _. left. apply upd_same. Qed.

Lemma marks_key k : marks k PendingAction (fun _ => Some k).
Proof. intros s _. right. apply upd_same. Qed.

Notation mark_spec k m := (spec (marks k) any any any m).

Ltac mark := may; first [apply marks_none | apply marks_key | apply marks_other; discriminate].

Section Spinners.
Context (options : OrganizerDashboardOptions) (fraction : Z -> Z -> json) (v : Store).
Notation handle := (handle options fraction).

Definition truthful (c : Control) : Prop :=
  forall k, spins_for c = Some k -> mark_spec k (handle v (calls c)).

Lemma truthful_button name event : truthful (button v name event).
Proof. intros k H. discriminate H. Qed.

Lemma truthful_always name event : truthful (always name event).
Proof. intros k H. discriminate H. Qed.

Lemma truthful_spinner name action event : mark_spec action (handle v event) -> truthful (spinner v name action event).
Proof. intros Hs k H. by injection H as <-. Qed.

Lemma truthful_if b c : truthful c -> truthful (disabled_if b c).
Proof. done. Qed.

Ltac tell_step :=
  lazymatch goal with
  | |- Forall truthful _ => controls_step
  | |- truthful (button _ _ _) => apply truthful_button
  | |- truthful (always _ _) => apply truthful_always
  | |- truthful (disabled_if _ _) => apply truthful_if
  | |- truthful (spinner _ _ _ _) => apply truthful_spinner; cbn [Organizer.handle]; mark
  end.
Ltac tell := repeat tell_step.

Lemma truthful_filters prev next apply reset page : Forall truthful (PagedFilterActions (busy v) prev next apply reset page).
Proof. unfold PagedFilterActions. tell; intros k H; discriminate H. Qed.

Lemma truthful_teams : Forall truthful (TeamsTab v).
Proof. unfold TeamsTab. tell. unfold team_controls. tell. Qed.

Lemma truthful_players : Forall truthful (PlayersTab v).
Proof.
  unfold PlayersTab, WireGuardGatewayActions, AccessPolicyActions. tell; [unfold player_controls; tell|].
  unfold WireGuardDialog. destruct (v WireGuardDialogOpen); tell. destruct (v SelectedWireGuardPeer); tell.
Qed.

Lemma truthful_challenges : Forall truthful (ChallengesTab v).
Proof. unfold ChallengesTab. tell. unfold challenge_controls. tell. Qed.

Lemma truthful_deployments : Forall truthful (DeploymentsTab v).
Proof. unfold DeploymentsTab. tell. unfold deployment_controls. tell. Qed.

Lemma truthful_attacks : Forall truthful (GameAttacksCard v).
Proof.
  unfold GameAttacksCard. tell; [|apply truthful_filters|].
  - unfold tick_presets. destruct (latestTick v >? 0); tell.
  - unfold empty_view_reset. destruct (attack_rows v); tell.
    destruct (hasAttackFiltersApplied (v AttackFiltersState)); tell.
Qed.

(** A button with a condition of its own. *)
Lemma truthful_plain name b action event :
  (forall k, action = Some k -> mark_spec k (handle v event)) -> truthful (mkControl name b action event).
Proof. intros Hs k H. by apply Hs. Qed.

Ltac plain := apply truthful_plain; intros ? [= <-]; cbn [Organizer.handle]; mark.

Lemma truthful_game `{Zone} c sc : Forall truthful (GameTab c sc v).
Proof.
  unfold GameTab, RuntimeHealthCard, EvidenceActions, OperationsSupportPanel, MatchLifecycleCard,
    MatchScheduleCard, QuickActionsCard, SchedulerCardControls, SchedulerActionRow, CheckerRunsCard.
  tell; try apply truthful_filters; try plain; try (apply truthful_plain; discriminate).
  unfold SchedulerIntervalControl. destruct (parsedInterval sc); tell; [plain|apply truthful_plain; discriminate].
Qed.

(** A deletion is marked with the key of its target. *)
Lemma confirm_marked target :
  v DeleteTargetState = Some target -> mark_spec (delete_key target) (handle v EvConfirmDelete).
Proof.
  intros E. cbn [Organizer.handle]. unfold confirmDelete. rewrite E. unfold delete_key.
  apply may_bind; [apply may_set_to, marks_other; discriminate|]. intros _.
  destruct (dt_kind target); cbn [kind_name];
    (destruct (find_first _ _) as [x|] eqn:Ef; [|exact I]; apply find_first_Some in Ef as [_ Ef];
     apply Z.eqb_eq in Ef; rewrite <- Ef; mark).
Qed.

Lemma truthful_delete : Forall truthful (DeleteConfirmDialog v).
Proof.
  unfold DeleteConfirmDialog. destruct (v DeleteTargetState) as [target|] eqn:E; [|constructor]. tell.
  - apply truthful_plain. discriminate.
  - apply truthful_plain. intros k [= <-]. by apply confirm_marked.
Qed.

Lemma truthful_page number_text `{Zone} tab d : Forall truthful (OrganizerDashboard number_text tab d v).
Proof.
  unfold OrganizerDashboard. apply list.Forall_app. split.
  - unfold renderOrganizerPanel. destruct tab; rewrite ?list.Forall_app; try split; try apply truthful_delete.
    + apply truthful_teams.
    + apply truthful_players.
    + apply truthful_challenges.
    + apply truthful_deployments.
    + apply truthful_game.
    + unfold ScoreboardTab. tell.
    + apply truthful_attacks.
  - unfold EntityFormDialog. destruct (_ && _); tell; apply truthful_plain; discriminate.
Qed.
End Spinners.

(** ** One action at a time *)

Lemma idle_marks options fraction v k event :
  idle_event event = true -> mark_spec k (handle options fraction v event).
Proof.
  intros H. destruct event; cbn [idle_event background] in H; try discriminate H; subst; cbn [Organizer.handle]; mark.
Qed.

Section Exclusion.
Context (options : OrganizerDashboardOptions) (fraction : Z -> Z -> json) (number_text : num -> string) `{Zone}.

(** The handlers that start while an action is shown as pending: those of the background,
    and those of what the shown page offers, the loopholes aside. *)
Definition while_busy (v : Store) (m : Prog unit) : Prop :=
  exists event, m = handle options fraction v event /\
    (background event = true \/
     exists tab d, v PendingAction <> None /\ offers number_text tab d v event /\ ~ loophole number_text tab d v event).

Lemma background_idle event : background event = true -> idle_event event = true.
Proof. by destruct event. Qed.

Lemma while_busy_marks k v m : while_busy v m -> mark_spec k m.
Proof.
  intros (event & -> & [Hb|(tab & d & Hp & Ho & Hl)]).
  - by apply idle_marks, background_idle.
  - apply idle_marks. by destruct (offers_when_busy number_text tab d v Hp event Ho).
Qed.

(** While an action is pending, a page lets the organizer open and close dialogs, edit
    drafts and filters and download a shown configuration; of what begins another action it
    offers four things exactly: resetting the filters from the empty table of attacks,
    changing the interval of the scheduler with the Enter key, confirming the deletion of
    something else, and submitting a valid form while no creation or update is pending. *)
Theorem busy_page_offers tab d (v : Store) event :
  v PendingAction <> None -> idle_event event = false ->
  offers number_text tab d v event <-> loophole number_text tab d v event.
Proof.
  intros Hp Hi. split; [|by apply loopholes_offered].
  intros Ho. destruct (offers_when_busy number_text tab d v Hp event Ho); [congruence|done].
Qed.

(** From the press of a button that spins until the page no longer shows an action as
    pending, and without the four ways around it, the mark is absent or is the one that
    this button spins for, however the handlers interleave. *)
Theorem one_action_at_a_time tab d (v : Store) c k s t page' :
  c ∈ OrganizerDashboard number_text tab d v -> spins_for c = Some k -> marked_by k s ->
  rtc (step while_busy (sync_refs options)) (mkConfig s v [handle options fraction v (calls c)] t) page' ->
  marked_by k (g_store page').
Proof.
  intros Hc Hk Hs Hsteps.
  destruct (page_invariant while_busy (sync_refs options) (marks k) any (marked_by k)
    (mkConfig s v [handle options fraction v (calls c)] t) page') as (_ & Hm & _);
    [exact (while_busy_marks k)|auto| |exact Hsteps| |exact Hs| |exact Hm].
  - intros s' Hs'. unfold marked_by, sync_refs. by rewrite !upd_other by discriminate.
  - apply list.Forall_singleton.
    exact (proj1 (list.Forall_forall _ _) (truthful_page options fraction v number_text tab d) c Hc k Hk).
  - by apply list.Forall_true.
Qed.
End Exclusion.

(** ** The mark is exact *)

Definition no_action (pending : option string) : Prop := pending = None.

Notation free_ := (free PendingAction).
Notation holds_ := (holds PendingAction no_action).
Notation takes_ := (takes PendingAction no_action).

Ltac unmarked := may; try discriminate.

Lemma holds_end : holds_ end_action.
Proof. by apply holds_clear. Qed.

Lemma takes_begin {A : Type} key (rest : Prog A) : holds_ rest -> takes_ (begin_action key ;;! rest).
Proof. intros H. apply takes_mark; [discriminate|]. apply holds_set; [discriminate|]. by apply holds_set. Qed.

Lemma takes_action key fallback body : free_ body -> takes_ (action key fallback body).
Proof.
  intros H. apply takes_begin, holds_finally; [|exact holds_end].
  eapply spec_catch; [exact H|]. intros e _. unmarked.
Qed.

Lemma takes_quiet silent key fallback body : free_ body -> takes_ (quiet_action silent key fallback body).
Proof.
  intros H. destruct silent; [apply free_takes; unfold free; may; eapply spec_any; exact H|].
  by apply (takes_action key fallback).
Qed.

Ltac freely := unfold free; may; first [exact I | discriminate].

Lemma takes_suppress {A : Type} ms (rest : Prog A) : takes_ rest -> takes_ (suppressGameStatusRealtime ms ;;! rest).
Proof. intros Hr. apply takes_ask; [done|]. intros now. by apply takes_set. Qed.

Lemma holds_suppress ms : holds_ (suppressGameStatusRealtime ms ;;! end_action).
Proof. intros now. left. split; [discriminate|exact holds_end]. Qed.

(** A handler, by its structure: what comes before the mark, and the action itself. *)
Ltac take_step :=
  lazymatch goal with
  | |- forall _, _ => intros
  | |- takes _ _ ?m =>
      first [apply free_takes; freely; fail
            | lazymatch m with
              | action _ _ _ => apply takes_action; freely
              | quiet_action _ _ _ _ => apply takes_quiet; freely
              | begin_action _ ;;! _ => apply takes_begin
              | when (negb ?b) _ ;;! _ => destruct b; cbn [negb when bind skip]
              | suppressGameStatusRealtime _ ;;! _ => apply takes_suppress
              | set_to _ _ ;;! _ => apply takes_set; [discriminate|]
              | bind (perform _) _ => apply takes_ask; [reflexivity|]
              | bind (match ?x with _ => _ end) _ => destruct x
              | bind _ _ => apply takes_bind; [|freely]
              | match ?x with _ => _ end => destruct x
              | if ?x then _ else _ => destruct x
              | ?f _ _ _ _ _ _ _ _ => unfold f
              | ?f _ _ _ _ _ _ _ => unfold f
              | ?f _ _ _ _ _ _ => unfold f
              | ?f _ _ _ _ _ => unfold f
              | ?f _ _ _ _ => unfold f
              | ?f _ _ _ => unfold f
              | ?f _ _ => unfold f
              | ?f _ => unfold f
              | ?f => unfold f
              end]
  | |- holds _ _ (finally _ end_action) => apply holds_finally; [freely|exact holds_end]
  | |- holds _ _ (finally _ (suppressGameStatusRealtime _ ;;! end_action)) => apply holds_finally; [freely|apply holds_suppress]
  end.
Ltac take := repeat take_step.

Lemma handle_takes options fraction v event : takes_ (handle options fraction v event).
Proof. destruct event; cbn [Organizer.handle]; take. Qed.

Lemma idle_free options fraction v event : idle_event event = true -> free_ (handle options fraction v event).
Proof.
  intros H. destruct event; cbn [idle_event background] in H; try discriminate H; subst; cbn [Organizer.handle]; freely.
Qed.

Section Exact.
Context (options : OrganizerDashboardOptions) (fraction : Z -> Z -> json) (number_text : num -> string) `{Zone}.

(** What the organizer may press, without the four ways around a pending action. *)
Definition presses (v : Store) (m : Prog unit) : Prop :=
  exists tab d event, offers number_text tab d v event /\
    (v PendingAction <> None -> ~ loophole number_text tab d v event) /\ m = handle options fraction v event.

Definition organizer_moves : Config -> Config -> Prop :=
  moves (in_background options fraction) presses (sync_refs options).

Lemma presses_take v m : presses v m -> free_ m \/ no_action (v PendingAction) /\ takes_ m.
Proof.
  intros (tab & d & event & Ho & Hl & ->). destruct (decide (v PendingAction = None)) as [E|E].
  - right. split; [exact E|]. apply handle_takes.
  - left. apply idle_free. destruct (offers_when_busy number_text tab d v E event Ho); [done|]. by destruct (Hl E).
Qed.

(** C17: But for those four ways, the mark tells exactly whether an action is on its way: as
    long as it is absent no handler in progress writes it, and when it is there exactly one
    handler in progress does, to clear it, and the page that is shown disables the rest. *)
Theorem mark_is_exact page :
  rtc organizer_moves (organizer_page options) page ->
  g_store page PendingAction = None /\ Forall free_ (g_pool page) \/
  g_store page PendingAction <> None /\ g_rendered page PendingAction <> None /\
  exists l1 m l2, g_pool page = l1 ++ m :: l2 /\ holds_ m /\ Forall free_ (l1 ++ l2).
Proof.
  intros Hsteps.
  refine (exclusive_moves PendingAction no_action (in_background options fraction) presses (sync_refs options)
    _ presses_take _ _ page Hsteps _).
  - intros r m (event & Hb & ->). by apply idle_free, background_idle.
  - intros s. unfold sync_refs. by rewrite !upd_other by discriminate.
  - left. split; [reflexivity|constructor].
Qed.
End Exact.

(** ** Concrete pages *)

Section Pages.
#[local] Instance home : Zone := fixed_zone 0.

Context (number_text : num -> string).

Definition no_drafts : Drafts := mkDrafts (drafts_of None) (mkSchedulerCard None "").

(** The form that creates a team, filled in. *)
Definition filled (name : string) (s : Store) : Store :=
  upd (app := Organizer) TeamDraftState (fun _ => mkTeamDraft name "ctf@example.org") s.
Definition form_page : Store :=
  filled "gamma" (upd (app := Organizer) FormModeState (fun _ => Some ModeCreate)
    (upd FormEntityState (fun _ => Some ETeam) (initial_store sample_options))).

(** What the organizer does on the page of the teams: some of what it offers. *)
Definition organizer_acts (allowed : Event -> Prop) (v : Store) (m : Prog unit) : Prop :=
  exists event, allowed event /\ offers number_text Teams no_drafts v event /\
    m = handle sample_options (fun _ _ => JNull) v event.
Notation page_step allowed := (step (organizer_acts allowed) (sync_refs sample_options)).
Notation anything := (fun _ : Event => True).

(** One event of the organizer, up to where its handler waits, and the render after it. *)
Definition after (event : Event) (s : Store) : Store * Prog unit :=
  settle s (handle sample_options (fun _ _ => JNull) s event).
Definition shown (event : Event) (s : Store) : Store := sync_refs sample_options (after event s).1.

Lemma one_event (allowed : Event -> Prop) event s l t :
  allowed event -> offers number_text Teams no_drafts s event ->
  rtc (page_step allowed) (mkConfig s s l t)
    (mkConfig (shown event s) (shown event s) (l ++ [(after event s).2]) t).
Proof.
  intros Ha Ho. etrans; [by apply rtc_once, step_event; exists event|].
  etrans; [apply settle_steps|]. unfold shown, after. apply rtc_once, step_render.
Qed.

(** One that does not wait. *)
Lemma one_edit (allowed : Event -> Prop) event s l t :
  allowed event -> offers number_text Teams no_drafts s event -> (after event s).2 = Return tt ->
  rtc (page_step allowed) (mkConfig s s l t) (mkConfig (shown event s) (shown event s) l t).
Proof.
  intros Ha Ho He. etrans; [by apply one_event|]. rewrite He.
  rewrite <-(app_nil_r l) at 2. apply rtc_once, step_finished. by exists (Done tt).
Qed.

Lemma in_form c (v : Store) : c ∈ EntityFormDialog number_text v -> disabled c = false ->
  offers number_text Teams no_drafts v (calls c).
Proof. intros Hc Hd. apply press; [|exact Hd]. unfold OrganizerDashboard. apply elem_of_app. by right. Qed.

Lemma on_page c (v : Store) : c ∈ TeamsTab v -> disabled c = false ->
  offers number_text Teams no_drafts v (calls c).
Proof.
  intros Hc Hd. apply press; [|exact Hd]. unfold OrganizerDashboard, renderOrganizerPanel.
  rewrite !elem_of_app. by left; left.
Qed.

Lemma offered_submit (v : Store) : v FormModeState <> None -> v FormEntityState <> None ->
  submit_disabled (v PendingAction) (formInvalid number_text v) = false -> offers number_text Teams no_drafts v EvSubmitForm.
Proof. intros. by apply loopholes_offered, loop_submit. Qed.

Lemma offered_create (v : Store) : offers number_text Teams no_drafts v (EvOpenCreate ETeam).
Proof. refine (on_page (always "Create Team" _) _ _ _); [by left|done]. Qed.

Lemma offered_edit d (v : Store) : v FormModeState <> None -> v FormEntityState = Some ETeam ->
  team_edit (v TeamDraftState) d -> offers number_text Teams no_drafts v (EvSetTeamDraft d).
Proof. intros. by apply edit, in_team_form. Qed.

(** *** A late answer *)

Definition submitted : Store := shown EvSubmitForm form_page.
Definition reopened : Store := shown (EvOpenCreate ETeam) (shown EvCloseForm submitted).
Definition retyped : Store := shown (EvSetTeamDraft (mkTeamDraft "delta" "")) reopened.

(** A submitted form that is dismissed before its answer (the corner button, the Escape
    key) leaves the submission in progress; the form that is opened and filled in next is
    closed and emptied by the answer to the first one. *)
Theorem late_answer_closes_next_form :
  exists page1 page2 : Config (app := Organizer),
    rtc (page_step anything) (mkConfig form_page form_page [] []) page1 /\
    g_store page1 FormModeState = Some ModeCreate /\ g_store page1 TeamDraftState = mkTeamDraft "delta" "" /\
    g_trace page1 = [] /\
    rtc (page_step (fun _ => False)) page1 page2 /\
    g_store page2 FormModeState = None /\ g_store page2 TeamDraftState = emptyTeamDraft.
Proof.
  set (m := (after EvSubmitForm form_page).2).
  exists (mkConfig retyped retyped [m] []).
  eexists. split_and!; [|reflexivity|reflexivity|reflexivity| | |].
  - etrans; [by apply (one_event _ EvSubmitForm), offered_submit|].
    etrans; [apply (one_edit _ EvCloseForm); [done| |reflexivity]|].
    { refine (in_form (always "Dismiss" EvCloseForm) _ _ _); [by right; right; left|done]. }
    etrans; [by apply (one_edit _ (EvOpenCreate ETeam)); [|apply offered_create|]|].
    apply (one_edit _ (EvSetTeamDraft _)); [done| |reflexivity].
    apply offered_edit; [done|done|apply edit_team_name].
  - apply (thread_steps _ _ online retyped retyped [] m [] []).
  - reflexivity.
  - reflexivity.
Qed.

(** *** A form sent twice *)

(** The teams that were asked to be created. *)
Definition team_requests (t : list Op) : list (option json) :=
  t ≫= fun o => match o with
    | OpFetch req _ => if String.eqb (r_method req) "POST" && String.eqb (r_url req) "/api/admin/teams" then [r_body req] else []
    | _ => []
    end.

Definition toggle : Event := EvSetTeamActive (sample_team 1 "alpha") false.
Definition toggling : Store := shown toggle (initial_store sample_options).
Definition contacted : Store := shown (EvSetTeamDraft (mkTeamDraft "" "ctf@example.org")) (shown (EvOpenCreate ETeam) toggling).
Definition named : Store := shown (EvSetTeamDraft (mkTeamDraft "gamma" "ctf@example.org")) contacted.
Definition sent : Store := shown EvSubmitForm named.
Definition toggled : Outcome unit := run online [] sent (after toggle (initial_store sample_options)).2.
Definition told : Store := sync_refs sample_options (o_store toggled).

(** The call that a handler waits for. *)
Definition waiting (m : Prog unit) : option Op := match m with Do o _ => Some o | _ => None end.

Definition create_gamma : Op :=
  OpFetch (browser_send "POST" "/api/admin/teams" (team_draft_json (mkTeamDraft "gamma" "ctf@example.org"))) PTeam.

(** C18: A form that is submitted while another action is pending can be submitted again
    before it is answered.  The page first has the state of a team being changed, its
    call unanswered and its mark on the page, and the form of a new team filled in; the
    form is submitted, the change of the state ends and takes with it the mark that the
    submission had set: no action is pending now, and yet the creation of the team still
    waits for its answer.  The button of the form is offered and sends the same creation
    once more, while no creation has been answered. *)
Theorem form_sent_twice :
  exists page1 page2 page3 : Config (app := Organizer),
    let s := initial_store sample_options in
    rtc (page_step anything) (mkConfig s s [] []) page1 /\
    g_store page1 PendingAction = Some "team:active:1" /\
    (exists change, waiting <$> g_pool page1 = [Some change] /\ change <> create_gamma) /\
    rtc (page_step (eq EvSubmitForm)) page1 page2 /\
    g_store page2 PendingAction = None /\ waiting <$> g_pool page2 = [Some create_gamma] /\
    offers number_text Teams no_drafts (g_rendered page2) EvSubmitForm /\
    rtc (page_step (eq EvSubmitForm)) page2 page3 /\
    waiting <$> g_pool page3 = [Some create_gamma; Some create_gamma] /\
    team_requests (g_trace page3) = [].
Proof.
  set (m := (after toggle (initial_store sample_options)).2). set (n := (after EvSubmitForm named).2).
  exists (mkConfig named named [m] []), (mkConfig told told [n] (o_trace toggled)). eexists. split_and!.
  - etrans; [apply (one_event _ toggle); [done|]|].
    { refine (on_page (button _ "toggle-team-active-1" toggle) _ _ _); [by right; left|done]. }
    etrans; [by apply (one_edit _ (EvOpenCreate ETeam)); [|apply offered_create|]|].
    etrans; [apply (one_edit _ (EvSetTeamDraft (mkTeamDraft "" "ctf@example.org"))); [done| |reflexivity]|].
    { apply offered_edit; [done|done|apply edit_contact]. }
    apply (one_edit _ (EvSetTeamDraft _)); [done| |reflexivity].
    apply offered_edit; [done|done|apply edit_team_name].
  - reflexivity.
  - eexists. split; [reflexivity|discriminate].
  - etrans; [by apply (one_event _ EvSubmitForm), offered_submit|].
    etrans; [apply (thread_steps _ _ online sent sent [] m [n] [])|].
    apply rtc_once, step_render.
  - reflexivity.
  - reflexivity.
  - by apply offered_submit.
  - by apply (one_event _ EvSubmitForm), offered_submit.
  - reflexivity.
  - reflexivity.
Qed.
End Pages.

Lemma busy_page_offers_witness :
  named PendingAction = Some "team:active:1" /\
  offers (H := fixed_zone 0) (fun _ => "") Teams no_drafts named EvSubmitForm.
Proof.
  split; [reflexivity|].
  refine (proj2 (busy_page_offers (H := fixed_zone 0) (fun _ => "") Teams no_drafts named EvSubmitForm _ _) _);
    [discriminate|reflexivity|]. by apply loop_submit.
Defined.

Lemma one_action_at_a_time_witness :
  let s := initial_store sample_options in
  let m := handle sample_options (fun _ _ => JNull) s (EvAudit false) in
  (settle s m).1 PendingAction = Some "game:scoring-audit" /\ marked_by "game:scoring-audit" (settle s m).1.
Proof.
  intros s m. split; [reflexivity|].
  apply (one_action_at_a_time (H := fixed_zone 0) sample_options (fun _ _ => JNull) (fun _ => "") Scoreboard no_drafts s
    (spinner s "Audit" "game:scoring-audit" (EvAudit false)) "game:scoring-audit" s []
    (mkConfig (settle s m).1 s [(settle s m).2] [])).
  - by left.
  - reflexivity.
  - by left.
  - apply (settle_steps _ _ s s [] m []).
Defined.

(** The audit of the scores, on its way. *)
Lemma mark_is_exact_witness :
  let s := initial_store sample_options in
  let m := handle sample_options (fun _ _ => JNull) s (EvAudit false) in
  exists n l1 l2, [(settle s m).2] = l1 ++ n :: l2 /\ holds PendingAction no_action n.
Proof.
  intros s m.
  destruct (mark_is_exact (H := fixed_zone 0) sample_options (fun _ _ => JNull) (fun _ => "")
    (mkConfig (sync_refs sample_options (settle s m).1) (sync_refs sample_options (settle s m).1) [(settle s m).2] []))
    as [(E & _)|(_ & _ & l1 & n & l2 & E & Hn & _)].
  - apply rtc_once, (move_press _ _ _ s s [] [] m []).
    + exists Scoreboard, no_drafts, (EvAudit false). split_and!; [|by intros []|reflexivity].
      apply (press (H := fixed_zone 0) _ _ _ _ (spinner s "Audit" "game:scoring-audit" (EvAudit false))); [by left|reflexivity].
    + do 3 apply sync_set. by apply sync_waits.
  - discriminate E.
  - exists n, l1, l2. split; [exact E|exact Hn].
Defined.
