(* ===== verification/ApiCalls.v ===== *)
(** * The routes of the tier, and what the pages ask of them

    The files under [app/api] are the routes: the directories are the path, a name in
    brackets stands for any segment, and a file exports a handler per method.  Every
    request that the hooks of the two dashboards make is for a route that exists, with a
    method that it exports, and its answer is read as what that route answers
    ([dashboard_calls_are_typed], [center_calls_are_typed]). *)

From S2P Require Import Prelude JsString JsNumber DashboardUtils UrlParams ApiUtils PlatformApi ReactRuntime ReactRules AttackHighlights AdminTypes.

#[local] Open Scope string_scope.
#[local] Open Scope Z_scope.
#[local] Open Scope list_scope.
#[local] Open Scope js_scope.

(** ** Routes *)

Record ApiRoute := mkApiRoute { ar_path : string; ar_methods : list string }.

Definition segments (path : string) : list string := split_on "/" path.
Definition dynamic (segment : string) : bool := starts_with "[" segment.

Fixpoint matches (pattern path : list string) : bool :=
  match pattern, path with
  | [], [] => true
  | p :: ps, s :: ss => (if dynamic p then negb (is_empty s) else String.eqb p s) && matches ps ss
  | _, _ => false
  end.

(** The route that the names of the files determine, if they do: the only one that
    matches, or else the only one of them without parameters. *)
Definition route_at (table : list ApiRoute) (path : list string) : option ApiRoute :=
  let candidates := bfilter (fun r => matches (segments (ar_path r)) path) table in
  match candidates with
  | [r] => Some r
  | _ => match bfilter (fun r => negb (existsb dynamic (segments (ar_path r)))) candidates with
         | [r] => Some r
         | _ => None
         end
  end.

(** The router of the framework: it finds the route that the names determine. *)
Definition Router : Type := list string -> option ApiRoute.
Definition follows_names (table : list ApiRoute) (router : Router) : Prop :=
  forall path r, route_at table path = Some r -> router path = Some r.

Definition path_of_url (url : string) : string := hd "" (split_on "?" url).

Definition admin_routes : list ApiRoute :=
  [mkApiRoute "/api/admin/teams" ["POST"];
   mkApiRoute "/api/admin/teams/[teamId]" ["PUT"; "DELETE"];
   mkApiRoute "/api/admin/teams/[teamId]/deactivate" ["POST"];
   mkApiRoute "/api/admin/teams/[teamId]/reactivate" ["POST"];
   mkApiRoute "/api/admin/players" ["POST"];
   mkApiRoute "/api/admin/players/[playerId]" ["PUT"; "DELETE"];
   mkApiRoute "/api/admin/players/[playerId]/deactivate" ["POST"];
   mkApiRoute "/api/admin/players/[playerId]/reactivate" ["POST"];
   mkApiRoute "/api/admin/players/[playerId]/wireguard" ["GET"];
   mkApiRoute "/api/admin/players/[playerId]/wireguard/rotate" ["POST"];
   mkApiRoute "/api/admin/players/[playerId]/wireguard/revoke" ["POST"];
   mkApiRoute "/api/admin/challenges" ["POST"];
   mkApiRoute "/api/admin/challenges/[challengeId]" ["PUT"; "DELETE"];
   mkApiRoute "/api/admin/challenges/[challengeId]/deploy" ["POST"];
   mkApiRoute "/api/admin/challenges/[challengeId]/maintenance" ["POST"];
   mkApiRoute "/api/admin/challenges/[challengeId]/resume" ["POST"];
   mkApiRoute "/api/admin/challenges/[challengeId]/rotate-unlock-proof" ["POST"];
   mkApiRoute "/api/admin/challenges/[challengeId]/validate" ["POST"];
   mkApiRoute "/api/admin/deployments" ["GET"];
   mkApiRoute "/api/admin/deployments/[deploymentId]" ["DELETE"];
   mkApiRoute "/api/admin/deployments/reconcile" ["POST"];
   mkApiRoute "/api/admin/access/status" ["GET"];
   mkApiRoute "/api/admin/access/reconcile" ["POST"];
   mkApiRoute "/api/admin/access/teardown" ["POST"];
   mkApiRoute "/api/admin/wireguard/status" ["GET"];
   mkApiRoute "/api/admin/wireguard/reconcile" ["POST"];
   mkApiRoute "/api/admin/wireguard/teardown" ["POST"];
   mkApiRoute "/api/admin/operations/status" ["GET"];
   mkApiRoute "/api/admin/operations/metrics" ["GET"];
   mkApiRoute "/api/admin/runtime-health/report" ["GET"];
   mkApiRoute "/api/admin/game/status" ["GET"];
   mkApiRoute "/api/admin/game/match" ["GET"];
   mkApiRoute "/api/admin/game/match/start" ["POST"];
   mkApiRoute "/api/admin/game/match/stop" ["POST"];
   mkApiRoute "/api/admin/game/match/pause" ["POST"];
   mkApiRoute "/api/admin/game/match/resume" ["POST"];
   mkApiRoute "/api/admin/game/match/schedule" ["PUT"];
   mkApiRoute "/api/admin/game/scheduler" ["GET"];
   mkApiRoute "/api/admin/game/scheduler/start" ["POST"];
   mkApiRoute "/api/admin/game/scheduler/stop" ["POST"];
   mkApiRoute "/api/admin/game/scheduler/interval" ["PUT"];
   mkApiRoute "/api/admin/game/scheduler/events" ["GET"];
   mkApiRoute "/api/admin/game/ticks/advance" ["POST"];
   mkApiRoute "/api/admin/game/scoreboard" ["GET"];
   mkApiRoute "/api/admin/game/scoreboard/freeze" ["GET"; "POST"];
   mkApiRoute "/api/admin/game/scoreboard/unfreeze" ["POST"];
   mkApiRoute "/api/admin/game/scoring/audit" ["GET"];
   mkApiRoute "/api/admin/game/scoring/recompute" ["POST"];
   mkApiRoute "/api/admin/game/checker-runs" ["GET"];
   mkApiRoute "/api/admin/game/attacks" ["GET"];
   mkApiRoute "/api/admin/realtime/game/attacks/stream" ["GET"];
   mkApiRoute "/api/admin/realtime/game/checker-runs/stream" ["GET"];
   mkApiRoute "/api/admin/realtime/game/scheduler/events/stream" ["GET"];
   mkApiRoute "/api/admin/realtime/game/scoreboard/stream" ["GET"];
   mkApiRoute "/api/admin/realtime/game/status/stream" ["GET"];
   mkApiRoute "/api/admin/platform/settings" ["GET"; "PUT"];
   mkApiRoute "/api/admin/platform/settings/reload" ["POST"];
   mkApiRoute "/api/admin/announcements" ["GET"; "POST"];
   mkApiRoute "/api/admin/announcements/[announcementId]" ["DELETE"];
   mkApiRoute "/api/admin/import/teams" ["POST"]].

Definition platform_routes : list ApiRoute :=
  [mkApiRoute "/api/platform/announcements" ["GET"];
   mkApiRoute "/api/platform/attacks" ["GET"];
   mkApiRoute "/api/platform/submit" ["POST"];
   mkApiRoute "/api/platform/me/wireguard" ["GET"];
   mkApiRoute "/api/platform/challenges/[challengeId]/source" ["GET"];
   mkApiRoute "/api/platform/team/services" ["GET"];
   mkApiRoute "/api/platform/services/[challengeId]/unlock" ["POST"];
   mkApiRoute "/api/platform/services/[challengeId]/ssh-session" ["POST"];
   mkApiRoute "/api/platform/services/[challengeId]/reset/restart" ["POST"];
   mkApiRoute "/api/platform/services/[challengeId]/reset/factory" ["POST"];
   mkApiRoute "/api/platform/realtime/attacks/stream" ["GET"];
   mkApiRoute "/api/platform/realtime/scoreboard/stream" ["GET"];
   mkApiRoute "/api/platform/session/login" ["POST"];
   mkApiRoute "/api/platform/session/logout" ["POST"];
   mkApiRoute "/api/platform/session/register" ["POST"];
   mkApiRoute "/api/platform/session/profile" ["PUT"];
   mkApiRoute "/api/platform/session/password" ["PUT"];
   mkApiRoute "/api/platform/session/team" ["POST"];
   mkApiRoute "/api/platform/session/team/captain" ["POST"];
   mkApiRoute "/api/platform/session/team/members" ["GET"]].

(** The file under [app/docs]: the OpenAPI document. *)
Definition docs_routes : list ApiRoute :=
  [mkApiRoute "/docs/platform-api-v2.openapi.yaml" ["GET"]].

(** ** Requests with the type of their answer *)

Section Typing.
Context {app : App} `{!EqDecision Payload}.
Context (table : list ApiRoute) (answers : list (string * string * Payload)).

(** The request finds a route that exports its method and answers a [p]. *)
Definition accepted (router : Router) (method : string) (path : list string) (p : Payload) : bool :=
  match router path with
  | Some r => bool_decide (method ∈ ar_methods r) && bool_decide ((method, ar_path r, p) ∈ answers)
  | None => false
  end.

Definition typed_by (router : Router) (o : Op) : Prop :=
  match o with
  | OpFetch req p => accepted router (r_method req) (segments (path_of_url (r_url req))) p = true
  | _ => True
  end.

Notation accepts := (accepted (route_at table)).

(** By what the names determine, which every router follows. *)
Definition well_typed : Op -> Prop := typed_by (route_at table).

Lemma well_typed_by router o : follows_names table router -> well_typed o -> typed_by router o.
Proof.
  intros Hr. destruct o; cbn; try done. unfold accepted. destruct (route_at table _) as [r|] eqn:E; [|done].
  by rewrite (Hr _ _ E).
Qed.

(** *** Segments that no route names *)

Definition words : list string := table ≫= fun r => bfilter (fun w => negb (dynamic w)) (segments (ar_path r)).

Definition alike (x y : string) : Prop :=
  is_empty x = is_empty y /\ Forall (fun w => String.eqb w x = String.eqb w y) words.

Lemma alike_refl x : alike x x.
Proof. split; [done|]. by apply list.Forall_true. Qed.

Definition alike_b (x y : string) : bool :=
  Bool.eqb (is_empty x) (is_empty y) && forallb (fun w => Bool.eqb (String.eqb w x) (String.eqb w y)) words.

Lemma alike_by_test x y : alike_b x y = true -> alike x y.
Proof.
  intros [He Hw]%andb_true_iff. split; [by apply eqb_prop|]. rewrite forallb_forall in Hw.
  apply list.Forall_forall. intros w Hin%list_elem_of_In. by apply eqb_prop, Hw.
Qed.

Lemma matches_alike r path path' :
  r ∈ table -> Forall2 alike path path' -> matches (segments (ar_path r)) path = matches (segments (ar_path r)) path'.
Proof.
  intros Hr. assert (Hw : Forall (fun w => dynamic w = true \/ w ∈ words) (segments (ar_path r))).
  { apply list.Forall_forall. intros w Hw. destruct (dynamic w) eqn:Ed; [by left|right].
    apply list_elem_of_bind. exists r. split; [|exact Hr]. apply elem_of_bfilter. by rewrite Ed. }
  generalize dependent (segments (ar_path r)). intros pattern Hw H. revert pattern Hw.
  induction H as [|x y l k [He Hxy] _ IH]; intros [|w pattern] Hw; [done..|].
  apply list.Forall_cons in Hw as [Hw Hrest]. cbn [matches]. rewrite (IH pattern Hrest).
  destruct Hw as [->|Hw]; [by rewrite He|]. destruct (dynamic w); [by rewrite He|].
  by rewrite (proj1 (list.Forall_forall _ _) Hxy w Hw).
Qed.

Lemma route_at_alike path path' : Forall2 alike path path' -> route_at table path = route_at table path'.
Proof.
  intros H. unfold route_at.
  assert (E : bfilter (fun r => matches (segments (ar_path r)) path) table =
              bfilter (fun r => matches (segments (ar_path r)) path') table).
  { apply bfilter_ext. intros r Hr. by apply matches_alike. }
  by rewrite E.
Qed.

Lemma accepts_alike m path path' p : Forall2 alike path path' -> accepts m path p = accepts m path' p.
Proof. intros H. unfold accepted. by rewrite (route_at_alike path path'). Qed.

(** *** Addresses *)

Definition is_query (q : string) : Prop := q = "" \/ exists rest, q = String "?" rest.

Lemma path_of_query a q : free_of "?" a -> is_query q -> path_of_url (a ++ₛ q) = a.
Proof.
  intros Ha [->|(rest & ->)]; unfold path_of_url.
  - by rewrite app_nil_s, split_on_free.
  - by rewrite split_on_app.
Qed.

Lemma segments_app a b : segments (a ++ₛ String "/" b) = segments a ++ segments b.
Proof.
  unfold segments. induction a as [|c a IH]; [done|]. cbn [String.append split_on]. destruct (Ascii.eqb c "/"); [by rewrite IH|].
  rewrite IH. destruct (split_on "/" a) eqn:E; [by destruct (split_on_nonempty "/" a)|done].
Qed.

(** What an identifier is like, as a segment. *)
Definition id_like (x : string) : Prop := free_of "/" x /\ free_of "?" x /\ alike x "1".

Definition call (method url : string) (p : Payload) : Prop :=
  accepts method (segments (path_of_url url)) p = true.

Lemma call_query m a q p : free_of "?" a -> is_query q -> call m a p -> call m (a ++ₛ q) p.
Proof.
  intros Ha Hq. unfold call. rewrite path_of_query by done. unfold path_of_url. by rewrite split_on_free.
Qed.

Lemma call_plain m url p : free_of "?" url -> call m url p <-> accepts m (segments url) p = true.
Proof. intros H. unfold call, path_of_url. by rewrite split_on_free. Qed.

Lemma call_id m pre x p :
  free_of "?" pre -> id_like x -> call m (pre ++ₛ String "/" "1") p -> call m (pre ++ₛ String "/" x) p.
Proof.
  intros Hpre (Hs & Hq & Hx). rewrite !call_plain by (apply free_of_app; [done|first [exact Hq | done]]).
  rewrite !segments_app. intros <-. apply accepts_alike. apply Forall2_app.
  - apply Forall_Forall2_diag, list.Forall_true, alike_refl.
  - unfold segments. rewrite split_on_free by done. by constructor.
Qed.

Lemma call_id_then m pre x post p :
  free_of "?" pre -> free_of "?" post -> id_like x ->
  call m (pre ++ₛ String "/" ("1" ++ₛ String "/" post)) p -> call m (pre ++ₛ String "/" (x ++ₛ String "/" post)) p.
Proof.
  intros Hpre Hpost (Hs & Hq & Hx).
  assert (Hf : forall y, free_of "?" y -> free_of "?" (pre ++ₛ String "/" (y ++ₛ String "/" post))).
  { intros y Hy. apply free_of_app; [done|]. change (free_of "?" ("/" ++ₛ (y ++ₛ ("/" ++ₛ post)))). by repeat apply free_of_app. }
  rewrite !call_plain by (by apply Hf). rewrite !segments_app. intros <-. apply accepts_alike.
  apply Forall2_app; [apply Forall_Forall2_diag, list.Forall_true, alike_refl|]. apply Forall2_app.
  - unfold segments. rewrite split_on_free by done. by constructor.
  - apply Forall_Forall2_diag, list.Forall_true, alike_refl.
Qed.
End Typing.

(** ** Identifiers *)

(** The characters of a number, other than [NaN] and the infinities. *)
Definition num_char (c : ascii) : bool :=
  is_digit c || has_char (Ascii.eqb c) "-.e+".

Definition number_chars (s : string) : Prop := has_char (fun c => negb (num_char c)) s = false.
Definition number_like (s : string) : Prop := is_empty s = false /\ number_chars s.

Lemma number_chars_app a b : number_chars a -> number_chars b -> number_chars (a ++ₛ b).
Proof. unfold number_chars. intros Ha Hb. by rewrite has_char_app, Ha, Hb. Qed.

Lemma digits_like s : all_digits s -> number_chars s.
Proof.
  unfold all_digits, number_chars. induction s as [|c s IH]; [done|]. cbn. intros [Hc Hs]%orb_false_iff.
  apply negb_false_iff in Hc. unfold num_char. rewrite Hc. by apply IH.
Qed.

Lemma shortest_go_pos k a p : 0 < a -> 0 < shortest_go k a p.
Proof.
  intros Ha. revert p. induction k as [|k IH]; intros p; [done|]. cbn [shortest_go].
  case_bool_decide as H1; [apply round_double_sgn in H1; lia|].
  case_bool_decide as H2; [apply round_double_sgn in H2; lia|]. apply IH.
Qed.

Lemma zeros_value s : drop_end (fun c => Ascii.eqb c "0"%char) s = "" -> digits_value 0 s = 0.
Proof.
  induction s as [|c s IH]; [done|]. cbn. destruct (drop_end _ s) eqn:E; [|done].
  destruct (Ascii.eqb_spec c "0"%char) as [->|]; [|done]. intros _. exact (IH eq_refl).
Qed.

Lemma drop_end_digits p s : all_digits s -> all_digits (drop_end p s).
Proof.
  unfold all_digits. induction s as [|c s IH]; [done|]. cbn. intros [Hc Hs]%orb_false_iff.
  destruct (drop_end p s) eqn:E; [destruct (p c); [done|]|]; cbn; rewrite Hc; [done|]. by apply IH.
Qed.

Lemma pos_to_string_like a : 0 <= a -> number_like (pos_to_string a).
Proof.
  intros Ha. destruct (decide (a = 0)) as [->|Hn]; [by split|].
  assert (Hp : 0 < shortest a) by (apply shortest_go_pos; lia).
  unfold pos_to_string. set (ds := dec (shortest a)). assert (Hd : all_digits ds) by (apply dec_digits; lia).
  destruct (a <? 10 ^ 21).
  - split; [apply dec_nonempty|by apply digits_like].
  - unfold exponent_form. pose proof (drop_end_digits (fun c => Ascii.eqb c "0"%char) ds Hd) as Hr.
    assert (Hx : all_digits (dec (Z.of_nat (String.length ds - 1)))) by (apply dec_digits; lia).
    destruct (drop_end _ ds) as [|c r] eqn:E.
    { apply zeros_value in E. unfold ds in E. rewrite dec_value in E; lia. }
    assert (Hc : num_char c = true /\ all_digits r).
    { unfold all_digits in Hr. cbn in Hr. apply orb_false_iff in Hr as [Hc Hr]. apply negb_false_iff in Hc.
      unfold num_char. by rewrite Hc. }
    destruct Hc as [Hc Hs]. split; [by destruct r|].
    assert (H1 : number_chars (String c "")) by (unfold number_chars; cbn -[num_char]; by rewrite Hc).
    destruct r as [|d r]; repeat apply number_chars_app; first [exact H1 | by apply digits_like | done].
Qed.

Lemma num_to_string_like n : number_like (num_to_string n).
Proof.
  unfold num_to_string. destruct (n <? 0) eqn:E; boolify; [|by apply pos_to_string_like].
  destruct (pos_to_string_like (- n) ltac:(lia)) as [_ H]. by split.
Qed.

Lemma like_free c s : num_char c = false -> number_like s -> free_of c s.
Proof.
  unfold number_like, free_of. intros Hc [_ H]. induction s as [|d s IH]; [done|]. cbn in *.
  apply orb_false_iff in H as [Hd H]. apply negb_false_iff in Hd.
  destruct (Ascii.eqb_spec d c) as [->|]; [congruence|]. by apply IH.
Qed.

(** No word of a table could be a number. *)
Definition no_numbers (table : list ApiRoute) : bool :=
  forallb (fun w => is_empty w || has_char (fun c => negb (num_char c)) w) (words table).

Lemma number_apart w x : is_empty w || has_char (fun c => negb (num_char c)) w = true -> number_like x -> String.eqb w x = false.
Proof.
  intros Hw [He Hx]. destruct (String.eqb_spec w x) as [->|]; [|done].
  rewrite He, Hx in Hw. discriminate Hw.
Qed.

Lemma number_id table x : no_numbers table = true -> number_like x -> id_like table x.
Proof.
  intros Ht Hx. split_and!; [by apply like_free|by apply like_free|]. split; [apply Hx|].
  apply list.Forall_forall. intros w Hw. unfold no_numbers in Ht. rewrite forallb_forall in Ht.
  apply list_elem_of_In in Hw. rewrite !number_apart; [done|..]; try exact (Ht w Hw); [by split|exact Hx].
Qed.
