(* ===== verification/DashboardCalls.v ===== *)
(** * The calls of the organizers' dashboard

    Every request of the hook ([components/admin/use-organizer-dashboard.ts]) is for a
    route under [app/api/admin] that exists, with a method it exports, and its answer is
    read as what [lib/admin-api.ts] says that the route answers. *)

From S2P Require Import Prelude JsString JsNumber DashboardUtils UrlParams ApiUtils PlatformApi ReactRuntime ReactRules AttackHighlights AdminTypes OrganizerState Organizer ApiCalls.

#[local] Open Scope string_scope.
#[local] Open Scope Z_scope.
#[local] Open Scope list_scope.
#[local] Open Scope js_scope.

#[export] Instance OrganizerPayload_eq_dec : EqDecision OrganizerPayload.
Proof. solve_decision. Defined.

(** What the routes answer.  The routes that delete and those that tear down answer
    nothing that is read. *)
Definition organizer_answers : list (string * string * OrganizerPayload) :=
  [("POST", "/api/admin/teams", PTeam);
   ("PUT", "/api/admin/teams/[teamId]", PTeam);
   ("DELETE", "/api/admin/teams/[teamId]", PVoid);
   ("POST", "/api/admin/teams/[teamId]/deactivate", PTeam);
   ("POST", "/api/admin/teams/[teamId]/reactivate", PTeam);
   ("POST", "/api/admin/players", PPlayer);
   ("PUT", "/api/admin/players/[playerId]", PPlayer);
   ("DELETE", "/api/admin/players/[playerId]", PVoid);
   ("POST", "/api/admin/players/[playerId]/deactivate", PPlayer);
   ("POST", "/api/admin/players/[playerId]/reactivate", PPlayer);
   ("GET", "/api/admin/players/[playerId]/wireguard", PWireGuardPeer);
   ("POST", "/api/admin/players/[playerId]/wireguard/rotate", PWireGuardPeer);
   ("POST", "/api/admin/players/[playerId]/wireguard/revoke", PWireGuardPeer);
   ("POST", "/api/admin/challenges", PChallenge);
   ("PUT", "/api/admin/challenges/[challengeId]", PChallenge);
   ("DELETE", "/api/admin/challenges/[challengeId]", PVoid);
   ("POST", "/api/admin/challenges/[challengeId]/maintenance", PChallenge);
   ("POST", "/api/admin/challenges/[challengeId]/resume", PChallenge);
   ("POST", "/api/admin/challenges/[challengeId]/validate", PValidation);
   ("POST", "/api/admin/challenges/[challengeId]/deploy", PDeployment);
   ("GET", "/api/admin/deployments", PDeployments);
   ("DELETE", "/api/admin/deployments/[deploymentId]", PVoid);
   ("POST", "/api/admin/deployments/reconcile", PReconcile);
   ("GET", "/api/admin/access/status", PAccessStatus);
   ("POST", "/api/admin/access/reconcile", PAccessStatus);
   ("POST", "/api/admin/access/teardown", PVoid);
   ("GET", "/api/admin/wireguard/status", PGatewayStatus);
   ("POST", "/api/admin/wireguard/reconcile", PGatewayStatus);
   ("POST", "/api/admin/wireguard/teardown", PVoid);
   ("GET", "/api/admin/operations/status", POperationsStatus);
   ("GET", "/api/admin/operations/metrics", PServiceMetrics);
   ("GET", "/api/admin/runtime-health/report", PEvidenceReport);
   ("GET", "/api/admin/game/status", PGameStatus);
   ("POST", "/api/admin/game/match/start", PMatch);
   ("POST", "/api/admin/game/match/stop", PMatch);
   ("POST", "/api/admin/game/match/pause", PMatch);
   ("POST", "/api/admin/game/match/resume", PMatch);
   ("PUT", "/api/admin/game/match/schedule", PMatch);
   ("POST", "/api/admin/game/scheduler/start", PScheduler);
   ("POST", "/api/admin/game/scheduler/stop", PScheduler);
   ("PUT", "/api/admin/game/scheduler/interval", PScheduler);
   ("GET", "/api/admin/game/scheduler/events", PSchedulerEventPage);
   ("POST", "/api/admin/game/ticks/advance", PTick);
   ("GET", "/api/admin/game/scoreboard", PScoreRows);
   ("GET", "/api/admin/game/scoring/audit", PScoringAudit);
   ("POST", "/api/admin/game/scoring/recompute", PScoreRows);
   ("GET", "/api/admin/game/checker-runs", PCheckerRunPage);
   ("GET", "/api/admin/game/attacks", PAttackPage)].

Notation organizer_typed := (well_typed (app := OrganizerState.Organizer) admin_routes organizer_answers).

Lemma admin_words : no_numbers admin_routes = true.
Proof. vm_compute. reflexivity. Qed.

Lemma buildQueryString_query query : is_query (buildQueryString query).
Proof. unfold buildQueryString. destruct (is_empty _); [by left|right; by eexists]. Qed.

(** A call is one of a few shapes: to a fixed address, to a row, to an operation on a
    row, with a query. *)
Ltac collection pre :=
  lazymatch pre with
  | "/api/admin/teams/" => constr:("/api/admin/teams")
  | "/api/admin/players/" => constr:("/api/admin/players")
  | "/api/admin/challenges/" => constr:("/api/admin/challenges")
  | "/api/admin/deployments/" => constr:("/api/admin/deployments")
  end.

Ltac typed_row pre :=
  let c := collection pre in
  refine (call_id _ _ _ c _ _ (eq_refl) (number_id _ _ admin_words (num_to_string_like _)) _); vm_compute; reflexivity.

Ltac typed_operation pre op :=
  let c := collection pre in
  refine (call_id_then _ _ _ c _ op _ (eq_refl) (eq_refl) (number_id _ _ admin_words (num_to_string_like _)) _);
  vm_compute; reflexivity.

Ltac typed_call :=
  lazymatch goal with
  | |- well_typed _ _ (OpFetch ?req _) =>
      let url := eval cbn [browser_get browser_send browser_call r_url] in (r_url req) in
      let url := eval unfold challenge_path, player_wireguard_path in url in
      lazymatch url with
      | ?pre ++ₛ num_to_string _ => typed_row pre
      | ?pre ++ₛ num_to_string _ ++ₛ "/" ++ₛ (if ?b then _ else _) => destruct b; typed_call
      | ?pre ++ₛ num_to_string _ ++ₛ "/" ++ₛ ?op => typed_operation pre op
      | ?pre ++ₛ num_to_string _ ++ₛ String "/" ?op => typed_operation pre op
      | (?pre ++ₛ num_to_string _ ++ₛ String "/" ?op) ++ₛ "/" ++ₛ ?op' =>
          let o := eval vm_compute in (op ++ₛ "/" ++ₛ op') in
          unfold player_wireguard_path; rewrite !app_assoc_s; typed_operation pre o
      | ?a ++ₛ _ => refine (call_query _ _ _ a _ _ (eq_refl) (buildQueryString_query _) _); vm_compute; reflexivity
      | _ => vm_compute; reflexivity
      end
  | |- well_typed _ _ _ => exact I
  end.

Section Handlers.
Context (options : OrganizerDashboardOptions) (fraction : Z -> Z -> json).

Lemma typed_handle v event : spec any_write organizer_typed any any (handle options fraction v event).
Proof. destruct event; cbn [handle]; repeat calls_step; typed_call. Qed.

(** C23: Every request of the page, however its handlers interleave, finds a route that exists,
    with a method that it exports, and reads its answer as what that route answers, by any
    router that follows the names of the files. *)
Theorem dashboard_calls_are_typed router page :
  follows_names admin_routes router ->
  rtc (organizer_step options fraction) (organizer_page options) page ->
  Forall (typed_by organizer_answers router) (g_trace page).
Proof.
  intros Hr Hsteps.
  destruct (page_invariant (fun v m => exists event, m = handle options fraction v event) (sync_refs options)
    any_write organizer_typed (fun _ => True) (organizer_page options) page) as (_ & _ & H); try done.
  - intros r m (event & ->). apply typed_handle.
  - eapply list.Forall_impl; [exact H|]. intros o. by apply well_typed_by.
Qed.
End Handlers.

(** A key that is rotated. *)
Lemma dashboard_calls_are_typed_witness :
  let s := initial_store sample_options in
  let player := mkAdminPlayer 7 1 "Alpha" "Ann" "ann@example.org" "player" "wg7" "10.0.0.7" "active" "" None "" true None in
  let trace := o_trace (run offline [] s (handle sample_options (fun _ _ => JNull) s (EvRotate player))) in
  length trace = 1%nat /\ Forall (typed_by organizer_answers (route_at admin_routes)) trace.
Proof.
  intros s player trace. split; [vm_compute; reflexivity|].
  apply (dashboard_calls_are_typed sample_options (fun _ _ => JNull) (route_at admin_routes)
    (let o := run offline [] s (handle sample_options (fun _ _ => JNull) s (EvRotate player)) in
     mkConfig (o_store o) s [] (o_trace o))).
  - exact (fun _ _ H => H).
  - apply event_steps. by exists (EvRotate player).
Defined.
