(* ===== verification/CenterCalls.v ===== *)
(** * The calls of the control centre

    The requests of the participants' hook ([components/dashboard/use-control-center.ts])
    against the routes under [app/api/platform], as [DashboardCalls] for the organizers. *)

From S2P Require Import Prelude JsString JsNumber DashboardUtils UrlParams ApiUtils PlatformApi ReactRuntime ReactRules AttackHighlights DashboardTypes ControlCenter ControlCenterPage ApiCalls.

#[local] Open Scope string_scope.
#[local] Open Scope Z_scope.
#[local] Open Scope list_scope.
#[local] Open Scope js_scope.

#[export] Instance CenterPayload_eq_dec : EqDecision CenterPayload.
Proof. solve_decision. Defined.

(** What the routes answer; the answers of an unlock and of a restart are not read. *)
Definition center_answers : list (string * string * CenterPayload) :=
  [("GET", "/api/platform/team/services", PStates);
   ("GET", "/api/platform/attacks", PAttacks);
   ("POST", "/api/platform/services/[challengeId]/unlock", PUnlock);
   ("POST", "/api/platform/services/[challengeId]/ssh-session", PSession);
   ("POST", "/api/platform/services/[challengeId]/reset/factory", PReset);
   ("POST", "/api/platform/services/[challengeId]/reset/restart", PRestart)].

Notation center_typed := (well_typed (app := ControlCenterApp) platform_routes center_answers).

Lemma platform_words : no_numbers platform_routes = true.
Proof. vm_compute. reflexivity. Qed.

(** The text of any number. *)
Definition number_or_not (s : string) : Prop := number_like s \/ s ∈ ["NaN"; "Infinity"; "-Infinity"].

Lemma number_or_not_id s : number_or_not s -> id_like platform_routes s.
Proof.
  intros [H|H]; [by apply number_id|].
  repeat (apply elem_of_cons in H as [->|H]; [split_and!; [done|done|by apply alike_by_test; vm_compute]|]). inversion H.
Qed.

Lemma buildAttackQuery_query filters : is_query (buildAttackQuery filters).
Proof. unfold buildAttackQuery. destruct (is_empty _); [by left|right; by eexists]. Qed.

Ltac center_call text :=
  lazymatch goal with
  | |- well_typed _ _ (OpFetch ?req _) =>
      let url := eval cbn [browser_get browser_send browser_call r_url] in (r_url req) in
      let url := eval unfold service_url in url in
      lazymatch url with
      | _ ++ₛ _ ++ₛ "/" ++ₛ ?op =>
          refine (call_id_then _ _ _ "/api/platform/services" _ op _ (eq_refl) (eq_refl) (number_or_not_id _ (text _)) _);
          vm_compute; reflexivity
      | ?a ++ₛ buildAttackQuery _ =>
          refine (call_query _ _ _ a _ _ (eq_refl) (buildAttackQuery_query _) _); vm_compute; reflexivity
      | _ => vm_compute; reflexivity
      end
  | |- well_typed _ _ _ => exact I
  end.

Section Handlers.
Context (number_text : num -> string) (options : ControlCenterOptions).
Hypothesis texts : forall n, number_or_not (number_text n).

Lemma center_handle_typed v event : spec any_write center_typed any any (handle number_text v event).
Proof. destruct event; cbn [handle]; repeat calls_step; center_call texts. Qed.

(** Every request of the control centre, however its handlers interleave, finds a route
    with its method, and reads its answer as what that route answers. *)
Theorem center_calls_are_typed router page :
  follows_names platform_routes router ->
  rtc (center_step number_text) (center_page options) page ->
  Forall (typed_by center_answers router) (g_trace page).
Proof.
  intros Hr Hsteps.
  destruct (page_invariant (fun v m => exists event, m = handle number_text v event) sync_refs
    any_write center_typed (fun _ => True) (center_page options) page) as (_ & _ & H); try done.
  - intros r m (event & ->). apply center_handle_typed.
  - eapply list.Forall_impl; [exact H|]. intros o. by apply well_typed_by.
Qed.
End Handlers.

(** The restart of a service. *)
Lemma center_calls_are_typed_witness :
  let s := initial_store sample_center in
  let trace := o_trace (run offline [] s (handle no_text s (EvRequestRestart (sample_service "svc-8" 8 true)))) in
  length trace = 1%nat /\ Forall (typed_by center_answers (route_at platform_routes)) trace.
Proof.
  intros s trace. split; [vm_compute; reflexivity|].
  refine (center_calls_are_typed no_text sample_center _ (route_at platform_routes)
    (let o := run offline [] s (handle no_text s (EvRequestRestart (sample_service "svc-8" 8 true))) in
     mkConfig (o_store o) s [] (o_trace o)) _ _).
  - intros n. left. by split.
  - exact (fun _ _ H => H).
  - apply event_steps. by exists (EvRequestRestart (sample_service "svc-8" 8 true)).
Defined.
