(* ===== verification/Pages.v ===== *)
(** * The pages: who sees them, and where the others are sent

    The redirections of the server-rendered pages ([app/login/page.tsx],
    [app/admin/layout.tsx]) behind those of the proxy ([proxy.ts]), and the navigation of a
    browser that follows them; the operations summary of the organizers' frame
    ([components/admin/organizer-status-summary.tsx]); the documents that the tier serves
    ([lib/repo-docs.ts]); dates in the pages ([lib/date-format.ts]). *)

From S2P Require Import Prelude JsString JsNumber ApiUtils Io ApiHandler SessionToken Session PlatformApi ReactRuntime AdminTypes Tier JsDate.

#[local] Open Scope string_scope.
#[local] Open Scope Z_scope.
#[local] Open Scope list_scope.
#[local] Open Scope js_scope.

(** ** The gates *)

(** What a page answers: itself, with the notice of a deactivated account or without,
    or a redirection; the proxy may refuse the request.  At other paths there is no page:
    a route, a file or nothing. *)
Inductive PageAnswer :=
| Shown (deactivated_notice : bool)
| Redirected (path : string)
| NoPage
| NotAllowed (reply : Reply).

Definition role_of (session : ParticipantSession) : option string := v_role <$> s_claims session.

(** The pages that anybody sees, and those that the layout of [/admin] wraps. *)
Definition open_pages : list string :=
  ["/"; "/scoreboard"; "/services"; "/attacks"; "/docs/participant"; "/docs/platform-api"].

Definition organizer_pages : list string :=
  ["/admin"; "/admin/game"; "/admin/scoreboard"; "/admin/attacks"; "/admin/teams"; "/admin/players";
   "/admin/challenges"; "/admin/deployments"; "/admin/audit"].

(** The pages that moved. *)
Definition moved_pages : list (string * string) :=
  [("/attacks/map", "/attacks"); ("/attacks/table", "/attacks"); ("/docs/platform-manual.md", "/docs/participant")].

Definition moved_to (path : string) : option string :=
  snd <$> find_first (fun entry => String.eqb entry.1 path) moved_pages.

Definition is_among (paths : list string) (path : string) : bool := existsb (String.eqb path) paths.

(** A path under [/admin], whose pages the layout wraps. *)
Definition under_admin (path : string) : bool := String.eqb path "/admin" || starts_with "/admin/" path.

Section Gates.
Variable hmac : list Z -> list Z -> list Z.
Variable json_parse : list Z -> option json.
Variable url_origin : string -> option string.

Definition ParticipantLoginPage (c : Ctx) : Io PageAnswer :=
  let! session := getParticipantSession hmac json_parse c in
  Ret (if authenticated session then Redirected "/services" else Shown (deactivated session)).

Definition AdminLayout (c : Ctx) : Io PageAnswer :=
  let! session := getParticipantSession hmac json_parse c in
  Ret (if negb (authenticated session) then Redirected "/login"
       else if negb (bool_decide (role_of session = Some "organizer")) then Redirected "/"
       else Shown false).

(** The page that is not there, for an organizer; the others see what the layout says. *)
Definition AdminAPIPage (c : Ctx) : Io PageAnswer :=
  let! answer := AdminLayout c in
  Ret (match answer with Shown _ => NoPage | _ => answer end).

(** The page at a path. *)
Definition page_gate (c : Ctx) (path : string) : Io PageAnswer :=
  if String.eqb path "/login" then ParticipantLoginPage c
  else if String.eqb path "/admin/api" then AdminAPIPage c
  else if is_among organizer_pages path then AdminLayout c
  else match moved_to path with
       | Some target => Ret (Redirected target)
       | None => Ret (if is_among open_pages path then Shown false else NoPage)
       end.

(** A visit: the proxy, where it is, and then the page. *)
Definition visit (c : Ctx) (b : Browser) (path : string) : Io PageAnswer :=
  if proxied path then
    let! answer := proxy hmac json_parse url_origin c (sent_by b (browser_get path)) in
    match answer with
    | Next => page_gate c path
    | RedirectTo target => Ret (Redirected target)
    | Refused reply => Ret (NotAllowed reply)
    end
  else page_gate c path.

(** The browser follows redirections; each request has its own clock and cookie. *)
Fixpoint navigate (cs : list Ctx) (b : Browser) (path : string) : Io (option (string * PageAnswer)) :=
  match cs with
  | [] => Ret None
  | c :: cs =>
      let! answer := visit c b path in
      match answer with
      | Redirected target => navigate cs b target
      | _ => Ret (Some (path, answer))
      end
  end.

(** ** What the gates let happen *)

Lemma session_returns up t c :
  exists t' s, Io.run up t (getParticipantSession hmac json_parse c) = (t', Done s).
Proof.
  destruct (Io.run up t (getParticipantSession hmac json_parse c)) as [t' [s|e]] eqn:E; [by exists t', s|exfalso].
  assert (H : forall token src u e, Io.run up t (validated_session (env c) token src) <> (u, Thrown e)).
  { intros token src u e'. unfold validated_session. rewrite run_let.
    pose proof (validate_spec (env c) token up t) as Hv.
    destruct (Io.run up t (validateParticipantSessionWithAPI _ _)) as [u' [[v| |]|err]]; done. }
  unfold getParticipantSession in E. destruct (trimmed (AD_PLATFORM_TEAM_JWT (env c))); [by eapply H|].
  destruct (trimmed (session_cookie c)) as [token|]; [|done]. destruct (verify _ _ _ _) as [claims|]; [|done].
  destruct (truthy claims); [by eapply H|done].
Qed.

(** Where a page can send the browser. *)
Definition sends_to (targets : list string) (answer : PageAnswer) : Prop :=
  match answer with
  | Redirected target => target ∈ targets
  | _ => True
  end.

(** The paths that a page at [path] may send the browser to. *)
Definition targets (path : string) : list string :=
  if String.eqb path "/login" then ["/services"]
  else if starts_with "/admin" path then ["/login"; "/"]
  else option_list (moved_to path).

Lemma is_among_spec paths path : is_among paths path = true <-> path ∈ paths.
Proof.
  unfold is_among. rewrite existsb_exists. split.
  - intros (x & Hx & ->%String.eqb_eq). by apply list_elem_of_In.
  - intros H. exists path. split; [by apply list_elem_of_In|apply String.eqb_refl].
Qed.

Lemma layout_answers up t c :
  exists t' a, Io.run up t (AdminLayout c) = (t', Done a) /\ sends_to ["/login"; "/"] a.
Proof.
  unfold AdminLayout. rewrite run_let. destruct (session_returns up t c) as (t' & s & ->).
  cbn [Io.run]. eexists _, _. split; [reflexivity|].
  destruct (negb (authenticated s)); [apply list_elem_of_here|].
  destruct (negb (bool_decide _)); [|done]. apply list_elem_of_further, list_elem_of_here.
Qed.

Lemma organizer_pages_under path :
  path ∈ "/admin/api" :: organizer_pages -> String.eqb path "/login" = false /\ starts_with "/admin" path = true.
Proof.
  intros H. repeat (apply elem_of_cons in H as [->|H]; [by split|]). inversion H.
Qed.

Lemma moved_in path target : moved_to path = Some target -> (path, target) ∈ moved_pages.
Proof.
  unfold moved_to. destruct (find_first _ moved_pages) as [[p q]|] eqn:E; [|done]. intros [= <-].
  apply find_first_Some in E as [Hin Hp]. by apply String.eqb_eq in Hp as <-.
Qed.

(** What a page that moved is not, and where it moved to. *)
Lemma moved_apart path target :
  moved_to path = Some target ->
  String.eqb path "/login" = false /\ starts_with "/admin" path = false /\ moved_to target = None /\
  String.eqb target "/login" = false /\ starts_with "/admin" target = false.
Proof.
  intros H%moved_in. repeat (apply elem_of_cons in H as [[= -> ->]|H]; [by split_and!|]). inversion H.
Qed.

Lemma gate_answers up t c path :
  exists t' a, Io.run up t (page_gate c path) = (t', Done a) /\ sends_to (targets path) a.
Proof.
  assert (Hadmin : path ∈ "/admin/api" :: organizer_pages -> targets path = ["/login"; "/"]).
  { intros [Hl Ha]%organizer_pages_under. unfold targets. by rewrite Hl, Ha. }
  unfold page_gate. destruct (String.eqb path "/login") eqn:El.
  - unfold ParticipantLoginPage. rewrite run_let. destruct (session_returns up t c) as (t' & s & ->).
    cbn [Io.run]. eexists _, _. split; [reflexivity|]. unfold targets. rewrite El.
    destruct (authenticated s); cbn; [apply list_elem_of_here|done].
  - destruct (layout_answers up t c) as (t' & a & Hr & Hs).
    destruct (String.eqb path "/admin/api") eqn:Ep; [|destruct (is_among organizer_pages path) eqn:Eo].
    + apply String.eqb_eq in Ep as ->. unfold AdminAPIPage. rewrite run_let, Hr. cbn [Io.run].
      eexists _, _. split; [reflexivity|]. by destruct a.
    + apply is_among_spec in Eo. rewrite Hadmin by (by apply list_elem_of_further). by exists t', a.
    + destruct (moved_to path) as [target|] eqn:Em; cbn [Io.run]; eexists _, _; (split; [reflexivity|]).
      * destruct (moved_apart _ _ Em) as (_ & Ha & _). unfold targets. rewrite El, Ha, Em. apply list_elem_of_here.
      * by destruct (is_among open_pages path).
Qed.

Lemma organizer_returns up t c :
  exists t' o, Io.run up t (organizerSession hmac json_parse c) = (t', Done o).
Proof.
  unfold organizerSession. destruct (trimmed (session_cookie c)) as [token|]; [|by eexists _, _].
  destruct (is_empty _); [by eexists _, _|]. destruct (verify _ _ _ _) as [claims|]; [|by eexists _, _].
  destruct (truthy claims); [|by eexists _, _]. rewrite run_let.
  pose proof (validate_spec (env c) token up t) as Hv.
  by destruct (Io.run up t (validateParticipantSessionWithAPI _ _)) as [u [[v| |]|err]]; [eexists _, _..|].
Qed.

Lemma proxy_answers up t c b path :
  exists t' a, Io.run up t (proxy hmac json_parse url_origin c (sent_by b (browser_get path))) = (t', Done a) /\
    (forall target, a = RedirectTo target ->
       target ∈ ["/login"; "/"] /\ starts_with "/admin" path = true).
Proof.
  unfold proxy. cbn [sent_by n_method n_pathname browser_get r_method r_url].
  destruct (negb _); [by eexists _, _|]. rewrite run_let.
  destruct (organizer_returns up t c) as (t' & o & ->). cbn [Io.run].
  destruct (starts_with "/api/admin/" path); [by destruct (negb _); eexists _, _|].
  destruct (starts_with "/admin" path); cbn [negb]; [|by eexists _, _].
  destruct o as [v|]; cbn [negb].
  - destruct (is_organizer _); cbn [negb]; eexists _, _; (split; [reflexivity|]); [done|].
    intros target [= <-]. split; [apply list_elem_of_further, list_elem_of_here|done].
  - eexists _, _. split; [reflexivity|]. intros target [= <-]. split; [apply list_elem_of_here|done].
Qed.

Lemma visit_answers up t c b path :
  exists t' a, Io.run up t (visit c b path) = (t', Done a) /\ sends_to (targets path) a.
Proof.
  unfold visit. destruct (proxied path); [|apply gate_answers]. rewrite run_let.
  destruct (proxy_answers up t c b path) as (t' & a & -> & Ha). destruct a as [|target|reply]; [apply gate_answers|..].
  - cbn [Io.run]. eexists _, _. split; [reflexivity|]. destruct (Ha target eq_refl) as [Hin Hp]. cbn [sends_to].
    unfold targets. destruct (String.eqb path "/login") eqn:E; [|by rewrite Hp]. apply String.eqb_eq in E. by rewrite E in Hp.
  - cbn [Io.run]. by eexists _, _.
Qed.

Lemma settled t' b c cs path answer up t :
  Io.run up t (visit c b path) = (t', Done answer) -> (forall target, answer <> Redirected target) ->
  Io.run up t (navigate (c :: cs) b path) = (t', Done (Some (path, answer))).
Proof.
  intros Hr Hn. cbn [navigate]. rewrite run_let, Hr. destruct answer as [|target| |]; [done|by destruct (Hn target)|done..].
Qed.

Lemma redirected t' b c cs path target up t :
  Io.run up t (visit c b path) = (t', Done (Redirected target)) ->
  Io.run up t (navigate (c :: cs) b path) = Io.run up t' (navigate cs b target).
Proof. intros Hr. cbn [navigate]. by rewrite run_let, Hr. Qed.

Lemma redirects_or_not (answer : PageAnswer) :
  (exists target, answer = Redirected target) \/ (forall target, answer <> Redirected target).
Proof. destruct answer; [by right|left; by eexists|by right..]. Qed.

(** The navigation ends at one of these paths. *)
Definition ends_at (up : Upstream) (t : list Request) (cs : list Ctx) (b : Browser) (path : string) (ends : list string) : Prop :=
  exists t' final answer, Io.run up t (navigate cs b path) = (t', Done (Some (final, answer))) /\
    final ∈ ends /\ (forall target, answer <> Redirected target).

(** One redirection fewer to follow, from a page whose targets settle. *)
Lemma ends_at_step up t c cs b path ends :
  path ∈ ends -> (forall t' target, target ∈ targets path -> ends_at up t' cs b target ends) ->
  ends_at up t (c :: cs) b path ends.
Proof.
  intros Hp Hnext. destruct (visit_answers up t c b path) as (t' & answer & Hr & Hs).
  destruct (redirects_or_not answer) as [(target & ->)|Hn].
  - destruct (Hnext t' target Hs) as (t2 & final & a & Hr2 & Hin & Hn). exists t2, final, a.
    by rewrite (redirected _ _ _ _ _ _ _ _ Hr).
  - exists t', path, answer. split_and!; [by apply settled|done|done].
Qed.

Definition landings (path : string) : list string :=
  path :: if String.eqb path "/login" then ["/services"]
          else if starts_with "/admin" path then ["/login"; "/services"; "/"]
          else option_list (moved_to path).

Lemma moved_targets path target : moved_to path = Some target -> targets target = [].
Proof. intros (_ & _ & Hm & Hl & Ha)%moved_apart. unfold targets. by rewrite Hl, Ha, Hm. Qed.

(** C5: No redirection loop.  Wherever the browser goes, whatever the cookies, the clock
    and the environment of each request are and whatever the platform answers, it has an
    answer after two redirections at most: at the path it asked for, at the path that a
    page moved to, or at the sign-in, the home or the services page; nothing redirects but
    the sign-in page, a path under [/admin] and the pages that moved. *)
Theorem navigation_settles up t c1 c2 c3 b path :
  exists t' final answer, Io.run up t (navigate [c1; c2; c3] b path) = (t', Done (Some (final, answer))) /\
    final ∈ landings path /\ (forall target, answer <> Redirected target).
Proof.
  assert (Hlogin : forall ends t c2 c3, "/login" ∈ ends -> "/services" ∈ ends -> ends_at up t [c2; c3] b "/login" ends).
  { intros ends u c c' Hl Hs. apply ends_at_step; [done|]. intros t' target Ht. apply list_elem_of_singleton in Ht as ->.
    apply ends_at_step; [done|]. intros ? ? H. inversion H. }
  apply ends_at_step; [apply list_elem_of_here|]. intros t' target Ht. unfold targets in Ht. unfold landings.
  destruct (String.eqb path "/login") eqn:El; [|destruct (starts_with "/admin" path)].
  - apply list_elem_of_singleton in Ht as ->. apply ends_at_step; [set_solver|]. intros ? ? H. inversion H.
  - apply elem_of_cons in Ht as [->|Ht]; [apply Hlogin; set_solver|].
    apply list_elem_of_singleton in Ht as ->. apply ends_at_step; [set_solver|]. intros ? ? H. inversion H.
  - destruct (moved_to path) as [to|] eqn:Em; [|inversion Ht]. apply list_elem_of_singleton in Ht as ->.
    apply ends_at_step; [set_solver|]. intros ? ? H. rewrite (moved_targets _ _ Em) in H. inversion H.
Qed.

Lemma under_admin_path path :
  under_admin path = true ->
  proxied path = true /\ starts_with "/admin" path = true /\ String.eqb path "/login" = false.
Proof.
  unfold under_admin. intros [E|E]%orb_true_iff; [by apply String.eqb_eq in E as ->|].
  apply starts_with_spec in E as [rest ->]. destruct rest; split_and!; reflexivity.
Qed.

(** What is shown under [/admin] came through the layout. *)
Lemma organizer_page_is_gated up t c path calls notice :
  under_admin path = true -> Io.run up t (page_gate c path) = (calls, Done (Shown notice)) ->
  Io.run up t (AdminLayout c) = (calls, Done (Shown notice)).
Proof.
  intros Hpath. destruct (under_admin_path path Hpath) as (_ & Ha & Hl). unfold page_gate. rewrite Hl.
  destruct (String.eqb path "/admin/api").
  - unfold AdminAPIPage. rewrite run_let.
    by destruct (Io.run up t (AdminLayout c)) as [t' [[| | |]|e]].
  - destruct (is_among organizer_pages path); [done|]. destruct (moved_to path) as [target|] eqn:Em; [done|].
    destruct (is_among open_pages path) eqn:Eo; [|done]. apply is_among_spec in Eo. exfalso.
    repeat (apply elem_of_cons in Eo as [->|Eo]; [discriminate|]). inversion Eo.
Qed.

(** C2: An organizers' page is shown only to an organizer, twice over: the proxy verified
    the cookie's token, and the platform vouched for it with the role organizer; then the
    layout read the session again, and the platform vouched again with that role, for the
    same token, unless the environment names another.  These are all the calls that the
    two gates made. *)
Theorem organizer_page_shown up t c b path calls notice :
  under_admin path = true ->
  Io.run up t (visit c b path) = (calls, Done (Shown notice)) ->
  exists token claims v token' v',
    trimmed (session_cookie c) = Some token /\ verify hmac json_parse c token = Some claims /\
    vouches (up t (Session.session_request (env c) token)) v /\ v_role v = "organizer" /\
    vouches (up (t ++ [Session.session_request (env c) token]) (Session.session_request (env c) token')) v' /\
    v_role v' = "organizer" /\
    token' = trimmed (AD_PLATFORM_TEAM_JWT (env c)) ?? token /\
    calls = t ++ [Session.session_request (env c) token; Session.session_request (env c) token'].
Proof.
  intros Hpath Hrun. destruct (under_admin_path path Hpath) as (Hp & Ha & Hl).
  unfold visit in Hrun. rewrite Hp, run_let in Hrun.
  pose proof (organizer_gate hmac json_parse url_origin c (sent_by b (browser_get path)) up t) as Hgate.
  cbn [sent_by n_pathname browser_get r_url] in Hgate. rewrite Ha, orb_true_r in Hgate.
  destruct (Io.run up t (proxy _ _ _ _ _)) as [t1 a]. destruct (Hgate t1 a eq_refl eq_refl) as [[a' ->] Hnext].
  destruct a' as [|target|reply]; [|done|done].
  destruct (Hnext eq_refl) as (token & claims & v & Hc & Hv & -> & Hvouch & Hrole).
  apply organizer_page_is_gated in Hrun; [|done]. unfold AdminLayout in Hrun. rewrite run_let in Hrun.
  destruct (Io.run up _ (getParticipantSession _ _ c)) as [t2 [s|e]] eqn:Es; [|done]. cbn [Io.run] in Hrun.
  pose proof (session_gate _ _ _ _ _ _ _ Es) as Hs. destruct (authenticated s); cbn [negb] in Hrun; [|done].
  destruct Hs as (token' & v' & Hsess & -> & Hvouch' & Hsource).
  case_bool_decide as Hr; cbn [negb] in Hrun; [|done]. injection Hrun as <- <-.
  exists token, claims, v, token', v'. rewrite <- app_assoc. split_and!; try done.
  - rewrite Hsess in Hr. by injection Hr.
  - destruct (trimmed (AD_PLATFORM_TEAM_JWT (env c))); [by destruct Hsource as [_ ->]|].
    destruct Hsource as (_ & Hc' & _). cbn. congruence.
Qed.
End Gates.

(** An organizer with a signed cookie. *)
Definition sample_env : Env := mkEnv None None None None None None (Some "secret") None.
Definition sample_ctx : Ctx :=
  mkCtx sample_env None (Some (issue_token sample_hmac [1; 2; 3] [4; 5] "secret")) 1700000000000.
Definition organizer_up : Upstream := fun _ _ =>
  Done (mkResponse 200 [] None
    (inr (JObj [("player_id", JNum 7); ("team_id", JNum 0); ("role", JStr "organizer")])) None).
Definition sample_browser : Browser := mkBrowser "localhost:3000" "http:" [].

Lemma organizer_page_shown_witness :
  exists calls, Io.run organizer_up [] (visit sample_hmac sample_parse (fun _ => None) sample_ctx sample_browser "/admin/teams") =
    (calls, Done (Shown false)) /\ length calls = 2%nat.
Proof.
  eexists. split; [vm_compute; reflexivity|].
  destruct (organizer_page_shown sample_hmac sample_parse (fun _ => None) organizer_up [] sample_ctx sample_browser
    "/admin/teams" _ false eq_refl ltac:(vm_compute; reflexivity)) as (? & ? & ? & ? & ? & _ & _ & _ & _ & _ & _ & _ & E).
  rewrite E. reflexivity.
Defined.

(** ** The operations summary of the organizers' frame *)

Definition status_path : string := "/api/admin/operations/status".

(** The component: what it shows, the variable of its effect, and the refreshes whose
    fetch is not answered. *)
Record Summary := mkSummary {
  operationsStatus : option AdminOperationsStatus;
  sum_cancelled : bool;
  in_flight : list nat;
  next_refresh : nat
}.

Definition mount_summary (initial : option AdminOperationsStatus) : Summary := mkSummary initial false [] 0.

(** What a refresh sets, if anything: a refusal and a failure keep the last status. *)
Definition refreshed (answer : Result (Response AdminOperationsStatus)) : option (option AdminOperationsStatus) :=
  match answer with
  | Thrown _ => None
  | Done response =>
      if negb (ok response) then None
      else match processApiResponse response status_path with
           | Done payload => Some payload
           | Thrown _ => None
           end
  end.

(** The interval and the focus start refreshes while the component is mounted. *)
Inductive SummaryEvent :=
| StartRefresh
| RefreshAnswered (r : nat) (answer : Result (Response AdminOperationsStatus))
| UnmountSummary.

Definition settle_refresh (r : nat) (answer : Result (Response AdminOperationsStatus)) (s : Summary) : Summary :=
  mkSummary
    (if sum_cancelled s then operationsStatus s else refreshed answer ?? operationsStatus s)
    (sum_cancelled s) (filter (fun r' => r' <> r) (in_flight s)) (next_refresh s).

Definition summary_step (e : SummaryEvent) (s : Summary) : option Summary :=
  match e with
  | StartRefresh =>
      if sum_cancelled s then None
      else Some (mkSummary (operationsStatus s) false (in_flight s ++ [next_refresh s]) (S (next_refresh s)))
  | RefreshAnswered r answer => if bool_decide (r ∈ in_flight s) then Some (settle_refresh r answer s) else None
  | UnmountSummary =>
      if sum_cancelled s then None else Some (mkSummary (operationsStatus s) true (in_flight s) (next_refresh s))
  end.

Fixpoint summary_steps (es : list SummaryEvent) (s : Summary) : option Summary :=
  match es with
  | [] => Some s
  | e :: es => s' ← summary_step e s; summary_steps es s'
  end.

(** [operationsStatus?.alerts.length ?? overview.operationsAlertCount]. *)
Definition alert_count (s : Summary) (overview_count : Z) : Z :=
  ((fun status => Z.of_nat (length (op_alerts status))) <$> operationsStatus s) ?? overview_count.

Definition alert_banner (alert : AdminOperationsAlert) : string * string :=
  (match al_detail alert ≫= or_undefined with
   | Some detail => al_summary alert ++ₛ " " ++ₛ detail
   | None => al_summary alert
   end,
   if String.eqb (al_severity alert) "critical" then "error" else "warning").

Definition alert_banners (s : Summary) : list (string * string) :=
  match operationsStatus s with Some status => alert_banner <$> op_alerts status | None => [] end.

(** The statuses that arrived while the component was mounted, in the order of arrival. *)
Fixpoint arrived (es : list SummaryEvent) : list (option AdminOperationsStatus) :=
  match es with
  | [] => []
  | RefreshAnswered _ answer :: es => option_list (refreshed answer) ++ arrived es
  | StartRefresh :: es => arrived es
  | UnmountSummary :: _ => []
  end.

Lemma cancelled_keeps es s s' :
  sum_cancelled s = true -> summary_steps es s = Some s' -> operationsStatus s' = operationsStatus s.
Proof.
  revert s. induction es as [|e es IH]; intros s Hc H; [by injection H as <-|]. cbn [summary_steps] in H.
  destruct e as [|r answer|]; cbn [summary_step] in H; rewrite ?Hc in H; try done.
  destruct (bool_decide _); [|done]. cbn [mbind option_bind] in H.
  rewrite (IH (settle_refresh r answer s)) by done. cbn. by rewrite Hc.
Qed.

(** The summary shows the status that arrived last while it was mounted: refusals and
    failures keep what is shown, and nothing that arrives after the end is shown.  It is
    not the status that was asked for last: when the interval and the focus have two
    refreshes in flight and the older one is answered later, the older status replaces
    the newer one. *)
Theorem summary_shows_last_arrival initial es s :
  summary_steps es (mount_summary initial) = Some s ->
  operationsStatus s = list.last (arrived es) ?? initial /\
  forall older newer, refreshed older <> None -> refreshed newer <> None ->
    exists s', summary_steps [StartRefresh; StartRefresh; RefreshAnswered 1 newer; RefreshAnswered 0 older]
                 (mount_summary initial) = Some s' /\
      Some (operationsStatus s') = refreshed older.
Proof.
  intros H. split.
  - assert (G : forall es s0, sum_cancelled s0 = false -> summary_steps es s0 = Some s ->
      operationsStatus s = list.last (arrived es) ?? operationsStatus s0).
    { clear. intros es. induction es as [|e es IH]; intros s0 Hc H; [by injection H as <-|]. cbn [summary_steps] in H.
      destruct e as [|r answer|]; cbn [summary_step] in H; rewrite ?Hc in H.
      - cbn [mbind option_bind] in H. by apply (IH _ (eq_refl : sum_cancelled (mkSummary _ false _ _) = false) H).
      - destruct (bool_decide _); [|done]. cbn [mbind option_bind] in H. rewrite (IH (settle_refresh r answer s0) Hc H). cbn. rewrite Hc.
        destruct (refreshed answer) as [status|]; [|done]. cbn.
        rewrite last_cons. by destruct (list.last (arrived es)).
      - cbn [mbind option_bind] in H. by apply cancelled_keeps in H. }
    by apply (G es (mount_summary initial)).
  - intros older newer Ho Hn. eexists. split; [reflexivity|]. cbn.
    destruct (refreshed older); [done|by destruct Ho].
Qed.

Definition sample_status (healthy : bool) : AdminOperationsStatus := mkAdminOperationsStatus healthy "2026-05-01" [].
Definition status_answer (healthy : bool) : Result (Response AdminOperationsStatus) :=
  Done (mkResponse 200 [] None (inr (sample_status healthy)) None).

Lemma summary_shows_last_arrival_witness :
  exists s, summary_steps [StartRefresh; RefreshAnswered 0 (status_answer true)] (mount_summary None) = Some s /\
    operationsStatus s = Some (sample_status true).
Proof.
  eexists. split; [reflexivity|].
  exact (proj1 (summary_shows_last_arrival None [StartRefresh; RefreshAnswered 0 (status_answer true)] _ eq_refl)).
Defined.

(** ** Documents *)

Section Documents.
(** The file system: the text of a readable file. *)
Variable readFile : string -> option string.
(** [path.resolve(process.cwd(), ...)] and [path.join]. *)
Variable resolve : list string -> string.
Variable path_join : string -> string -> string.

Definition candidateDocsRoots : list string := [resolve [".."; ".."; "docs"]; resolve ["docs"]].

Fixpoint read_first (roots : list string) (filename : string) : Result string :=
  match roots with
  | [] => Thrown (OtherError ("repo doc " ++ₛ filename ++ₛ " is unavailable"))
  | root :: roots =>
      match readFile (path_join root filename) with
      | Some text => Done text
      | None => read_first roots filename
      end
  end.

Definition readRepoDocFile (filename : string) : Result string := read_first candidateDocsRoots filename.

Definition readParticipantOpenAPISpec : Result string := readRepoDocFile "platform-api-v2.openapi.yaml".

(** [GET /docs/platform-api-v2.openapi.yaml]. *)
Definition openapi_GET : Reply :=
  match readParticipantOpenAPISpec with
  | Done body =>
      mkReply 200
        [("content-type", "application/yaml; charset=utf-8");
         ("content-disposition", "inline; filename=" ++ₛ dq ++ₛ "platform-api-v2.openapi.yaml" ++ₛ dq);
         ("cache-control", "public, max-age=300")] (TextBody body) None
  | Thrown _ =>
      mkReply 404 [("content-type", "text/plain; charset=utf-8")]
        (TextBody ("OpenAPI spec is unavailable." ++ₛ String "010" EmptyString)) None
  end.

(** The document is served from the first place that has it. *)
Lemma openapi_GET_spec :
  let file root := readFile (path_join root "platform-api-v2.openapi.yaml") in
  (forall text, file (resolve [".."; ".."; "docs"]) = Some text ->
     rp_status openapi_GET = 200 /\ rp_body openapi_GET = TextBody text) /\
  (file (resolve [".."; ".."; "docs"]) = None -> forall text, file (resolve ["docs"]) = Some text ->
     rp_status openapi_GET = 200 /\ rp_body openapi_GET = TextBody text) /\
  (file (resolve [".."; ".."; "docs"]) = None -> file (resolve ["docs"]) = None -> rp_status openapi_GET = 404).
Proof.
  cbn zeta. unfold openapi_GET, readParticipantOpenAPISpec, readRepoDocFile, candidateDocsRoots. cbn [read_first].
  split_and!; [by intros text ->|by intros -> text ->|by intros -> ->].
Qed.
End Documents.

(** ** Dates in the pages *)

Section Dates.
Context `{Zone}.
(** [Intl.DateTimeFormat("id-ID", { timeZone: "Asia/Jakarta", ... }).formatToParts]. *)
Variable formatToParts : Z -> Result (list (string * string)).

Definition getPart (parts : list (string * string)) (type : string) : string :=
  (snd <$> find_first (fun p => String.eqb p.1 type) parts) ?? "undefined".

Definition formatIndonesianDate (isoString : option string) : string :=
  match isoString ≫= or_undefined with
  | None => "n/a"
  | Some text =>
      if String.eqb text "not applied yet" then text
      else match parse_date text with
           | None => text
           | Some date =>
               match formatToParts date with
               | Thrown _ => text
               | Done parts =>
                   let part := getPart parts in
                   part "year" ++ₛ "-" ++ₛ part "month" ++ₛ "-" ++ₛ part "day" ++ₛ " " ++ₛ
                   part "hour" ++ₛ ":" ++ₛ part "minute" ++ₛ ":" ++ₛ part "second" ++ₛ " WIB"
               end
           end
  end.

(** What the formatter is documented to give: the fields of the wall clock of Jakarta,
    seven hours ahead, in two digits and the year in full. *)
Definition jakarta_parts (t : Z) (parts : list (string * string)) : Prop :=
  let w := fields_of (t + 7 * 3600000) in
  getPart parts "year" = pad 4 (year w) /\ getPart parts "month" = pad 2 (month w) /\
  getPart parts "day" = pad 2 (day w) /\ getPart parts "hour" = pad 2 (hour w) /\
  getPart parts "minute" = pad 2 (minute w) /\ getPart parts "second" = pad 2 (second w).

(** A timestamp of the platform is shown as the wall time of Jakarta to the second, so
    that two timestamps look the same exactly when they fall in the same second, and in
    the order of their texts; anything that is no date is shown as it is. *)
Theorem dates_tell_seconds t t' :
  (forall u, exists parts, formatToParts u = Done parts /\ jakarta_parts u parts) ->
  four_digits (fields_of t) -> four_digits (fields_of t') ->
  four_digits (fields_of (t + 7 * 3600000)) -> four_digits (fields_of (t' + 7 * 3600000)) ->
  let shown u := formatIndonesianDate (Some (toISOString u)) in
  String.compare (shown t) (shown t') = (t / 1000 ?= t' / 1000).
Proof.
  intros Hparts Hy Hy' Hj Hj' shown.
  assert (Hshown : forall u, four_digits (fields_of u) ->
    let w := fields_of (u + 7 * 3600000) in
    shown u = pad 4 (year w) ++ₛ "-" ++ₛ pad 2 (month w) ++ₛ "-" ++ₛ pad 2 (day w) ++ₛ " " ++ₛ
              pad 2 (hour w) ++ₛ ":" ++ₛ pad 2 (minute w) ++ₛ ":" ++ₛ pad 2 (second w) ++ₛ " WIB").
  { intros u Hu w. unfold shown, formatIndonesianDate. cbn [mbind option_bind].
    assert (E : or_undefined (toISOString u) = Some (toISOString u) /\ String.eqb (toISOString u) "not applied yet" = false).
    { unfold toISOString, minute_text. rewrite year_text_four by done. cbn [pad append].
      split; [reflexivity|]. cbn [String.eqb]. rewrite (proj2 (Ascii.eqb_neq _ _)); [done|].
      intros Hc. apply (f_equal is_digit) in Hc. rewrite is_digit_char in Hc by (apply Z.mod_pos_bound; lia). done. }
    destruct E as [E1 E2]. rewrite E1, E2, parse_toISOString by done.
    destruct (Hparts u) as (parts & -> & H1 & H2 & H3 & H4 & H5 & H6). cbv beta iota zeta.
    by rewrite H1, H2, H3, H4, H5, H6. }
  rewrite !Hshown by done. cbn zeta. set (w := fields_of (t + _)). set (w' := fields_of (t' + _)).
  destruct (time_of_fields_of (t + 7 * 3600000)) as [Et Hw], (time_of_fields_of (t' + 7 * 3600000)) as [Et' Hw'].
  fold w in Et, Hw, Hj. fold w' in Et', Hw', Hj'.
  pose proof (fields_compare w w' Hw Hw') as Hf. rewrite Et, Et' in Hf.
  destruct Hw as [Hd Hh Hm Hs _], Hw' as [Hd' Hh' Hm' Hs' _].
  pose proof (days_in_month_bound (year w) (month w)). pose proof (days_in_month_bound (year w') (month w')).
  pose proof (vd_month _ _ _ Hd). pose proof (vd_month _ _ _ Hd').
  pose proof (vd_day _ _ _ Hd). pose proof (vd_day _ _ _ Hd'). unfold four_digits in *. cbn [append].
  rewrite !pad_then_compare by (change (10 ^ Z.of_nat 4) with 10000; change (10 ^ Z.of_nat 2) with 100; lia).
  change (String.compare "WIB" "WIB") with Eq. replace (then_compare (second w ?= second w') Eq) with (second w ?= second w')
    by (by destruct (second w ?= second w')).
  rewrite Hf. replace (t + 7 * 3600000) with (t + 25200 * 1000) by lia. replace (t' + 7 * 3600000) with (t' + 25200 * 1000) by lia.
  rewrite !Z.div_add by lia. by rewrite !(Z.add_comm _ 25200), Z.add_compare_mono_l.
Qed.
End Dates.

Definition sample_formatter (u : Z) : Result (list (string * string)) :=
  let w := fields_of (u + 7 * 3600000) in
  Done [("day", pad 2 (day w)); ("literal", "/"); ("month", pad 2 (month w)); ("literal", "/");
        ("year", pad 4 (year w)); ("literal", ", "); ("hour", pad 2 (hour w)); ("literal", ".");
        ("minute", pad 2 (minute w)); ("literal", "."); ("second", pad 2 (second w))].

Lemma dates_tell_seconds_witness :
  let shown u := formatIndonesianDate (H := fixed_zone 0) sample_formatter (Some (toISOString u)) in
  String.compare (shown 1777600845123) (shown 1777600845987) = Eq /\ shown 1777600845123 = "2026-05-01 09:00:45 WIB".
Proof.
  intros shown. split; [|vm_compute; reflexivity].
  refine (eq_trans (dates_tell_seconds (H := fixed_zone 0) sample_formatter 1777600845123 1777600845987 _ _ _ _ _) _);
    [|split; vm_compute; congruence..|vm_compute; reflexivity].
  intros u. eexists. split; [reflexivity|]. unfold jakarta_parts. cbn. split_and!; reflexivity.
Defined.
