(* ===== verification/ParticipantPages.v ===== *)
(** * The participants' pages

    The server-rendered pages ([app/page.tsx], [app/scoreboard/page.tsx],
    [app/services/page.tsx], [app/attacks/page.tsx], [app/docs/participant/page.tsx],
    [app/docs/platform-api/page.tsx]): what each one asks the loader for, the tab of the
    control centre that it opens, its cards and its links, and the frame around it
    ([components/dashboard/participant-shell.tsx]). *)

From S2P Require Import Prelude JsNumber DashboardUtils Session DashboardTypes ControlCenter ParticipantShell ServiceCards DashboardData Controls CenterControls.

#[local] Open Scope string_scope.
#[local] Open Scope Z_scope.
#[local] Open Scope list_scope.
#[local] Open Scope js_scope.

Module Participant.

Definition navItems : list NavItem :=
  [("/", "Overview"); ("/scoreboard", "Scoreboard"); ("/services", "Services"); ("/attacks", "Attacks")].

(** [attackQuery] is the limit of the feed that the page asks for. *)
Record View := mkView {
  activePath : string;
  title : string;
  attackQuery : option Z;
  tab : option CenterTab;
  cards : DashboardData -> list ActionCard;
  body_links : list string
}.

Definition HomePage : View :=
  mkView "/" "Participant Overview" None None
    (fun dashboard =>
       [mkActionCard "/scoreboard" "Scoreboard" (count_text (dd_scores dashboard) " teams live");
        mkActionCard "/services" "Services" (count_text (dd_services dashboard) " services under your team");
        mkActionCard "/attacks" "Attacks" (num_to_string (total_count (dd_attackPage dashboard)) ++ₛ " accepted events");
        mkActionCard "/docs/participant" "Manual & API" "manual, swagger, openapi"]) [].

Definition no_cards (_ : DashboardData) : list ActionCard := [].

Definition ScoreboardPage : View := mkView "/scoreboard" "Scoreboard" None (Some ScoreboardTab) no_cards [].
Definition ServicesPage : View := mkView "/services" "Services" None (Some ServicesTab) no_cards [].

Definition MAP_ATTACK_LIMIT : Z := 1000.
Definition AttacksPage : View := mkView "/attacks" "Attacks" (Some MAP_ATTACK_LIMIT) (Some AttacksTab) no_cards [].

Definition openapi_path : string := "/docs/platform-api-v2.openapi.yaml".

Definition ParticipantManualPage : View :=
  mkView "/docs/participant" "Participant Manual" None None no_cards ["/docs/platform-api"; openapi_path].

Definition ParticipantSwaggerPage : View :=
  mkView "/docs/platform-api" "Participant API" None None no_cards [openapi_path; "/docs/participant"].

Definition views : list View :=
  [HomePage; ScoreboardPage; ServicesPage; AttacksPage; ParticipantManualPage; ParticipantSwaggerPage].

(** Where the controls of the header lead. *)
Definition header_href (action : Shell.HeaderAction) : option string :=
  match action with
  | Shell.OrganizerLink => Some "/admin"
  | Shell.VpnConfig => Some "/api/platform/me/wireguard"
  | Shell.SignIn => Some "/login"
  | Shell.AccountSettings | Shell.SignOut => None
  end.

(** The header also links the manual. *)
Definition shell_links (overview : PlatformOverview) : list string :=
  navItems.*1 ++ "/docs/participant" :: omap header_href (Shell.headerActions overview).

(** The download of the source that the card of a service offers. *)
Definition source_link (number_text : num -> string) (service : ServiceRow) : string :=
  "/api/platform/challenges/" ++ₛ number_text (sv_challengeId service) ++ₛ "/source".

Definition source_links (number_text : num -> string) (services : list ServiceRow) : list string :=
  source_link number_text <$> bfilter (fun service => offersSource (ServiceActionBar None service)) services.

Definition links (number_text : num -> string) (view : View) (dashboard : DashboardData) : list string :=
  shell_links (dd_platform dashboard) ++ (ac_href <$> cards view dashboard) ++ body_links view ++
  (match tab view with Some ServicesTab => source_links number_text (dd_services dashboard) | _ => [] end).

(** What the control centre of a page is given. *)
Definition center_options (dashboard : DashboardData) : ControlCenterOptions :=
  mkControlCenterOptions (dd_attackPage dashboard) (po_realtimeBaseUrl (dd_platform dashboard))
    (dd_scores dashboard) (dd_services dashboard).

Definition load (api_url realtime_url : string) (view : View) (session : ParticipantSession) (calls : DashboardResultSet)
    : DashboardData :=
  loadDashboardData api_url realtime_url session calls (attackQuery view).

(** A page of the navigation marks itself there, and nothing else; the documents mark
    nothing. *)
Lemma own_item_marked view :
  view ∈ views -> (active_items (activePath view) navItems).*1 = bfilter (String.eqb (activePath view)) navItems.*1 /\
    (tab view <> None -> (active_items (activePath view) navItems).*1 = [activePath view]).
Proof. intros H. repeat (apply elem_of_cons in H as [->|H]; [by split|]). inversion H. Qed.
End Participant.
