(* ===== verification/OrganizerPages.v ===== *)
(** * The organizers' pages

    The server-rendered pages under [app/admin]: what each one asks the loader for, the
    tab of the dashboard that it opens and the panels beside it, its cards and its links,
    and the frame around it ([components/admin/organizer-shell.tsx]). *)

From S2P Require Import Prelude JsNumber AdminTypes DashboardData RuntimeHealth AuditPage Controls OrganizerControls.

#[local] Open Scope string_scope.
#[local] Open Scope Z_scope.
#[local] Open Scope list_scope.
#[local] Open Scope js_scope.

Module Organizers.

Definition navItems : list NavItem :=
  [("/admin", "Overview"); ("/admin/game", "Game"); ("/admin/scoreboard", "Scoreboard"); ("/admin/attacks", "Attacks")].

Definition secondaryNavItems : list NavItem :=
  [("/admin/teams", "Teams"); ("/admin/players", "Players"); ("/admin/challenges", "Challenges");
   ("/admin/deployments", "Deployments"); ("/admin/audit", "Audit")].

Inductive SidePanel := TrustedState | Announcements | BulkImport | ExportData.

(** Only the game page hands the status of the operations to its tab. *)
Record View := mkView {
  activePath : string;
  title : string;
  attackQuery : option Z;
  panels : list SidePanel;
  tab : option Tab;
  gives_status : bool;
  cards : AdminLiveData -> list ActionCard
}.

Definition AdminPage : View :=
  mkView "/admin" "Organizer Overview" None [TrustedState; Announcements] None false
    (fun dashboard =>
       [mkActionCard "/admin/teams" "Teams" (count_text (al_teams dashboard) " teams");
        mkActionCard "/admin/players" "Players" (count_text (al_players dashboard) " players");
        mkActionCard "/admin/challenges" "Challenges" (count_text (al_challenges dashboard) " challenges");
        mkActionCard "/admin/deployments" "Deployments" (count_text (al_deployments dashboard) " jobs");
        mkActionCard "/admin/game" "Game" (num_to_string (gs_total_ticks (al_gameStatus dashboard)) ++ₛ " persisted ticks");
        mkActionCard "/admin/scoreboard" "Scoreboard" (count_text (al_scoreboard dashboard) " rows");
        mkActionCard "/admin/audit" "Audit" "persistent control trail"]).

Definition no_cards (_ : AdminLiveData) : list ActionCard := [].

Definition AdminGamePage : View := mkView "/admin/game" "Game" None [] (Some Game) true no_cards.
Definition AdminScoreboardPage : View :=
  mkView "/admin/scoreboard" "Scoreboard" None [ExportData] (Some Scoreboard) false no_cards.

Definition MAP_ATTACK_LIMIT : Z := 1000.
Definition AdminAttacksPage : View :=
  mkView "/admin/attacks" "Attacks" (Some MAP_ATTACK_LIMIT) [ExportData] (Some Attacks) false no_cards.

Definition AdminTeamsPage : View := mkView "/admin/teams" "Teams" None [BulkImport] (Some Teams) false no_cards.
Definition AdminPlayersPage : View := mkView "/admin/players" "Players" None [] (Some Players) false no_cards.
Definition AdminChallengesPage : View :=
  mkView "/admin/challenges" "Challenges" None [] (Some Challenges) false no_cards.
Definition AdminDeploymentsPage : View :=
  mkView "/admin/deployments" "Deployments" None [TrustedState] (Some Deployments) false no_cards.

(** The log of the audit page is [AuditPage.AdminAuditPage]. *)
Definition AuditFrame : View := mkView "/admin/audit" "Audit" None [] None false no_cards.

Definition views : list View :=
  [AdminPage; AdminGamePage; AdminScoreboardPage; AdminAttacksPage; AdminTeamsPage; AdminPlayersPage;
   AdminChallengesPage; AdminDeploymentsPage; AuditFrame].

Definition shell_links : list string := navItems.*1 ++ secondaryNavItems.*1 ++ ["/"].

(** What an incident asks to inspect. *)
Definition incident_links (snapshot : RuntimeHealthSnapshot) : list string :=
  match hs_warnings snapshot with
  | [] => []
  | _ => if bool_decide (hs_severity snapshot = Critical)
         then ["/admin/game#scheduler-card"; "/admin/game#checker-runs-card"]
         else ["/admin/deployments"; "/admin/players"]
  end.

Definition runtime_card_links : list string := ["/admin/deployments"; "/admin/players"].

Definition alert_links (alerts : list AdminOperationsAlert) : list string :=
  omap (fun alert => fst <$> operationsAlertAction alert) alerts.

Definition snapshot_link : string := "/admin/scoreboard".
Definition back_link : string := "/admin/game#runtime-health-card".

(** What the links of a page depend on: the alerts that are shown, the health of the
    runtime, and the filters of the neighbouring pages of the log. *)
Record Sights := mkSights {
  alerts : list AdminOperationsAlert;
  health : RuntimeHealthSnapshot;
  neighbours : list AuditFilters
}.

(** The cards of the game tab that have links. *)
Definition game_links (x : Sights) : list string :=
  incident_links (health x) ++ runtime_card_links ++ alert_links (alerts x) ++ [snapshot_link; back_link].

Definition audit_links (x : Sights) : list string := "/admin/audit" :: (buildPageHref <$> neighbours x).

Definition links (view : View) (dashboard : AdminLiveData) (x : Sights) : list string :=
  shell_links ++ (ac_href <$> cards view dashboard) ++
  match tab view with Some Game => game_links x | _ => [] end ++
  (if String.eqb (activePath view) "/admin/audit" then audit_links x else []).

(** Every page marks itself in the navigation, in one of its two parts. *)
Lemma own_item_marked_once view :
  view ∈ views ->
  (active_items (activePath view) navItems).*1 ++ (active_items (activePath view) secondaryNavItems).*1 = [activePath view].
Proof. intros H. repeat (apply elem_of_cons in H as [->|H]; [done|]). inversion H. Qed.
End Organizers.
