(* ===== verification/SitePages.v ===== *)
(** * The site

    The pages of both sides behind their gates: every link leads to a page that is shown
    ([links_reach_pages]), and the control centre does nothing about services for somebody
    without a team ([visitors_never_act]).  The pages are [ParticipantPages] and
    [OrganizerPages], the gates [Pages]. *)

From S2P Require Import Prelude JsString JsNumber DashboardUtils ApiUtils Io ApiHandler SessionToken Session PlatformApi ReactRuntime ReactRules DashboardTypes ControlCenter ParticipantForms ParticipantShell AdminTypes Tier ServiceCards ControlCenterPage DashboardData RuntimeHealth AuditPage Controls Pages ApiCalls CenterCalls CenterControls ParticipantPages OrganizerPages.

#[local] Open Scope string_scope.
#[local] Open Scope Z_scope.
#[local] Open Scope list_scope.
#[local] Open Scope js_scope.

(** ** Every link leads to a page *)

(** The page of a link: what precedes the query and the fragment. *)
Definition page_of (link : string) : string :=
  hd "" (split_on "#" (hd "" (split_on "?" link))).

(** What the tier serves to a link beside its pages: the routes of its files. *)
Definition file_routes : list ApiRoute := platform_routes ++ docs_routes.

(** Links to the files: the OpenAPI document, the VPN configuration of a player, and the
    sources of the services. *)
Definition is_file (number_text : num -> string) (link : string) : Prop :=
  link = Participant.openapi_path \/ link = "/api/platform/me/wireguard" \/
  exists service, link = Participant.source_link number_text service.

(** Whether a path is that of a page. *)
Definition is_page (organizer : bool) (path : string) : bool :=
  is_among open_pages path || organizer && is_among organizer_pages path.

(** A file link finds its route, by the names of the files. *)
Lemma file_has_route number_text link :
  (forall n, number_or_not (number_text n)) -> is_file number_text link ->
  exists r, route_at file_routes (segments link) = Some r /\ "GET" ∈ ar_methods r.
Proof.
  intros Ht [->|[->|(service & ->)]]; [by eexists; split; [reflexivity|left]..|].
  set (x := number_text (sv_challengeId service)).
  assert (Hx : id_like file_routes x).
  { destruct (Ht (sv_challengeId service)) as [H|H]; [by apply number_id|]. fold x in H.
    repeat (apply elem_of_cons in H as [->|H]; [split_and!; [done|done|by apply alike_by_test; vm_compute]|]).
    inversion H. }
  destruct Hx as (Hs & _ & Hx). unfold Participant.source_link. fold x.
  change ("/api/platform/challenges/" ++ₛ x ++ₛ "/source") with
    ("/api/platform/challenges" ++ₛ String "/" (x ++ₛ String "/" "source")).
  rewrite !segments_app. unfold segments at 2. rewrite split_on_free by done.
  rewrite (route_at_alike file_routes _ (segments "/api/platform/challenges" ++ ["1"] ++ segments "source")).
  - eexists. split; [reflexivity|left].
  - apply Forall2_app; [apply Forall_Forall2_diag, list.Forall_true, alike_refl|].
    constructor; [done|]. apply Forall_Forall2_diag, list.Forall_true, alike_refl.
Qed.

(** The links of the participants' pages, for somebody. *)
Lemma participant_link_kinds number_text view dashboard link :
  view ∈ Participant.views -> link ∈ Participant.links number_text view dashboard ->
  is_page (Account.role_is "organizer" (dd_platform dashboard)) link = true \/ is_file number_text link \/
  link = "/login" /\ po_authenticated (dd_platform dashboard) = false.
Proof.
  intros Hv. set (o := dd_platform dashboard). unfold Participant.links, Participant.shell_links. fold o.
  assert (Hbody : Forall (fun l => is_page false l = true \/ is_file number_text l)
    ((ac_href <$> Participant.cards view dashboard) ++ Participant.body_links view)).
  { repeat (apply elem_of_cons in Hv as [->|Hv];
      [repeat constructor; first [by left | by right; left]|]). inversion Hv. }
  assert (Hweak : forall l, is_page false l = true -> is_page (Account.role_is "organizer" o) l = true).
  { unfold is_page. intros l. cbn [andb]. rewrite orb_false_r. by intros ->. }
  rewrite <- app_assoc, (app_assoc (ac_href <$> _)). intros [Hl|Hl]%elem_of_app.
  { left. apply Hweak. repeat (apply elem_of_cons in Hl as [->|Hl]; [done|]). inversion Hl. }
  apply elem_of_app in Hl as [[->|Hl]%elem_of_cons|[Hl|Hl]%elem_of_app].
  - left. by apply Hweak.
  - unfold Shell.headerActions in Hl. destruct (Account.role_is "organizer" o), (Shell.hasParticipantTeam o), (po_authenticated o) eqn:Ea;
      cbn in Hl; unfold is_file; set_solver.
  - destruct (proj1 (list.Forall_forall _ _) Hbody link Hl) as [H|H]; auto.
  - destruct (Participant.tab view) as [[]|]; try by inversion Hl. unfold Participant.source_links in Hl.
    apply list_elem_of_fmap in Hl as (service & -> & _). right. left. right. right. by exists service.
Qed.

Lemma organizer_link_kinds view dashboard x link :
  view ∈ Organizers.views -> link ∈ Organizers.links view dashboard x -> is_page true (page_of link) = true.
Proof.
  intros Hv Hl. refine (proj1 (list.Forall_forall (fun l => is_page true (page_of l) = true) _) _ link Hl). clear link Hl.
  unfold Organizers.links, Organizers.shell_links. repeat (apply list.Forall_app; split).
  - by repeat constructor.
  - by repeat constructor.
  - by repeat constructor.
  - repeat (apply elem_of_cons in Hv as [->|Hv]; [by repeat constructor|]). inversion Hv.
  - assert (Hgame : Forall (fun l => is_page true (page_of l) = true) (Organizers.game_links x)).
    { unfold Organizers.game_links, Organizers.incident_links. repeat (apply list.Forall_app; split).
      - destruct (hs_warnings _); [constructor|]. case_bool_decide; by repeat constructor.
      - by repeat constructor.
      - apply list.Forall_forall. intros l Hl. apply list_elem_of_omap in Hl as (alert & _ & Ha).
        unfold operationsAlertAction in Ha. repeat (case_match; [by injection Ha as <-|]). done.
      - by repeat constructor. }
    by destruct (Organizers.tab view) as [[]|].
  - destruct (String.eqb (Organizers.activePath view) "/admin/audit"); [|constructor].
    apply List.Forall_cons; [done|]. apply list.Forall_forall. intros l (f & -> & _)%list_elem_of_fmap.
    unfold buildPageHref, page_of. change ("/admin/audit?" ++ₛ ?s) with ("/admin/audit" ++ₛ String "?" s).
    by rewrite split_on_app.
Qed.

(** A platform that answers a request the same way each time. *)
Lemma steady_run up : (forall t t' r, up t r = up t' r) ->
  forall A (m : Io A) t t', (Io.run up t m).2 = (Io.run up t' m).2.
Proof.
  intros Hup A m. induction m as [a|e|req k IH]; intros t t'; [done..|]. simpl. rewrite (Hup t t' req). apply IH.
Qed.

Section Links.
Variable hmac : list Z -> list Z -> list Z.
Variable json_parse : list Z -> option json.
Variable url_origin : string -> option string.
Context (up : Upstream) (c : Ctx) (b : Browser) (s : ParticipantSession).

Lemma session_of_cookie t t' :
  trimmed (AD_PLATFORM_TEAM_JWT (env c)) = None ->
  Io.run up t (getParticipantSession hmac json_parse c) = (t', Done s) -> authenticated s = true ->
  Io.run up t (organizerSession hmac json_parse c) = (t', Done (s_claims s)).
Proof.
  intros Hd. unfold getParticipantSession, organizerSession. rewrite Hd.
  destruct (trimmed (session_cookie c)) as [token|]; [|by intros [= <- <-]].
  destruct (verify hmac json_parse c token) as [claims|] eqn:Ev; [|by intros [= <- <-]].
  assert (is_empty (secret_of (env c)) = false) as ->.
  { destruct (secret_of (env c)) eqn:E; [|done]. unfold verify, verifyParticipantSessionToken in Ev.
    rewrite E in Ev. by rewrite orb_true_r in Ev. }
  destruct (truthy claims); [|by intros [= <- <-]]. unfold validated_session. rewrite !run_let.
  destruct (Io.run up t (validateParticipantSessionWithAPI (env c) token)) as [u [[v| |]|e]];
    cbn [Io.run]; by intros [= <- <-].
Qed.

(** The platform answers the same each time. *)
Hypothesis steady : forall t t' r, up t r = up t' r.
Hypothesis signed_as : (Io.run up [] (getParticipantSession hmac json_parse c)).2 = Done s.

Lemma session_anywhere u : exists u', Io.run up u (getParticipantSession hmac json_parse c) = (u', Done s).
Proof.
  pose proof (steady_run up steady _ (getParticipantSession hmac json_parse c) [] u) as H. rewrite signed_as in H.
  destruct (Io.run up u _) as [u' o]. exists u'. by f_equal.
Qed.

Lemma role_is_authenticated role : role_of s = Some role -> authenticated s = true.
Proof.
  intros Hr. destruct (session_anywhere []) as (u' & Hrun). pose proof (session_gate _ _ _ _ _ _ _ Hrun) as Hs.
  destruct (authenticated s); [done|]. by destruct Hs as [->| ->].
Qed.

Definition shown_at (path : string) : Prop :=
  forall u, exists u' notice, Io.run up u (visit hmac json_parse url_origin c b path) = (u', Done (Shown notice)).

Lemma open_shown path : path ∈ open_pages -> shown_at path.
Proof.
  intros H u. exists u, false. repeat (apply elem_of_cons in H as [->|H]; [done|]). inversion H.
Qed.

Lemma login_shown : authenticated s = false -> shown_at "/login".
Proof.
  intros Ha u. destruct (session_anywhere u) as (u' & Hr). exists u', (deactivated s).
  change (visit hmac json_parse url_origin c b "/login") with (ParticipantLoginPage hmac json_parse c).
  unfold ParticipantLoginPage. rewrite run_let, Hr. cbn [Io.run]. by rewrite Ha.
Qed.

Lemma layout_shows u : role_of s = Some "organizer" ->
  exists u', Io.run up u (AdminLayout hmac json_parse c) = (u', Done (Shown false)).
Proof.
  intros Hr. destruct (session_anywhere u) as (u' & Hrun). exists u'. unfold AdminLayout. rewrite run_let, Hrun.
  cbn [Io.run]. by rewrite (role_is_authenticated _ Hr), bool_decide_eq_true_2.
Qed.

(** The browser's cookie is what its holder is known by: no token in the environment. *)
Definition by_cookie : Prop := trimmed (AD_PLATFORM_TEAM_JWT (env c)) = None.

Lemma organizer_shown path :
  path ∈ organizer_pages -> by_cookie -> role_of s = Some "organizer" -> shown_at path.
Proof.
  intros Hp Hcookie Hr u. destruct (session_anywhere u) as (u1 & Hrun). destruct (layout_shows u1 Hr) as (u2 & Hl).
  exists u2, false.
  pose proof (session_of_cookie _ _ Hcookie Hrun (role_is_authenticated _ Hr)) as Ho.
  assert (Hv : proxied path = true /\ starts_with "/api/admin/" path = false /\ starts_with "/admin" path = true /\
    page_gate hmac json_parse c path = AdminLayout hmac json_parse c).
  { repeat (apply elem_of_cons in Hp as [->|Hp]; [done|]). inversion Hp. }
  destruct Hv as (Hv & Hapi & Hadm & Hg).
  unfold visit. rewrite Hv, run_let. unfold proxy. cbn [sent_by n_method n_pathname browser_get r_method r_url].
  assert (Hsame : sameOriginBrowserMutation url_origin (sent_by b (browser_get path)) = true) by done.
  rewrite Hsame. cbn [negb]. rewrite run_let, Ho, Hapi, Hadm.
  unfold role_of in Hr. destruct (s_claims s) as [v|]; [|done]. injection Hr as Hr.
  unfold Session.is_organizer. rewrite (proj2 (String.eqb_eq _ _) Hr). cbn [negb Io.run].
  by rewrite Hg.
Qed.

Lemma is_page_shown organizer path :
  (starts_with "/admin" path = true -> by_cookie) ->
  (organizer = true -> role_of s = Some "organizer") -> is_page organizer path = true -> shown_at path.
Proof.
  unfold is_page. intros Hc Hr [H|[-> H]%andb_true_iff]%orb_true_iff; apply is_among_spec in H.
  - by apply open_shown.
  - apply organizer_shown; [done| |auto]. apply Hc.
    repeat (apply elem_of_cons in H as [->|H]; [done|]). inversion H.
Qed.

Context (number_text : num -> string) (router : Router).
Hypothesis texts : forall n, number_or_not (number_text n).
Hypothesis routes : follows_names file_routes router.
Variable api_url realtime_url : string.

Definition loaded (view : Participant.View) (calls : DashboardResultSet) : DashboardData :=
  Participant.load api_url realtime_url view s calls.

(** A link on a page that is shown: any of the participants' pages, to anybody; any of
    the organizers' pages, to an organizer. *)
Inductive linked : string -> Prop :=
| participant_link view calls link :
    view ∈ Participant.views -> link ∈ Participant.links number_text view (loaded view calls) -> linked link
| organizer_link view calls x link :
    view ∈ Organizers.views -> role_of s = Some "organizer" ->
    link ∈ Organizers.links view calls x -> linked (page_of link).

(** A file: a route that exports the method of a link. *)
Definition served_at (path : string) : Prop :=
  exists r, router (segments path) = Some r /\ "GET" ∈ ar_methods r.

(** C20: No link is a dead end.  Of the links that the pages show to somebody, as they were
    loaded, those of the headers, the navigations, the cards, the incidents, the audit log
    and the downloads of the sources, each leads to a page that is shown without a
    redirection, or to a file whose route exists and exports GET.  The platform is
    assumed to answer a request the same way each time, the reader keeps the session they
    had when the links were shown, and for the links under [/admin] that session is the
    one of the browser's cookie, not of a token in the environment. *)
Theorem links_reach_pages path :
  linked path -> (starts_with "/admin" path = true -> by_cookie) -> shown_at path \/ served_at path.
Proof.
  intros [view calls link Hv Hl|view calls x link Hv Hr Hl] Hc.
  - destruct (participant_link_kinds _ _ _ _ Hv Hl) as [Hp|[Hf|[-> Ha]]].
    + left. eapply is_page_shown; [done| |exact Hp]. intros H%bool_decide_eq_true. exact H.
    + right. destruct (file_has_route number_text link texts Hf) as (r & Hr & Hm).
      exists r. split; [by apply routes|done].
    + left. apply login_shown, Ha.
  - left. eapply (is_page_shown true); [done|done|]. by eapply organizer_link_kinds.
Qed.

(** With a token in the environment it is otherwise.  Without a cookie, an organizer known
    by the token of the environment is shown the link to the organizers' pages, but the
    proxy reads the cookie only and sends them to the sign-in page, which takes them for
    signed in and sends them to the services. *)
Lemma organizer_by_token_turned_away view calls u :
  trimmed (session_cookie c) = None -> role_of s = Some "organizer" -> view ∈ Participant.views ->
  "/admin" ∈ Participant.links number_text view (loaded view calls) /\
  exists u', Io.run up u (navigate hmac json_parse url_origin [c; c; c] b "/admin") =
    (u', Done (Some ("/services", Shown false))).
Proof.
  intros Hc Hr Hv. split.
  - unfold Participant.links, Participant.shell_links. apply elem_of_app. left. apply elem_of_app. right.
    right. apply list_elem_of_omap. exists Shell.OrganizerLink. split; [|done].
    unfold Shell.headerActions.
    assert (Ho : Account.role_is "organizer" (dd_platform (loaded view calls)) = true).
    { apply bool_decide_eq_true. exact Hr. }
    rewrite Ho. left.
  - destruct (session_anywhere u) as (u' & Hs). exists u'.
    assert (Hv1 : visit hmac json_parse url_origin c b "/admin" = Ret (Redirected "/login")).
    { unfold visit. change (proxied "/admin") with true. cbv iota. unfold proxy.
      assert (Hsame : sameOriginBrowserMutation url_origin (sent_by b (browser_get "/admin")) = true) by done.
      rewrite Hsame. cbn [negb]. unfold organizerSession. by rewrite Hc. }
    cbn [navigate]. rewrite run_let, Hv1. cbn [Io.run]. rewrite run_let.
    change (visit hmac json_parse url_origin c b "/login") with (ParticipantLoginPage hmac json_parse c).
    unfold ParticipantLoginPage. rewrite run_let, Hs. cbn [Io.run].
    rewrite (role_is_authenticated _ Hr). rewrite run_let. reflexivity.
Qed.
End Links.

(** ** Visitors *)

Module Visitors.

(** What stays empty: the rows of the services and the targets of the dialogs. *)
Definition vacant (c : CenterCell) : CenterCellTy c -> Prop :=
  match c with
  | Rows => fun rows => rows = []
  | UnlockTarget | SessionTarget | ResetTarget => fun target => target = None
  | _ => fun _ => True
  end.

Definition all_vacant (v : Store) : Prop := forall c : CenterCell, vacant c (v c).

Definition keeps_vacant (c : Cell) (f : CellTy c -> CellTy c) : Prop := forall x, vacant c x -> vacant c (f x).

(** A request for the feed of attacks, or none. *)
Definition reads_feed (o : Op (app := ControlCenterApp)) : Prop :=
  match o with
  | OpFetch req _ => exists query, req = browser_get ("/api/platform/attacks" ++ₛ query)
  | _ => True
  end.

Notation quiet m := (spec keeps_vacant reads_feed any any m).

Lemma all_vacant_upd c f (s : Store) : keeps_vacant c f -> all_vacant s -> all_vacant (upd c f s).
Proof.
  intros Hf Hs c'. destruct (decide (c = c')) as [<-|Hn]; [|by rewrite upd_other].
  rewrite upd_same. apply Hf, Hs.
Qed.

Lemma all_vacant_commit s : all_vacant s -> all_vacant (sync_refs s).
Proof. by apply all_vacant_upd. Qed.

Lemma quiet_action key fallback body : quiet body -> quiet (ControlCenter.action key fallback body).
Proof.
  intros H. do 2 (split; [done|]). apply spec_finally; [|by split].
  eapply spec_catch; [exact H|]. by split.
Qed.

Lemma quiet_clear : quiet clearAttackHighlights.
Proof. intros [timer|]; by repeat split. Qed.

Lemma quiet_schedule ids : quiet (scheduleAttackHighlights ids).
Proof. intros [timer|]; by repeat split. Qed.

Lemma quiet_refresh silent filters : quiet (refreshAttackFeed silent filters).
Proof.
  unfold refreshAttackFeed. set (body := bind _ _).
  assert (H : quiet body).
  { unfold body. eapply spec_bind; [apply spec_fetch_payload; by eexists|]. intros payload _.
    eapply spec_bind; [apply quiet_clear|]. by split. }
  destruct silent; [|by apply quiet_action]. by eapply spec_catch.
Qed.

(** What is done about a service. *)
Definition acts (event : Event) : bool :=
  match event with
  | EvRequestUnlock | EvRequestSSHSession | EvRequestFactoryReset | EvRequestRestart _
  | EvSelectPrimary _ | EvSelectReset _ => true
  | _ => false
  end.

Definition without_rows (options : ControlCenterOptions) : Prop := cc_services options = [].

Section Page.
Context (number_text : num -> string) (localeCompare : string -> string -> Z) (api_url realtime_url : string).

Lemma quiet_handle v event :
  acts event = false -> (forall options, event = EvProps options -> without_rows options) ->
  quiet (handle number_text v event).
Proof.
  intros Ha Hp. destruct event as [| | |service| | |direction|field value|value|service|service| | | |data|data| |options|];
    try discriminate Ha; cbn [ControlCenter.handle].
  - split; [done|]. apply quiet_refresh.
  - split; [done|]. apply quiet_refresh.
  - split; [done|]. apply quiet_refresh.
  - by split.
  - by split.
  - by split.
  - by repeat split.
  - by split.
  - unfold onScoreboard. destruct (is_empty _); [exact I|]. destruct data; by repeat split.
  - unfold onAttacks. destruct (is_empty _); [exact I|]. intros page.
    cbn [bind]. case_match; [|exact I]. match goal with |- context [let (_, _) := ?x in _] => destruct x as [merged ids] end.
    apply spec_bind with (Q := any); [by split|]. intros _ _.
    destruct ids as [|id ids]; [exact I|]. eapply spec_bind; [apply quiet_schedule|]. by repeat split.
  - by repeat split.
  - split; [done|]. split; [|by split]. intros rows _. exact (Hp options eq_refl).
  - by repeat split.
Qed.

Lemma nothing_offered p v events event :
  all_vacant v -> offers localeCompare p v events -> event ∈ events -> acts event = false /\ background event = false.
Proof.
  intros Hv Ho Hin. pose proof (requests_gated localeCompare p v events event Ho Hin) as Hg.
  pose proof (Hv Rows) as Hrows. pose proof (Hv UnlockTarget) as Hunlock.
  pose proof (Hv SessionTarget) as Hsession. pose proof (Hv ResetTarget) as Hreset.
  cbn in Hrows, Hunlock, Hsession, Hreset.
  destruct event; try done; cbn [gate] in Hg; exfalso; revert Hg; rewrite ?Hrows, ?Hunlock, ?Hsession, ?Hreset.
  - by intros [].
  - by intros [].
  - by intros [].
  - intros (_ & H & _). inversion H.
  - intros (_ & H & _). inversion H.
  - intros (_ & H & _). inversion H.
Qed.

(** The props of a page loaded for somebody without a team. *)
Definition teamless (view : Participant.View) (options : ControlCenterOptions) : Prop :=
  exists session calls, has_team session = false /\
    options = Participant.center_options (Participant.load api_url realtime_url view session calls).

Lemma teamless_rows view options : teamless view options -> without_rows options.
Proof.
  intros (session & calls & Ht & ->). unfold without_rows, Participant.center_options, Participant.load, loadDashboardData.
  cbn [cc_services dd_services]. unfold fetchDashboardResults. by rewrite Ht.
Qed.

Context (view : Participant.View).

(** What a participant does in the control centre, what happens in it by itself, where the refreshes of
    the router load the page again for somebody without a team, and the session that the
    dialog asks for. *)
Definition visitor_events (v : Store) (m : Prog unit) : Prop :=
  (exists p events, Participant.tab view = Some (initialTab p) /\ offers localeCompare p v events /\ m = handle_all number_text v events) \/
  (exists event, background event = true /\ (forall options, event = EvProps options -> teamless view options) /\
     m = handle number_text v event) \/
  (exists triggered, dialog_asks v triggered = true /\ m = handle number_text v EvRequestSSHSession).

Lemma visitor_quiet v m : all_vacant v -> visitor_events v m -> quiet m.
Proof.
  intros Hv [(p & events & _ & Ho & ->)|[(event & Hb & Hp & ->)|(triggered & Ha & _)]].
  - assert (H : Forall (fun event => acts event = false /\ background event = false) events).
    { apply list.Forall_forall. intros event Hin. by eapply nothing_offered. }
    clear Ho. induction H as [|event events [Hact Hb] _ IH]; [exact I|]. eapply spec_bind; [|intros _ _; exact IH].
    apply quiet_handle; [exact Hact|]. by intros options ->.
  - apply quiet_handle; [by destruct event|]. intros options E. by eapply teamless_rows, Hp.
  - exfalso. unfold dialog_asks, ssh_dialog_effects in Ha.
    pose proof (Hv SessionTarget) as Hs. cbn in Hs. rewrite Hs in Ha. by destruct (busy v), triggered.
Qed.

End Page.
End Visitors.

(** ** Concrete checks *)

Section Witnesses.
Let session : ParticipantSession :=
  match (Io.run organizer_up [] (getParticipantSession sample_hmac sample_parse sample_ctx)).2 with
  | Done s => s
  | Thrown _ => no_session
  end.
Let offline : DashboardResultSet :=
  let e := OtherError "offline" in
  mkDashboardResultSet (Thrown e) (Thrown e) (Thrown e) (Thrown e) (Thrown e) (Thrown e) (Thrown e).

(** An organizer follows the link of the header, from the page of the services. *)
Lemma links_reach_pages_witness :
  trimmed (AD_PLATFORM_TEAM_JWT (env sample_ctx)) = None /\
  (shown_at sample_hmac sample_parse (fun _ => None) organizer_up sample_ctx sample_browser "/admin" \/
   served_at (route_at file_routes) "/admin").
Proof.
  split; [reflexivity|].
  apply (links_reach_pages sample_hmac sample_parse (fun _ => None) organizer_up sample_ctx sample_browser session
    ltac:(reflexivity) ltac:(vm_compute; reflexivity) no_text (route_at file_routes)
    ltac:(intros n; left; split; reflexivity) ltac:(intros path r H; exact H) "" "" "/admin").
  - apply (participant_link _ _ _ _ Participant.ServicesPage offline).
    + do 2 right. left.
    + do 5 apply list_elem_of_further. apply list_elem_of_here.
  - reflexivity.
Defined.

End Witnesses.
